(** * PCBSchemaGen topology verifier: a shallow embedding of [src/task/topo]

    The Python modules of the verification pipeline are transcribed as Rocq
    functions over records that mirror the snapshot and knowledge-graph JSON.

    Conventions of the embedding.
    - A Python [str] is a [string], one character for each of its code
      points, which are taken to be ASCII (below 128).  On such text [upper],
      [strip] and [isdigit] are Python's.  Python's versions also act on
      letters, digits and spaces beyond ASCII, which the embedding does not
      cover.  Part ids, pin ids and pin roles come from the part library; the
      name of a net is free-form, so a statement that characterises a test on
      the upper-cased name or on the digits of the names of nets carries the
      hypothesis that these names are ASCII ([isascii]).
    - A Python [set] is a duplicate-free list in insertion order
      ([ListSet] over [string_dec]).  Python leaves the iteration order of a
      set unspecified, so results about sets are stated through membership,
      or do not depend on the order; where a loop over a set decides which
      message comes first, the embedding follows insertion order.
    - A Python [dict] that is iterated is an association list in insertion
      order; a [dict] that is only looked up is an association list as well.
    - [None] is [option]'s [None]; Python truthiness of an optional string is
      [truthy]. *)

From Stdlib Require Import String Ascii List ListSet Bool Arith ZArith Lia.
From Stdlib Require Import Decimal DecimalString DecimalNat Permutation Sorted.
Import ListNotations.
Open Scope string_scope.
Open Scope list_scope.
Open Scope nat_scope.

(* ================================================================== *)
(** ** Python string and container primitives *)
(* ================================================================== *)

Module Py.

(** [c.isspace()] on ASCII: TAB..CR, FS..US and the space. *)
Definition is_space (c : ascii) : bool :=
  let n := nat_of_ascii c in
  ((9 <=? n) && (n <=? 13)) || ((28 <=? n) && (n <=? 32)).

Fixpoint lstrip (s : string) : string :=
  match s with
  | EmptyString => EmptyString
  | String c r => if is_space c then lstrip r else s
  end.

Fixpoint rev_onto (s acc : string) : string :=
  match s with
  | EmptyString => acc
  | String c r => rev_onto r (String c acc)
  end.

Definition rev (s : string) : string := rev_onto s EmptyString.

Definition rstrip (s : string) : string := rev (lstrip (rev s)).

(** [s.strip()] *)
Definition strip (s : string) : string := rstrip (lstrip s).

(** [s.isascii()]: every character is below 128. *)
Fixpoint isascii (s : string) : bool :=
  match s with
  | EmptyString => true
  | String c r => (nat_of_ascii c <? 128) && isascii r
  end.

Definition upper_ascii (c : ascii) : ascii :=
  let n := nat_of_ascii c in
  if (97 <=? n) && (n <=? 122) then ascii_of_nat (n - 32) else c.

(** [s.upper()] of an ASCII string ([isascii]): the letters [a-z] become
    [A-Z].  Python also maps letters beyond ASCII, which are outside the
    embedding. *)
Fixpoint upper (s : string) : string :=
  match s with
  | EmptyString => EmptyString
  | String c r => String (upper_ascii c) (upper r)
  end.

(** [needle in hay] for two strings. *)
Fixpoint contains (needle hay : string) : bool :=
  String.prefix needle hay
  || match hay with
     | EmptyString => false
     | String _ r => contains needle r
     end.

(** [s.startswith(p)] *)
Definition startswith (s p : string) : bool := String.prefix p s.

(** [s[:1]] *)
Definition first1 (s : string) : string :=
  match s with
  | EmptyString => EmptyString
  | String c _ => String c EmptyString
  end.

Definition is_digit (c : ascii) : bool :=
  let n := nat_of_ascii c in (48 <=? n) && (n <=? 57).

Fixpoint all_digits (s : string) : bool :=
  match s with
  | EmptyString => true
  | String c r => is_digit c && all_digits r
  end.

(** [s.isdigit()] of an ASCII string ([isascii]): non-empty and only the
    digits [0-9].  Python also accepts digits beyond ASCII, which are
    outside the embedding. *)
Definition isdigit (s : string) : bool :=
  match s with
  | EmptyString => false
  | _ => all_digits s
  end.

(** [str(n)] for a non-negative integer. *)
Definition str_of_nat (n : nat) : string := NilEmpty.string_of_uint (Nat.to_uint n).

(** Truthiness of an optional string: [None] and [""] are falsy. *)
Definition truthy (o : option string) : bool :=
  match o with
  | Some (String _ _) => true
  | _ => false
  end.

(** [x or ""] *)
Definition or_empty (o : option string) : string :=
  match o with
  | Some s => s
  | None => ""
  end.

(** [a == b] on optional strings. *)
Definition opt_eqb (a b : option string) : bool :=
  match a, b with
  | Some x, Some y => String.eqb x y
  | None, None => true
  | _, _ => false
  end.

(** [x in (a, b, ...)] / [x in s] for strings. *)
Definition mem (x : string) (l : list string) : bool :=
  existsb (String.eqb x) l.

(** [any(p in s for p in patterns)] *)
Definition any_contains (patterns : list string) (s : string) : bool :=
  existsb (fun p => contains p s) patterns.

(** [sorted(l)] for strings: insertion sort on the byte order, which is the
    code-point order Python uses. *)
Fixpoint insert_sorted (x : string) (l : list string) : list string :=
  match l with
  | [] => [x]
  | y :: r => if String.leb x y then x :: l else y :: insert_sorted x r
  end.

Definition sorted (l : list string) : list string :=
  fold_right insert_sorted [] l.

(** Python sets of strings. *)
Definition strset := set string.

Definition set_of_list (l : list string) : strset :=
  fold_left (fun acc x => set_add string_dec x acc) l (empty_set string).

(** Ordered dictionaries with string keys. *)
Definition dict (V : Type) := list (string * V).

Fixpoint dict_get {V} (d : dict V) (k : string) : option V :=
  match d with
  | [] => None
  | (k', v) :: r => if String.eqb k k' then Some v else dict_get r k
  end.

Definition dict_has {V} (d : dict V) (k : string) : bool :=
  match dict_get d k with Some _ => true | None => false end.

(** [d[k] = f(d.get(k, default))], a new key going last. *)
Fixpoint dict_update {V} (d : dict V) (k : string) (default : V) (f : V -> V) : dict V :=
  match d with
  | [] => [(k, f default)]
  | (k', v) :: r =>
      if String.eqb k k' then (k', f v) :: r
      else (k', v) :: dict_update r k default f
  end.

(** [d.setdefault(k, []).append(x)] *)
Definition dict_append {V} (d : dict (list V)) (k : string) (x : V) : dict (list V) :=
  dict_update d k [] (fun l => l ++ [x]).

Definition dquote : string := String (ascii_of_nat 34) EmptyString.
Definition squote : string := String (ascii_of_nat 39) EmptyString.

Definition hex_digit (n : nat) : ascii :=
  if n <? 10 then ascii_of_nat (48 + n) else ascii_of_nat (87 + n).

(** The escape Python's [repr] writes for one byte inside quotes [q]. *)
Definition repr_char (q : ascii) (c : ascii) : string :=
  let n := nat_of_ascii c in
  if Ascii.eqb c q then String (ascii_of_nat 92) (String c EmptyString)
  else if n =? 92 then String c (String c EmptyString)
  else if n =? 10 then String (ascii_of_nat 92) "n"
  else if n =? 13 then String (ascii_of_nat 92) "r"
  else if n =? 9 then String (ascii_of_nat 92) "t"
  else if (n <? 32) || (n =? 127) then
    String (ascii_of_nat 92)
      (String "x" (String (hex_digit (n / 16)) (String (hex_digit (n mod 16)) EmptyString)))
  else String c EmptyString.

Fixpoint repr_body (q : ascii) (s : string) : string :=
  match s with
  | EmptyString => EmptyString
  | String c r => repr_char q c ++ repr_body q r
  end.

(** [repr(s)]: single quotes unless the string holds a single quote and no
    double quote. *)
Definition repr_str (s : string) : string :=
  if contains squote s && negb (contains dquote s)
  then dquote ++ repr_body (ascii_of_nat 34) s ++ dquote
  else squote ++ repr_body (ascii_of_nat 39) s ++ squote.

(** [str(l)] for a list of strings. *)
Definition repr_list (l : list string) : string :=
  "[" ++ String.concat ", " (map repr_str l) ++ "]".

End Py.

(* ================================================================== *)
(** ** Data model: snapshot and knowledge graph *)
(* ================================================================== *)

(** A pin of a component.  [net] is [None] for an unconnected pin;
    [pin_role] is filled by augmentation. *)
Record Pin := mkPin {
  pin_id : string;
  pin_name : string;
  net : option string;
  pin_role : option string
}.

Record Component := mkComponent {
  ref : string;
  part_id : string;
  value : option string;
  category : option string;
  pins : list Pin
}.

(** A net endpoint; [ep_pin_role] and [ep_component_category] are filled by
    augmentation. *)
Record NetEndpoint := mkNetEndpoint {
  ep_ref : string;
  ep_pin_id : string;
  ep_pin_name : string;
  ep_pin_role : option string;
  ep_component_category : option string
}.

Record Net := mkNet {
  name : string;
  endpoints : list NetEndpoint
}.

Record Snapshot := mkSnapshot {
  components : list Component;
  nets : list Net
}.

(** A pin key of the knowledge graph's [primary_pins]/[secondary_pins]:
    a JSON number or a JSON string. *)
Inductive PinKey :=
| PinInt (n : Z)
| PinStr (s : string).

(** A generic constraint of a knowledge-graph entry, by its ["type"]. *)
Inductive GenericConstraint :=
| MustBeConnected (pins_ : list PinKey)
| SupplyPair (vdd_pin gnd_pin : PinKey)
| DifferentialPairMustBeDistinct (pins_ : list PinKey)
| DrivingPair (gate_pin source_pin : PinKey)
| OtherConstraint (type_ : string).

(** One entry of [kg_component.json]. *)
Record KGEntry := mkKGEntry {
  kg_category : option string;
  kg_pin_roles : Py.dict string;
  kg_generic_constraints : list GenericConstraint;
  isolation_boundary : bool;
  primary_pins : list PinKey;
  secondary_pins : list PinKey
}.

(** [KGStore]: the base component table (only its category is read) and the
    knowledge-graph overlay, both keyed by part id. *)
Record KGStore := mkKGStore {
  component_map : Py.dict (option string);
  kg_component_map : Py.dict KGEntry
}.

(* ================================================================== *)
(** ** kg_loader.py *)
(* ================================================================== *)

Definition _normalize_part_id (part_id : string) : string := Py.strip part_id.

Definition get_component (kg : KGStore) (part_id : string) : option KGEntry :=
  Py.dict_get (kg_component_map kg) (_normalize_part_id part_id).

Definition get_component_info (kg : KGStore) (part_id : string) : option (option string) :=
  Py.dict_get (component_map kg) (_normalize_part_id part_id).

Definition get_category (kg : KGStore) (part_id : string) : option string :=
  let from_kg :=
    match get_component kg part_id with
    | Some comp => if Py.truthy (kg_category comp) then kg_category comp else None
    | None => None
    end in
  match from_kg with
  | Some c => Some c
  | None =>
      match get_component_info kg part_id with
      | Some cat => if Py.truthy cat then cat else None
      | None => None
      end
  end.

Definition get_pin_roles (kg : KGStore) (part_id : string) : Py.dict string :=
  match get_component kg part_id with
  | Some comp => kg_pin_roles comp
  | None => []
  end.

Definition get_constraints (kg : KGStore) (part_id : string) : list GenericConstraint :=
  match get_component kg part_id with
  | Some comp => kg_generic_constraints comp
  | None => []
  end.

Definition passive_letters : list string := ["R"; "C"; "L"; "D"].

Definition infer_category (part_id ref : string) (kg_store : option KGStore) : string :=
  let part_id := _normalize_part_id part_id in
  let from_store :=
    match kg_store with
    | Some kg => get_category kg part_id
    | None => None
    end in
  match from_store with
  | Some c => c
  | None =>
      let ref_prefix := Py.upper (Py.first1 (Py.strip ref)) in
      if Py.mem part_id passive_letters then "passive"
      else if Py.mem ref_prefix passive_letters then "passive"
      else if Py.contains "MOSFET" (Py.upper part_id) || String.eqb ref_prefix "Q" then "MOSFET"
      else "unknown"
  end.

(* ================================================================== *)
(** ** build_topology.py *)
(* ================================================================== *)

Definition augment_pin (pin_roles : Py.dict string) (p : Pin) : Pin :=
  let role :=
    match Py.dict_get pin_roles (pin_id p) with
    | Some r => Some r
    | None => Py.dict_get pin_roles (pin_name p)
    end in
  mkPin (pin_id p) (pin_name p) (net p) role.

Definition augment_component (kg_store : option KGStore) (c : Component) : Component :=
  let cat := infer_category (part_id c) (ref c) kg_store in
  let pin_roles :=
    match kg_store with
    | Some kg => get_pin_roles kg (part_id c)
    | None => []
    end in
  mkComponent (ref c) (part_id c) (value c) (Some cat) (map (augment_pin pin_roles) (pins c)).

(** The inner loop of [_lookup_pin_role]: the first pin whose id or name
    matches decides. *)
Fixpoint find_pin_role (ps : list Pin) (pid pname : string) : option (option string) :=
  match ps with
  | [] => None
  | p :: r =>
      if String.eqb (pin_id p) pid && String.eqb (pin_name p) pname then Some (pin_role p)
      else if String.eqb (pin_id p) pid then Some (pin_role p)
      else if String.eqb (pin_name p) pname then Some (pin_role p)
      else find_pin_role r pid pname
  end.

Fixpoint _lookup_pin_role (comps : list Component) (r pid pname : string) : option string :=
  match comps with
  | [] => None
  | c :: rest =>
      if negb (String.eqb (ref c) r) then _lookup_pin_role rest r pid pname
      else
        match find_pin_role (pins c) pid pname with
        | Some role => role
        | None => _lookup_pin_role rest r pid pname
        end
  end.

Fixpoint _lookup_component_category (comps : list Component) (r : string) : option string :=
  match comps with
  | [] => None
  | c :: rest =>
      if String.eqb (ref c) r then category c
      else _lookup_component_category rest r
  end.

Definition augment_endpoint (comps : list Component) (ep : NetEndpoint) : NetEndpoint :=
  mkNetEndpoint (ep_ref ep) (ep_pin_id ep) (ep_pin_name ep)
    (_lookup_pin_role comps (ep_ref ep) (ep_pin_id ep) (ep_pin_name ep))
    (_lookup_component_category comps (ep_ref ep)).

Definition augment_net (comps : list Component) (n : Net) : Net :=
  mkNet (name n) (map (augment_endpoint comps) (endpoints n)).

(** [augment_snapshot]: the first loop rewrites every component, the second
    reads the rewritten components to annotate the net endpoints. *)
Definition augment_snapshot (snapshot : Snapshot) (kg_store : option KGStore) : Snapshot :=
  let comps := map (augment_component kg_store) (components snapshot) in
  mkSnapshot comps (map (augment_net comps) (nets snapshot)).

(* ================================================================== *)
(** ** isolation_domain.py *)
(* ================================================================== *)

Module PySet.
Definition add (x : string) (s : Py.strset) : Py.strset := set_add string_dec x s.
Definition mem (x : string) (s : Py.strset) : bool := set_mem string_dec x s.
Definition union (a b : Py.strset) : Py.strset := set_union string_dec a b.
Definition diff (a b : Py.strset) : Py.strset := set_diff string_dec a b.
Definition inter (a b : Py.strset) : Py.strset := set_inter string_dec a b.
End PySet.

(** The digits of a Python integer literal accepted by [int(str)]: a digit
    first, then digits with single underscores between them. *)
Fixpoint int_digits (s : string) (acc : Z) (after_underscore : bool) : option Z :=
  match s with
  | EmptyString => if after_underscore then None else Some acc
  | String c r =>
      if Py.is_digit c
      then int_digits r (acc * 10 + Z.of_nat (nat_of_ascii c - 48))%Z false
      else if Ascii.eqb c "_" && negb after_underscore then int_digits r acc true
      else None
  end.

Definition int_unsigned (s : string) : option Z :=
  match s with
  | String c _ => if Py.is_digit c then int_digits s 0%Z false else None
  | EmptyString => None
  end.

(** [int(s)] for a string: [None] stands for [ValueError]. *)
Definition parse_int (s : string) : option Z :=
  match Py.strip s with
  | String "+" r => int_unsigned r
  | String "-" r => option_map Z.opp (int_unsigned r)
  | t => int_unsigned t
  end.

Definition str_of_Z (n : Z) : string :=
  if (n <? 0)%Z then "-" ++ Py.str_of_nat (Z.to_nat (- n)) else Py.str_of_nat (Z.to_nat n).

Definition str_of_pinkey (k : PinKey) : string :=
  match k with
  | PinInt n => str_of_Z n
  | PinStr s => s
  end.

(** [_pin_in_set]: the integer reading of the pin id is tried first; only
    when [int] raises is the comparison made on strings. *)
Definition _pin_in_set (pin : string) (pin_set : list PinKey) : bool :=
  match parse_int pin with
  | Some n =>
      existsb (fun k => match k with PinInt m => Z.eqb n m | PinStr _ => false end) pin_set
  | None => existsb (fun k => String.eqb pin (str_of_pinkey k)) pin_set
  end.

Record IsoComponent := mkIsoComponent {
  iso_ref : string;
  iso_part_id : string;
  iso_primary_pins : list PinKey;
  iso_secondary_pins : list PinKey;
  iso_pins : list Pin
}.

Definition iso_component_of (kg_store : option KGStore) (comp : Component) : option IsoComponent :=
  match kg_store with
  | None => None
  | Some kg =>
      match get_component kg (part_id comp) with
      | Some info =>
          if isolation_boundary info
          then Some (mkIsoComponent (ref comp) (part_id comp)
                       (primary_pins info) (secondary_pins info) (pins comp))
          else None
      | None => None
      end
  end.

Fixpoint _find_isolation_components (comps : list Component) (kg_store : option KGStore)
  : list IsoComponent :=
  match comps with
  | [] => []
  | comp :: rest =>
      match iso_component_of kg_store comp with
      | Some ic => ic :: _find_isolation_components rest kg_store
      | None => _find_isolation_components rest kg_store
      end
  end.

(** The net adjacency: net name -> set of neighbouring net names. *)
Definition NetGraph := Py.dict Py.strset.

Definition neighbours (g : NetGraph) (n : string) : Py.strset :=
  match Py.dict_get g n with
  | Some s => s
  | None => []
  end.

(** [g.setdefault(a, set()).add(b); g.setdefault(b, set()).add(a)] *)
Definition connect (g : NetGraph) (a b : string) : NetGraph :=
  let g1 := Py.dict_update g a [] (PySet.add b) in
  Py.dict_update g1 b [] (PySet.add a).

(** [for i, net1 in enumerate(nets): for net2 in nets[i+1:]: connect] *)
Fixpoint connect_all (g : NetGraph) (ns : list string) : NetGraph :=
  match ns with
  | [] => g
  | net1 :: rest => connect_all (fold_left (fun g' net2 => connect g' net1 net2) rest g) rest
  end.

(** The first loop of [_build_net_graph]: one (empty) adjacency per net and
    the pins of every component, [ref -> [(pin_id, net_name)]]. *)
Definition collect_net (st : NetGraph * Py.dict (list (string * string))) (n : Net)
  : NetGraph * Py.dict (list (string * string)) :=
  let '(g, comp_pins) := st in
  let g' := if Py.dict_has g (name n) then g else g ++ [(name n, [])] in
  (g', fold_left (fun cp ep => Py.dict_append cp (ep_ref ep) (ep_pin_id ep, name n))
         (endpoints n) comp_pins).

(** [iso_refs = {ic['ref']: ic for ic in iso_components}]: the last
    component of a reference wins. *)
Fixpoint iso_refs_get (ics : list IsoComponent) (r : string) : option IsoComponent :=
  match ics with
  | [] => None
  | ic :: rest =>
      match iso_refs_get rest r with
      | Some later => Some later
      | None => if String.eqb (iso_ref ic) r then Some ic else None
      end
  end.

Definition connect_component (ics : list IsoComponent) (g : NetGraph)
  (entry : string * list (string * string)) : NetGraph :=
  let '(r, ps) := entry in
  match iso_refs_get ics r with
  | Some ic =>
      let primary_nets :=
        map snd (filter (fun pn => _pin_in_set (fst pn) (iso_primary_pins ic)) ps) in
      let secondary_nets :=
        map snd (filter (fun pn => _pin_in_set (fst pn) (iso_secondary_pins ic)) ps) in
      connect_all (connect_all g primary_nets) secondary_nets
  | None => connect_all g (map snd ps)
  end.

Definition _build_net_graph (snapshot : Snapshot) (ics : list IsoComponent) : NetGraph :=
  let '(g, comp_pins) := fold_left collect_net (nets snapshot) ([], []) in
  fold_left (connect_component ics) comp_pins g.

(** The loop of [_bfs_connected_nets].  [fuel] bounds the number of
    iterations; [None] means the bound was reached. *)
Fixpoint bfs_loop (fuel : nat) (g : NetGraph) (queue : list string) (visited : Py.strset)
  : option Py.strset :=
  match fuel with
  | 0 => None
  | S fuel' =>
      match queue with
      | [] => Some visited
      | n :: q =>
          if PySet.mem n visited then bfs_loop fuel' g q visited
          else
            let visited' := PySet.add n visited in
            bfs_loop fuel' g
              (q ++ filter (fun nb => negb (PySet.mem nb visited')) (neighbours g n))
              visited'
      end
  end.

(** Total size of the adjacency sets: every iteration either drops a queue
    entry or marks a net and pushes at most its neighbours. *)
Definition graph_size (g : NetGraph) : nat :=
  fold_right (fun e acc => length (snd e) + acc) 0 g.

Definition bfs_fuel (g : NetGraph) (start : list string) : nat :=
  S (length start + graph_size g).

(** [_bfs_connected_nets].  The iteration bound [bfs_fuel] is never reached
    ([bfs_loop_terminates]), so the [None] branch is dead. *)
Definition _bfs_connected_nets (start_nets : Py.strset) (g : NetGraph) : Py.strset :=
  match bfs_loop (bfs_fuel g start_nets) g start_nets [] with
  | Some visited => visited
  | None => []
  end.

Definition anchor_patterns : list string :=
  ["VIN"; "VBUS"; "VCC"; "V12"; "V5"; "GND_PRI"; "PGND"].

Definition primary_start_nets (ns : list Net) : Py.strset :=
  let anchored :=
    fold_left
      (fun acc n =>
         if Py.any_contains anchor_patterns (Py.upper (name n))
         then PySet.add (name n) acc else acc)
      ns [] in
  let with_vin :=
    match anchored with
    | [] =>
        match find (fun n => Py.contains "VIN" (Py.upper (name n))) ns with
        | Some n => PySet.add (name n) []
        | None => []
        end
    | _ => anchored
    end in
  match with_vin, ns with
  | [], n :: _ => PySet.add (name n) []
  | _, _ => with_vin
  end.

Definition _find_primary_domain (snapshot : Snapshot) (g : NetGraph) (ics : list IsoComponent)
  : Py.strset :=
  _bfs_connected_nets (primary_start_nets (nets snapshot)) g.

Definition secondary_start_nets (ic : IsoComponent) (all_visited : Py.strset) : Py.strset :=
  fold_left
    (fun acc p =>
       if _pin_in_set (pin_id p) (iso_secondary_pins ic) then
         match net p with
         | Some net_name =>
             if Py.truthy (Some net_name) && negb (PySet.mem net_name all_visited)
             then PySet.add net_name acc else acc
         | None => acc
         end
       else acc)
    (iso_pins ic) [].

(** One iteration of the loop of [_find_secondary_domains]; the state is
    [(secondary_domains, all_visited)]. *)
Definition secondary_step (g : NetGraph) (st : list Py.strset * Py.strset) (ic : IsoComponent)
  : list Py.strset * Py.strset :=
  let '(secondary_domains, all_visited) := st in
  match secondary_start_nets ic all_visited with
  | [] => st
  | sec_start_nets =>
      let domain := PySet.diff (_bfs_connected_nets sec_start_nets g) all_visited in
      match domain with
      | [] => st
      | _ => (secondary_domains ++ [domain], PySet.union all_visited domain)
      end
  end.

Definition _find_secondary_domains (snapshot : Snapshot) (g : NetGraph)
  (ics : list IsoComponent) (primary_nets : Py.strset) : list Py.strset :=
  fst (fold_left (secondary_step g) ics ([], primary_nets)).

Record Domains := mkDomains {
  primary : Py.strset;
  secondary : list Py.strset
}.

Definition identify_isolation_domains (snapshot : Snapshot) (kg_store : option KGStore)
  : Domains :=
  match _find_isolation_components (components snapshot) kg_store with
  | [] => mkDomains (Py.set_of_list (map name (nets snapshot))) []
  | iso_components =>
      let net_graph := _build_net_graph snapshot iso_components in
      let primary_nets := _find_primary_domain snapshot net_graph iso_components in
      let secondary_domains :=
        _find_secondary_domains snapshot net_graph iso_components primary_nets in
      mkDomains primary_nets secondary_domains
  end.

Fixpoint secondary_index (net_name : string) (ds : list Py.strset) (i : nat) : option nat :=
  match ds with
  | [] => None
  | d :: rest => if PySet.mem net_name d then Some i else secondary_index net_name rest (S i)
  end.

Definition get_net_domain (net_name : string) (domains : Domains) : string :=
  if PySet.mem net_name (primary domains) then "primary"
  else
    match secondary_index net_name (secondary domains) 0 with
    | Some i => "secondary_" ++ Py.str_of_nat i
    | None => "unknown"
    end.

Definition is_nc (o : option string) : bool :=
  negb (Py.truthy o) || Py.opt_eqb o (Some "NC").

(** The primary-side and secondary-side net sets of one boundary component. *)
Definition side_nets (ic : IsoComponent) : Py.strset * Py.strset :=
  fold_left
    (fun st p =>
       match net p with
       | Some net_name =>
           if is_nc (Some net_name) then st
           else if _pin_in_set (pin_id p) (iso_primary_pins ic)
           then (PySet.add net_name (fst st), snd st)
           else if _pin_in_set (pin_id p) (iso_secondary_pins ic)
           then (fst st, PySet.add net_name (snd st))
           else st
       | None => st
       end)
    (iso_pins ic) ([], []).

Definition boundary_violations (ic : IsoComponent) : list string :=
  let '(primary_nets, secondary_nets) := side_nets ic in
  map (fun n =>
         (iso_ref ic ++ ": Net '" ++ n ++ "' connects both primary and secondary sides "
          ++ "(isolation barrier violation)")%string)
      (PySet.inter primary_nets secondary_nets).

Definition check_isolation_boundary_violations (snapshot : Snapshot)
  (kg_store : option KGStore) : list string :=
  flat_map boundary_violations (_find_isolation_components (components snapshot) kg_store).

(* ================================================================== *)
(** ** net_conflict_checker.py *)
(* ================================================================== *)

Definition has_secondary (domains : Domains) : bool :=
  match secondary domains with
  | [] => false
  | _ => true
  end.

Definition net_conflict_message (net_name first_domain domain : string) : string :=
  "NET CONFLICT: '" ++ net_name ++ "' appears in both " ++ first_domain ++ " "
  ++ "and " ++ domain ++ " domains. This may cause unintended short circuit.".

(** One iteration of the loop of [_check_cross_domain_nets]; the state is
    [(net_domains, errors)]. *)
Definition cross_domain_step (domains : Domains) (st : Py.dict string * list string) (n : Net)
  : Py.dict string * list string :=
  let '(net_domains, errors) := st in
  let net_name := name n in
  let domain := get_net_domain net_name domains in
  match Py.dict_get net_domains net_name with
  | Some recorded =>
      if negb (String.eqb recorded domain)
      then (net_domains, errors ++ [net_conflict_message net_name recorded domain])
      else st
  | None => (net_domains ++ [(net_name, domain)], errors)
  end.

Definition _check_cross_domain_nets (snapshot : Snapshot) (domains : Domains) : list string :=
  if negb (has_secondary domains) then []
  else snd (fold_left (cross_domain_step domains) (nets snapshot) ([], [])).

Definition is_gnd_like (n : Net) : bool :=
  let net_name := Py.upper (name n) in
  Py.contains "GND" net_name || String.eqb net_name "VSS".

Definition _check_gnd_naming (snapshot : Snapshot) (domains : Domains) : list string :=
  if negb (has_secondary domains) then []
  else
    let num_domains := 1 + length (secondary domains) in
    let gnd_nets := map name (filter is_gnd_like (nets snapshot)) in
    let unique_gnds := Py.set_of_list gnd_nets in
    if length unique_gnds <? num_domains then
      [("GND NAMING WARNING: Circuit has " ++ Py.str_of_nat num_domains ++ " isolation domains "
        ++ "but only " ++ Py.str_of_nat (length unique_gnds) ++ " unique GND net(s): "
        ++ Py.repr_list (Py.sorted unique_gnds) ++ ". "
        ++ "Consider using distinct names like GND_PRI, GND_SEC1, GND_SEC2.")%string]
    else [].

Definition RESERVED_PATTERNS : list string := ["GND"; "VCC"; "VDD"; "VSS"; "VEE"; "VBUS"].

(** The per-pattern map [domain -> net names] that
    [_check_reserved_name_conflicts] builds. *)
Definition reserved_domain_map (snapshot : Snapshot) (domains : Domains) (pattern : string)
  : Py.dict (list string) :=
  let matching_nets :=
    map name (filter (fun n => Py.contains pattern (Py.upper (name n))) (nets snapshot)) in
  fold_left (fun m net_name => Py.dict_append m (get_net_domain net_name domains) net_name)
    matching_nets [].

(** [_check_reserved_name_conflicts]: the body of the final [if] is [pass],
    so no pattern ever adds an error. *)
Definition _check_reserved_name_conflicts (snapshot : Snapshot) (domains : Domains)
  : list string :=
  if negb (has_secondary domains) then []
  else
    flat_map
      (fun pattern =>
         if 1 <? length (reserved_domain_map snapshot domains pattern) then [] else [])
      RESERVED_PATTERNS.

(** [s.rsplit(sep, 1)] when [sep] occurs: the parts before and after the
    last occurrence. *)
Fixpoint rsplit1 (sep : ascii) (s : string) : option (string * string) :=
  match s with
  | EmptyString => None
  | String c r =>
      match rsplit1 sep r with
      | Some (a, b) => Some (String c a, b)
      | None => if Ascii.eqb c sep then Some (EmptyString, r) else None
      end
  end.

Definition instance_step (base_names : Py.dict (list (string * bool))) (n : Net)
  : Py.dict (list (string * bool)) :=
  let net_name := name n in
  match rsplit1 "_" net_name with
  | Some (base, suffix) =>
      if Py.isdigit suffix then Py.dict_append base_names base (net_name, true)
      else Py.dict_append base_names net_name (net_name, false)
  | None => Py.dict_append base_names net_name (net_name, false)
  end.

Definition instance_warning (entry : string * list (string * bool)) : list string :=
  let '(base, instances) := entry in
  let has_suffix := existsb (fun i => snd i) instances in
  let no_suffix := existsb (fun i => negb (snd i)) instances in
  if has_suffix && no_suffix then
    [("INSTANCE NAMING WARNING: Net '" ++ base ++ "' exists both with and without "
      ++ "numeric suffixes: " ++ Py.repr_list (Py.sorted (map fst instances))
      ++ ". This may indicate incomplete " ++ "multi-instance naming.")%string]
  else [].

Definition _check_instance_conflicts (snapshot : Snapshot) : list string :=
  flat_map instance_warning (fold_left instance_step (nets snapshot) []).

Definition check_net_conflicts (snapshot : Snapshot) (kg_store : option KGStore)
  : list string :=
  let domains := identify_isolation_domains snapshot kg_store in
  _check_cross_domain_nets snapshot domains
  ++ _check_gnd_naming snapshot domains
  ++ _check_reserved_name_conflicts snapshot domains
  ++ _check_instance_conflicts snapshot.

Definition looks_like_mosfet (comp : Component) : bool :=
  let p := Py.upper (part_id comp) in
  Py.contains "MOSFET" p || Py.startswith p "IM" || Py.startswith p "BSC".

(** The gate-net bookkeeping of [check_mosfet_net_conflicts]:
    [net -> refs of the MOSFETs whose gate is on it]. *)
Definition gate_nets_step (ref_ : string) (gate_nets : Py.dict (list string)) (p : Pin)
  : Py.dict (list string) :=
  match net p with
  | Some n =>
      if is_nc (Some n) then gate_nets
      else if Py.opt_eqb (pin_role p) (Some "mosfet_gate")
      then Py.dict_append gate_nets n ref_
      else gate_nets
  | None => gate_nets
  end.

Definition gate_warning (entry : string * list string) : list string :=
  let '(n, refs) := entry in
  if 2 <? length refs then
    [("GATE NET WARNING: Net '" ++ n ++ "' connects to " ++ Py.str_of_nat (length refs)
      ++ " MOSFET gates: " ++ Py.repr_list refs ++ ". This may indicate unintended parallel "
      ++ "connection or " ++ "missing numeric suffix for multi-half-bridge design.")%string]
  else [].

Definition check_mosfet_net_conflicts (snapshot : Snapshot) : list string :=
  let mosfets := filter looks_like_mosfet (components snapshot) in
  let gate_nets :=
    fold_left (fun g m => fold_left (gate_nets_step (ref m)) (pins m) g) mosfets [] in
  flat_map gate_warning gate_nets.

(* ================================================================== *)
(** ** complex_task_validator.py *)
(* ================================================================== *)

(** The validator is a sequence of calls into the stage modules.  Each call
    is an event of a small free monad, so that which stages run, and in
    which order, is part of the model. *)
Inductive StageCall :=
| CallPhase2 (snapshot : Snapshot) (kg_store : option KGStore) (task_id : Z)
| CallIsolationBoundary (snapshot : Snapshot) (kg_store : option KGStore)
| CallNetConflicts (snapshot : Snapshot) (kg_store : option KGStore)
| CallInterfaces (snapshot : Snapshot) (kg_store : option KGStore)
| CallSystemTopology (snapshot : Snapshot) (task_id : Z) (kg_store : option KGStore)
| CallMosfetNetConflicts (snapshot : Snapshot).

Inductive Pipeline (A : Type) : Type :=
| Return (a : A)
| Invoke (c : StageCall) (k : list string -> Pipeline A).

Arguments Return {A} a.
Arguments Invoke {A} c k.

Notation "x <- c ;; k" := (Invoke c (fun x => k))
  (at level 61, c at next level, right associativity).

(** [for err in stage_errors: (warnings if 'WARNING' in err else errors).append(err)] *)
Definition divert_warnings (stage_errors : list string) (st : list string * list string)
  : list string * list string :=
  fold_left
    (fun '(errors, warnings) err =>
       if Py.contains "WARNING" err then (errors, warnings ++ [err])
       else (errors ++ [err], warnings))
    stage_errors st.

Definition validate_complex_task (snapshot : Snapshot) (task_id : Z)
  (kg_store : option KGStore) : Pipeline (bool * list string * list string) :=
  let errors := [] in
  let warnings := [] in
  phase2_errors <- CallPhase2 snapshot kg_store task_id ;;
  let errors := errors ++ phase2_errors in
  match phase2_errors with
  | _ :: _ => Return (false, errors, warnings)
  | [] =>
      iso_errors <- CallIsolationBoundary snapshot kg_store ;;
      let errors := errors ++ iso_errors in
      net_errors <- CallNetConflicts snapshot kg_store ;;
      let '(errors, warnings) := divert_warnings net_errors (errors, warnings) in
      interface_errors <- CallInterfaces snapshot kg_store ;;
      let errors := errors ++ interface_errors in
      system_errors <- CallSystemTopology snapshot task_id kg_store ;;
      let errors := errors ++ system_errors in
      mosfet_errors <- CallMosfetNetConflicts snapshot ;;
      let '(errors, warnings) := divert_warnings mosfet_errors (errors, warnings) in
      let passed := match errors with [] => true | _ => false end in
      Return (passed, errors, warnings)
  end.

(** Running a pipeline against an implementation of the stages: the value
    returned and the calls made, in order. *)
Fixpoint run {A} (stage : StageCall -> list string) (p : Pipeline A) : A :=
  match p with
  | Return a => a
  | Invoke c k => run stage (k (stage c))
  end.

Fixpoint calls {A} (stage : StageCall -> list string) (p : Pipeline A) : list StageCall :=
  match p with
  | Return _ => []
  | Invoke c k => c :: calls stage (k (stage c))
  end.

Section Stages.

(** The stages that live in other modules are parameters of the
    interpretation: Phase 2 ([phase2_checks.run_phase2_checks], embedded
    further down), the interface checker
    ([interface_checker.check_interfaces]) and the system topology
    verifier ([system_topology_checker.check_system_topology]). *)
Variable run_phase2_checks : Snapshot -> option KGStore -> Z -> list string.
Variable check_interfaces : Snapshot -> option KGStore -> list string.
Variable check_system_topology : Snapshot -> Z -> option KGStore -> list string.

Definition stage_impl (c : StageCall) : list string :=
  match c with
  | CallPhase2 s kg t => run_phase2_checks s kg t
  | CallIsolationBoundary s kg => check_isolation_boundary_violations s kg
  | CallNetConflicts s kg => check_net_conflicts s kg
  | CallInterfaces s kg => check_interfaces s kg
  | CallSystemTopology s t kg => check_system_topology s t kg
  | CallMosfetNetConflicts s => check_mosfet_net_conflicts s
  end.

End Stages.

(* ================================================================== *)
(** ** Specification vocabulary *)
(* ================================================================== *)

(** Adjacency entries still to be expanded: those of unvisited nets. *)
Definition unvisited_size (g : NetGraph) (visited : Py.strset) : nat :=
  fold_right
    (fun e acc => (if PySet.mem (fst e) visited then 0 else length (snd e)) + acc) 0 g.

(** The names of the nets of a snapshot. *)
Definition net_names (snapshot : Snapshot) : list string := map name (nets snapshot).

(** A component whose knowledge-graph entry carries [isolation_boundary]. *)
Definition carries_isolation_boundary (kg_store : option KGStore) (comp : Component) : Prop :=
  exists kg info,
    kg_store = Some kg
    /\ get_component kg (part_id comp) = Some info
    /\ isolation_boundary info = true.

Definition disjoint_sets (a b : Py.strset) : Prop :=
  forall x, In x a -> In x b -> False.

(** The isolation partition invariant: the primary set and the secondary
    sets are pairwise disjoint, and all of them hold names of nets of the
    snapshot. *)
Definition pairwise_disjoint_domains (d : Domains) : Prop :=
  ForallOrdPairs disjoint_sets (primary d :: secondary d).

Definition domains_within_nets (snapshot : Snapshot) (d : Domains) : Prop :=
  forall dom x, In dom (primary d :: secondary d) -> In x dom -> In x (net_names snapshot).

Definition isolation_partition (snapshot : Snapshot) (d : Domains) : Prop :=
  pairwise_disjoint_domains d /\ domains_within_nets snapshot d.

(** Every connected pin of a component sits on a net that the snapshot
    lists.  [extract_skidl_design.snapshot_from_circuit] builds [nets] from
    the pins (each net name of a pin is entered with [nets_map.setdefault]),
    so the snapshots it produces satisfy this. *)
Definition pins_on_listed_nets (snapshot : Snapshot) : Prop :=
  forall comp p n,
    In comp (components snapshot) -> In p (pins comp) -> net p = Some n ->
    n <> EmptyString -> In n (net_names snapshot).

(** The entries of a stage's output that the validator treats as warnings,
    and those it keeps as errors. *)
Definition is_warning (err : string) : bool := Py.contains "WARNING" err.
Definition errors_only (l : list string) : list string :=
  filter (fun err => negb (is_warning err)) l.
Definition warnings_only (l : list string) : list string := filter is_warning l.

Definition passed_flag (errors : list string) : bool :=
  match errors with
  | [] => true
  | _ => false
  end.

(** The error list the claim describes for a run that gets past Phase 2:
    only the net-conflict output has its warnings diverted. *)
Definition claimed_errors (iso net iface sys mosfet : list string) : list string :=
  iso ++ errors_only net ++ iface ++ sys ++ mosfet.

(** The error list with the MOSFET net-conflict output filtered as well. *)
Definition pipeline_errors (iso net iface sys mosfet : list string) : list string :=
  iso ++ errors_only net ++ iface ++ sys ++ errors_only mosfet.

(* ================================================================== *)
(** ** passive_collapse.py (classification) *)
(* ================================================================== *)

(** [classify_passive]: ["R"], ["C"], ["L"], ["D"] or [None]. *)
Definition classify_passive (component : Component) : option string :=
  let part := Py.strip (part_id component) in
  let r := Py.strip (ref component) in
  if Py.mem part passive_letters then Some part
  else if negb (Py.opt_eqb (category component) (Some "passive")) then None
  else
    let prefix := Py.upper (Py.first1 r) in
    if Py.mem prefix passive_letters then Some prefix else None.

Definition is_passive_of (passive_type : string) (component : Component) : bool :=
  Py.opt_eqb (classify_passive component) (Some passive_type).

(** [{pin.get("net") for pin in comp.get("pins", []) if pin.get("net")}] *)
Definition component_net_set (comp : Component) : Py.strset :=
  fold_left
    (fun acc p =>
       match net p with
       | Some n => if Py.truthy (Some n) then PySet.add n acc else acc
       | None => acc
       end)
    (pins comp) [].

(* ================================================================== *)
(** ** The passive-induced components (rule_extractor.py, rule_checker.py) *)
(* ================================================================== *)

(** Both modules carry the same [_passive_net_components]: a bipartite
    graph between ["comp:<ref>"] and ["net:<name>"] nodes restricted to one
    passive type, and a depth-first sweep collecting the nets of each
    connected component. *)
Definition comp_node (r : string) : string := "comp:" ++ r.
Definition net_node (n : string) : string := "net:" ++ n.

(** [graph[a].add(b)] on a [defaultdict(set)] *)
Definition graph_add (g : NetGraph) (a b : string) : NetGraph :=
  Py.dict_update g a [] (PySet.add b).

Definition passive_graph_pin (cnode : string) (g : NetGraph) (p : Pin) : NetGraph :=
  match net p with
  | Some n =>
      if Py.truthy (Some n)
      then graph_add (graph_add g cnode (net_node n)) (net_node n) cnode
      else g
  | None => g
  end.

Definition passive_graph (snapshot : Snapshot) (passive_type : string) : NetGraph :=
  fold_left
    (fun g comp =>
       if is_passive_of passive_type comp
       then fold_left (passive_graph_pin (comp_node (ref comp))) (pins comp) g
       else g)
    (components snapshot) [].

(** [cur[4:]] *)
Fixpoint drop (k : nat) (s : string) : string :=
  match k, s with
  | S k', String _ r => drop k' r
  | _, _ => s
  end.

(** [for nb in graph.get(cur, []): if nb in visited: continue;
     visited.add(nb); stack.append(nb)].  The head of the list is the top of
    the stack. *)
Definition dfs_push (st : list string * Py.strset) (nb : string) : list string * Py.strset :=
  let '(stack, visited) := st in
  if PySet.mem nb visited then st else (nb :: stack, PySet.add nb visited).

(** The [while stack:] loop; [None] when [fuel] iterations did not empty
    the stack. *)
Fixpoint dfs_loop (fuel : nat) (g : NetGraph) (stack : list string)
  (visited nets_ : Py.strset) : option (Py.strset * Py.strset) :=
  match fuel with
  | 0 => None
  | S fuel' =>
      match stack with
      | [] => Some (visited, nets_)
      | cur :: rest =>
          let nets' := if Py.startswith cur "net:" then PySet.add (drop 4 cur) nets_ else nets_ in
          let '(stack', visited') := fold_left dfs_push (neighbours g cur) (rest, visited) in
          dfs_loop fuel' g stack' visited' nets'
      end
  end.

(** All nodes of a graph: keys and neighbours. *)
Definition graph_nodes (g : NetGraph) : list string :=
  flat_map (fun e => fst e :: snd e) g.

(** Every node is pushed at most once, so the loop runs at most once per
    node ([dfs_loop_terminates]). *)
Definition dfs_fuel (g : NetGraph) : nat := S (S (length (graph_nodes g))).

(** One iteration of [for node in list(graph)]; the state is
    [(visited, components)].  When the sweep of a component hits the
    iteration bound, which never happens, the component is dropped. *)
Definition sweep_step (g : NetGraph) (st : Py.strset * list Py.strset) (node : string)
  : Py.strset * list Py.strset :=
  let '(visited, comps) := st in
  if PySet.mem node visited then st
  else
    match dfs_loop (dfs_fuel g) g [node] (PySet.add node visited) [] with
    | Some (visited', []) => (visited', comps)
    | Some (visited', nets_) => (visited', comps ++ [nets_])
    | None => st
    end.

Definition _passive_net_components (snapshot : Snapshot) (passive_type : string)
  : list Py.strset :=
  let g := passive_graph snapshot passive_type in
  snd (fold_left (sweep_step g) (map fst g) ([], [])).

(* ================================================================== *)
(** ** Rules and endpoint descriptors *)
(* ================================================================== *)

Record RuleEndpoint := mkRuleEndpoint {
  re_part_id : option string;
  re_category : option string;
  re_pin_role : option string;
  re_pin_id : option string;
  re_pin_name : option string;
  re_domain : option string
}.

Record Rule := mkRule {
  rule_type : string;
  endpoint_a : RuleEndpoint;
  endpoint_b : RuleEndpoint;
  allow_series : bool;
  min_count : nat;
  fail_on_short : bool
}.

(** [_endpoint_signature] of the extractor, which is also [_endpoint_key]
    of the checker. *)
Definition EndpointKey := (string * string * string * string * string)%type.

Definition _endpoint_signature (e : RuleEndpoint) : EndpointKey :=
  (Py.or_empty (re_part_id e), Py.or_empty (re_category e), Py.or_empty (re_pin_role e),
   Py.or_empty (re_pin_id e), Py.or_empty (re_pin_name e)).

Definition key_eqb (a b : EndpointKey) : bool :=
  let '(a1, a2, a3, a4, a5) := a in
  let '(b1, b2, b3, b4, b5) := b in
  String.eqb a1 b1 && String.eqb a2 b2 && String.eqb a3 b3
  && String.eqb a4 b4 && String.eqb a5 b5.

(** [{x, y} == {p, q}] for the role pairs the code compares as sets. *)
Definition role_set_is (x y : option string) (p q : string) : bool :=
  (Py.opt_eqb x (Some p) && Py.opt_eqb y (Some q))
  || (Py.opt_eqb x (Some q) && Py.opt_eqb y (Some p)).

(* ================================================================== *)
(** ** rule_extractor.py *)
(* ================================================================== *)

Definition UCC21710_ID : string := "UCC21710".

Definition UCC21710_PRIMARY_PIN_NAMES : list string :=
  ["GND"; "IN+"; "IN-"; "RDY"; "~{FLT}"; "~{RST}/EN"; "VCC"; "APWM"].

Definition UCC21710_SECONDARY_PIN_NAMES : list string :=
  ["AIN"; "OC"; "COM"; "OUTH"; "VDD"; "OUTL"; "CLMPI"; "VEE"].

(** [int(s)] for a string of digits. *)
Fixpoint nat_of_digits (s : string) (acc : nat) : nat :=
  match s with
  | EmptyString => acc
  | String c r => nat_of_digits r (acc * 10 + (nat_of_ascii c - 48))
  end.

Definition _ucc21710_domain (pid pname : string) : option string :=
  let by_number :=
    if Py.isdigit pid then
      let pin_num := nat_of_digits pid 0 in
      if (1 <=? pin_num) && (pin_num <=? 8) then Some "secondary"
      else if (9 <=? pin_num) && (pin_num <=? 16) then Some "primary"
      else None
    else None in
  match by_number with
  | Some d => Some d
  | None =>
      if Py.mem pname UCC21710_PRIMARY_PIN_NAMES then Some "primary"
      else if Py.mem pname UCC21710_SECONDARY_PIN_NAMES then Some "secondary"
      else None
  end.

(** The endpoint descriptor [_collect_net_endpoints] writes for one pin. *)
Definition endpoint_of_pin (comp : Component) (p : Pin) : RuleEndpoint :=
  mkRuleEndpoint (Some (part_id comp)) (category comp) (pin_role p)
    (Some (pin_id p)) (Some (pin_name p))
    (if String.eqb (part_id comp) UCC21710_ID
     then _ucc21710_domain (pin_id p) (pin_name p) else None).

Definition collect_pin (comp : Component) (m : Py.dict (list RuleEndpoint)) (p : Pin)
  : Py.dict (list RuleEndpoint) :=
  match net p with
  | Some n => if Py.truthy (Some n) then Py.dict_append m n (endpoint_of_pin comp p) else m
  | None => m
  end.

Definition _collect_net_endpoints (snapshot : Snapshot) : Py.dict (list RuleEndpoint) :=
  fold_left
    (fun m comp =>
       if Py.opt_eqb (category comp) (Some "passive") then m
       else fold_left (collect_pin comp) (pins comp) m)
    (components snapshot) [].

(** [_component_nets]: the distinct nets of the connected pins. *)
Definition _component_nets (comp : Component) : list string :=
  filter (fun n => Py.truthy (Some n)) (component_net_set comp).

(** The sort key of the extractor's [_endpoint_key]: endpoints with a pin
    role come first. *)
Definition endpoint_sort_key (e : RuleEndpoint) : nat * list string :=
  (if Py.truthy (re_pin_role e) then 0 else 1,
   [Py.or_empty (re_part_id e); Py.or_empty (re_category e); Py.or_empty (re_pin_role e);
    Py.or_empty (re_pin_id e); Py.or_empty (re_pin_name e); Py.or_empty (re_domain e)]).

Fixpoint strings_compare (a b : list string) : comparison :=
  match a, b with
  | [], [] => Eq
  | [], _ :: _ => Lt
  | _ :: _, [] => Gt
  | x :: a', y :: b' =>
      match String.compare x y with
      | Eq => strings_compare a' b'
      | c => c
      end
  end.

Definition sort_key_ltb (k1 k2 : nat * list string) : bool :=
  match Nat.compare (fst k1) (fst k2) with
  | Lt => true
  | Gt => false
  | Eq => match strings_compare (snd k1) (snd k2) with Lt => true | _ => false end
  end.

(** [sorted(endpoints, key=_endpoint_key)[0]]: the first endpoint of least
    key (the sort is stable). *)
Fixpoint least_endpoint (best : RuleEndpoint) (rest : list RuleEndpoint) : RuleEndpoint :=
  match rest with
  | [] => best
  | e :: rest' =>
      if sort_key_ltb (endpoint_sort_key e) (endpoint_sort_key best)
      then least_endpoint e rest' else least_endpoint best rest'
  end.

Definition _pick_endpoint (eps : option (list RuleEndpoint)) : option RuleEndpoint :=
  match eps with
  | Some (e :: rest) => Some (least_endpoint e rest)
  | _ => None
  end.

Definition _is_ucc21710_rdy_gnd (a b : RuleEndpoint) : bool :=
  (Py.opt_eqb (re_pin_name a) (Some "RDY") && Py.opt_eqb (re_pin_role b) (Some "supply_gnd"))
  || (Py.opt_eqb (re_pin_name b) (Some "RDY") && Py.opt_eqb (re_pin_role a) (Some "supply_gnd")).

Definition name_among (x : string) (a b : RuleEndpoint) : bool :=
  Py.opt_eqb (re_pin_name a) (Some x) || Py.opt_eqb (re_pin_name b) (Some x).

Definition _is_ucc21710_rst_en_gnd (a b : RuleEndpoint) : bool :=
  if negb (name_among "~{RST}/EN" a b) then false
  else name_among "IN-" a b || name_among "GND" a b.

Definition _should_skip_rule (rtype : string) (a b : RuleEndpoint) : bool :=
  if negb (Py.opt_eqb (re_part_id a) (Some UCC21710_ID))
     || negb (Py.opt_eqb (re_part_id b) (Some UCC21710_ID)) then false
  else if Py.truthy (re_domain a) && Py.truthy (re_domain b)
          && negb (Py.opt_eqb (re_domain a) (re_domain b)) then true
  else if String.eqb rtype "C_DIRECT" && _is_ucc21710_rdy_gnd a b then true
  else if String.eqb rtype "C_DIRECT" && _is_ucc21710_rst_en_gnd a b then true
  else if String.eqb rtype "C_DIRECT"
          && role_set_is (re_pin_role a) (re_pin_role b) "logic_in" "logic_out" then true
  else if String.eqb rtype "R_PATH"
          && role_set_is (re_pin_role a) (re_pin_role b) "supply_gnd" "supply_vdd" then true
  else false.

(** [_rule_key]: the rule type and the unordered pair of signatures. *)
Definition RuleKey := (string * EndpointKey * EndpointKey)%type.

Definition rule_key_eqb (k1 k2 : RuleKey) : bool :=
  let '(t1, a1, b1) := k1 in
  let '(t2, a2, b2) := k2 in
  String.eqb t1 t2
  && ((key_eqb a1 a2 && key_eqb b1 b2) || (key_eqb a1 b2 && key_eqb b1 a2)).

Definition _rule_key (rtype : string) (a b : RuleEndpoint) : RuleKey :=
  (rtype, _endpoint_signature a, _endpoint_signature b).

(** [_add_rule] on the state [(rules, seen)]. *)
Definition _add_rule (st : list Rule * list RuleKey) (rtype : string)
  (a b : RuleEndpoint) (series : bool) : list Rule * list RuleKey :=
  let '(rules, seen) := st in
  if _should_skip_rule rtype a b then st
  else
    let key := _rule_key rtype a b in
    if existsb (rule_key_eqb key) seen then st
    else (rules ++ [mkRule rtype a b series 1 true], seen ++ [key]).

(** [net_a, net_b = sorted(nets)] for a two-element list. *)
Definition sorted_pair (nets_ : list string) : option (string * string) :=
  match Py.sorted nets_ with
  | [a; b] => Some (a, b)
  | _ => None
  end.

Definition capacitor_rule_step (net_endpoints : Py.dict (list RuleEndpoint))
  (st : list Rule * list RuleKey) (comp : Component) : list Rule * list RuleKey :=
  if negb (is_passive_of "C" comp) then st
  else
    match sorted_pair (_component_nets comp) with
    | None => st
    | Some (net_a, net_b) =>
        match _pick_endpoint (Py.dict_get net_endpoints net_a),
              _pick_endpoint (Py.dict_get net_endpoints net_b) with
        | Some ep_a, Some ep_b => _add_rule st "C_DIRECT" ep_a ep_b false
        | _, _ => st
        end
    end.

(** [itertools.combinations(l, 2)] *)
Fixpoint combinations2 {A} (l : list A) : list (A * A) :=
  match l with
  | [] => []
  | x :: rest => map (pair x) rest ++ combinations2 rest
  end.

(** [[(net, ep) for net in sorted(nets) if (ep := pick(net))]] *)
Definition component_endpoints (net_endpoints : Py.dict (list RuleEndpoint))
  (nets_ : Py.strset) : list (string * RuleEndpoint) :=
  flat_map
    (fun n =>
       match _pick_endpoint (Py.dict_get net_endpoints n) with
       | Some ep => [(n, ep)]
       | None => []
       end)
    (Py.sorted nets_).

Definition path_rule_step (net_endpoints : Py.dict (list RuleEndpoint)) (rtype : string)
  (st : list Rule * list RuleKey) (nets_ : Py.strset) : list Rule * list RuleKey :=
  fold_left
    (fun st' pr => _add_rule st' rtype (snd (fst pr)) (snd (snd pr)) true)
    (combinations2 (component_endpoints net_endpoints nets_)) st.

Definition build_rules (snapshot : Snapshot) : list Rule :=
  let net_endpoints := _collect_net_endpoints snapshot in
  let st := fold_left (capacitor_rule_step net_endpoints) (components snapshot) ([], []) in
  let st := fold_left (path_rule_step net_endpoints "R_PATH")
              (_passive_net_components snapshot "R") st in
  let st := fold_left (path_rule_step net_endpoints "L_PATH")
              (_passive_net_components snapshot "L") st in
  fst st.

(* ================================================================== *)
(** ** rule_checker.py *)
(* ================================================================== *)

(** A [frozenset([a, b])] of two nets is an unordered pair. *)
Definition pair_eqb (a b : string) (p : string * string) : bool :=
  (String.eqb (fst p) a && String.eqb (snd p) b)
  || (String.eqb (fst p) b && String.eqb (snd p) a).

Definition pair_mem (a b : string) (pairs : list (string * string)) : bool :=
  existsb (pair_eqb a b) pairs.

Definition _capacitor_pairs (snapshot : Snapshot) : list (string * string) :=
  fold_left
    (fun pairs comp =>
       if negb (is_passive_of "C" comp) then pairs
       else
         match sorted_pair (component_net_set comp) with
         | None => pairs
         | Some (net_a, net_b) =>
             if String.eqb net_a net_b then pairs
             else if pair_mem net_a net_b pairs then pairs
             else pairs ++ [(net_a, net_b)]
         end)
    (components snapshot) [].

(** A filter of [_resolve_endpoint_nets]: a falsy field of the descriptor
    filters nothing. *)
Definition field_rejects (field : option string) (actual : option string) : bool :=
  Py.truthy field && negb (Py.opt_eqb actual (Some (Py.or_empty field))).

Definition resolve_pins (e : RuleEndpoint) (full : bool) (acc : Py.strset) (ps : list Pin)
  : Py.strset :=
  fold_left
    (fun acc p =>
       if field_rejects (re_pin_role e) (pin_role p) then acc
       else if full && field_rejects (re_pin_id e) (Some (pin_id p)) then acc
       else if full && field_rejects (re_pin_name e) (Some (pin_name p)) then acc
       else
         match net p with
         | Some n => if Py.truthy (Some n) then PySet.add n acc else acc
         | None => acc
         end)
    ps acc.

(** The body of [_resolve_endpoint_nets] past the cache lookup. *)
Definition resolve_endpoint (snapshot : Snapshot) (e : RuleEndpoint) : Py.strset :=
  let nets_ :=
    fold_left
      (fun acc comp =>
         if field_rejects (re_part_id e) (Some (part_id comp)) then acc
         else if negb (Py.truthy (re_part_id e))
                 && field_rejects (re_category e) (category comp) then acc
         else resolve_pins e true acc (pins comp))
      (components snapshot) [] in
  match nets_ with
  | [] =>
      if Py.truthy (re_part_id e) && Py.truthy (re_category e) then
        fold_left
          (fun acc comp =>
             if negb (Py.opt_eqb (category comp) (Some (Py.or_empty (re_category e))))
             then acc
             else resolve_pins e false acc (pins comp))
          (components snapshot) []
      else nets_
  | _ => nets_
  end.

Definition EndpointCache := list (EndpointKey * Py.strset).

Fixpoint cache_get (cache : EndpointCache) (k : EndpointKey) : option Py.strset :=
  match cache with
  | [] => None
  | (k', v) :: rest => if key_eqb k k' then Some v else cache_get rest k
  end.

Definition _resolve_endpoint_nets (snapshot : Snapshot) (e : RuleEndpoint)
  (cache : EndpointCache) : Py.strset * EndpointCache :=
  let key := _endpoint_signature e in
  match cache_get cache key with
  | Some nets_ => (nets_, cache)
  | None =>
      let nets_ := resolve_endpoint snapshot e in
      (nets_, cache ++ [(key, nets_)])
  end.

Definition has_role (rule : Rule) (role : string) : bool :=
  Py.opt_eqb (re_pin_role (endpoint_a rule)) (Some role)
  || Py.opt_eqb (re_pin_role (endpoint_b rule)) (Some role).

Definition _rule_has_buck_en (rule : Rule) : bool := has_role rule "buck_en".

Definition _rule_has_role_pair (rule : Rule) (role_a role_b : string) : bool :=
  has_role rule role_a && has_role rule role_b.

Definition _is_mosfet_source_drain_cap_rule (rule : Rule) : bool :=
  if negb (String.eqb (rule_type rule) "C_DIRECT") then false
  else role_set_is (re_pin_role (endpoint_a rule)) (re_pin_role (endpoint_b rule))
         "mosfet_source" "mosfet_drain".

Definition _endpoint_desc (e : RuleEndpoint) : string :=
  let part :=
    if Py.truthy (re_part_id e) then Py.or_empty (re_part_id e)
    else if Py.truthy (re_category e) then Py.or_empty (re_category e)
    else "component" in
  let details :=
    (if Py.truthy (re_pin_id e) then [Py.or_empty (re_pin_id e)] else [])
    ++ (if Py.truthy (re_pin_name e) then [Py.or_empty (re_pin_name e)] else []) in
  if Py.truthy (re_pin_role e) then
    match details with
    | [] => part ++ ":" ++ Py.or_empty (re_pin_role e)
    | _ => part ++ ":" ++ Py.or_empty (re_pin_role e)
           ++ "(" ++ String.concat ", " details ++ ")"
    end
  else
    match details with
    | [] => part ++ ":pin"
    | _ => part ++ ":" ++ String.concat ", " details
    end.

Definition _is_ucc21710_gate_short (rtype : string) (a b : RuleEndpoint) : bool :=
  if negb (String.eqb rtype "R_PATH") then false
  else if negb (Py.opt_eqb (re_part_id a) (Some "UCC21710"))
          || negb (Py.opt_eqb (re_part_id b) (Some "UCC21710")) then false
  else
    let has r := Py.opt_eqb (re_pin_role a) (Some r) || Py.opt_eqb (re_pin_role b) (Some r) in
    if negb (has "sense_minus") then false
    else has "out_plus" || has "out_minus".

Definition _is_ucc27511_out_pair (rtype : string) (a b : RuleEndpoint) : bool :=
  if negb (String.eqb rtype "R_PATH") then false
  else if negb (Py.opt_eqb (re_part_id a) (Some "UCC27511"))
          || negb (Py.opt_eqb (re_part_id b) (Some "UCC27511")) then false
  else role_set_is (re_pin_role a) (re_pin_role b) "out_plus" "out_minus".

Definition _nets_connected (net_a net_b : string) (comps : list Py.strset) : bool :=
  existsb (fun nets_ => PySet.mem net_a nets_ && PySet.mem net_b nets_) comps.

Definition _has_nonshort_pair (nets_a nets_b : Py.strset) : bool :=
  existsb (fun a => existsb (fun b => negb (String.eqb a b)) nets_b) nets_a.

Definition _first_common (nets_a nets_b : Py.strset) : option string :=
  find (fun n => PySet.mem n nets_b) nets_a.

(** The double loop shared by [_check_cap_rule] and [_check_path_rule]:
    [Linked] is the early [return True, False, None]; otherwise the loop
    ends with the [shorted] flag. *)
Inductive PairScan :=
| Scanning (shorted : bool)
| Linked.

Definition scan_pair (linked : string -> string -> bool) (net_a : string)
  (st : PairScan) (net_b : string) : PairScan :=
  match st with
  | Linked => Linked
  | Scanning shorted =>
      if String.eqb net_a net_b then Scanning true
      else if linked net_a net_b then Linked
      else Scanning shorted
  end.

Definition scan_pairs (linked : string -> string -> bool) (nets_a nets_b : Py.strset)
  : PairScan :=
  fold_left (fun st net_a => fold_left (scan_pair linked net_a) nets_b st)
    nets_a (Scanning false).

Definition check_pair_rule (linked : string -> string -> bool) (nets_a nets_b : Py.strset)
  : bool * bool * option string :=
  match scan_pairs linked nets_a nets_b with
  | Linked => (true, false, None)
  | Scanning shorted =>
      if shorted && negb (_has_nonshort_pair nets_a nets_b)
      then (false, true, _first_common nets_a nets_b)
      else (false, false, None)
  end.

Definition _check_cap_rule (nets_a nets_b : Py.strset) (cap_pairs : list (string * string))
  : bool * bool * option string :=
  check_pair_rule (fun a b => pair_mem a b cap_pairs) nets_a nets_b.

Definition _check_path_rule (nets_a nets_b : Py.strset) (comps : list Py.strset)
  : bool * bool * option string :=
  check_pair_rule (fun a b => _nets_connected a b comps) nets_a nets_b.

Definition str_of_option (o : option string) : string :=
  match o with
  | Some s => s
  | None => "None"
  end.

Definition endpoint_missing_message (rtype : string) (a b : RuleEndpoint) : string :=
  rtype ++ " endpoint missing: " ++ _endpoint_desc a ++ " or " ++ _endpoint_desc b.

Definition ucc21710_message : string :=
  "UCC21710: OUTH (pin 4) and OUTL (pin 6) must each go through "
  ++ "separate series resistors to the GATE net; CLMPI (pin 7) may "
  ++ "connect to GATE. Do not tie OUTH/OUTL directly to CLMPI/GATE.".

Definition shorted_message (rtype : string) (a b : RuleEndpoint) (pair_ : option string)
  : string :=
  rtype ++ " shorted between " ++ _endpoint_desc a ++ " and "
  ++ _endpoint_desc b ++ " (net " ++ str_of_option pair_ ++ ")".

Definition missing_message (rtype : string) (a b : RuleEndpoint) (nets_a nets_b : Py.strset)
  : string :=
  rtype ++ " missing between " ++ _endpoint_desc a ++ " and "
  ++ _endpoint_desc b ++ " (nets " ++ Py.repr_list (Py.sorted nets_a)
  ++ " vs " ++ Py.repr_list (Py.sorted nets_b) ++ ")".

Definition task_is (task_id : option Z) (n : Z) : bool :=
  match task_id with
  | Some t => Z.eqb t n
  | None => false
  end.

(** The waivers at the head of the loop body of [check_rules]. *)
Definition rule_waived (task_id : option Z) (rule : Rule) : bool :=
  (task_is task_id 6 && _rule_has_buck_en rule)
  || (task_is task_id 6 && _rule_has_role_pair rule "buck_vin" "buck_gnd")
  || (task_is task_id 6 && _rule_has_role_pair rule "buck_vin" "buck_fb")
  || _is_mosfet_source_drain_cap_rule rule.

Definition is_empty (s : Py.strset) : bool :=
  match s with
  | [] => true
  | _ => false
  end.

(** One iteration of [for rule in rules]; the state is
    [(errors, endpoint_cache)]. *)
Definition check_rule (snapshot : Snapshot) (task_id : option Z)
  (cap_pairs : list (string * string)) (r_components l_components : list Py.strset)
  (st : list string * EndpointCache) (rule : Rule) : list string * EndpointCache :=
  let '(errors, cache) := st in
  if rule_waived task_id rule then st
  else
    let rtype := rule_type rule in
    let ep_a := endpoint_a rule in
    let ep_b := endpoint_b rule in
    let '(nets_a, cache) := _resolve_endpoint_nets snapshot ep_a cache in
    let '(nets_b, cache) := _resolve_endpoint_nets snapshot ep_b cache in
    if is_empty nets_a || is_empty nets_b
    then (errors ++ [endpoint_missing_message rtype ep_a ep_b], cache)
    else
      let verdict :=
        if String.eqb rtype "C_DIRECT" then Some (_check_cap_rule nets_a nets_b cap_pairs)
        else if String.eqb rtype "R_PATH" then Some (_check_path_rule nets_a nets_b r_components)
        else if String.eqb rtype "L_PATH" then Some (_check_path_rule nets_a nets_b l_components)
        else None in
      match verdict with
      | None => (errors, cache)
      | Some (ok, shorted, pair_) =>
          if ok then (errors, cache)
          else if shorted then
            if task_is task_id 13 && _is_ucc27511_out_pair rtype ep_a ep_b then (errors, cache)
            else if _is_ucc21710_gate_short rtype ep_a ep_b
            then (errors ++ [ucc21710_message], cache)
            else (errors ++ [shorted_message rtype ep_a ep_b pair_], cache)
          else (errors ++ [missing_message rtype ep_a ep_b nets_a nets_b], cache)
      end.

Definition task_endpoint (part role : string) : RuleEndpoint :=
  mkRuleEndpoint (Some part) (Some "ic") (Some role) None None None.

Definition _check_task15_out_resistor (snapshot : Snapshot) (r_components : list Py.strset)
  (cache : EndpointCache) : list string * EndpointCache :=
  let '(out_nets, cache) :=
    _resolve_endpoint_nets snapshot (task_endpoint "UCC5390E" "out") cache in
  if is_empty out_nets then (["UCC5390E: OUT pin missing net"], cache)
  else
    let '(supply_nets, cache) :=
      fold_left
        (fun '(acc, c) role =>
           let '(ns, c') := _resolve_endpoint_nets snapshot (task_endpoint "UCC5390E" role) c in
           (PySet.union acc ns, c'))
        ["primary_vdd"; "primary_gnd"; "secondary_vdd"; "secondary_gnd"] ([], cache) in
    let reaches_gate (nets_ : Py.strset) : bool :=
      negb (is_empty (PySet.inter out_nets nets_))
      && existsb (fun n => negb (PySet.mem n out_nets || PySet.mem n supply_nets)) nets_ in
    if existsb reaches_gate r_components then ([], cache)
    else (["UCC5390E: OUT must connect to a gate net through a resistor network"], cache).

Definition _is_connected_nets (nets_ : Py.strset) : bool :=
  existsb (fun n => negb (Py.mem (Py.upper n) ["NC"; "__NOCONNECT"])) nets_.

Definition _check_task6_enable (snapshot : Snapshot) (r_components : list Py.strset)
  (cache : EndpointCache) : list string * EndpointCache :=
  let '(en_nets, cache) :=
    _resolve_endpoint_nets snapshot (task_endpoint "TPS54302" "buck_en") cache in
  if negb (_is_connected_nets en_nets) then ([], cache)
  else
    let '(vin_nets, cache) :=
      _resolve_endpoint_nets snapshot (task_endpoint "TPS54302" "buck_vin") cache in
    let '(gnd_nets, cache) :=
      _resolve_endpoint_nets snapshot (task_endpoint "TPS54302" "buck_gnd") cache in
    let '(ok_vin, short_vin, _) := _check_path_rule en_nets vin_nets r_components in
    let '(ok_gnd, short_gnd, _) := _check_path_rule en_nets gnd_nets r_components in
    if ok_vin && ok_gnd then ([], cache)
    else if short_vin || short_gnd then
      (["EN should not be directly shorted; use a resistor divider between VIN and GND"], cache)
    else
      (["EN requires a resistor divider to VIN and GND, or leave EN unconnected/NC"], cache).

Section RuleChecker.

(** [_check_p3_gain] compares ratios of parsed resistor values in floating
    point; it is kept abstract. *)
Variable _check_p3_gain : Snapshot -> list string.

Definition check_rules (snapshot : Snapshot) (rules : list Rule) (task_id : option Z)
  : list string :=
  let errors := [] in
  let cap_pairs := _capacitor_pairs snapshot in
  let r_components := _passive_net_components snapshot "R" in
  let l_components := _passive_net_components snapshot "L" in
  let endpoint_cache := [] in
  if task_is task_id 15 then
    errors ++ fst (_check_task15_out_resistor snapshot r_components endpoint_cache)
  else
    let '(errors, endpoint_cache) :=
      fold_left (check_rule snapshot task_id cap_pairs r_components l_components)
        rules (errors, endpoint_cache) in
    let errors :=
      if task_is task_id 6
      then errors ++ fst (_check_task6_enable snapshot r_components endpoint_cache)
      else errors in
    let errors :=
      if task_is task_id 3 then errors ++ _check_p3_gain snapshot else errors in
    errors.

End RuleChecker.

(** The endpoint cache agrees with the resolution it memoises. *)
Definition cache_sound (snapshot : Snapshot) (cache : EndpointCache) : Prop :=
  forall e nets_,
    cache_get cache (_endpoint_signature e) = Some nets_ ->
    nets_ = resolve_endpoint snapshot e.

(** The component has a connected pin on the net [x]: one of its pins
    carries the non-empty net name [x]. *)
Definition on_net (comp : Component) (x : string) : Prop :=
  exists p, In p (pins comp) /\ net p = Some x /\ Py.truthy (Some x) = true.

(** A single capacitor bridges nets [a] and [b]: a component classified
    ["C"] whose connected pins sit on exactly these two nets. *)
Definition capacitor_bridges (snapshot : Snapshot) (a b : string) : Prop :=
  exists comp,
    In comp (components snapshot)
    /\ classify_passive comp = Some "C"
    /\ forall x, on_net comp x <-> x = a \/ x = b.

(** Some pair of distinct nets of the two sides is bridged by a capacitor. *)
Definition bridged_pair (snapshot : Snapshot) (A B : Py.strset) : Prop :=
  exists a b, In a A /\ In b B /\ a <> b /\ capacitor_bridges snapshot a b.

Definition some_equal_pair (A B : Py.strset) : Prop :=
  exists a b, In a A /\ In b B /\ a = b.

Definition some_distinct_pair (A B : Py.strset) : Prop :=
  exists a b, In a A /\ In b B /\ a <> b.

(** What makes an extracted rule pass on the snapshot it was extracted
    from: two distinct nets, one on each side, linked by the element the
    rule type asks for. *)
Definition rule_ok (snapshot : Snapshot) (rule : Rule) : Prop :=
  exists a b,
    a <> b
    /\ In a (resolve_endpoint snapshot (endpoint_a rule))
    /\ In b (resolve_endpoint snapshot (endpoint_b rule))
    /\ ((rule_type rule = "C_DIRECT" /\ pair_mem a b (_capacitor_pairs snapshot) = true)
        \/ (rule_type rule = "R_PATH"
            /\ _nets_connected a b (_passive_net_components snapshot "R") = true)
        \/ (rule_type rule = "L_PATH"
            /\ _nets_connected a b (_passive_net_components snapshot "L") = true)).

(* ================================================================== *)
(** ** match_skeleton.py (component-count tolerance) *)
(* ================================================================== *)

(** Tolerances are the fractions [num/den].  The code multiplies the
    count by [1 - t] and [1 + t] in floating point; for [t = 0.5] these
    products are exact, so ceiling and floor are those of the rational. *)
Definition COMPONENT_COUNT_TOLERANCE : nat * nat := (1, 2).
Definition P16_PASSIVE_TOLERANCE : nat * nat := (3, 5).

Definition _component_part_counts (snapshot : Snapshot) : Py.dict nat :=
  fold_left
    (fun counts comp =>
       if Py.truthy (Some (part_id comp))
       then Py.dict_update counts (part_id comp) 0 S
       else counts)
    (components snapshot) [].

(** [counts.get(part_id, 0)] *)
Definition count_of (counts : Py.dict nat) (part : string) : nat :=
  match Py.dict_get counts part with
  | Some n => n
  | None => 0
  end.

(** [math.ceil(n * (1 - t))] and [math.floor(n * (1 + t))] *)
Definition tolerance_min (t : nat * nat) (n : nat) : nat :=
  (n * (snd t - fst t) + snd t - 1) / snd t.
Definition tolerance_max (t : nat * nat) (n : nat) : nat :=
  (n * (snd t + fst t)) / snd t.

Definition count_message (part : string) (std_count gen_count lo hi : nat) : string :=
  "Component count out of tolerance: " ++ part ++ " std=" ++ Py.str_of_nat std_count
  ++ " gen=" ++ Py.str_of_nat gen_count ++ " "
  ++ "(allowed " ++ Py.str_of_nat lo ++ "-" ++ Py.str_of_nat hi ++ ")".

(** The range the loop body allows for a part that is not exempt:
    [(min_count, max_count)] for a given reference count. *)
Definition allowed_range (t : nat * nat) (std_count : nat) : nat * nat :=
  if std_count =? 0 then (0, 3)
  else if std_count <=? 4 then (1, 4)
  else (tolerance_min t std_count, tolerance_max t std_count).

(** The body of the loop over part ids. *)
Definition count_tolerance_step (task_id : option Z) (std_counts gen_counts : Py.dict nat)
  (part : string) : list string :=
  if task_is task_id 15 && String.eqb part "D" then []
  else
    let std_count := count_of std_counts part in
    let gen_count := count_of gen_counts part in
    let tolerance_override :=
      if task_is task_id 16 && Py.mem part ["R"; "C"]
      then P16_PASSIVE_TOLERANCE else COMPONENT_COUNT_TOLERANCE in
    if std_count =? 0 then
      if 4 <=? gen_count then [count_message part 0 gen_count 0 3] else []
    else
      let '(min_count, max_count) :=
        if std_count <=? 4 then (1, 4)
        else (tolerance_min tolerance_override std_count,
              tolerance_max tolerance_override std_count) in
      if (gen_count <? min_count) || (max_count <? gen_count)
      then [count_message part std_count gen_count min_count max_count]
      else [].

(** [sorted(set(std_counts) | set(gen_counts))] *)
Definition counted_parts (std_counts gen_counts : Py.dict nat) : list string :=
  Py.sorted (PySet.union (Py.set_of_list (map fst std_counts))
               (Py.set_of_list (map fst gen_counts))).

Definition _check_component_count_tolerance (std_snapshot gen_snapshot : Snapshot)
  (task_id : option Z) : list string :=
  let std_counts := _component_part_counts std_snapshot in
  let gen_counts := _component_part_counts gen_snapshot in
  let errors :=
    flat_map (count_tolerance_step task_id std_counts gen_counts)
      (counted_parts std_counts gen_counts) in
  match errors with
  | [] => []
  | _ => "NetworkX component count tolerance check failed." :: errors
  end.

(** The range as the claim words it: within 50% of the reference count,
    and 1 to 4 whenever the reference count is at most 4. *)
Definition claimed_range (std_count : nat) : nat * nat :=
  if std_count <=? 4 then (1, 4)
  else (tolerance_min (1, 2) std_count, tolerance_max (1, 2) std_count).

Definition within (range : nat * nat) (n : nat) : bool :=
  (fst range <=? n) && (n <=? snd range).

(** A part id that some component of the snapshot carries; components with
    an empty part id are not counted. *)
Definition uses_part (snapshot : Snapshot) (part : string) : Prop :=
  part <> EmptyString /\ exists comp, In comp (components snapshot) /\ part_id comp = part.

(** The number of components of the snapshot that carry the part id. *)
Definition part_number (snapshot : Snapshot) (part : string) : nat :=
  if String.eqb part EmptyString then 0
  else length (filter (fun comp => String.eqb (part_id comp) part) (components snapshot)).

(** A part id that the P15 diode or the P16 R/C rule treats specially. *)
Definition count_exempt (task_id : option Z) (part : string) : bool :=
  (task_is task_id 15 && String.eqb part "D")
  || (task_is task_id 16 && Py.mem part ["R"; "C"]).

(* ================================================================== *)
(** ** system_topology_checker.py (passive net graph and tank path) *)
(* ================================================================== *)

Definition MOSFET_PATTERNS : list string := ["IMZA"; "IMLT"; "IMT"; "IMW"; "BSC"].
Definition GATE_DRIVER_IDS : list string := ["UCC5390E"; "UCC21710"; "UCC27211"; "UCC27511"].
Definition ISOLATED_SUPPLY_IDS : list string := ["MGJ2D121505SC"].
Definition TRANSFORMER_IDS : list string := ["transformer_PQ5050"].
Definition FILM_CAP_IDS : list string := ["C_film"].
Definition POWER_INDUCTOR_IDS : list string := ["Inductor_power"].
Definition GENERIC_INDUCTOR_IDS : list string := ["L"].

(** Passive parts allowed for graph path checks. *)
Definition PATH_PART_IDS : list string := ["R"; "C"; "C_film"; "Inductor_power"; "L"].

(** [not net or net == 'NC'] for [net = pin.get('net', '')] *)
Definition unconnected (o : option string) : bool := is_nc o.

(** [_extract_two_terminal_nets]: the first two distinct connected nets. *)
Definition distinct_pin_nets (comp : Component) : list string :=
  fold_left
    (fun nets_ p =>
       match net p with
       | Some n => if unconnected (Some n) then nets_
                   else if Py.mem n nets_ then nets_ else nets_ ++ [n]
       | None => nets_
       end)
    (pins comp) [].

Definition _extract_two_terminal_nets (comp : Component) : option string * option string :=
  match distinct_pin_nets comp with
  | a :: b :: _ => (Some a, Some b)
  | _ => (None, None)
  end.

(** [pin_nets = {str(pin_id): net}]: the last pin of an id wins. *)
Definition pin_nets_of (comp : Component) : Py.dict (option string) :=
  fold_left (fun m p => Py.dict_update m (pin_id p) None (fun _ => net p)) (pins comp) [].

(** [pin_nets.get(str(p), '')] *)
Definition pin_net (m : Py.dict (option string)) (p : nat) : option string :=
  match Py.dict_get m (Py.str_of_nat p) with
  | Some n => n
  | None => Some EmptyString
  end.

(** The single net of a group of pins, or [None]. *)
Definition group_net (m : Py.dict (option string)) (ps : list nat) : option string :=
  let nets_ :=
    fold_left
      (fun acc p =>
         match pin_net m p with
         | Some n => if unconnected (Some n) then acc else PySet.add n acc
         | None => acc
         end)
      ps [] in
  match nets_ with
  | [n] => Some n
  | _ => None
  end.

Record InductorInfo := mkInductorInfo {
  ind_ref : string;
  ind_part_id : string;
  terminal_a_net : option string;
  terminal_b_net : option string
}.

Definition _extract_inductor_connections (comp : Component) : InductorInfo :=
  if Py.mem (part_id comp) GENERIC_INDUCTOR_IDS then
    let '(net_a, net_b) := _extract_two_terminal_nets comp in
    mkInductorInfo (ref comp) (part_id comp) net_a net_b
  else
    let m := pin_nets_of comp in
    mkInductorInfo (ref comp) (part_id comp)
      (group_net m [1; 2; 3; 4; 5; 6]) (group_net m [7; 8; 9; 10; 11; 12]).

(** An edge of the passive net graph: neighbour net, part id, reference. *)
Definition Edge := (string * string * string)%type.
Definition edge_net (e : Edge) : string := fst (fst e).
Definition edge_part (e : Edge) : string := snd (fst e).

Definition PassiveGraph := Py.dict (list Edge).

Definition adjacent (g : PassiveGraph) (n : string) : list Edge :=
  match Py.dict_get g n with
  | Some es => es
  | None => []
  end.

(** The two terminals [_build_passive_net_graph] reads off a part. *)
Definition passive_terminals (comp : Component) : option string * option string :=
  if Py.mem (part_id comp) POWER_INDUCTOR_IDS then
    let ind := _extract_inductor_connections comp in
    (terminal_a_net ind, terminal_b_net ind)
  else _extract_two_terminal_nets comp.

Definition passive_edge_step (allowed_parts : list string) (g : PassiveGraph) (comp : Component)
  : PassiveGraph :=
  if negb (Py.mem (part_id comp) allowed_parts) then g
  else
    let '(net_a, net_b) := passive_terminals comp in
    match net_a, net_b with
    | Some a, Some b =>
        if negb (Py.truthy net_a) || negb (Py.truthy net_b) || String.eqb a b then g
        else
          let g1 := Py.dict_append g a (b, part_id comp, ref comp) in
          Py.dict_append g1 b (a, part_id comp, ref comp)
    | _, _ => g
    end.

Definition _build_passive_net_graph (snapshot : Snapshot) (allowed_parts : list string)
  : PassiveGraph :=
  fold_left (passive_edge_step allowed_parts) (components snapshot) [].

(** A BFS state: the net and the two flags [(has_film, has_ind)]. *)
Definition TankState := (string * bool * bool)%type.

Definition state_eqb (a b : TankState) : bool :=
  let '(n1, f1, i1) := a in
  let '(n2, f2, i2) := b in
  String.eqb n1 n2 && Bool.eqb f1 f2 && Bool.eqb i1 i2.

Definition state_mem (s : TankState) (seen : list TankState) : bool :=
  existsb (state_eqb s) seen.

Definition is_film (part : string) : bool := String.eqb part "C_film".
Definition is_inductor (part : string) : bool :=
  Py.mem part POWER_INDUCTOR_IDS || Py.mem part GENERIC_INDUCTOR_IDS.

(** The state reached over an edge. *)
Definition follow (s : TankState) (e : Edge) : TankState :=
  let '(_, has_film, has_ind) := s in
  (edge_net e, has_film || is_film (edge_part e), has_ind || is_inductor (edge_part e)).

(** The state satisfies the target test of the inner loop. *)
Definition hits (end_net : string) (require_film require_inductor : bool) (s : TankState)
  : bool :=
  let '(n, has_film, has_ind) := s in
  String.eqb n end_net && (negb require_film || has_film)
  && (negb require_inductor || has_ind).

(** The [for nb, part_id, _ref in net_graph.get(net, [])] loop: [None] is
    the early [return True], otherwise the queue with the neighbours
    appended. *)
Fixpoint expand (end_net : string) (require_film require_inductor : bool)
  (s : TankState) (edges : list Edge) (q : list TankState) : option (list TankState) :=
  match edges with
  | [] => Some q
  | e :: rest =>
      if hits end_net require_film require_inductor (follow s e) then None
      else expand end_net require_film require_inductor s rest (q ++ [follow s e])
  end.

(** The [while q:] loop of [_path_exists]; the outer [None] means that
    [fuel] iterations were not enough. *)
Fixpoint path_loop (fuel : nat) (g : PassiveGraph) (end_net : string)
  (require_film require_inductor : bool) (q seen : list TankState) : option bool :=
  match fuel with
  | 0 => None
  | S fuel' =>
      match q with
      | [] => Some false
      | s :: q' =>
          if state_mem s seen
          then path_loop fuel' g end_net require_film require_inductor q' seen
          else
            match expand end_net require_film require_inductor s
                    (adjacent g (fst (fst s))) q' with
            | None => Some true
            | Some q'' =>
                path_loop fuel' g end_net require_film require_inductor q'' (s :: seen)
            end
      end
  end.

Definition edge_count (g : PassiveGraph) : nat :=
  fold_right (fun e acc => length (snd e) + acc) 0 g.

(** Each of the four states of a net is expanded at most once, and an
    expansion pushes one entry per edge of the net. *)
Definition path_fuel (g : PassiveGraph) : nat := 2 + 4 * edge_count g.

(** [_path_exists].  The iteration bound is never reached
    ([path_loop_terminates]). *)
Definition _path_exists (snapshot : Snapshot) (start_net end_net : option string)
  (allowed_parts : list string) (require_film require_inductor : bool) : bool :=
  match start_net, end_net with
  | Some s, Some t =>
      if negb (Py.truthy start_net) || negb (Py.truthy end_net) then false
      else if String.eqb s t then negb (require_film || require_inductor)
      else
        let g := _build_passive_net_graph snapshot allowed_parts in
        match path_loop (path_fuel g) g t require_film require_inductor
                [(s, false, false)] [] with
        | Some found => found
        | None => false
        end
  | _, _ => false
  end.

Definition _nets_connected_via (snapshot : Snapshot) (net_a net_b : option string)
  (allowed_parts : list string) : bool :=
  if negb (Py.truthy net_a) || negb (Py.truthy net_b) then false
  else if Py.opt_eqb net_a net_b then true
  else _path_exists snapshot net_a net_b allowed_parts false false.

Definition _exists_required_tank_path (snapshot : Snapshot)
  (starts targets : list (option string)) (require_film require_inductor : bool)
  (allowed_parts : list string) : bool :=
  existsb
    (fun s =>
       existsb
         (fun t => _path_exists snapshot s t allowed_parts require_film require_inductor)
         targets)
    starts.

Definition dab_tank_message : string :=
  "DAB: missing series tank elements (need both C_film and inductor on VIN-side path to transformer)".

(** The last check of [_verify_dab], on the switch nodes of the input
    bridge and the transformer terminals of the side it drives. *)
Definition dab_tank_check (snapshot : Snapshot) (vsw_nodes target_terms : list (option string))
  : list string :=
  if negb (_exists_required_tank_path snapshot vsw_nodes target_terms true true PATH_PART_IDS)
  then [dab_tank_message]
  else [].

(** A walk in the passive net graph: consecutive edges, nets and edges may
    repeat. *)
Inductive walk (g : PassiveGraph) : string -> list Edge -> string -> Prop :=
| walk_nil (a : string) : walk g a [] a
| walk_cons (a : string) (e : Edge) (es : list Edge) (b : string) :
    In e (adjacent g a) -> walk g (edge_net e) es b -> walk g a (e :: es) b.

Definition has_film_edge (es : list Edge) : bool :=
  existsb (fun e => is_film (edge_part e)) es.
Definition has_inductor_edge (es : list Edge) : bool :=
  existsb (fun e => is_inductor (edge_part e)) es.

(** A walk of at least one edge from [a] to [b] carrying the required
    elements. *)
Definition tank_path (g : PassiveGraph) (require_film require_inductor : bool)
  (a b : string) : Prop :=
  exists es,
    es <> []
    /\ walk g a es b
    /\ (require_film = true -> has_film_edge es = true)
    /\ (require_inductor = true -> has_inductor_edge es = true).

(** The nets a walk passes, its start included. *)
Definition walk_nets (a : string) (es : list Edge) : list string := a :: map edge_net es.

(** A path in the strict sense: a walk that passes no net twice. *)
Definition simple_tank_path (g : PassiveGraph) (a b : string) : Prop :=
  exists es,
    walk g a es b /\ NoDup (walk_nets a es)
    /\ has_film_edge es = true /\ has_inductor_edge es = true.

(** The states the search can reach from the start state. *)
Definition reach (g : PassiveGraph) (start : string) (s : TankState) : Prop :=
  exists es,
    walk g start es (fst (fst s))
    /\ snd (fst s) = has_film_edge es
    /\ snd s = has_inductor_edge es.

Definition all_flags : list (bool * bool) :=
  [(false, false); (false, true); (true, false); (true, true)].

(** States of net [k] not yet expanded. *)
Definition unseen_flags (k : string) (seen : list TankState) : nat :=
  length (filter (fun fl => negb (state_mem (k, fst fl, snd fl) seen)) all_flags).

(** Queue entries still to be produced: one per edge and unseen state. *)
Definition unseen_weight (g : PassiveGraph) (seen : list TankState) : nat :=
  fold_right (fun e acc => length (snd e) * unseen_flags (fst e) seen + acc) 0 g.

(** The passive-induced net graph in terms of the snapshot: [e] is an edge
    at net [a] when an allowed part has [a] and the neighbour for
    terminals. *)
Definition passive_link (snapshot : Snapshot) (allowed_parts : list string)
  (a : string) (e : Edge) : Prop :=
  exists comp b,
    In comp (components snapshot)
    /\ Py.mem (part_id comp) allowed_parts = true
    /\ e = (b, part_id comp, ref comp)
    /\ a <> EmptyString /\ b <> EmptyString /\ a <> b
    /\ (passive_terminals comp = (Some a, Some b)
        \/ passive_terminals comp = (Some b, Some a)).

(** A pair the tank check tries: a switch node and a transformer terminal,
    both named. *)
Definition tank_pair (vsw_nodes target_terms : list (option string)) (a b : string) : Prop :=
  In (Some a) vsw_nodes /\ In (Some b) target_terms
  /\ a <> EmptyString /\ b <> EmptyString.

(* ================================================================== *)
(** ** system_topology_checker.py (power graph and the DAB template) *)
(* ================================================================== *)

(** The [info] dictionaries of the power graph: string keys; a value is a
    net name, the empty string or [None]. *)
Definition Info := Py.dict (option string).

(** [info.get(key)] *)
Definition info_get (info : Info) (key : string) : option string :=
  match Py.dict_get info key with
  | Some v => v
  | None => None
  end.

(** [info.get(key, '')] *)
Definition info_get_str (info : Info) (key : string) : option string :=
  match Py.dict_get info key with
  | Some v => v
  | None => Some EmptyString
  end.

(** [info[key] = v] *)
Definition info_set (info : Info) (key : string) (v : option string) : Info :=
  Py.dict_update info key None (fun _ => v).

(** [pin_nets.get(key, '')] *)
Definition pin_net_at (m : Py.dict (option string)) (key : string) : option string :=
  match Py.dict_get m key with
  | Some n => n
  | None => Some EmptyString
  end.

Definition mosfet_role_step (pin_nets : Py.dict (option string)) (info : Info)
  (entry : string * string) : Info :=
  let '(pin_num, role) := entry in
  let n := pin_net_at pin_nets pin_num in
  if String.eqb role "mosfet_drain" then info_set info "drain_net" n
  else if String.eqb role "mosfet_source" then info_set info "source_net" n
  else if String.eqb role "mosfet_gate" then info_set info "gate_net" n
  else if String.eqb role "mosfet_kelvin_source" then info_set info "ks_net" n
  else info.

Definition _extract_mosfet_connections (comp : Component) (kg_store : option KGStore) : Info :=
  let info : Info := [("ref", Some (ref comp)); ("part_id", Some (part_id comp))] in
  let pin_roles :=
    match kg_store with
    | Some kg =>
        match get_component kg (part_id comp) with
        | Some kg_comp => kg_pin_roles kg_comp
        | None => []
        end
    | None => []
    end in
  let pin_nets := pin_nets_of comp in
  let info := fold_left (mosfet_role_step pin_nets) pin_roles info in
  if negb (Py.dict_has info "drain_net") then
    if String.eqb (part_id comp) "IMZA65R015M2H" then
      let info := info_set info "drain_net" (pin_net_at pin_nets "1") in
      let info := info_set info "source_net" (pin_net_at pin_nets "2") in
      let info := info_set info "ks_net" (pin_net_at pin_nets "3") in
      info_set info "gate_net" (pin_net_at pin_nets "4")
    else if Py.contains "BSC" (Py.upper (part_id comp)) then
      let info := info_set info "source_net" (pin_net_at pin_nets "1") in
      let info := info_set info "gate_net" (pin_net_at pin_nets "4") in
      info_set info "drain_net" (pin_net_at pin_nets "5")
    else info
  else info.

Definition _extract_transformer_connections (comp : Component) : Info :=
  let m := pin_nets_of comp in
  [("ref", Some (ref comp));
   ("pri1_net", group_net m [1; 2; 3]);
   ("pri2_net", group_net m [4; 5; 6]);
   ("sec1_net", group_net m [7; 8; 9]);
   ("sec2_net", group_net m [10; 11; 12])].

Record PowerGraph := mkPowerGraph {
  mosfets : list Info;
  inductors : list InductorInfo;
  transformers : list Info;
  power_nets : Py.dict (list (string * string))
}.

(** [if net_name and net_name != 'NC': nets.setdefault(net_name, []).append(entry)] *)
Definition power_net_add (nets_ : Py.dict (list (string * string)))
  (net_name : option string) (entry : string * string) : Py.dict (list (string * string)) :=
  match net_name with
  | Some n => if unconnected net_name then nets_ else Py.dict_append nets_ n entry
  | None => nets_
  end.

Definition power_graph_step (kg_store : option KGStore) (g : PowerGraph) (comp : Component)
  : PowerGraph :=
  let r := ref comp in
  if Py.any_contains MOSFET_PATTERNS (Py.upper (part_id comp)) then
    let mosfet_info := _extract_mosfet_connections comp kg_store in
    let nets_ := power_net_add (power_nets g) (info_get mosfet_info "drain_net")
                   (r, "mosfet_drain") in
    let nets_ := power_net_add nets_ (info_get mosfet_info "source_net")
                   (r, "mosfet_source") in
    mkPowerGraph (mosfets g ++ [mosfet_info]) (inductors g) (transformers g) nets_
  else if Py.mem (part_id comp) POWER_INDUCTOR_IDS || Py.mem (part_id comp) GENERIC_INDUCTOR_IDS
  then
    let inductor_info := _extract_inductor_connections comp in
    let nets_ := power_net_add (power_nets g) (terminal_a_net inductor_info)
                   (r, "inductor_terminal_a") in
    let nets_ := power_net_add nets_ (terminal_b_net inductor_info)
                   (r, "inductor_terminal_b") in
    mkPowerGraph (mosfets g) (inductors g ++ [inductor_info]) (transformers g) nets_
  else if Py.mem (part_id comp) TRANSFORMER_IDS then
    mkPowerGraph (mosfets g) (inductors g)
      (transformers g ++ [_extract_transformer_connections comp]) (power_nets g)
  else g.

Definition _build_power_graph (snapshot : Snapshot) (kg_store : option KGStore) : PowerGraph :=
  fold_left (power_graph_step kg_store) (components snapshot) (mkPowerGraph [] [] [] []).

(** [if not net_name: return False; return any(p in net_name.upper() ...)] *)
Definition name_looks_like (patterns : list string) (net_name : option string) : bool :=
  match net_name with
  | Some n => Py.truthy net_name && Py.any_contains patterns (Py.upper n)
  | None => false
  end.

Definition _is_input_supply_net : option string -> bool :=
  name_looks_like ["VIN"; "VBUS"; "VDC"; "VBAT"; "V+"].

Definition _is_ground_net : option string -> bool :=
  name_looks_like ["GND"; "PGND"; "VSS"; "COM"; "GROUND"].

Definition _resolve_named_net (snapshot : Snapshot) (desired_name : string) : option string :=
  option_map name
    (find (fun n => String.eqb (Py.upper (name n)) (Py.upper desired_name)) (nets snapshot)).

(** A half bridge around a switch node: [{'vsw', 'hs', 'ls', 'bus', 'gnd'}].
    The bus and ground nets of a half bridge are non-empty names. *)
Record HalfBridge := mkHalfBridge {
  vsw : string;
  hs : Info;
  ls : Info;
  hb_bus : string;
  hb_gnd : string
}.

(** A bridge: [{'vsw_nodes', 'bus', 'gnd'}]; the ['half_bridges'] entry
    that [_infer_full_bridge_from_vsw] adds is kept as well. *)
Record Bridge := mkBridge {
  vsw_nodes : list string;
  bus : string;
  gnd : string;
  half_bridges : list HalfBridge
}.

Definition half_bridge_score (bus_ gnd_ : string) : Z :=
  ((if _is_ground_net (Some gnd_) then 3 else 0)
   + (if negb (_is_ground_net (Some bus_)) then 1 else 0)
   + (if _is_input_supply_net (Some bus_) then 1 else 0))%Z.

(** The body of the double loop of [_infer_half_bridge_on_vsw]; the state
    is [(best, best_score)]. *)
Definition half_bridge_pick (vsw_net : string) (hs_ : Info)
  (st : option HalfBridge * Z) (ls_ : Info) : option HalfBridge * Z :=
  if Py.opt_eqb (info_get hs_ "ref") (info_get ls_ "ref") then st
  else
    match info_get_str hs_ "drain_net", info_get_str ls_ "source_net" with
    | Some bus_, Some gnd_ =>
        if negb (Py.truthy (Some bus_)) || negb (Py.truthy (Some gnd_)) then st
        else
          let score := half_bridge_score bus_ gnd_ in
          if (snd st <? score)%Z
          then (Some (mkHalfBridge vsw_net hs_ ls_ bus_ gnd_), score)
          else st
    | _, _ => st
    end.

Definition _infer_half_bridge_on_vsw (mosfets_ : list Info) (vsw_net : option string)
  : option HalfBridge * list string :=
  match vsw_net with
  | None => (None, ["missing VSW net"])
  | Some v =>
      if negb (Py.truthy vsw_net) then (None, ["missing VSW net"])
      else
        let hs_candidates :=
          filter (fun m => Py.opt_eqb (info_get m "source_net") vsw_net
                           && Py.truthy (info_get m "drain_net")) mosfets_ in
        let ls_candidates :=
          filter (fun m => Py.opt_eqb (info_get m "drain_net") vsw_net
                           && Py.truthy (info_get m "source_net")) mosfets_ in
        match hs_candidates, ls_candidates with
        | [], _ => (None, [("no high-side candidate with source=VSW (" ++ v ++ ")")%string])
        | _, [] => (None, [("no low-side candidate with drain=VSW (" ++ v ++ ")")%string])
        | _, _ =>
            let '(best, _) :=
              fold_left
                (fun st hs_ => fold_left (half_bridge_pick v hs_) ls_candidates st)
                hs_candidates (None, (-1)%Z) in
            match best with
            | None => (None, [("cannot form half-bridge around " ++ v)%string])
            | Some b =>
                if negb (_is_ground_net (Some (hb_gnd b)))
                then (best, [("LS source (" ++ hb_gnd b
                              ++ ") does not look like a ground net")%string])
                else (best, [])
            end
        end
  end.

Definition _infer_full_bridge_from_vsw (mosfets_ : list Info) (vsw_nets : list (option string))
  : option Bridge * list string :=
  match vsw_nets with
  | [v1; v2] =>
      let '(hb1, e1) := _infer_half_bridge_on_vsw mosfets_ v1 in
      let '(hb2, e2) := _infer_half_bridge_on_vsw mosfets_ v2 in
      let errors := e1 ++ e2 in
      match hb1, hb2 with
      | Some b1, Some b2 =>
          let errors :=
            if negb (String.eqb (hb_bus b1) (hb_bus b2))
               || negb (String.eqb (hb_gnd b1) (hb_gnd b2))
            then errors
                 ++ [("half-bridges do not share common bus/gnd (HB1 bus/gnd="
                      ++ hb_bus b1 ++ "/" ++ hb_gnd b1 ++ ", "
                      ++ "HB2 bus/gnd=" ++ hb_bus b2 ++ "/" ++ hb_gnd b2 ++ ")")%string]
            else errors in
          (Some (mkBridge [vsw b1; vsw b2] (hb_bus b1) (hb_gnd b1) [b1; b2]), errors)
      | _, _ => (None, errors)
      end
  | _ => (None, ["expected exactly 2 switch nodes for full-bridge"])
  end.

(** [by_source] and [by_drain] of [_enumerate_half_bridges]: the MOSFETs
    on each net that is the value of [key]. *)
Definition by_net (key : string) (mosfets_ : list Info) : Py.dict (list Info) :=
  fold_left
    (fun d m =>
       match info_get m key with
       | Some n => if Py.truthy (Some n) then Py.dict_append d n m else d
       | None => d
       end)
    mosfets_ [].

Definition mosfets_on (d : Py.dict (list Info)) (n : string) : list Info :=
  match Py.dict_get d n with
  | Some l => l
  | None => []
  end.

Definition enumerate_pair (vsw_ : string) (hs_ ls_ : Info) : list HalfBridge :=
  if Py.opt_eqb (info_get hs_ "ref") (info_get ls_ "ref") then []
  else
    match info_get hs_ "drain_net", info_get ls_ "source_net" with
    | Some bus_, Some gnd_ =>
        if negb (Py.truthy (Some bus_)) || negb (Py.truthy (Some gnd_)) then []
        else if negb (_is_ground_net (Some gnd_)) then []
        else if _is_ground_net (Some bus_) then []
        else [mkHalfBridge vsw_ hs_ ls_ bus_ gnd_]
    | _, _ => []
    end.

(** [for vsw in set(by_source) & set(by_drain)]: Python leaves the order
    of a set open; here the nets come in their order of first appearance
    as a source net. *)
Definition _enumerate_half_bridges (mosfets_ : list Info) : list HalfBridge :=
  let by_source := by_net "source_net" mosfets_ in
  let by_drain := by_net "drain_net" mosfets_ in
  flat_map
    (fun vsw_ =>
       flat_map
         (fun hs_ => flat_map (enumerate_pair vsw_ hs_) (mosfets_on by_drain vsw_))
         (mosfets_on by_source vsw_))
    (PySet.inter (map fst by_source) (map fst by_drain)).

(** [groups.setdefault((bus, gnd), set()).add(vsw)] *)
Fixpoint group_add (groups : list ((string * string) * Py.strset)) (key : string * string)
  (v : string) : list ((string * string) * Py.strset) :=
  match groups with
  | [] => [(key, PySet.add v [])]
  | (k, s) :: rest =>
      if String.eqb (fst k) (fst key) && String.eqb (snd k) (snd key)
      then (k, PySet.add v s) :: rest
      else (k, s) :: group_add rest key v
  end.

Definition _infer_bridge_candidates (mosfets_ : list Info) : list Bridge :=
  let groups :=
    fold_left (fun groups b => group_add groups (hb_bus b, hb_gnd b) (vsw b))
      (_enumerate_half_bridges mosfets_) [] in
  flat_map
    (fun g : (string * string) * Py.strset =>
       if length (snd g) <? 2 then []
       else [mkBridge (Py.sorted (snd g)) (fst (fst g)) (snd (fst g)) []])
    groups.

Definition _bridge_covers_terms (snapshot : Snapshot) (vsw_nodes_ : list string)
  (transformer_terms : option string * option string) (allowed_parts : list string) : bool :=
  let '(t1, t2) := transformer_terms in
  if negb (Py.truthy t1) || negb (Py.truthy t2) then false
  else
    match vsw_nodes_ with
    | [] => false
    | _ =>
        let reaches term :=
          existsb (fun v => _nets_connected_via snapshot (Some v) term allowed_parts)
            vsw_nodes_ in
        reaches t1 && reaches t2
    end.

Inductive Side := SideBoth | SidePri | SideSec | SideNone.

Definition _bridge_transformer_side (snapshot : Snapshot) (vsw_nodes_ : list string)
  (pri_terms sec_terms : option string * option string) (allowed_parts : list string) : Side :=
  let pri_ok := _bridge_covers_terms snapshot vsw_nodes_ pri_terms allowed_parts in
  let sec_ok := _bridge_covers_terms snapshot vsw_nodes_ sec_terms allowed_parts in
  if pri_ok && sec_ok then SideBoth
  else if pri_ok then SidePri
  else if sec_ok then SideSec
  else SideNone.

(** [repr] of a net name or [None], and of a pair of them. *)
Definition repr_net (o : option string) : string :=
  match o with
  | Some s => Py.repr_str s
  | None => "None"
  end.

Definition repr_terms (t : option string * option string) : string :=
  "(" ++ repr_net (fst t) ++ ", " ++ repr_net (snd t) ++ ")".

Definition _infer_other_bridge_connected_to_terms (snapshot : Snapshot) (mosfets_ : list Info)
  (excluded_bus_gnd : string * string) (transformer_terms : option string * option string)
  (allowed_parts : list string) : option Bridge * list string :=
  let candidates :=
    filter
      (fun b => negb (String.eqb (bus b) (fst excluded_bus_gnd)
                      && String.eqb (gnd b) (snd excluded_bus_gnd)))
      (_infer_bridge_candidates mosfets_) in
  match find (fun b => _bridge_covers_terms snapshot (vsw_nodes b) transformer_terms
                         allowed_parts) candidates with
  | Some b => (Some (mkBridge (firstn 2 (vsw_nodes b)) (bus b) (gnd b) []), [])
  | None =>
      (None,
       [("cannot find a second full-bridge connected to transformer terminals "
         ++ repr_terms transformer_terms)%string])
  end.

Definition _select_input_bridge (snapshot : Snapshot) (bridges : list Bridge)
  : option Bridge * list string :=
  let vin_net := _resolve_named_net snapshot "VIN" in
  let preferred :=
    if Py.truthy vin_net
    then filter (fun b => Py.opt_eqb (Some (bus b)) vin_net
                          || Py.contains "VIN" (Py.upper (bus b))) bridges
    else [] in
  match preferred with
  | b :: _ => (Some b, [])
  | [] =>
      match filter (fun b => _is_input_supply_net (Some (bus b))) bridges with
      | b :: _ => (Some b, [])
      | [] =>
          (None,
           ["cannot identify VIN/VBUS-referenced input bridge (bus net not VIN/VBUS-like)"])
      end
  end.

(** [_verify_dab] up to the tank requirement: the errors of an early
    return, or the switch nodes of the input bridge and the transformer
    terminals of the side it drives.  A bridge that is [None] always comes
    with errors, so the branches marked unreachable never run. *)
Definition dab_input_bridge (power_graph : PowerGraph) (snapshot : Snapshot)
  : list string + (list (option string) * list (option string)) :=
  if length (mosfets power_graph) <? 8
  then inl ["DAB requires at least 8 MOSFETs (4 per bridge)"]
  else
    match transformers power_graph with
    | [] => inl ["DAB requires a transformer"]
    | xfmr :: _ =>
        let pri1 := info_get xfmr "pri1_net" in
        let pri2 := info_get xfmr "pri2_net" in
        let sec1 := info_get xfmr "sec1_net" in
        let sec2 := info_get xfmr "sec2_net" in
        if negb (forallb Py.truthy [pri1; pri2; sec1; sec2])
        then inl ["DAB: transformer primary/secondary nets are incomplete (check transformer pin wiring)"]
        else
          let vsw_1 := _resolve_named_net snapshot "VSW_1" in
          let vsw_2 := _resolve_named_net snapshot "VSW_2" in
          if negb (Py.truthy vsw_1) || negb (Py.truthy vsw_2)
          then inl ["DAB: expected named ports VSW_1 and VSW_2"]
          else
            match _infer_full_bridge_from_vsw (mosfets power_graph) [vsw_1; vsw_2] with
            | (_, (_ :: _) as out_errs) =>
                inl (map (fun e => ("DAB: output bridge: " ++ e)%string) out_errs)
            | (None, []) => inl [] (* unreachable *)
            | (Some output_bridge, []) =>
                let pri_terms := (pri1, pri2) in
                let sec_terms := (sec1, sec2) in
                match _bridge_transformer_side snapshot (vsw_nodes output_bridge)
                        pri_terms sec_terms PATH_PART_IDS with
                | SideNone =>
                    inl [("DAB: output bridge switch nodes (" ++ str_of_option vsw_1 ++ ", "
                          ++ str_of_option vsw_2 ++ ") are not connected to transformer (pri="
                          ++ repr_terms pri_terms ++ ", sec=" ++ repr_terms sec_terms
                          ++ ")")%string]
                | out_side =>
                    let other_terms :=
                      match out_side with
                      | SidePri => sec_terms
                      | _ => pri_terms
                      end in
                    match _infer_other_bridge_connected_to_terms snapshot
                            (mosfets power_graph) (bus output_bridge, gnd output_bridge)
                            other_terms PATH_PART_IDS with
                    | (_, (_ :: _) as other_errs) =>
                        inl (map (fun e => ("DAB: " ++ e)%string) other_errs)
                    | (None, []) => inl [] (* unreachable *)
                    | (Some other_bridge, []) =>
                        match _select_input_bridge snapshot [output_bridge; other_bridge] with
                        | (_, (_ :: _) as input_errs) =>
                            inl (map (fun e => ("DAB: " ++ e)%string) input_errs)
                        | (None, []) => inl [] (* unreachable *)
                        | (Some input_bridge, []) =>
                            match _bridge_transformer_side snapshot (vsw_nodes input_bridge)
                                    pri_terms sec_terms PATH_PART_IDS with
                            | SideNone =>
                                inl ["DAB: input bridge is not connected to transformer (unexpected wiring)"]
                            | SidePri =>
                                inr (map Some (vsw_nodes input_bridge), [pri1; pri2])
                            | _ =>
                                inr (map Some (vsw_nodes input_bridge), [sec1; sec2])
                            end
                        end
                    end
                end
            end
    end.

(** [_verify_dab]: the early returns, then the tank requirement. *)
Definition _verify_dab (power_graph : PowerGraph) (snapshot : Snapshot) : list string :=
  match dab_input_bridge power_graph snapshot with
  | inl errors => errors
  | inr (starts, target_terms) => dab_tank_check snapshot starts target_terms
  end.

(* ================================================================== *)
(** ** system_topology_checker.py (task templates and component counts) *)
(* ================================================================== *)

(** One entry of [TASK_TEMPLATES]; a key an entry does not carry reads as
    its [.get] default ([0], [False]). *)
Record Template := mkTemplate {
  t_name : string;
  min_mosfets : nat;
  min_gate_drivers : nat;
  min_isolated_supplies : nat;
  requires_inductor : bool;
  min_output_caps : nat;
  requires_transformer : bool;
  requires_resonant_cap : bool;
  requires_resonant_inductor : bool;
  requires_blocking_cap : bool;
  topology_type : string
}.

Definition TASK_TEMPLATES : list (Z * Template) :=
  [(17%Z, mkTemplate "Synchronous Buck Converter" 2 2 1 true 4 false false false false
            "sync_buck");
   (18%Z, mkTemplate "Synchronous Boost Converter" 2 2 1 true 4 false false false false
            "sync_boost");
   (19%Z, mkTemplate "4-Switch Buck-Boost Converter" 4 4 2 false 0 false false false false
            "4sw_buckboost");
   (20%Z, mkTemplate "Dual Active Bridge Converter" 8 8 2 false 0 true false true true
            "dab");
   (21%Z, mkTemplate "LLC Resonant Converter" 8 8 2 false 0 true true true false
            "llc");
   (22%Z, mkTemplate "3-Phase Motor Drive" 6 6 3 false 0 false false false false
            "3ph_inverter");
   (23%Z, mkTemplate "Single-Phase Grid Inverter" 4 4 2 false 0 false false false false
            "1ph_fullbridge")].

Definition get_task_template (task_id : Z) : option Template :=
  option_map snd (find (fun e => Z.eqb (fst e) task_id) TASK_TEMPLATES).

Definition is_complex_task (task_id : Z) : bool :=
  existsb (fun e => Z.eqb (fst e) task_id) TASK_TEMPLATES.

(** The [counts] dictionary of [_count_components]. *)
Record Counts := mkCounts {
  n_mosfets : nat;
  n_gate_drivers : nat;
  n_isolated_supplies : nat;
  n_transformers : nat;
  n_film_caps : nat;
  n_power_inductors : nat;
  n_inductors : nat;
  n_caps : nat;
  n_resistors : nat
}.

Definition count_step (c : Counts) (comp : Component) : Counts :=
  let p := part_id comp in
  if Py.any_contains MOSFET_PATTERNS (Py.upper p) then
    mkCounts (S (n_mosfets c)) (n_gate_drivers c) (n_isolated_supplies c) (n_transformers c)
      (n_film_caps c) (n_power_inductors c) (n_inductors c) (n_caps c) (n_resistors c)
  else if Py.mem p GATE_DRIVER_IDS then
    mkCounts (n_mosfets c) (S (n_gate_drivers c)) (n_isolated_supplies c) (n_transformers c)
      (n_film_caps c) (n_power_inductors c) (n_inductors c) (n_caps c) (n_resistors c)
  else if Py.mem p ISOLATED_SUPPLY_IDS then
    mkCounts (n_mosfets c) (n_gate_drivers c) (S (n_isolated_supplies c)) (n_transformers c)
      (n_film_caps c) (n_power_inductors c) (n_inductors c) (n_caps c) (n_resistors c)
  else if Py.mem p TRANSFORMER_IDS then
    mkCounts (n_mosfets c) (n_gate_drivers c) (n_isolated_supplies c) (S (n_transformers c))
      (n_film_caps c) (n_power_inductors c) (n_inductors c) (n_caps c) (n_resistors c)
  else if Py.mem p FILM_CAP_IDS then
    mkCounts (n_mosfets c) (n_gate_drivers c) (n_isolated_supplies c) (n_transformers c)
      (S (n_film_caps c)) (n_power_inductors c) (n_inductors c) (n_caps c) (n_resistors c)
  else if Py.mem p POWER_INDUCTOR_IDS then
    mkCounts (n_mosfets c) (n_gate_drivers c) (n_isolated_supplies c) (n_transformers c)
      (n_film_caps c) (S (n_power_inductors c)) (n_inductors c) (n_caps c) (n_resistors c)
  else if Py.mem p GENERIC_INDUCTOR_IDS then
    mkCounts (n_mosfets c) (n_gate_drivers c) (n_isolated_supplies c) (n_transformers c)
      (n_film_caps c) (n_power_inductors c) (S (n_inductors c)) (n_caps c) (n_resistors c)
  else if String.eqb p "C" then
    mkCounts (n_mosfets c) (n_gate_drivers c) (n_isolated_supplies c) (n_transformers c)
      (n_film_caps c) (n_power_inductors c) (n_inductors c) (S (n_caps c)) (n_resistors c)
  else if String.eqb p "R" then
    mkCounts (n_mosfets c) (n_gate_drivers c) (n_isolated_supplies c) (n_transformers c)
      (n_film_caps c) (n_power_inductors c) (n_inductors c) (n_caps c) (S (n_resistors c))
  else c.

Definition _count_components (snapshot : Snapshot) : Counts :=
  fold_left count_step (components snapshot) (mkCounts 0 0 0 0 0 0 0 0 0).

(** ["Task <id> (<name>) "], the head of the template messages. *)
Definition task_label (task_id : Z) (template : Template) : string :=
  "Task " ++ str_of_Z task_id ++ " (" ++ t_name template ++ ") ".

Definition _check_component_counts (counts : Counts) (template : Template) (task_id : Z)
  : list string :=
  (if n_mosfets counts <? min_mosfets template
   then [(task_label task_id template ++ "requires at least "
          ++ Py.str_of_nat (min_mosfets template) ++ " MOSFETs, but only "
          ++ Py.str_of_nat (n_mosfets counts) ++ " found")%string]
   else [])
  ++ (if n_gate_drivers counts <? min_gate_drivers template
      then [(task_label task_id template ++ "requires at least "
             ++ Py.str_of_nat (min_gate_drivers template) ++ " gate drivers, but only "
             ++ Py.str_of_nat (n_gate_drivers counts) ++ " found")%string]
      else [])
  ++ (if n_isolated_supplies counts <? min_isolated_supplies template
      then [(task_label task_id template ++ "requires at least "
             ++ Py.str_of_nat (min_isolated_supplies template)
             ++ " isolated power supplies, " ++ "but only "
             ++ Py.str_of_nat (n_isolated_supplies counts) ++ " found")%string]
      else []).

Definition _find_component_by_ref (snapshot : Snapshot) (r : string) : option Component :=
  find (fun comp => String.eqb (ref comp) r) (components snapshot).

(** [comp and comp.get('part_id') == part] for the component an endpoint
    names. *)
Definition endpoint_is_part (snapshot : Snapshot) (part : string) (ep : NetEndpoint) : bool :=
  match _find_component_by_ref snapshot (ep_ref ep) with
  | Some comp => String.eqb (part_id comp) part
  | None => false
  end.

Definition is_output_named (n : Net) : bool :=
  let net_name := Py.upper (name n) in
  Py.contains "VOUT" net_name || String.eqb net_name "OUT" || Py.contains "OUTPUT" net_name.

Definition _count_output_caps (snapshot : Snapshot) : nat :=
  fold_left
    (fun cap_count n =>
       if is_output_named n
       then cap_count + length (filter (endpoint_is_part snapshot "C") (endpoints n))
       else cap_count)
    (nets snapshot) 0.

Definition is_vbus_net (n : Net) : bool :=
  let net_name := Py.upper (name n) in
  (Py.contains "VBUS" net_name || Py.contains "VIN" net_name)
  && existsb (fun ep => Py.opt_eqb (ep_pin_role ep) (Some "mosfet_drain")) (endpoints n).

Definition COMPLEX_TASK_IDS : list Z := [17; 18; 19; 20; 21; 22; 23]%Z.

Definition _check_vbus_decoupling (snapshot : Snapshot) (task_id : Z) : list string :=
  flat_map
    (fun vbus_net =>
       let cap_count := length (filter (endpoint_is_part snapshot "C") (endpoints vbus_net)) in
       if existsb (Z.eqb task_id) COMPLEX_TASK_IDS && (cap_count <? 8)
       then [("VBUS net '" ++ name vbus_net ++ "' has only " ++ Py.str_of_nat cap_count
              ++ " decoupling capacitors. "
              ++ "High dv/dt applications MUST have at least 8 capacitors.")%string]
       else [])
    (filter is_vbus_net (nets snapshot)).

(* ================================================================== *)
(** ** system_topology_checker.py (the other templates) *)
(* ================================================================== *)

Definition _is_output_net : option string -> bool :=
  name_looks_like ["VOUT"; "OUT"; "VO"; "OUTPUT"].

(** A net of the power graph that ties at least two MOSFET pins, one of
    them a source and one a drain, to an inductor terminal. *)
Definition is_vsw_candidate (connections : list (string * string)) : bool :=
  let mosfet_pins := filter (fun c => Py.contains "mosfet" (snd c)) connections in
  let inductor_pins := filter (fun c => Py.contains "inductor" (snd c)) connections in
  (2 <=? length mosfet_pins) && (1 <=? length inductor_pins)
  && existsb (fun pin => Py.contains "source" (snd pin)) mosfet_pins
  && existsb (fun pin => Py.contains "drain" (snd pin)) mosfet_pins.

Definition vsw_candidates (power_graph : PowerGraph) : list string :=
  map fst (filter (fun e => is_vsw_candidate (snd e)) (power_nets power_graph)).

(** The loop that picks the high-side and the low-side MOSFET of the buck:
    the last MOSFET whose source is the switch node, and the last one
    whose drain is (and whose source is not). *)
Definition buck_pick (vsw_net : string) (st : option Info * option Info) (m : Info)
  : option Info * option Info :=
  if Py.opt_eqb (info_get m "source_net") (Some vsw_net) then (Some m, snd st)
  else if Py.opt_eqb (info_get m "drain_net") (Some vsw_net) then (fst st, Some m)
  else st.

Definition buck_inductor_errors (vsw_net : string) (ind : InductorInfo) : list string :=
  let term_a := terminal_a_net ind in
  let term_b := terminal_b_net ind in
  if Py.opt_eqb term_a (Some vsw_net) then
    if negb (_is_output_net term_b)
    then [("Inductor (" ++ ind_ref ind ++ ") terminal B (" ++ str_of_option term_b
           ++ ") should connect to " ++ "output (VOUT), but doesn't appear to")%string]
    else []
  else if Py.opt_eqb term_b (Some vsw_net) then
    if negb (_is_output_net term_a)
    then [("Inductor (" ++ ind_ref ind ++ ") terminal A (" ++ str_of_option term_a
           ++ ") should connect to " ++ "output (VOUT), but doesn't appear to")%string]
    else []
  else [("Inductor (" ++ ind_ref ind ++ ") is not connected to VSW (" ++ vsw_net ++ ")")%string].

Definition _verify_sync_buck (power_graph : PowerGraph) (snapshot : Snapshot) : list string :=
  if length (mosfets power_graph) <? 2 then ["Sync buck requires at least 2 MOSFETs"]
  else if length (inductors power_graph) <? 1 then ["Sync buck requires a power inductor"]
  else
    match vsw_candidates power_graph with
    | [] =>
        ["Cannot find VSW (switch node): Expected a net connecting HS MOSFET source, LS MOSFET drain, and inductor terminal"]
    | vsw_net :: _ =>
        let '(hs_mosfet, ls_mosfet) :=
          fold_left (buck_pick vsw_net) (mosfets power_graph) (None, None) in
        let errors :=
          (match hs_mosfet with
           | None =>
               [("Cannot identify high-side MOSFET: No MOSFET has source connected to VSW ("
                 ++ vsw_net ++ ")")%string]
           | Some _ => []
           end)
          ++ (match ls_mosfet with
              | None =>
                  [("Cannot identify low-side MOSFET: No MOSFET has drain connected to VSW ("
                    ++ vsw_net ++ ")")%string]
              | Some _ => []
              end) in
        match hs_mosfet, ls_mosfet with
        | Some hs_, Some ls_ =>
            let hs_drain := info_get_str hs_ "drain_net" in
            let ls_source := info_get_str ls_ "source_net" in
            errors
            ++ (if negb (_is_input_supply_net hs_drain)
                then [("HS MOSFET (" ++ str_of_option (info_get hs_ "ref") ++ ") drain ("
                       ++ str_of_option hs_drain ++ ") should connect to "
                       ++ "input supply (VIN/VBUS), but doesn't appear to")%string]
                else [])
            ++ (if negb (_is_ground_net ls_source)
                then [("LS MOSFET (" ++ str_of_option (info_get ls_ "ref") ++ ") source ("
                       ++ str_of_option ls_source ++ ") should connect to "
                       ++ "ground (GND/PGND), but doesn't appear to")%string]
                else [])
            ++ flat_map (buck_inductor_errors vsw_net) (inductors power_graph)
        | _, _ => errors
        end
    end.

(** One switch-node candidate of the boost: the errors that keep it from
    matching the topology. *)
Definition boost_local_errors (power_graph : PowerGraph) (vin_net vout_net : option string)
  (vsw_net : string) : list string :=
  let ls_ :=
    find (fun m => Py.opt_eqb (info_get m "drain_net") (Some vsw_net)
                   && _is_ground_net (info_get_str m "source_net"))
      (mosfets power_graph) in
  let hs_ :=
    find (fun m => Py.opt_eqb (info_get m "source_net") (Some vsw_net)
                   && (Py.opt_eqb (info_get m "drain_net") vout_net
                       || _is_output_net (info_get_str m "drain_net")))
      (mosfets power_graph) in
  (match ls_ with
   | None => [("Boost: cannot find low-side MOSFET with drain=VSW (" ++ vsw_net
               ++ ") and source=GND")%string]
   | Some _ => []
   end)
  ++ (match hs_ with
      | None => [("Boost: cannot find high-side MOSFET with source=VSW (" ++ vsw_net
                  ++ ") and drain=VOUT")%string]
      | Some _ => []
      end)
  ++ (if Py.truthy vin_net then
        if existsb
             (fun ind =>
                let a := terminal_a_net ind in
                let b := terminal_b_net ind in
                Py.truthy a && Py.truthy b
                && ((Py.opt_eqb a vin_net && Py.opt_eqb b (Some vsw_net))
                    || (Py.opt_eqb b vin_net && Py.opt_eqb a (Some vsw_net))))
             (inductors power_graph)
        then []
        else [("Boost: expected inductor between VIN (" ++ str_of_option vin_net
               ++ ") and VSW (" ++ vsw_net ++ ")")%string]
      else ["Boost: cannot find VIN net in snapshot (expected Net('VIN'))"]).

(** The loop over the candidates: [None] once a candidate matches,
    otherwise the errors of the first candidate ([best_error]). *)
Fixpoint boost_scan (power_graph : PowerGraph) (vin_net vout_net : option string)
  (candidates : list string) (best_error : option (list string))
  : option (option (list string)) :=
  match candidates with
  | [] => Some best_error
  | vsw_net :: rest =>
      match boost_local_errors power_graph vin_net vout_net vsw_net with
      | [] => None
      | local_errors =>
          boost_scan power_graph vin_net vout_net rest
            (match best_error with
             | None => Some local_errors
             | Some _ => best_error
             end)
      end
  end.

Definition _verify_sync_boost (power_graph : PowerGraph) (snapshot : Snapshot) : list string :=
  if length (mosfets power_graph) <? 2 then ["Sync boost requires at least 2 MOSFETs"]
  else if length (inductors power_graph) <? 1 then ["Sync boost requires a power inductor"]
  else
    match vsw_candidates power_graph with
    | [] => ["Cannot find VSW (switch node): Expected a net connecting 2 MOSFETs and inductor"]
    | candidates =>
        let vin_net := _resolve_named_net snapshot "VIN" in
        let vout_net := _resolve_named_net snapshot "VOUT" in
        match boost_scan power_graph vin_net vout_net candidates None with
        | None => []
        | Some (Some (e :: es)) => e :: es
        | Some _ =>
            [("Boost: VSW candidates found (" ++ Py.repr_list candidates
              ++ ") but none match boost topology")%string]
        end
    end.

(** [find_hb] of [_verify_4sw_buckboost]: both MOSFETs of a half bridge on
    [vsw] hanging from [expected_bus_net] were found. *)
Definition find_hb (power_graph : PowerGraph) (vsw_ : string)
  (expected_bus_net : option string) : bool :=
  existsb (fun m => Py.opt_eqb (info_get m "source_net") (Some vsw_)
                    && Py.opt_eqb (info_get m "drain_net") expected_bus_net)
    (mosfets power_graph)
  && existsb (fun m => Py.opt_eqb (info_get m "drain_net") (Some vsw_)
                       && _is_ground_net (info_get_str m "source_net"))
       (mosfets power_graph).

Definition buckboost_pair (power_graph : PowerGraph) (vin_net vout_net : option string)
  (a b : string) : bool :=
  negb (String.eqb a b)
  && (Py.truthy vin_net && find_hb power_graph a vin_net)
  && find_hb power_graph b vout_net
  && existsb
       (fun ind =>
          (Py.opt_eqb (terminal_a_net ind) (Some a) && Py.opt_eqb (terminal_b_net ind) (Some b))
          || (Py.opt_eqb (terminal_a_net ind) (Some b)
              && Py.opt_eqb (terminal_b_net ind) (Some a)))
       (inductors power_graph).

Definition _verify_4sw_buckboost (power_graph : PowerGraph) (snapshot : Snapshot)
  : list string :=
  if length (mosfets power_graph) <? 4 then ["4-switch buck-boost requires at least 4 MOSFETs"]
  else if length (inductors power_graph) <? 1
  then ["4-switch buck-boost requires a power inductor between the two switch nodes"]
  else
    let vin_net := _resolve_named_net snapshot "VIN" in
    let vout_net := _resolve_named_net snapshot "VOUT" in
    if negb (Py.truthy vout_net) then ["4-switch buck-boost expects an output net named VOUT"]
    else
      let candidates := vsw_candidates power_graph in
      if length candidates <? 2
      then ["4-switch buck-boost: cannot find two switch nodes (VSW): expected two nets each tying HS source + LS drain + inductor terminal"]
      else if existsb
                (fun a => existsb (buckboost_pair power_graph vin_net vout_net a) candidates)
                candidates
      then []
      else ["4-switch buck-boost: expected two half-bridges (VIN-side and VOUT-side) with an inductor between their switch nodes"].

(** [_verify_llc] up to the tank requirement, as [dab_input_bridge] is for
    the DAB: the same steps under the LLC's messages. *)
Definition llc_input_bridge (power_graph : PowerGraph) (snapshot : Snapshot)
  : list string + (list string * list (option string)) :=
  if length (mosfets power_graph) <? 8
  then inl ["LLC requires at least 8 MOSFETs (full-bridge primary + full-bridge secondary)"]
  else
    match transformers power_graph with
    | [] => inl ["LLC requires a transformer"]
    | xfmr :: _ =>
        let pri1 := info_get xfmr "pri1_net" in
        let pri2 := info_get xfmr "pri2_net" in
        let sec1 := info_get xfmr "sec1_net" in
        let sec2 := info_get xfmr "sec2_net" in
        if negb (forallb Py.truthy [pri1; pri2; sec1; sec2])
        then inl ["LLC: transformer primary/secondary nets are incomplete (check transformer pin wiring)"]
        else
          let vsw_1 := _resolve_named_net snapshot "VSW_1" in
          let vsw_2 := _resolve_named_net snapshot "VSW_2" in
          if negb (Py.truthy vsw_1) || negb (Py.truthy vsw_2)
          then inl ["LLC: expected named ports VSW_1 and VSW_2"]
          else
            match _infer_full_bridge_from_vsw (mosfets power_graph) [vsw_1; vsw_2] with
            | (_, (_ :: _) as out_errs) =>
                inl (map (fun e => ("LLC: output bridge: " ++ e)%string) out_errs)
            | (None, []) => inl [] (* unreachable *)
            | (Some output_bridge, []) =>
                let pri_terms := (pri1, pri2) in
                let sec_terms := (sec1, sec2) in
                match _bridge_transformer_side snapshot (vsw_nodes output_bridge)
                        pri_terms sec_terms PATH_PART_IDS with
                | SideNone =>
                    inl [("LLC: output bridge switch nodes (" ++ str_of_option vsw_1 ++ ", "
                          ++ str_of_option vsw_2 ++ ") are not connected to transformer (pri="
                          ++ repr_terms pri_terms ++ ", sec=" ++ repr_terms sec_terms
                          ++ ")")%string]
                | out_side =>
                    let other_terms :=
                      match out_side with
                      | SidePri => sec_terms
                      | _ => pri_terms
                      end in
                    match _infer_other_bridge_connected_to_terms snapshot
                            (mosfets power_graph) (bus output_bridge, gnd output_bridge)
                            other_terms PATH_PART_IDS with
                    | (_, (_ :: _) as other_errs) =>
                        inl (map (fun e => ("LLC: " ++ e)%string) other_errs)
                    | (None, []) => inl [] (* unreachable *)
                    | (Some other_bridge, []) =>
                        match _select_input_bridge snapshot [output_bridge; other_bridge] with
                        | (_, (_ :: _) as input_errs) =>
                            inl (map (fun e => ("LLC: " ++ e)%string) input_errs)
                        | (None, []) => inl [] (* unreachable *)
                        | (Some input_bridge, []) =>
                            match _bridge_transformer_side snapshot (vsw_nodes input_bridge)
                                    pri_terms sec_terms PATH_PART_IDS with
                            | SideNone =>
                                inl ["LLC: input bridge is not connected to transformer (unexpected wiring)"]
                            | SidePri => inr (vsw_nodes input_bridge, [pri1; pri2])
                            | _ => inr (vsw_nodes input_bridge, [sec1; sec2])
                            end
                        end
                    end
                end
            end
    end.

(** [_verify_llc]: unlike the DAB, each switch node of the input bridge
    must reach the transformer through the tank on its own. *)
Definition _verify_llc (power_graph : PowerGraph) (snapshot : Snapshot) : list string :=
  match llc_input_bridge power_graph snapshot with
  | inl errors => errors
  | inr (starts, target_terms) =>
      flat_map
        (fun vsw_ =>
           if negb (_exists_required_tank_path snapshot [Some vsw_] target_terms true true
                      PATH_PART_IDS)
           then [("LLC: resonant tank missing between " ++ vsw_
                  ++ " and transformer (need C_film + inductor)")%string]
           else [])
        starts
  end.

(** The first loop of [_infer_multi_half_bridges]: the half bridges found
    and the errors, one line per switch node. *)
Definition multi_half_bridge_step (mosfets_ : list Info)
  (st : list HalfBridge * list string) (vsw_ : option string)
  : list HalfBridge * list string :=
  let '(hb, hb_errs) := _infer_half_bridge_on_vsw mosfets_ vsw_ in
  let errors :=
    match hb_errs with
    | [] => snd st
    | _ => snd st ++ [(str_of_option vsw_ ++ ": " ++ String.concat "; " hb_errs)%string]
    end in
  match hb with
  | Some b => (fst st ++ [b], errors)
  | None => (fst st, errors)
  end.

(** [_infer_multi_half_bridges].  The result is [None] where Python raises
    ([half_bridges[0]] on an empty list of switch nodes); otherwise the
    common bus and ground, when every switch node has its half bridge, and
    the errors. *)
Definition _infer_multi_half_bridges (mosfets_ : list Info) (vsw_nets : list (option string))
  (require_input_bus : bool) : option (option (string * string) * list string) :=
  let '(half_bridges_, errors) :=
    fold_left (multi_half_bridge_step mosfets_) vsw_nets ([], []) in
  if negb (length half_bridges_ =? length vsw_nets) then Some (None, errors)
  else
    match half_bridges_ with
    | [] => None
    | first :: rest =>
        let bus_ := hb_bus first in
        let gnd_ := hb_gnd first in
        let errors :=
          errors
          ++ flat_map
               (fun b =>
                  if negb (String.eqb (hb_bus b) bus_) || negb (String.eqb (hb_gnd b) gnd_)
                  then [("half-bridges do not share common bus/gnd (expected " ++ bus_ ++ "/"
                         ++ gnd_ ++ ", got " ++ hb_bus b ++ "/" ++ hb_gnd b ++ ")")%string]
                  else [])
               rest in
        let errors :=
          if require_input_bus && negb (_is_input_supply_net (Some bus_))
          then errors ++ [("bus net (" ++ bus_
                           ++ ") does not look like an input supply (VIN/VBUS/...)")%string]
          else errors in
        Some (Some (bus_, gnd_), errors)
    end.

Definition _verify_3ph_inverter (power_graph : PowerGraph) (snapshot : Snapshot)
  : list string :=
  if length (mosfets power_graph) <? 6 then ["3-phase inverter requires at least 6 MOSFETs"]
  else
    let vsw_1 := _resolve_named_net snapshot "VSW_1" in
    let vsw_2 := _resolve_named_net snapshot "VSW_2" in
    let vsw_3 := _resolve_named_net snapshot "VSW_3" in
    match filter (fun n => negb (Py.truthy n)) [vsw_1; vsw_2; vsw_3] with
    | _ :: _ => ["3-phase inverter: expected output nets named VSW_1, VSW_2, VSW_3"]
    | [] =>
        match _infer_multi_half_bridges (mosfets power_graph) [vsw_1; vsw_2; vsw_3] true with
        | Some (_, hb_errs) => map (fun e => ("3-phase inverter: " ++ e)%string) hb_errs
        | None => [] (* unreachable: three switch nodes are passed *)
        end
    end.

Definition _verify_1ph_fullbridge (power_graph : PowerGraph) (snapshot : Snapshot)
  : list string :=
  if length (mosfets power_graph) <? 4
  then ["Single-phase full-bridge requires at least 4 MOSFETs"]
  else
    let vsw_1 := _resolve_named_net snapshot "VSW_1" in
    let vsw_2 := _resolve_named_net snapshot "VSW_2" in
    if negb (Py.truthy vsw_1) || negb (Py.truthy vsw_2)
    then ["Single-phase inverter: expected output nets named VSW_1 and VSW_2"]
    else
      match _infer_multi_half_bridges (mosfets power_graph) [vsw_1; vsw_2] true with
      | Some (_, hb_errs) => map (fun e => ("Single-phase inverter: " ++ e)%string) hb_errs
      | None => [] (* unreachable: two switch nodes are passed *)
      end.

Definition _verify_power_topology (snapshot : Snapshot) (topology_type_ : string)
  (kg_store : option KGStore) : list string :=
  let power_graph := _build_power_graph snapshot kg_store in
  if String.eqb topology_type_ "sync_buck" then _verify_sync_buck power_graph snapshot
  else if String.eqb topology_type_ "sync_boost" then _verify_sync_boost power_graph snapshot
  else if String.eqb topology_type_ "4sw_buckboost"
  then _verify_4sw_buckboost power_graph snapshot
  else if String.eqb topology_type_ "dab" then _verify_dab power_graph snapshot
  else if String.eqb topology_type_ "llc" then _verify_llc power_graph snapshot
  else if String.eqb topology_type_ "3ph_inverter"
  then _verify_3ph_inverter power_graph snapshot
  else if String.eqb topology_type_ "1ph_fullbridge"
  then _verify_1ph_fullbridge power_graph snapshot
  else [].

Definition check_system_topology (snapshot : Snapshot) (task_id : Z)
  (kg_store : option KGStore) : list string :=
  match get_task_template task_id with
  | None => []
  | Some template =>
      let counts := _count_components snapshot in
      let label := task_label task_id template in
      _check_component_counts counts template task_id
      ++ (if requires_transformer template && (n_transformers counts =? 0)
          then [(label ++ "requires a transformer " ++ "but none found")%string]
          else [])
      ++ (if requires_resonant_cap template && (n_film_caps counts =? 0)
          then [(label ++ "requires film capacitors "
                 ++ "for resonant tank, but none found")%string]
          else [])
      ++ (if requires_resonant_inductor template
             && (n_power_inductors counts =? 0) && (n_inductors counts =? 0)
          then [(label ++ "requires power inductor "
                 ++ "(Inductor_power or L) for resonant tank, but none found")%string]
          else [])
      ++ (if requires_blocking_cap template && (n_film_caps counts =? 0)
          then [(label ++ "requires blocking capacitors "
                 ++ "in series with transformer, but none found")%string]
          else [])
      ++ (if requires_inductor template && (n_power_inductors counts =? 0)
          then [(label ++ "requires a power inductor " ++ "but none found")%string]
          else [])
      ++ (if 0 <? min_output_caps template
          then
            let vout_cap_count := _count_output_caps snapshot in
            if vout_cap_count <? min_output_caps template
            then [(label ++ "requires at least " ++ Py.str_of_nat (min_output_caps template)
                   ++ " output capacitors, " ++ "but only "
                   ++ Py.str_of_nat vout_cap_count ++ " found on VOUT nets")%string]
            else []
          else [])
      ++ _check_vbus_decoupling snapshot task_id
      ++ (if Py.truthy (Some (topology_type template))
          then _verify_power_topology snapshot (topology_type template) kg_store
          else [])
  end.

(* ================================================================== *)
(** ** interface_checker.py *)
(* ================================================================== *)

Definition ISOLATED_GATE_DRIVERS : list string := ["UCC5390E"; "UCC21710"].
Definition BOOTSTRAP_GATE_DRIVERS : list string := ["UCC27211"].
Definition LOW_SIDE_GATE_DRIVERS : list string := ["UCC27511"].
Definition ALL_GATE_DRIVERS : list string :=
  ISOLATED_GATE_DRIVERS ++ BOOTSTRAP_GATE_DRIVERS ++ LOW_SIDE_GATE_DRIVERS.
Definition ISOLATED_SUPPLIES : list string := ["MGJ2D121505SC"].

Definition _find_gate_drivers (snapshot : Snapshot) : list Component :=
  filter (fun comp => Py.mem (part_id comp) ALL_GATE_DRIVERS) (components snapshot).

Definition _is_mosfet (part : string) : bool :=
  Py.any_contains MOSFET_PATTERNS (Py.upper part).

Definition _find_mosfets (snapshot : Snapshot) : list Component :=
  filter (fun comp => _is_mosfet (part_id comp)) (components snapshot).

Definition _find_isolated_supplies (snapshot : Snapshot) : list Component :=
  filter (fun comp => Py.mem (part_id comp) ISOLATED_SUPPLIES) (components snapshot).

(** [_get_pin_net]: the net of the first pin whose id or name is the key;
    [None] when there is no such pin, or when the pin has no net. *)
Definition _get_pin_net (comp : Component) (pin_id_or_name : string) : option string :=
  match find (fun p => String.eqb (pin_id p) pin_id_or_name
                       || String.eqb (pin_name p) pin_id_or_name) (pins comp) with
  | Some p => net p
  | None => None
  end.

Definition _is_not_connected (n : option string) : bool :=
  match n with
  | Some s => negb (Py.truthy n) || Py.mem s ["NC"; "__NOCONNECT"; "NOCONNECT"]
  | None => true
  end.

(** [index['nets'].get(name)]: the index keeps the last net of a name. *)
Definition index_net (snapshot : Snapshot) (net_name : string) : option Net :=
  find (fun n => String.eqb (name n) net_name) (List.rev (nets snapshot)).

(** [index['nets'].get(name, {}).get('endpoints', [])] *)
Definition net_endpoints_of (snapshot : Snapshot) (net_name : string) : list NetEndpoint :=
  match index_net snapshot net_name with
  | Some n => endpoints n
  | None => []
  end.

(** The first pin of the knowledge-graph entry that carries [role]. *)
Definition kg_pin_with_role (kg_store : option KGStore) (part : string) (role : string)
  : option string :=
  match kg_store with
  | Some kg =>
      match get_component kg part with
      | Some comp => option_map fst (find (fun e => String.eqb (snd e) role) (kg_pin_roles comp))
      | None => None
      end
  | None => None
  end.

Definition _get_mosfet_gate_pin (part : string) (kg_store : option KGStore) : option string :=
  match kg_pin_with_role kg_store part "mosfet_gate" with
  | Some pin => Some pin
  | None =>
      if String.eqb part "IMZA65R015M2H" then Some "4"
      else if String.eqb part "IMT65R033M2H" then Some "1"
      else if String.eqb part "IMLT65R015M2H" then Some "8"
      else if String.eqb part "IMW65R015M2H" then Some "1"
      else if String.eqb part "BSC052N08NS5" then Some "4"
      else None
  end.

Definition _get_mosfet_ks_pin (part : string) (kg_store : option KGStore) : option string :=
  match kg_pin_with_role kg_store part "mosfet_kelvin_source" with
  | Some pin => Some pin
  | None =>
      if String.eqb part "IMZA65R015M2H" then Some "3"
      else if String.eqb part "IMT65R033M2H" then Some "2"
      else if String.eqb part "IMLT65R015M2H" then Some "7"
      else None
  end.

Definition _get_mosfet_source_pins (part : string) (kg_store : option KGStore) : list string :=
  match kg_store with
  | Some kg =>
      match get_component kg part with
      | Some comp =>
          map fst (filter (fun e => String.eqb (snd e) "mosfet_source") (kg_pin_roles comp))
      | None => []
      end
  | None => []
  end.

Definition _get_driver_output_pins (part : string) : list string :=
  if String.eqb part "UCC5390E" then ["6"]
  else if String.eqb part "UCC21710" then ["4"; "6"]
  else if String.eqb part "UCC27211" then ["3"; "8"]
  else if String.eqb part "UCC27511" then ["2"; "3"]
  else [].

Definition _get_driver_gnd2_pin (part : string) : option string :=
  if String.eqb part "UCC5390E" then Some "7"
  else if String.eqb part "UCC21710" then Some "3"
  else None.

(** The nets that carry a MOSFET gate: the keys of [mosfet_gate_nets]. *)
Definition mosfet_gate_nets (mosfets_ : list Component) (kg_store : option KGStore)
  : Py.strset :=
  fold_left
    (fun acc mosfet =>
       match _get_mosfet_gate_pin (part_id mosfet) kg_store with
       | Some gate_pin =>
           if Py.truthy (Some gate_pin) then
             match _get_pin_net mosfet gate_pin with
             | Some gate_net =>
                 if Py.truthy (Some gate_net) && negb (String.eqb gate_net "NC")
                 then PySet.add gate_net acc
                 else acc
             | None => acc
             end
           else acc
       | None => acc
       end)
    mosfets_ [].

(** The search state of [_check_path_to_mosfet_gate]: whether a gate net
    was reached, the queue and the visited nets. *)
Definition GateSearch := (bool * list string * Py.strset)%type.

Definition gate_path_pin (gate_nets : Py.strset) (current_net : string) (st : GateSearch)
  (p : Pin) : GateSearch :=
  let '(found, queue, visited) := st in
  if found then st
  else
    match net p with
    | Some other_net =>
        if Py.truthy (Some other_net) && negb (String.eqb other_net current_net)
           && negb (PySet.mem other_net visited)
        then
          if PySet.mem other_net gate_nets then (true, queue, visited)
          else (false, queue ++ [other_net], PySet.add other_net visited)
        else st
    | None => st
    end.

Definition gate_path_endpoint (snapshot : Snapshot) (gate_nets : Py.strset)
  (current_net : string) (st : GateSearch) (ep : NetEndpoint) : GateSearch :=
  if fst (fst st) then st
  else
    match _find_component_by_ref snapshot (ep_ref ep) with
    | Some comp =>
        if Py.mem (part_id comp) ["R"; "D"]
        then fold_left (gate_path_pin gate_nets current_net) (pins comp) st
        else st
    | None => st
    end.

Fixpoint gate_path_loop (fuel : nat) (snapshot : Snapshot) (gate_nets : Py.strset)
  (queue : list string) (visited : Py.strset) : option bool :=
  match fuel with
  | 0 => None
  | S fuel' =>
      match queue with
      | [] => Some false
      | current_net :: rest =>
          let '(found, queue', visited') :=
            fold_left (gate_path_endpoint snapshot gate_nets current_net)
              (net_endpoints_of snapshot current_net) (false, rest, visited) in
          if found then Some true
          else gate_path_loop fuel' snapshot gate_nets queue' visited'
      end
  end.

(** All nets that pins sit on: a net enters the queue once, when a pin on
    it is first seen. *)
Definition pin_nets_all (snapshot : Snapshot) : list string :=
  flat_map
    (fun comp => flat_map (fun p => match net p with Some n => [n] | None => [] end)
                   (pins comp))
    (components snapshot).

Definition gate_path_fuel (snapshot : Snapshot) : nat :=
  S (S (length (pin_nets_all snapshot))).

(** [_check_path_to_mosfet_gate].  The iteration bound is never reached
    ([gate_path_loop_terminates]). *)
Definition _check_path_to_mosfet_gate (start_net : string) (gate_nets : Py.strset)
  (snapshot : Snapshot) : bool :=
  if PySet.mem start_net gate_nets then true
  else
    match gate_path_loop (gate_path_fuel snapshot) snapshot gate_nets [start_net]
            (PySet.add start_net []) with
    | Some found => found
    | None => false
    end.

Definition _check_gate_driver_to_mosfet (snapshot : Snapshot)
  (gate_drivers mosfets_ : list Component) (kg_store : option KGStore) : list string :=
  let gate_nets := mosfet_gate_nets mosfets_ kg_store in
  flat_map
    (fun driver =>
       flat_map
         (fun out_pin =>
            let out_net := _get_pin_net driver out_pin in
            match out_net with
            | Some n =>
                if _is_not_connected out_net
                then [(ref driver ++ ": Gate driver output pin " ++ out_pin
                       ++ " not connected")%string]
                else if negb (_check_path_to_mosfet_gate n gate_nets snapshot)
                then [(ref driver ++ ": Gate driver output (pin " ++ out_pin ++ ", net '"
                       ++ n ++ "') " ++ "does not connect to any MOSFET gate")%string]
                else []
            | None =>
                [(ref driver ++ ": Gate driver output pin " ++ out_pin
                  ++ " not connected")%string]
            end)
         (_get_driver_output_pins (part_id driver)))
    gate_drivers.

Definition _check_gate_resistors (snapshot : Snapshot) (gate_drivers : list Component)
  : list string :=
  flat_map
    (fun driver =>
       flat_map
         (fun out_pin =>
            let out_net := _get_pin_net driver out_pin in
            match out_net with
            | Some n =>
                if _is_not_connected out_net then []
                else
                  let eps := net_endpoints_of snapshot n in
                  if existsb (endpoint_is_part snapshot "R") eps then []
                  else
                    flat_map
                      (fun ep =>
                         match _find_component_by_ref snapshot (ep_ref ep) with
                         | Some comp =>
                             if _is_mosfet (part_id comp)
                             then [(ref driver ++ ": Gate driver output (pin " ++ out_pin
                                    ++ ") connects " ++ "directly to MOSFET " ++ ep_ref ep
                                    ++ " without gate resistor")%string]
                             else []
                         | None => []
                         end)
                      eps
            | None => []
            end)
         (_get_driver_output_pins (part_id driver)))
    gate_drivers.

(** [ks_nets] (its keys) and [power_source_nets] (net to the reference of
    the last MOSFET with a source pin on it). *)
Definition connected_pin_net (comp : Component) (pin_key : string) : option string :=
  match _get_pin_net comp pin_key with
  | Some n => if Py.truthy (Some n) && negb (String.eqb n "NC") then Some n else None
  | None => None
  end.

Definition kelvin_maps (mosfets_ : list Component) (kg_store : option KGStore)
  : Py.strset * Py.dict string :=
  fold_left
    (fun '(ks_nets, power_source_nets) mosfet =>
       let ks_nets :=
         match _get_mosfet_ks_pin (part_id mosfet) kg_store with
         | Some ks_pin =>
             if Py.truthy (Some ks_pin) then
               match connected_pin_net mosfet ks_pin with
               | Some ks_net => PySet.add ks_net ks_nets
               | None => ks_nets
               end
             else ks_nets
         | None => ks_nets
         end in
       let power_source_nets :=
         fold_left
           (fun m src_pin =>
              match connected_pin_net mosfet src_pin with
              | Some src_net => Py.dict_update m src_net EmptyString (fun _ => ref mosfet)
              | None => m
              end)
           (_get_mosfet_source_pins (part_id mosfet) kg_store) power_source_nets in
       (ks_nets, power_source_nets))
    mosfets_ ([], []).

Definition _check_kelvin_source_connections (snapshot : Snapshot)
  (gate_drivers mosfets_ : list Component) (kg_store : option KGStore) : list string :=
  let '(ks_nets, power_source_nets) := kelvin_maps mosfets_ kg_store in
  flat_map
    (fun driver =>
       if negb (Py.mem (part_id driver) ISOLATED_GATE_DRIVERS) then []
       else
         match _get_driver_gnd2_pin (part_id driver) with
         | None => []
         | Some gnd2_pin =>
             let gnd2_net := _get_pin_net driver gnd2_pin in
             match gnd2_net with
             | Some n =>
                 if _is_not_connected gnd2_net
                 then [(ref driver ++ ": Isolated gate driver GND2 (pin " ++ gnd2_pin
                        ++ ") not connected")%string]
                 else if PySet.mem n ks_nets then []
                 else
                   match Py.dict_get power_source_nets n with
                   | Some mosfet_ref =>
                       match _find_component_by_ref snapshot mosfet_ref with
                       | Some mosfet =>
                           match _get_mosfet_ks_pin (part_id mosfet) kg_store with
                           | Some ks_pin =>
                               if Py.truthy (Some ks_pin)
                               then [(ref driver
                                      ++ ": Gate driver GND2 connects to power Source of "
                                      ++ mosfet_ref ++ ", "
                                      ++ "but should connect to Kelvin Source (pin " ++ ks_pin
                                      ++ ") to avoid " ++ "common-source inductance")%string]
                               else []
                           | None => []
                           end
                       | None => []
                       end
                   | None => []
                   end
             | None =>
                 [(ref driver ++ ": Isolated gate driver GND2 (pin " ++ gnd2_pin
                   ++ ") not connected")%string]
             end
         end)
    gate_drivers.

Definition _check_isolated_supply_connections (iso_supplies : list Component) : list string :=
  flat_map
    (fun supply =>
       if String.eqb (part_id supply) "MGJ2D121505SC" then
         (if _is_not_connected (_get_pin_net supply "7")
          then [(ref supply ++ ": +VOUT (pin 7) not connected")%string] else [])
         ++ (if _is_not_connected (_get_pin_net supply "6")
             then [(ref supply ++ ": 0V (pin 6) not connected")%string] else [])
         ++ (if _is_not_connected (_get_pin_net supply "5")
             then [(ref supply ++ ": -VOUT (pin 5) not connected")%string] else [])
       else [])
    iso_supplies.

(** The references of the capacitors among the endpoints of a net. *)
Definition cap_refs_on (snapshot : Snapshot) (net_name : string) : Py.strset :=
  Py.set_of_list
    (map ep_ref (filter (endpoint_is_part snapshot "C") (net_endpoints_of snapshot net_name))).

Definition _check_bootstrap_connections (snapshot : Snapshot) (gate_drivers : list Component)
  : list string :=
  flat_map
    (fun driver =>
       if negb (String.eqb (part_id driver) "UCC27211") then []
       else
         let hb_net := _get_pin_net driver "2" in
         let hs_net := _get_pin_net driver "4" in
         if _is_not_connected hb_net
         then [(ref driver ++ ": Bootstrap pin HB (pin 2) not connected")%string]
         else if _is_not_connected hs_net
         then [(ref driver ++ ": Switch node HS (pin 4) not connected")%string]
         else
           match PySet.inter (cap_refs_on snapshot (str_of_option hb_net))
                   (cap_refs_on snapshot (str_of_option hs_net)) with
           | [] =>
               [(ref driver ++ ": No bootstrap capacitor found between HB (pin 2, net "
                 ++ str_of_option hb_net ++ ") " ++ "and HS (pin 4, net "
                 ++ str_of_option hs_net ++ ")")%string]
           | _ => []
           end)
    gate_drivers.

Definition check_interfaces (snapshot : Snapshot) (kg_store : option KGStore) : list string :=
  let gate_drivers := _find_gate_drivers snapshot in
  let mosfets_ := _find_mosfets snapshot in
  let iso_supplies := _find_isolated_supplies snapshot in
  _check_gate_driver_to_mosfet snapshot gate_drivers mosfets_ kg_store
  ++ _check_gate_resistors snapshot gate_drivers
  ++ _check_kelvin_source_connections snapshot gate_drivers mosfets_ kg_store
  ++ _check_isolated_supply_connections iso_supplies
  ++ _check_bootstrap_connections snapshot gate_drivers.

(* ================================================================== *)
(** ** phase2_checks.py *)
(* ================================================================== *)

Definition GATE_FLOAT_TASKS : list Z := [8; 9; 10; 11; 12]%Z.
Definition STRICT_HALFBRIDGE_TASKS : list Z := [8; 9; 10; 11; 12]%Z.
Definition KS_SOURCE_RLC_TASKS : list Z := [9; 10; 11]%Z.

Definition task_in (task_id : option Z) (tasks : list Z) : bool :=
  match task_id with
  | Some t => existsb (Z.eqb t) tasks
  | None => false
  end.

(** [_find_pin]: the first pin whose id or name is the key. *)
Definition _find_pin (comp : Component) (pin_key : string) : option Pin :=
  find (fun p => String.eqb (pin_id p) pin_key || String.eqb (pin_name p) pin_key) (pins comp).

Definition no_connect_names : list string := ["NC"; "__NOCONNECT"].

(** A net value that is a usable net: set, and neither NC nor __NOCONNECT
    in any letter case. *)
Definition net_connected (o : option string) : bool :=
  match o with
  | Some n => Py.truthy o && negb (Py.mem (Py.upper n) no_connect_names)
  | None => false
  end.

Definition _is_connected (pin_info : Pin) : bool := net_connected (net pin_info).

Definition _find_pin_by_role (comp : Component) (role : string) : option Pin :=
  find (fun p => Py.opt_eqb (pin_role p) (Some role)) (pins comp).

Definition _is_passive_type (comp : Component) (passive_type : string) : bool :=
  if String.eqb (Py.strip (part_id comp)) passive_type then true
  else if negb (Py.opt_eqb (category comp) (Some "passive")) then false
  else String.eqb (Py.upper (Py.first1 (Py.strip (ref comp)))) passive_type.

(** [len(nets.get(net_name, {}).get("endpoints", []))] on the index
    [{n["name"]: n}], where the last net of a name wins. *)
Definition endpoint_count (snapshot : Snapshot) (net_name : option string) : nat :=
  match net_name with
  | Some nm =>
      match find (fun n => String.eqb (name n) nm) (List.rev (nets snapshot)) with
      | Some n => length (endpoints n)
      | None => 0
      end
  | None => 0
  end.

(** [{pin.get("net") for pin in pins if keep(pin)}]; the nets added are
    those of pins that have one. *)
Definition pin_net_set (keep : Pin -> bool) (comp : Component) : Py.strset :=
  fold_left
    (fun acc p =>
       if keep p then
         match net p with
         | Some n => PySet.add n acc
         | None => acc
         end
       else acc)
    (pins comp) [].

Definition has_net (p : Pin) : bool := Py.truthy (net p).
Definition has_role_pin (role : string) (p : Pin) : bool :=
  Py.opt_eqb (pin_role p) (Some role).

Definition check_constraint (snapshot : Snapshot) (allow_gate_float : bool)
  (comp : Component) (c : GenericConstraint) : list string :=
  let r := ref comp in
  match c with
  | MustBeConnected pins_ =>
      flat_map
        (fun pk =>
           match _find_pin comp (str_of_pinkey pk) with
           | None => []
           | Some pin_info =>
               if negb (_is_connected pin_info)
               then [(r ++ ": pin " ++ str_of_pinkey pk ++ " is unconnected")%string]
               else []
           end)
        pins_
  | SupplyPair vdd_pin gnd_pin =>
      let vdd_info := _find_pin comp (str_of_pinkey vdd_pin) in
      let gnd_info := _find_pin comp (str_of_pinkey gnd_pin) in
      let connected o := match o with Some p => _is_connected p | None => false end in
      (if negb (connected vdd_info)
       then [(r ++ ": supply pin " ++ str_of_pinkey vdd_pin ++ " missing net")%string]
       else [])
      ++ (if negb (connected gnd_info)
          then [(r ++ ": ground pin " ++ str_of_pinkey gnd_pin ++ " missing net")%string]
          else [])
      ++ match vdd_info, gnd_info with
         | Some v, Some g =>
             if _is_connected v && _is_connected g && Py.opt_eqb (net v) (net g)
             then [(r ++ ": supply pair shorted (" ++ str_of_pinkey vdd_pin ++ " and "
                    ++ str_of_pinkey gnd_pin ++ " on " ++ str_of_option (net v) ++ ")")%string]
             else []
         | _, _ => []
         end
  | DifferentialPairMustBeDistinct pins_ =>
      match pins_ with
      | pk0 :: pk1 :: _ =>
          match _find_pin comp (str_of_pinkey pk0), _find_pin comp (str_of_pinkey pk1) with
          | Some pin_a, Some pin_b =>
              if _is_connected pin_a && _is_connected pin_b
                 && Py.opt_eqb (net pin_a) (net pin_b)
              then [(r ++ ": differential pins on same net (" ++ str_of_pinkey pk0 ++ "="
                     ++ str_of_option (net pin_a) ++ ")")%string]
              else []
          | _, _ => []
          end
      | _ => []
      end
  | DrivingPair gate_pin _ =>
      match _find_pin comp (str_of_pinkey gate_pin) with
      | Some gate_info =>
          if _is_connected gate_info then
            if negb allow_gate_float && (endpoint_count snapshot (net gate_info) <=? 1)
            then [(r ++ ": gate net appears floating (" ++ str_of_pinkey gate_pin ++ " on "
                   ++ str_of_option (net gate_info) ++ ")")%string]
            else []
          else [(r ++ ": gate pin " ++ str_of_pinkey gate_pin ++ " missing net")%string]
      | None => [(r ++ ": gate pin " ++ str_of_pinkey gate_pin ++ " missing net")%string]
      end
  | OtherConstraint _ => []
  end.

Definition _check_acs37010_vref (snapshot : Snapshot) : list string :=
  flat_map
    (fun comp =>
       if negb (String.eqb (part_id comp) "ACS37010") then []
       else
         match _find_pin comp "VREF", _find_pin comp "GND" with
         | Some vref_info, Some gnd_info =>
             if Py.truthy (net vref_info) && Py.truthy (net gnd_info)
                && Py.opt_eqb (net vref_info) (net gnd_info)
             then [(ref comp ++ ": VREF should not be tied to GND")%string]
             else []
         | _, _ => []
         end)
    (components snapshot).

(** The shape shared by [_check_acs37010_ip_short] and
    [_check_mgj2d_vin_short]: two named pins of one part must not share a
    net. *)
Definition check_pin_short (snapshot : Snapshot) (part pin_p pin_m : string) : list string :=
  flat_map
    (fun comp =>
       if negb (String.eqb (part_id comp) part) then []
       else
         match _find_pin comp pin_p, _find_pin comp pin_m with
         | Some p, Some m =>
             if _is_connected p && _is_connected m && Py.opt_eqb (net p) (net m)
             then [(ref comp ++ ": " ++ pin_p ++ " and " ++ pin_m ++ " must not be shorted ("
                    ++ str_of_option (net p) ++ ")")%string]
             else []
         | _, _ => []
         end)
    (components snapshot).

Definition _check_acs37010_ip_short (snapshot : Snapshot) : list string :=
  check_pin_short snapshot "ACS37010" "IP+" "IP-".

Definition _check_mgj2d_vin_short (snapshot : Snapshot) : list string :=
  check_pin_short snapshot "MGJ2D121505SC" "+VIN" "-VIN".

Definition _check_kelvin_source_short (snapshot : Snapshot) : list string :=
  flat_map
    (fun comp =>
       let kelvin_pins := filter (has_role_pin "mosfet_kelvin_source") (pins comp) in
       let unconnected_errors :=
         flat_map
           (fun p =>
              if negb (Py.truthy (net p))
                 || String.eqb (Py.upper (str_of_option (net p))) "NC"
              then [(ref comp ++ ": kelvin source pin must be connected to a net")%string]
              else [])
           kelvin_pins in
       let source_nets :=
         pin_net_set (fun p => has_role_pin "mosfet_source" p && has_net p) comp in
       let kelvin_nets :=
         pin_net_set (fun p => has_role_pin "mosfet_kelvin_source" p && has_net p) comp in
       unconnected_errors
       ++ match Py.sorted (PySet.inter source_nets kelvin_nets) with
          | n :: _ =>
              [(ref comp ++ ": kelvin source should not be shorted to source net ("
                ++ n ++ ")")%string]
          | [] => []
          end)
    (components snapshot).

Definition _has_cap_between (capacitors : list Py.strset) (net_a net_b : string) : bool :=
  existsb (fun nets_ => PySet.mem net_a nets_ && PySet.mem net_b nets_) capacitors.

Definition nets_of_type (snapshot : Snapshot) (passive_type : string) : list Py.strset :=
  map (pin_net_set has_net)
    (filter (fun comp => _is_passive_type comp passive_type) (components snapshot)).

Definition _check_bootstrap_caps (snapshot : Snapshot) : list string :=
  let capacitors := nets_of_type snapshot "C" in
  flat_map
    (fun comp =>
       match _find_pin_by_role comp "halfbridge_hb", _find_pin_by_role comp "halfbridge_hs" with
       | Some hb_info, Some hs_info =>
           match net hb_info, net hs_info with
           | Some hb_net, Some hs_net =>
               if negb (Py.truthy (Some hb_net)) || negb (Py.truthy (Some hs_net)) then []
               else if negb (_has_cap_between capacitors hb_net hs_net)
               then [(ref comp ++ ": bootstrap capacitor missing between HB and HS")%string]
               else []
           | _, _ => []
           end
       | _, _ => []
       end)
    (components snapshot).

Definition _check_ucc5390e_output_resistor (snapshot : Snapshot) : list string :=
  let resistor_nets := nets_of_type snapshot "R" in
  flat_map
    (fun comp =>
       if negb (String.eqb (part_id comp) "UCC5390E") then []
       else
         match _find_pin comp "OUT" with
         | Some out_info =>
             match net out_info with
             | Some out_net =>
                 if negb (Py.truthy (Some out_net)) then []
                 else if negb (existsb (PySet.mem out_net) resistor_nets)
                 then [(ref comp ++ ": output resistor missing on OUT net ("
                        ++ out_net ++ ")")%string]
                 else []
             | None => []
             end
         | None => []
         end)
    (components snapshot).

Definition _check_constraints (snapshot : Snapshot) (kg_store : option KGStore)
  (task_id : option Z) : list string :=
  let allow_gate_float := task_in task_id GATE_FLOAT_TASKS in
  flat_map
    (fun comp =>
       let constraints :=
         match kg_store with
         | Some kg => get_constraints kg (part_id comp)
         | None => []
         end in
       flat_map (check_constraint snapshot allow_gate_float comp) constraints)
    (components snapshot)
  ++ _check_acs37010_vref snapshot
  ++ _check_kelvin_source_short snapshot
  ++ _check_bootstrap_caps snapshot
  ++ _check_ucc5390e_output_resistor snapshot.

(** [[pin.get("net") for pin in pins if _is_connected(pin)]] *)
Definition connected_nets (comp : Component) : list string :=
  flat_map (fun p => if _is_connected p then [str_of_option (net p)] else []) (pins comp).

(** [diode_pairs] holds sorted tuples and is asked for the sorted tuple of
    two nets: membership of the unordered pair ([pair_mem]). *)
Definition _check_tps54302_diode_pairs (snapshot : Snapshot) : list string :=
  let diode_pairs :=
    flat_map
      (fun comp =>
         if negb (_is_passive_type comp "D") then []
         else
           match connected_nets comp with
           | [a; b] =>
               match sorted_pair [a; b] with
               | Some pr => [pr]
               | None => []
               end
           | _ => []
           end)
      (components snapshot) in
  match diode_pairs with
  | [] => []
  | _ =>
      flat_map
        (fun comp =>
           if negb (String.eqb (part_id comp) "TPS54302") then []
           else
             flat_map
               (fun pr : string * string =>
                  match _find_pin comp (fst pr), _find_pin comp (snd pr) with
                  | Some pa, Some pb =>
                      if negb (_is_connected pa && _is_connected pb) then []
                      else
                        let net_a := str_of_option (net pa) in
                        let net_b := str_of_option (net pb) in
                        if pair_mem net_a net_b diode_pairs
                        then [(ref comp ++ ": diode detected between pins " ++ fst pr
                               ++ " and " ++ snd pr ++ " "
                               ++ "(" ++ net_a ++ " <-> " ++ net_b ++ ")")%string]
                        else []
                  | _, _ => []
                  end)
               [("1", "2"); ("2", "3"); ("1", "6")])
        (components snapshot)
  end.

Definition is_mosfet_category (comp : Component) : bool :=
  Py.opt_eqb (category comp) (Some "MOSFET").

Definition _check_mosfet_pins_connected (snapshot : Snapshot) : list string :=
  flat_map
    (fun comp =>
       if negb (is_mosfet_category comp) then []
       else
         match find (fun p => negb (_is_connected p)) (pins comp) with
         | Some p =>
             let shown :=
               if Py.truthy (Some (pin_id p)) then pin_id p
               else if Py.truthy (Some (pin_name p)) then pin_name p
               else "?" in
             [(ref comp ++ ": pin " ++ shown
               ++ " is unconnected (MOSFET pins must all connect)")%string]
         | None => []
         end)
    (components snapshot).

Definition kelvin_nets_connected (comp : Component) : Py.strset :=
  pin_net_set (fun p => has_role_pin "mosfet_kelvin_source" p && _is_connected p) comp.

Definition source_nets_connected (comp : Component) : Py.strset :=
  pin_net_set (fun p => has_role_pin "mosfet_source" p && _is_connected p) comp.

(** [ks_by_ref[ref] = ks_nets]: a later component of a reference replaces
    the nets, not the position. *)
Definition _check_kelvin_source_distinct (snapshot : Snapshot) : list string :=
  let '(errors, ks_by_ref) :=
    fold_left
      (fun '(errors, ks_by_ref) comp =>
         if negb (is_mosfet_category comp) then (errors, ks_by_ref)
         else
           match kelvin_nets_connected comp with
           | [] => (errors, ks_by_ref)
           | ks_nets =>
               ((if 1 <? length ks_nets
                 then errors ++ [(ref comp
                                  ++ ": kelvin source pins must be tied to a single net")%string]
                 else errors),
                Py.dict_update ks_by_ref (ref comp) [] (fun _ => ks_nets))
           end)
      (components snapshot) ([], []) in
  if length ks_by_ref <? 2 then errors
  else
    let unique_nets := fold_left (fun acc e => PySet.union acc (snd e)) ks_by_ref [] in
    if length unique_nets <? length ks_by_ref
    then errors ++ ["Kelvin source nets must be distinct between MOSFETs"]
    else errors.

(** The bipartite graph of [phase2_checks._build_bipartite_graph]:
    components without a reference are left out. *)
Definition phase2_graph (snapshot : Snapshot) : NetGraph :=
  fold_left
    (fun g comp =>
       if negb (Py.truthy (Some (ref comp))) then g
       else
         let cnode := comp_node (ref comp) in
         let g := Py.dict_update g cnode [] (fun s => s) in
         fold_left
           (fun g p =>
              match net p with
              | Some n =>
                  if negb (Py.truthy (Some n)) then g
                  else
                    let nnode := net_node n in
                    let g := Py.dict_update g nnode [] (fun s => s) in
                    graph_add (graph_add g cnode nnode) nnode cnode
              | None => g
              end)
           (pins comp) g)
    (components snapshot) [].

Definition _allowed_rlc_nodes (snapshot : Snapshot) (g : NetGraph) : Py.strset :=
  let net_nodes := filter (fun node => Py.startswith node "net:") (map fst g) in
  fold_left
    (fun acc comp =>
       if negb (Py.truthy (Some (ref comp))) then acc
       else if existsb (_is_passive_type comp) ["R"; "L"; "C"]
       then PySet.add (comp_node (ref comp)) acc
       else acc)
    (components snapshot) (Py.set_of_list net_nodes).

(** [for nb in graph.get(node, []): if nb in visited or nb not in allowed:
     continue; visited.add(nb); q.append(nb)] *)
Definition rlc_push (allowed : Py.strset) (st : list string * Py.strset) (nb : string)
  : list string * Py.strset :=
  let '(q, visited) := st in
  if PySet.mem nb visited || negb (PySet.mem nb allowed) then st
  else (q ++ [nb], PySet.add nb visited).

Fixpoint rlc_loop (fuel : nat) (g : NetGraph) (allowed : Py.strset) (end_ : string)
  (q : list string) (visited : Py.strset) : option bool :=
  match fuel with
  | 0 => None
  | S fuel' =>
      match q with
      | [] => Some false
      | node :: rest =>
          if String.eqb node end_ then Some true
          else
            let '(q', visited') :=
              fold_left (rlc_push allowed) (neighbours g node) (rest, visited) in
            rlc_loop fuel' g allowed end_ q' visited'
      end
  end.

(** [_has_rlc_path]; every node is queued at most once, so the bound
    [dfs_fuel] is never reached ([rlc_loop_terminates]). *)
Definition _has_rlc_path (g : NetGraph) (allowed : Py.strset) (start_net end_net : string)
  : bool :=
  let start := net_node start_net in
  let end_ := net_node end_net in
  if negb (Py.dict_has g start) || negb (Py.dict_has g end_) then false
  else
    match rlc_loop (dfs_fuel g) g allowed end_ [start] (PySet.add start []) with
    | Some found => found
    | None => false
    end.

(** The two nested loops over [ks_nets] and [source_nets] for one MOSFET:
    the first pair that is equal or linked through R/L/C gives the error
    and ends both loops. *)
Definition kelvin_rlc_error (g : NetGraph) (allowed : Py.strset) (comp : Component)
  (ks_net source_net : string) : option string :=
  if String.eqb ks_net source_net
  then Some (ref comp ++ ": kelvin source must not connect to source net ("
             ++ ks_net ++ ")")%string
  else if _has_rlc_path g allowed ks_net source_net
  then Some (ref comp ++ ": kelvin source must not connect to source net via R/L/C network "
             ++ "(" ++ ks_net ++ " <-> " ++ source_net ++ ")")%string
  else None.

Fixpoint first_some {A B} (f : A -> option B) (l : list A) : option B :=
  match l with
  | [] => None
  | x :: rest =>
      match f x with
      | Some y => Some y
      | None => first_some f rest
      end
  end.

(** One iteration of the component loop of
    [_check_kelvin_source_rlc_isolation].  After a scan of the source nets
    that finds nothing, the outer loop still stops when the last error so
    far starts with ["<ref>:"]. *)
Definition kelvin_rlc_step (g : NetGraph) (allowed : Py.strset) (errors : list string)
  (comp : Component) : list string :=
  if negb (is_mosfet_category comp) then errors
  else
    let ks_nets := kelvin_nets_connected comp in
    let source_nets := source_nets_connected comp in
    match ks_nets, source_nets with
    | [], _ => errors
    | _, [] => errors
    | _, _ =>
        let fix scan (ks : list string) (errors : list string) : list string :=
          match ks with
          | [] => errors
          | ks_net :: rest =>
              let errors :=
                match first_some (kelvin_rlc_error g allowed comp ks_net) source_nets with
                | Some err => errors ++ [err]
                | None => errors
                end in
              match List.rev errors with
              | last_ :: _ =>
                  if Py.startswith last_ (ref comp ++ ":")%string then errors
                  else scan rest errors
              | [] => scan rest errors
              end
          end in
        scan ks_nets errors
    end.

Definition _check_kelvin_source_rlc_isolation (snapshot : Snapshot) : list string :=
  let g := phase2_graph snapshot in
  match g with
  | [] => []
  | _ =>
      let allowed := _allowed_rlc_nodes snapshot g in
      fold_left (kelvin_rlc_step g allowed) (components snapshot) []
  end.

Definition _check_vbus_decoupling_caps (snapshot : Snapshot) : list string :=
  flat_map
    (fun comp =>
       if negb (_is_passive_type comp "C") then []
       else
         let nets_ := pin_net_set _is_connected comp in
         let nets_upper := Py.set_of_list (map Py.upper nets_) in
         let err := [(ref comp
                      ++ ": decoupling cap must connect between VBUS+ and GND/PGND")%string] in
         if negb (length nets_upper =? 2) then err
         else if negb (PySet.mem "VBUS+" nets_upper) then err
         else
           match filter (fun n => negb (String.eqb n "VBUS+")) nets_upper with
           | other :: _ => if negb (Py.mem other ["GND"; "PGND"]) then err else []
           | [] => err
           end)
    (components snapshot).

Definition _check_ucc27511_outputs (snapshot : Snapshot) : list string :=
  flat_map
    (fun comp =>
       if negb (String.eqb (part_id comp) "UCC27511") then []
       else
         flat_map
           (fun label =>
              match _find_pin comp label with
              | Some pin_info =>
                  if negb (_is_connected pin_info)
                  then [(ref comp ++ ": " ++ label ++ " must be connected")%string]
                  else if Py.mem (Py.upper (str_of_option (net pin_info))) ["GND"; "PGND"]
                  then [(ref comp ++ ": " ++ label ++ " must not be tied to GND/PGND ("
                         ++ str_of_option (net pin_info) ++ ")")%string]
                  else []
              | None => [(ref comp ++ ": " ++ label ++ " must be connected")%string]
              end)
           ["OUTH"; "OUTL"])
    (components snapshot).

Definition _check_ucc5390e_vin_minus (snapshot : Snapshot) : list string :=
  flat_map
    (fun comp =>
       if negb (String.eqb (part_id comp) "UCC5390E") then []
       else
         let pin_info :=
           match _find_pin comp "VEE2" with
           | Some p => Some p
           | None => _find_pin comp "VIN-"
           end in
         match pin_info with
         | None => []
         | Some p =>
             if negb (_is_connected p)
             then [(ref comp ++ ": VEE2 (VIN-) must be connected")%string]
             else if endpoint_count snapshot (net p) <=? 1
             then [(ref comp ++ ": VEE2 (VIN-) net appears floating ("
                    ++ str_of_option (net p) ++ ")")%string]
             else []
         end)
    (components snapshot).

Definition run_phase2_checks (snapshot : Snapshot) (kg_store : option KGStore)
  (task_id : option Z) : list string :=
  _check_constraints snapshot kg_store task_id
  ++ _check_acs37010_ip_short snapshot
  ++ _check_mgj2d_vin_short snapshot
  ++ (if task_is task_id 6 then _check_tps54302_diode_pairs snapshot else [])
  ++ (if task_in task_id STRICT_HALFBRIDGE_TASKS
      then _check_mosfet_pins_connected snapshot
           ++ _check_kelvin_source_distinct snapshot
           ++ _check_vbus_decoupling_caps snapshot
      else [])
  ++ (if task_in task_id KS_SOURCE_RLC_TASKS
      then _check_kelvin_source_rlc_isolation snapshot else [])
  ++ (if task_is task_id 15 then _check_ucc5390e_vin_minus snapshot else [])
  ++ (if task_is task_id 13 then _check_ucc27511_outputs snapshot else []).

(* ================================================================== *)
(** ** Invariants and closed forms used in the proofs *)
(* ================================================================== *)

(** [graph_range g P]: every neighbour recorded in [g] satisfies [P]. *)
Definition graph_range (g : NetGraph) (P : string -> Prop) : Prop :=
  forall k vs x, In (k, vs) g -> In x vs -> P x.

(** [pins_range cp P]: every net recorded against a component satisfies [P]. *)
Definition pins_range (cp : Py.dict (list (string * string))) (P : string -> Prop) : Prop :=
  forall r ps pn, In (r, ps) cp -> In pn ps -> P (snd pn).

(** The loop invariant of [_find_secondary_domains]: every domain found so
    far lies inside [all_visited], is disjoint from the primary set and
    from the other domains, and holds only nets that satisfy [P]. *)
Definition secondary_inv (primary_nets : Py.strset) (P : string -> Prop)
  (st : list Py.strset * Py.strset) : Prop :=
  (forall x, In x primary_nets -> In x (snd st))
  /\ (forall d x, In d (fst st) -> In x d -> In x (snd st) /\ P x)
  /\ (forall d, In d (fst st) -> disjoint_sets primary_nets d)
  /\ ForallOrdPairs disjoint_sets (fst st).

(** The double loop in closed form. *)
Definition linked_any (linked : string -> string -> bool) (a : string) (B : Py.strset) : bool :=
  existsb (fun b => negb (String.eqb a b) && linked a b) B.

Definition equal_any (a : string) (B : Py.strset) : bool := existsb (String.eqb a) B.

(** One capacitor of the snapshot bridging [a] and [b]. *)
Definition bridges (comp : Component) (a b : string) : Prop :=
  classify_passive comp = Some "C"
  /\ forall x, on_net comp x <-> x = a \/ x = b.

(** Where an endpoint of [_collect_net_endpoints] comes from. *)
Definition endpoint_origin (snapshot : Snapshot) (n : string) (e : RuleEndpoint) : Prop :=
  exists comp p,
    In comp (components snapshot) /\ In p (pins comp)
    /\ net p = Some n /\ Py.truthy (Some n) = true
    /\ e = endpoint_of_pin comp p.

(** No expanded state has an edge that hits the target, and every state
    over an edge of an expanded state is expanded or queued. *)
Definition closed_under_edges (g : PassiveGraph) (t : string) (rf ri : bool)
  (q seen : list TankState) : Prop :=
  forall s, In s seen ->
    forall e, In e (adjacent g (fst (fst s))) ->
      hits t rf ri (follow s e) = false
      /\ (In (follow s e) seen \/ In (follow s e) q).

(** Nodes of a list not yet visited: the measure of the sweeps that mark a
    node when they push it. *)
Definition unseen_nodes (l : list string) (visited : Py.strset) : nat :=
  length (filter (fun n => negb (PySet.mem n visited)) l).

(* ================================================================== *)
(** ** complex_task_validator.py (every stage embedded) *)
(* ================================================================== *)

(** The stages of the validator as embedded above. *)
Definition stages : StageCall -> list string :=
  stage_impl (fun s kg t => run_phase2_checks s kg (Some t))
    check_interfaces check_system_topology.

(** [validate_complex_task] run on the embedded stages:
    [(passed, errors, warnings)]. *)
Definition validate (snapshot : Snapshot) (task_id : Z) (kg_store : option KGStore)
  : bool * list string * list string :=
  run stages (validate_complex_task snapshot task_id kg_store).

Definition newline : string := String (ascii_of_nat 10) EmptyString.

(** [get_validation_feedback_for_llm] *)
Definition get_validation_feedback_for_llm (errors warnings : list string) : string :=
  match errors, warnings with
  | [], [] => EmptyString
  | _, _ =>
      let lines := ["## Topology Verification Failed"; EmptyString] in
      let lines :=
        match errors with
        | [] => lines
        | _ => lines ++ ["### Errors (must fix):"]
                     ++ map (fun err => ("- " ++ err)%string) errors ++ [EmptyString]
        end in
      let lines :=
        match warnings with
        | [] => lines
        | _ => lines ++ ["### Warnings (should address):"]
                     ++ map (fun warn => ("- " ++ warn)%string) warnings ++ [EmptyString]
        end in
      let lines :=
        lines
        ++ ["### Common fixes:";
            "1. Use unique net names for each instance (e.g., VSW_1, VSW_2)";
            "2. Use separate GND names for isolation domains (e.g., GND_PRI, GND_SEC1)";
            "3. Add gate resistors between driver outputs and MOSFET gates";
            "4. Connect gate driver GND2 to MOSFET Kelvin Source (not power Source)";
            "5. Add decoupling capacitors to all IC power pins";
            EmptyString] in
      String.concat newline lines
  end.

(** The nets reachable from [start_nets] along the adjacency [g]. *)
Inductive net_reachable (g : NetGraph) (start_nets : Py.strset) : string -> Prop :=
| reachable_start (x : string) : In x start_nets -> net_reachable g start_nets x
| reachable_step (x y : string) :
    net_reachable g start_nets x -> In y (neighbours g x) -> net_reachable g start_nets y.

(** A boundary component with net [n] on a primary pin and on a pin that is
    secondary without being primary. *)
Definition boundary_short (kg_store : option KGStore) (comp : Component) (n : string) : Prop :=
  exists kg info p q,
    kg_store = Some kg
    /\ get_component kg (part_id comp) = Some info
    /\ isolation_boundary info = true
    /\ In p (pins comp) /\ In q (pins comp)
    /\ net p = Some n /\ net q = Some n /\ is_nc (Some n) = false
    /\ _pin_in_set (pin_id p) (primary_pins info) = true
    /\ _pin_in_set (pin_id q) (primary_pins info) = false
    /\ _pin_in_set (pin_id q) (secondary_pins info) = true.

(** A pin that [check_mosfet_net_conflicts] books on net [n]: connected to
    [n], not ["NC"], with the gate role. *)
Definition gate_pin_on (n : string) (p : Pin) : bool :=
  match net p with
  | Some m =>
      String.eqb m n && negb (is_nc (Some m)) && Py.opt_eqb (pin_role p) (Some "mosfet_gate")
  | None => false
  end.

(** The reference of every MOSFET-like component, once per gate pin it has
    on net [n], in snapshot order. *)
Definition gate_refs (snapshot : Snapshot) (n : string) : list string :=
  flat_map (fun m => flat_map (fun p => if gate_pin_on n p then [ref m] else []) (pins m))
    (filter looks_like_mosfet (components snapshot)).

(** The value a grouping dictionary holds for a key with entries [l]. *)
Definition grouped {V} (l : list V) : option (list V) :=
  match l with
  | [] => None
  | _ => Some l
  end.

(** The number of components of a snapshot whose part id satisfies [f]. *)
Definition count_parts (f : string -> bool) (snapshot : Snapshot) : nat :=
  length (filter (fun comp => f (part_id comp)) (components snapshot)).

(** The part ids [_count_components] takes for MOSFETs. *)
Definition is_mosfet_part (p : string) : bool := Py.any_contains MOSFET_PATTERNS (Py.upper p).

(** The sum of the counters. *)
Definition counted (c : Counts) : nat :=
  n_mosfets c + n_gate_drivers c + n_isolated_supplies c + n_transformers c + n_film_caps c
  + n_power_inductors c + n_inductors c + n_caps c + n_resistors c.

(** What one component adds to the counters. *)
Definition class_counts (p : string) : Counts :=
  let bit (b : bool) := if b then 1 else 0 in
  mkCounts (bit (is_mosfet_part p)) (bit (Py.mem p GATE_DRIVER_IDS))
    (bit (Py.mem p ISOLATED_SUPPLY_IDS)) (bit (Py.mem p TRANSFORMER_IDS))
    (bit (Py.mem p FILM_CAP_IDS)) (bit (Py.mem p POWER_INDUCTOR_IDS))
    (bit (Py.mem p GENERIC_INDUCTOR_IDS)) (bit (String.eqb p "C")) (bit (String.eqb p "R")).

Definition add_counts (a b : Counts) : Counts :=
  mkCounts (n_mosfets a + n_mosfets b) (n_gate_drivers a + n_gate_drivers b)
    (n_isolated_supplies a + n_isolated_supplies b) (n_transformers a + n_transformers b)
    (n_film_caps a + n_film_caps b) (n_power_inductors a + n_power_inductors b)
    (n_inductors a + n_inductors b) (n_caps a + n_caps b) (n_resistors a + n_resistors b).

(** The score [_infer_half_bridge_on_vsw] gives a pair of MOSFETs, when it
    considers the pair at all: distinct references, named bus and ground. *)
Definition pair_score (hs_ ls_ : Info) : option Z :=
  if Py.opt_eqb (info_get hs_ "ref") (info_get ls_ "ref") then None
  else
    match info_get_str hs_ "drain_net", info_get_str ls_ "source_net" with
    | Some bus_, Some gnd_ =>
        if negb (Py.truthy (Some bus_)) || negb (Py.truthy (Some gnd_)) then None
        else Some (half_bridge_score bus_ gnd_)
    | _, _ => None
    end.

(** The high-side and low-side candidates around a switch node. *)
Definition hs_candidate (vsw_net : string) (m : Info) : bool :=
  Py.opt_eqb (info_get m "source_net") (Some vsw_net) && Py.truthy (info_get m "drain_net").

Definition ls_candidate (vsw_net : string) (m : Info) : bool :=
  Py.opt_eqb (info_get m "drain_net") (Some vsw_net) && Py.truthy (info_get m "source_net").

(** A net that holds a pin of the component, ["NC"] and the empty name
    left out. *)
Definition connected_net (comp : Component) (n : string) : Prop :=
  exists p, In p (pins comp) /\ net p = Some n /\ unconnected (Some n) = false.

(** The key under which [_add_rule] remembers a rule. *)
Definition key_of_rule (r : Rule) : RuleKey :=
  _rule_key (rule_type r) (endpoint_a r) (endpoint_b r).

(** The shape of the rules [build_rules] writes. *)
Definition extracted_shape (r : Rule) : Prop :=
  ((rule_type r = "C_DIRECT" /\ allow_series r = false)
   \/ ((rule_type r = "R_PATH" \/ rule_type r = "L_PATH") /\ allow_series r = true))
  /\ min_count r = 1 /\ fail_on_short r = true
  /\ _should_skip_rule (rule_type r) (endpoint_a r) (endpoint_b r) = false.

(** The invariant of the extractor state [(rules, seen)]. *)
Definition rules_inv (st : list Rule * list RuleKey) : Prop :=
  snd st = map key_of_rule (fst st)
  /\ Forall extracted_shape (fst st)
  /\ ForallOrdPairs (fun r1 r2 => rule_key_eqb (key_of_rule r1) (key_of_rule r2) = false)
       (fst st).

(** The errors [check_rules] reports for one rule, judged on its own. *)
Definition rule_errors (snapshot : Snapshot) (task_id : option Z) (rule : Rule) : list string :=
  fst (check_rule snapshot task_id (_capacitor_pairs snapshot)
         (_passive_net_components snapshot "R") (_passive_net_components snapshot "L")
         ([], []) rule).

(** The nets one step away from [current_net] in the search of
    [_check_path_to_mosfet_gate]: the named nets of the pins of the
    resistors and diodes among the endpoints of the net. *)
Definition gate_neighbours (snapshot : Snapshot) (current_net : string) : list string :=
  flat_map
    (fun ep =>
       match _find_component_by_ref snapshot (ep_ref ep) with
       | Some comp =>
           if Py.mem (part_id comp) ["R"; "D"]
           then flat_map
                  (fun p =>
                     match net p with
                     | Some n => if Py.truthy (Some n) then [n] else []
                     | None => []
                     end)
                  (pins comp)
           else []
       | None => []
       end)
    (net_endpoints_of snapshot current_net).

(** The nets reached from [start_net] over resistors and diodes. *)
Inductive gate_reachable (snapshot : Snapshot) (start_net : string) : string -> Prop :=
| gate_reach_start : gate_reachable snapshot start_net start_net
| gate_reach_step (a b : string) :
    gate_reachable snapshot start_net a -> In b (gate_neighbours snapshot a) ->
    gate_reachable snapshot start_net b.

(** The body of the two inner loops on one neighbouring net. *)
Definition gate_path_push (gate_nets : Py.strset) (current_net : string) (st : GateSearch)
  (other_net : string) : GateSearch :=
  let '(found, queue, visited) := st in
  if found then st
  else if negb (String.eqb other_net current_net) && negb (PySet.mem other_net visited)
  then
    if PySet.mem other_net gate_nets then (true, queue, visited)
    else (false, queue ++ [other_net], PySet.add other_net visited)
  else st.

(** The nodes the search of [_has_rlc_path] can reach from [start]: every
    node entered after the start has to be allowed. *)
Inductive rlc_reachable (g : NetGraph) (allowed : Py.strset) (start : string)
  : string -> Prop :=
| rlc_reach_start : rlc_reachable g allowed start start
| rlc_reach_step (a b : string) :
    rlc_reachable g allowed start a -> In b (neighbours g a) -> In b allowed ->
    rlc_reachable g allowed start b.

(** A string without white space. *)
Fixpoint no_space (s : string) : bool :=
  match s with
  | EmptyString => true
  | String c r => negb (Py.is_space c) && no_space r
  end.

(** The wiring of a snapshot: what is left when the annotations that
    [augment_snapshot] writes are cleared. *)
Definition wiring_of_component (c : Component) : Component :=
  mkComponent (ref c) (part_id c) (value c) None
    (map (fun p => mkPin (pin_id p) (pin_name p) (net p) None) (pins c)).

Definition wiring_of_net (n : Net) : Net :=
  mkNet (name n)
    (map (fun ep => mkNetEndpoint (ep_ref ep) (ep_pin_id ep) (ep_pin_name ep) None None)
       (endpoints n)).

Definition wiring (snapshot : Snapshot) : Snapshot :=
  mkSnapshot (map wiring_of_component (components snapshot))
    (map wiring_of_net (nets snapshot)).

(** The base of a net name that ends in [_<digits>]. *)
Definition numbered_base (net_name : string) : option string :=
  match rsplit1 "_" net_name with
  | Some (base, suffix) => if Py.isdigit suffix then Some base else None
  | None => None
  end.

(** The entries [_check_instance_conflicts] files under the base name [b]. *)
Definition instances_of (snapshot : Snapshot) (b : string) : list (string * bool) :=
  flat_map
    (fun n =>
       match numbered_base (name n) with
       | Some base => if String.eqb base b then [(name n, true)] else []
       | None => if String.eqb (name n) b then [(name n, false)] else []
       end)
    (nets snapshot).

(** *** Vocabulary for the passive-induced components *)

(** Nodes linked by a chain of edges of a graph. *)
Inductive graph_reachable (g : NetGraph) (x : string) : string -> Prop :=
| graph_reach_refl : graph_reachable g x x
| graph_reach_step (y z : string) :
    graph_reachable g x y -> In z (neighbours g y) -> graph_reachable g x z.

(** An edge of the graph of [_passive_net_components], read off the
    snapshot: a pin with a non-empty net of a passive of the given type links
    the node of the component and the node of the net, both ways. *)
Definition passive_edge (snapshot : Snapshot) (passive_type : string) (x y : string) : Prop :=
  exists comp p n,
    In comp (components snapshot) /\ is_passive_of passive_type comp = true
    /\ In p (pins comp) /\ net p = Some n /\ Py.truthy (Some n) = true
    /\ ((x = comp_node (ref comp) /\ y = net_node n)
        \/ (x = net_node n /\ y = comp_node (ref comp))).

(** A set of nodes that no edge of the graph leaves. *)
Definition edge_closed (g : NetGraph) (v : Py.strset) : Prop :=
  forall x y, In x v -> In y (neighbours g x) -> In y v.

(** What the sweep of [_passive_net_components] keeps true of its state
    [(visited, components)]: no edge leaves the visited nodes, every
    component found is the set of nets linked to one visited node, every
    visited net is in a component, and the components are disjoint. *)
Definition sweep_inv (g : NetGraph) (st : Py.strset * list Py.strset) : Prop :=
  edge_closed g (fst st)
  /\ (forall x, In x (fst st) -> In x (map fst g))
  /\ (forall c, In c (snd st) ->
        c <> [] /\ exists root, In root (fst st)
                                /\ forall a, In a c <-> graph_reachable g root (net_node a))
  /\ (forall a, In (net_node a) (fst st) -> exists c, In c (snd st) /\ In a c)
  /\ ForallOrdPairs disjoint_sets (snd st).

(** A net whose upper-cased name holds one of the anchor patterns of
    [_find_primary_domain]. *)
Definition anchor_named (n : Net) : bool :=
  Py.any_contains anchor_patterns (Py.upper (name n)).

(** *** Vocabulary for the net graph of the isolation analysis *)

(** [comp_pins[ref]] of [_build_net_graph]: the [(pin_id, net_name)] pairs of
    the endpoints that name the reference, in the order of the nets. *)
Definition component_pins (ns : list Net) (r : string) : list (string * string) :=
  flat_map
    (fun n => map (fun ep => (ep_pin_id ep, name n))
                  (filter (fun ep => String.eqb (ep_ref ep) r) (endpoints n)))
    ns.

(** Two entries at different positions of a list. *)
Definition paired (l : list string) (x y : string) : Prop :=
  exists i j, i <> j /\ nth_error l i = Some x /\ nth_error l j = Some y.

(** The nets that [_build_net_graph] links through the component [r] with
    the pins [ps]: any two pins of an ordinary component, two primary pins or
    two secondary pins of a boundary component. *)
Definition net_link (ics : list IsoComponent) (r : string) (ps : list (string * string))
  (x y : string) : Prop :=
  match iso_refs_get ics r with
  | Some ic =>
      paired (map snd (filter (fun pn => _pin_in_set (fst pn) (iso_primary_pins ic)) ps)) x y
      \/ paired (map snd (filter (fun pn => _pin_in_set (fst pn) (iso_secondary_pins ic)) ps))
           x y
  | None => paired (map snd ps) x y
  end.

(* ================================================================== *)
(** ** Sample inputs *)
(* ================================================================== *)

Module Samples.

(** Pins as the extraction writes them: id, name and net, no role yet. *)
Definition pin (id nm : string) (n : string) : Pin := mkPin id nm (Some n) None.
Definition endpoint (r id nm : string) : NetEndpoint := mkNetEndpoint r id nm None None.

(** A knowledge-graph entry for the isolated DC-DC supply: input pins 1-2
    on the primary side, output pins 5-7 on the secondary side. *)
Definition kg_isolated_supply : KGEntry :=
  mkKGEntry (Some "isolated_supply") [] [] true
    [PinInt 1; PinInt 2] [PinInt 5; PinInt 6; PinInt 7].

Definition kg : KGStore :=
  mkKGStore [] [("MGJ2D121505SC", kg_isolated_supply)].

Definition isolated_supply (r vin gnd vee com vdd : string) : Component :=
  mkComponent r "MGJ2D121505SC" None None
    [pin "1" "+VIN" vin; pin "2" "-VIN" gnd;
     pin "5" "-VOUT" vee; pin "6" "0V" com; pin "7" "+VOUT" vdd].

(** Scenario S6: two isolated supplies fed from V12/GND whose 0V outputs
    are both wired to the net called GND as well. *)
Definition s6_snapshot : Snapshot :=
  mkSnapshot
    [isolated_supply "U1" "V12" "GND" "VEE1" "GND" "VDD1";
     isolated_supply "U2" "V12" "GND" "VEE2" "GND" "VDD2"]
    [mkNet "V12" [endpoint "U1" "1" "+VIN"; endpoint "U2" "1" "+VIN"];
     mkNet "GND" [endpoint "U1" "2" "-VIN"; endpoint "U1" "6" "0V";
                  endpoint "U2" "2" "-VIN"; endpoint "U2" "6" "0V"];
     mkNet "VEE1" [endpoint "U1" "5" "-VOUT"];
     mkNet "VDD1" [endpoint "U1" "7" "+VOUT"];
     mkNet "VEE2" [endpoint "U2" "5" "-VOUT"];
     mkNet "VDD2" [endpoint "U2" "7" "+VOUT"]].

(** Scenario S6 with the primary side on a ground of its own: only the two
    secondary 0V pins share the name GND. *)
Definition s6_secondary_only_snapshot : Snapshot :=
  mkSnapshot
    [isolated_supply "U1" "V12" "GND_PRI" "VEE1" "GND" "VDD1";
     isolated_supply "U2" "V12" "GND_PRI" "VEE2" "GND" "VDD2"]
    [mkNet "V12" [endpoint "U1" "1" "+VIN"; endpoint "U2" "1" "+VIN"];
     mkNet "GND_PRI" [endpoint "U1" "2" "-VIN"; endpoint "U2" "2" "-VIN"];
     mkNet "GND" [endpoint "U1" "6" "0V"; endpoint "U2" "6" "0V"];
     mkNet "VEE1" [endpoint "U1" "5" "-VOUT"];
     mkNet "VDD1" [endpoint "U1" "7" "+VOUT"];
     mkNet "VEE2" [endpoint "U2" "5" "-VOUT"];
     mkNet "VDD2" [endpoint "U2" "7" "+VOUT"]].

(** The same two supplies with separate secondary grounds. *)
Definition two_supplies_snapshot : Snapshot :=
  mkSnapshot
    [isolated_supply "U1" "V12" "GND_PRI" "VEE1" "COM1" "VDD1";
     isolated_supply "U2" "V12" "GND_PRI" "VEE2" "COM2" "VDD2"]
    [mkNet "V12" [endpoint "U1" "1" "+VIN"; endpoint "U2" "1" "+VIN"];
     mkNet "GND_PRI" [endpoint "U1" "2" "-VIN"; endpoint "U2" "2" "-VIN"];
     mkNet "VEE1" [endpoint "U1" "5" "-VOUT"];
     mkNet "COM1" [endpoint "U1" "6" "0V"];
     mkNet "VDD1" [endpoint "U1" "7" "+VOUT"];
     mkNet "VEE2" [endpoint "U2" "5" "-VOUT"];
     mkNet "COM2" [endpoint "U2" "6" "0V"];
     mkNet "VDD2" [endpoint "U2" "7" "+VOUT"]].

(** A supply whose output pin is on a net the snapshot does not list. *)
Definition unlisted_net_snapshot : Snapshot :=
  mkSnapshot
    [mkComponent "U1" "MGJ2D121505SC" None None [pin "7" "+VOUT" "VDD_SEC"]]
    [].

(** A resistor divider: no isolation boundary anywhere. *)
Definition divider_snapshot : Snapshot :=
  mkSnapshot
    [mkComponent "R1" "R" (Some "10k") None [pin "1" "~" "VIN"; pin "2" "~" "MID"];
     mkComponent "R2" "R" (Some "10k") None [pin "1" "~" "MID"; pin "2" "~" "GND"]]
    [mkNet "VIN" [endpoint "R1" "1" "~"];
     mkNet "MID" [endpoint "R1" "2" "~"; endpoint "R2" "1" "~"];
     mkNet "GND" [endpoint "R2" "2" "~"]].

(** Three MOSFETs whose gates share one net. *)
Definition mosfet (r gate : string) : Component :=
  mkComponent r "IMZA65R015M2H" None (Some "MOSFET")
    [mkPin "1" "D" (Some ("D_" ++ r)%string) (Some "mosfet_drain");
     mkPin "2" "S" (Some ("S_" ++ r)%string) (Some "mosfet_source");
     mkPin "3" "KS" (Some ("KS_" ++ r)%string) (Some "mosfet_kelvin_source");
     mkPin "4" "G" (Some gate) (Some "mosfet_gate")].

Definition shared_gate_snapshot : Snapshot :=
  mkSnapshot
    [mosfet "Q1" "GATE"; mosfet "Q2" "GATE"; mosfet "Q3" "GATE"]
    [mkNet "GATE" [endpoint "Q1" "4" "G"; endpoint "Q2" "4" "G"; endpoint "Q3" "4" "G"]].

(** A regulator with a decoupling capacitor across its supply pins. *)
Definition regulator_snapshot : Snapshot :=
  mkSnapshot
    [mkComponent "U1" "TLV1117" None (Some "LDO")
       [mkPin "3" "VIN" (Some "VIN") (Some "supply_vdd");
        mkPin "1" "GND" (Some "GND") (Some "supply_gnd")];
     mkComponent "C1" "C" (Some "10uF") (Some "passive")
       [mkPin "1" "~" (Some "VIN") None; mkPin "2" "~" (Some "GND") None]]
    [mkNet "VIN" [mkNetEndpoint "U1" "3" "VIN" (Some "supply_vdd") (Some "LDO");
                  mkNetEndpoint "C1" "1" "~" None (Some "passive")];
     mkNet "GND" [mkNetEndpoint "U1" "1" "GND" (Some "supply_gnd") (Some "LDO");
                  mkNetEndpoint "C1" "2" "~" None (Some "passive")]].

Definition regulator_rule : Rule :=
  mkRule "C_DIRECT"
    (mkRuleEndpoint (Some "TLV1117") (Some "LDO") (Some "supply_gnd") (Some "1") (Some "GND") None)
    (mkRuleEndpoint (Some "TLV1117") (Some "LDO") (Some "supply_vdd") (Some "3") (Some "VIN") None)
    false 1 true.

(** A candidate with four parts of a kind the reference does not use. *)
Definition extra_part (r : string) : Component :=
  mkComponent r "TVS" None None [].

Definition four_extra_snapshot : Snapshot :=
  mkSnapshot [extra_part "D1"; extra_part "D2"; extra_part "D3"; extra_part "D4"] [].

Definition empty_snapshot : Snapshot := mkSnapshot [] [].

(** Tank elements forming a loop at one switch node: a film capacitor
    from VSW_1 to TANK and an inductor from TANK back to VSW_1. *)
Definition two_pin (r part a b : string) : Component :=
  mkComponent r part None (Some "passive") [pin "1" "~" a; pin "2" "~" b].

Definition tank_loop_snapshot : Snapshot :=
  mkSnapshot [two_pin "C1" "C_film" "VSW_1" "TANK"; two_pin "L1" "L" "TANK" "VSW_1"] [].

(** A film capacitor hanging off the switch node (VSW_1 to STUB) and an
    inductor in series from VSW_1 to the transformer terminal PRI_1. *)
Definition tank_stub_snapshot : Snapshot :=
  mkSnapshot [two_pin "C1" "C_film" "VSW_1" "STUB"; two_pin "L1" "L" "VSW_1" "PRI_1"] [].

(** A film capacitor and an inductor in series between VSW_1 and PRI_1. *)
Definition tank_series_snapshot : Snapshot :=
  mkSnapshot [two_pin "C1" "C_film" "VSW_1" "TANK"; two_pin "L1" "L" "TANK" "PRI_1"] [].

(** A dual active bridge: the bridge on VSW_1 and VSW_2 fed from VIN, a
    second bridge on VC and VD, and a transformer with primary terminals
    [p1], [p2] and its secondary on VC, VD.  MOSFET pins are 1 = drain,
    2 = source, 3 = Kelvin source, 4 = gate; nets are listed by name. *)
Definition switch (r d s : string) : Component :=
  mkComponent r "IMZA65R015M2H" None (Some "MOSFET")
    [pin "1" "D" d; pin "2" "S" s;
     pin "3" "KS" ("KS_" ++ r)%string; pin "4" "G" ("G_" ++ r)%string].

Definition transformer (r p1 p2 s1 s2 : string) : Component :=
  mkComponent r "transformer_PQ5050" None None
    [pin "1" "Pri_1" p1; pin "2" "Pri_1" p1; pin "3" "Pri_1" p1;
     pin "4" "Pri_2" p2; pin "5" "Pri_2" p2; pin "6" "Pri_2" p2;
     pin "7" "Sec_1" s1; pin "8" "Sec_1" s1; pin "9" "Sec_1" s1;
     pin "10" "Sec_2" s2; pin "11" "Sec_2" s2; pin "12" "Sec_2" s2].

Definition dab_snapshot (p1 p2 : string) (passives : list Component) : Snapshot :=
  mkSnapshot
    ([switch "Q1" "VIN" "VSW_1"; switch "Q2" "VSW_1" "GND";
      switch "Q3" "VIN" "VSW_2"; switch "Q4" "VSW_2" "GND";
      switch "Q5" "VOUT" "VC"; switch "Q6" "VC" "SGND";
      switch "Q7" "VOUT" "VD"; switch "Q8" "VD" "SGND";
      transformer "T1" p1 p2 "VC" "VD"] ++ passives)
    (map (fun n => mkNet n [])
       ["VIN"; "GND"; "VSW_1"; "VSW_2"; "VOUT"; "SGND"; "VC"; "VD"]).

(** The film capacitor and the inductor in series from VSW_1 to PRI_1. *)
Definition dab_series_snapshot : Snapshot :=
  dab_snapshot "PRI_1" "VSW_2" (components tank_series_snapshot).

(** One film capacitor in series, no inductor. *)
Definition dab_no_inductor_snapshot : Snapshot :=
  dab_snapshot "PRI_1" "VSW_2" [two_pin "C1" "C_film" "VSW_1" "PRI_1"].

(** The inductor in series, the film capacitor hanging off VSW_1. *)
Definition dab_stub_snapshot : Snapshot :=
  dab_snapshot "PRI_1" "VSW_2" (components tank_stub_snapshot).

(** The transformer primary directly on the switch nodes; the film
    capacitor and the inductor form a loop at VSW_1. *)
Definition dab_loop_snapshot : Snapshot :=
  dab_snapshot "VSW_1" "VSW_2" (components tank_loop_snapshot).

(** A single-phase full bridge: two half bridges between VIN and GND, a
    gate driver for each MOSFET, two isolated supplies and eight
    decoupling capacitors on VIN. *)
Definition bare_part (part r : string) : Component := mkComponent r part None None [].

Definition full_bridge_snapshot : Snapshot :=
  mkSnapshot
    ([switch "QH1" "VIN" "VSW_1"; switch "QL1" "VSW_1" "GND";
      switch "QH2" "VIN" "VSW_2"; switch "QL2" "VSW_2" "GND"]
     ++ map (bare_part "UCC5390E") ["U1"; "U2"; "U3"; "U4"]
     ++ map (bare_part "MGJ2D121505SC") ["PS1"; "PS2"]
     ++ map (fun r => two_pin r "C" "VIN" "GND")
          ["C1"; "C2"; "C3"; "C4"; "C5"; "C6"; "C7"; "C8"])
    [mkNet "VIN"
       ([mkNetEndpoint "QH1" "1" "D" (Some "mosfet_drain") (Some "MOSFET");
         mkNetEndpoint "QH2" "1" "D" (Some "mosfet_drain") (Some "MOSFET")]
        ++ map (fun r => endpoint r "1" "~")
             ["C1"; "C2"; "C3"; "C4"; "C5"; "C6"; "C7"; "C8"]);
     mkNet "GND" []; mkNet "VSW_1" []; mkNet "VSW_2" []].

(** A power inductor with its two terminals on [a] and [b]. *)
Definition power_inductor (r a b : string) : Component :=
  mkComponent r "Inductor_power" None None
    (map (fun i => pin i "~" a) ["1"; "2"; "3"; "4"; "5"; "6"]
     ++ map (fun i => pin i "~" b) ["7"; "8"; "9"; "10"; "11"; "12"]).

(** The power stage of a synchronous buck converter. *)
Definition buck_snapshot : Snapshot :=
  mkSnapshot
    [switch "Q1" "VIN" "VSW"; switch "Q2" "VSW" "GND"; power_inductor "L1" "VSW" "VOUT"]
    (map (fun n => mkNet n []) ["VIN"; "VSW"; "GND"; "VOUT"]).

End Samples.

(* ================================================================== *)
(** * Properties *)
(* ================================================================== *)

(* ------------------------------------------------------------------ *)
(** ** Snapshot augmentation (build_topology.py) *)
(* ------------------------------------------------------------------ *)

Section Augmentation.

Variable kg_store : option KGStore.

Lemma augment_pin_idem (roles : Py.dict string) (p : Pin) :
  augment_pin roles (augment_pin roles p) = augment_pin roles p.
Proof. reflexivity. Qed.

Lemma augment_component_idem (c : Component) :
  augment_component kg_store (augment_component kg_store c)
  = augment_component kg_store c.
Proof.
  unfold augment_component; cbn [ref part_id value pins].
  f_equal. rewrite map_map. apply map_ext. intros p. apply augment_pin_idem.
Qed.

Lemma augment_components_idem (cs : list Component) :
  map (augment_component kg_store) (map (augment_component kg_store) cs)
  = map (augment_component kg_store) cs.
Proof.
  rewrite map_map. apply map_ext. intros c. apply augment_component_idem.
Qed.

(** Re-annotating an endpoint against the same components changes nothing:
    the lookup keys [ep_ref], [ep_pin_id], [ep_pin_name] are never written. *)
Lemma augment_endpoint_idem (comps : list Component) (ep : NetEndpoint) :
  augment_endpoint comps (augment_endpoint comps ep) = augment_endpoint comps ep.
Proof. reflexivity. Qed.

Lemma augment_net_idem (comps : list Component) (n : Net) :
  augment_net comps (augment_net comps n) = augment_net comps n.
Proof.
  unfold augment_net; cbn [name endpoints]. f_equal.
  rewrite map_map. apply map_ext. intros ep. apply augment_endpoint_idem.
Qed.

(** C5: augmenting an already augmented snapshot returns it unchanged, for
    every snapshot and every knowledge-graph store (or none). *)
Theorem augment_snapshot_idempotent (snapshot : Snapshot) :
  augment_snapshot (augment_snapshot snapshot kg_store) kg_store
  = augment_snapshot snapshot kg_store.
Proof.
  unfold augment_snapshot; cbn [components nets].
  rewrite augment_components_idem. f_equal.
  rewrite map_map. apply map_ext. intros n. apply augment_net_idem.
Qed.

End Augmentation.

(* ------------------------------------------------------------------ *)
(** ** Sets and dictionaries *)
(* ------------------------------------------------------------------ *)

Lemma pyset_mem_true (x : string) (s : Py.strset) : PySet.mem x s = true <-> In x s.
Proof.
  unfold PySet.mem. split.
  - apply set_mem_correct1.
  - apply set_mem_correct2.
Qed.

Lemma pyset_mem_false (x : string) (s : Py.strset) : PySet.mem x s = false <-> ~ In x s.
Proof.
  unfold PySet.mem. split.
  - apply set_mem_complete1.
  - apply set_mem_complete2.
Qed.

Lemma pyset_add_in (x y : string) (s : Py.strset) :
  In x (PySet.add y s) <-> x = y \/ In x s.
Proof. unfold PySet.add. apply set_add_iff. Qed.

Lemma pyset_diff_in (x : string) (a b : Py.strset) :
  In x (PySet.diff a b) <-> In x a /\ ~ In x b.
Proof. unfold PySet.diff. apply set_diff_iff. Qed.

Lemma pyset_union_in (x : string) (a b : Py.strset) :
  In x (PySet.union a b) <-> In x a \/ In x b.
Proof. unfold PySet.union. apply set_union_iff. Qed.

Lemma pyset_inter_in (x : string) (a b : Py.strset) :
  In x (PySet.inter a b) <-> In x a /\ In x b.
Proof. unfold PySet.inter. apply set_inter_iff. Qed.

Lemma set_of_list_acc_in (l : list string) (acc : Py.strset) (x : string) :
  In x (fold_left (fun a y => set_add string_dec y a) l acc) <-> In x acc \/ In x l.
Proof.
  revert acc. induction l as [|y l IH]; intros acc; cbn.
  - tauto.
  - rewrite IH, set_add_iff. intuition auto.
Qed.

Lemma set_of_list_in (l : list string) (x : string) :
  In x (Py.set_of_list l) <-> In x l.
Proof.
  unfold Py.set_of_list. rewrite set_of_list_acc_in. cbn. tauto.
Qed.

Lemma dict_get_in {V} (d : Py.dict V) (k : string) (v : V) :
  Py.dict_get d k = Some v -> In (k, v) d.
Proof.
  induction d as [|[k' v'] d IH]; cbn; [discriminate|].
  destruct (String.eqb_spec k k') as [->|Hne].
  - intros [= ->]. now left.
  - intros H. right. now apply IH.
Qed.

Lemma dict_update_in {V} (d : Py.dict V) (k : string) (dflt : V) (f : V -> V)
  (k0 : string) (v0 : V) :
  In (k0, v0) (Py.dict_update d k dflt f) ->
  In (k0, v0) d \/ (k0 = k /\ (v0 = f dflt \/ exists v, In (k, v) d /\ v0 = f v)).
Proof.
  induction d as [|[k' v'] d IH]; cbn.
  - intros [[= <- <-]|[]]. right. split; [reflexivity|now left].
  - destruct (String.eqb_spec k k') as [->|Hne]; cbn.
    + intros [[= <- <-]|H].
      * right. split; [reflexivity|]. right. exists v'. split; [now left|reflexivity].
      * left. now right.
    + intros [[= <- <-]|H].
      * left. now left.
      * destruct (IH H) as [H1|[-> [->|[v [Hv ->]]]]].
        -- left. now right.
        -- right. split; [reflexivity|now left].
        -- right. split; [reflexivity|]. right. exists v. split; [now right|reflexivity].
Qed.

(* ------------------------------------------------------------------ *)
(** ** Termination and range of the net BFS (isolation_domain.py) *)
(* ------------------------------------------------------------------ *)

Lemma unvisited_size_nil (g : NetGraph) : unvisited_size g [] = graph_size g.
Proof.
  unfold unvisited_size, graph_size.
  induction g as [|[k vs] g IH]; [reflexivity|].
  cbn [fold_right fst snd]. now rewrite IH.
Qed.

Lemma unvisited_size_cons (k : string) (vs : Py.strset) (g : NetGraph) (visited : Py.strset) :
  unvisited_size ((k, vs) :: g) visited
  = (if PySet.mem k visited then 0 else length vs) + unvisited_size g visited.
Proof. reflexivity. Qed.

Lemma pyset_mem_add_other (k n : string) (visited : Py.strset) :
  k <> n -> PySet.mem k (PySet.add n visited) = PySet.mem k visited.
Proof.
  intros Hne. destruct (PySet.mem k visited) eqn:E.
  - apply pyset_mem_true. apply pyset_add_in. right. now apply pyset_mem_true.
  - apply pyset_mem_false. rewrite pyset_add_in. intros [H|H]; [contradiction|].
    apply pyset_mem_false in E. contradiction.
Qed.

Lemma pyset_mem_add_same (n : string) (visited : Py.strset) :
  PySet.mem n (PySet.add n visited) = true.
Proof. apply pyset_mem_true, pyset_add_in. now left. Qed.

Lemma unvisited_size_add_le (g : NetGraph) (n : string) (visited : Py.strset) :
  unvisited_size g (PySet.add n visited) <= unvisited_size g visited.
Proof.
  induction g as [|[k vs] g IH]; [cbn; lia|].
  rewrite !unvisited_size_cons.
  destruct (string_dec k n) as [->|Hne].
  - rewrite pyset_mem_add_same. destruct (PySet.mem n visited); lia.
  - rewrite (pyset_mem_add_other k n visited Hne). lia.
Qed.

Lemma neighbours_cons (k : string) (vs : Py.strset) (g : NetGraph) (n : string) :
  neighbours ((k, vs) :: g) n = if String.eqb n k then vs else neighbours g n.
Proof. unfold neighbours. cbn. now destruct (String.eqb n k). Qed.

(** Marking an unvisited net pays for the neighbours it pushes. *)
Lemma unvisited_size_pay (g : NetGraph) (n : string) (visited : Py.strset) :
  ~ In n visited ->
  length (neighbours g n) + unvisited_size g (PySet.add n visited)
  <= unvisited_size g visited.
Proof.
  intros Hn. induction g as [|[k vs] g IH]; [cbn; lia|].
  rewrite !unvisited_size_cons, neighbours_cons.
  destruct (String.eqb_spec n k) as [<-|Hne].
  - rewrite pyset_mem_add_same. apply pyset_mem_false in Hn. rewrite Hn.
    pose proof (unvisited_size_add_le g n visited). lia.
  - rewrite (pyset_mem_add_other k n visited) by congruence.
    destruct (PySet.mem k visited); lia.
Qed.

Lemma bfs_loop_total (fuel : nat) (g : NetGraph) :
  forall (queue : list string) (visited : Py.strset),
    length queue + unvisited_size g visited < fuel ->
    exists result, bfs_loop fuel g queue visited = Some result.
Proof.
  induction fuel as [|fuel IH]; intros queue visited Hlt; [lia|].
  destruct queue as [|n q]; cbn [bfs_loop].
  - now exists visited.
  - destruct (PySet.mem n visited) eqn:E.
    + apply IH. cbn [length] in Hlt. lia.
    + apply IH. apply pyset_mem_false in E.
      pose proof (unvisited_size_pay g n visited E) as Hpay.
      rewrite length_app.
      pose proof (filter_length_le
                    (fun nb => negb (PySet.mem nb (PySet.add n visited)))
                    (neighbours g n)) as Hf.
      cbn [length] in Hlt. lia.
Qed.

(** The iteration bound of [_bfs_connected_nets] is never reached: the
    search always ends with the queue empty. *)
Lemma bfs_loop_terminates (g : NetGraph) (start_nets : Py.strset) :
  exists result, bfs_loop (bfs_fuel g start_nets) g start_nets [] = Some result.
Proof.
  apply bfs_loop_total. rewrite unvisited_size_nil. unfold bfs_fuel. lia.
Qed.

(** More fuel than needed does not change the outcome. *)
Lemma bfs_loop_fuel_mono (fuel : nat) (g : NetGraph) :
  forall (queue : list string) (visited result : Py.strset) (extra : nat),
    bfs_loop fuel g queue visited = Some result ->
    bfs_loop (fuel + extra) g queue visited = Some result.
Proof.
  induction fuel as [|fuel IH]; intros queue visited result extra; cbn; [discriminate|].
  destruct queue as [|n q]; [trivial|].
  destruct (PySet.mem n visited); apply IH.
Qed.

(** Everything the BFS returns was already visited, was queued, or is a
    neighbour in the graph. *)
Lemma bfs_loop_range (fuel : nat) (g : NetGraph) :
  forall (queue : list string) (visited result : Py.strset),
    bfs_loop fuel g queue visited = Some result ->
    forall x, In x result ->
      In x visited \/ In x queue \/ exists k, In x (neighbours g k).
Proof.
  induction fuel as [|fuel IH]; intros queue visited result; cbn; [discriminate|].
  destruct queue as [|n q].
  - intros [= <-] x Hx. now left.
  - destruct (PySet.mem n visited) eqn:E; intros Hrun x Hx.
    + destruct (IH _ _ _ Hrun x Hx) as [H|[H|H]]; auto.
      right. left. now right.
    + destruct (IH _ _ _ Hrun x Hx) as [H|[H|H]]; auto.
      * apply pyset_add_in in H. destruct H as [->|H]; [|now left].
        right. left. now left.
      * apply in_app_or in H. destruct H as [H|H].
        -- right. left. now right.
        -- apply filter_In in H. right. right. exists n. tauto.
Qed.

Lemma bfs_connected_nets_range (start_nets : Py.strset) (g : NetGraph) (x : string) :
  In x (_bfs_connected_nets start_nets g) ->
  In x start_nets \/ exists k, In x (neighbours g k).
Proof.
  unfold _bfs_connected_nets.
  destruct (bfs_loop (bfs_fuel g start_nets) g start_nets []) as [v|] eqn:E; [|intros []].
  intros Hx. destruct (bfs_loop_range _ _ _ _ _ E x Hx) as [[]|[H|H]]; auto.
Qed.

(* ------------------------------------------------------------------ *)
(** ** Termination of the sweeps that mark on push *)
(* ------------------------------------------------------------------ *)

Lemma unseen_nodes_cons (x : string) (l : list string) (visited : Py.strset) :
  unseen_nodes (x :: l) visited
  = (if PySet.mem x visited then 0 else 1) + unseen_nodes l visited.
Proof. unfold unseen_nodes. cbn [filter]. now destruct (PySet.mem x visited). Qed.

Lemma unseen_nodes_le (l : list string) (visited : Py.strset) :
  unseen_nodes l visited <= length l.
Proof. apply filter_length_le. Qed.

Lemma unseen_nodes_add_le (l : list string) (n : string) (visited : Py.strset) :
  unseen_nodes l (PySet.add n visited) <= unseen_nodes l visited.
Proof.
  induction l as [|x l IH]; [reflexivity|].
  rewrite !unseen_nodes_cons.
  destruct (string_dec x n) as [->|Hne].
  - rewrite pyset_mem_add_same. destruct (PySet.mem n visited); lia.
  - rewrite (pyset_mem_add_other x n visited Hne). lia.
Qed.

(** Marking a node of the list that was not marked pays for one push. *)
Lemma unseen_nodes_add_lt (l : list string) (n : string) (visited : Py.strset) :
  In n l -> PySet.mem n visited = false ->
  S (unseen_nodes l (PySet.add n visited)) <= unseen_nodes l visited.
Proof.
  intros Hin Hn. induction l as [|x l IH]; [destruct Hin|].
  rewrite !unseen_nodes_cons.
  destruct (string_dec x n) as [->|Hne].
  - rewrite pyset_mem_add_same, Hn.
    pose proof (unseen_nodes_add_le l n visited). lia.
  - destruct Hin as [Heq|Hin]; [contradiction|].
    rewrite (pyset_mem_add_other x n visited Hne). specialize (IH Hin). lia.
Qed.

Lemma neighbours_in_nodes (g : NetGraph) (cur nb : string) :
  In nb (neighbours g cur) -> In nb (graph_nodes g).
Proof.
  unfold graph_nodes. induction g as [|[k vs] g IH]; [intros []|].
  rewrite neighbours_cons. cbn [flat_map fst snd].
  destruct (String.eqb cur k).
  - intros H. right. apply in_or_app. now left.
  - intros H. right. apply in_or_app. right. now apply IH.
Qed.

Lemma dfs_push_measure (l nbs : list string) :
  (forall nb, In nb nbs -> In nb l) ->
  forall stack visited,
    length (fst (fold_left dfs_push nbs (stack, visited)))
    + unseen_nodes l (snd (fold_left dfs_push nbs (stack, visited)))
    <= length stack + unseen_nodes l visited.
Proof.
  induction nbs as [|nb nbs IH]; intros Hl stack visited; cbn [fold_left fst snd]; [lia|].
  destruct (PySet.mem nb visited) eqn:E.
  - replace (dfs_push (stack, visited) nb) with (stack, visited)
      by (unfold dfs_push; now rewrite E).
    apply IH. intros x Hx. apply Hl. now right.
  - replace (dfs_push (stack, visited) nb) with (nb :: stack, PySet.add nb visited)
      by (unfold dfs_push; now rewrite E).
    etransitivity; [apply IH; intros x Hx; apply Hl; now right|].
    pose proof (unseen_nodes_add_lt l nb visited (Hl nb (or_introl eq_refl)) E).
    cbn [length]. lia.
Qed.

Lemma dfs_loop_total (g : NetGraph) (fuel : nat) :
  forall stack visited nets_,
    length stack + unseen_nodes (graph_nodes g) visited < fuel ->
    exists result, dfs_loop fuel g stack visited nets_ = Some result.
Proof.
  induction fuel as [|fuel IH]; intros stack visited nets_ Hlt; [lia|].
  destruct stack as [|cur rest]; cbn [dfs_loop]; [now eexists|].
  pose proof (dfs_push_measure (graph_nodes g) (neighbours g cur)
                (neighbours_in_nodes g cur) rest visited) as Hm.
  destruct (fold_left dfs_push (neighbours g cur) (rest, visited)) as [stack' visited'].
  cbn [fst snd] in Hm. apply IH. cbn [length] in Hlt. lia.
Qed.

(** The iteration bound of the component sweep is never reached: the
    depth-first loop of [_passive_net_components] always empties its
    stack. *)
Lemma dfs_loop_terminates (g : NetGraph) (node : string) (visited : Py.strset) :
  exists result,
    dfs_loop (dfs_fuel g) g [node] (PySet.add node visited) [] = Some result.
Proof.
  apply dfs_loop_total. unfold dfs_fuel. cbn [length].
  pose proof (unseen_nodes_le (graph_nodes g) (PySet.add node visited)). lia.
Qed.

Lemma rlc_push_measure (allowed : Py.strset) (l nbs : list string) :
  (forall nb, In nb nbs -> In nb l) ->
  forall q visited,
    length (fst (fold_left (rlc_push allowed) nbs (q, visited)))
    + unseen_nodes l (snd (fold_left (rlc_push allowed) nbs (q, visited)))
    <= length q + unseen_nodes l visited.
Proof.
  induction nbs as [|nb nbs IH]; intros Hl q visited; cbn [fold_left fst snd]; [lia|].
  destruct (PySet.mem nb visited) eqn:E.
  - replace (rlc_push allowed (q, visited) nb) with (q, visited)
      by (unfold rlc_push; now rewrite E).
    apply IH. intros x Hx. apply Hl. now right.
  - destruct (PySet.mem nb allowed) eqn:A.
    + replace (rlc_push allowed (q, visited) nb) with (q ++ [nb], PySet.add nb visited)
        by (unfold rlc_push; now rewrite E, A).
      etransitivity; [apply IH; intros x Hx; apply Hl; now right|].
      pose proof (unseen_nodes_add_lt l nb visited (Hl nb (or_introl eq_refl)) E).
      rewrite length_app. cbn [length]. lia.
    + replace (rlc_push allowed (q, visited) nb) with (q, visited)
        by (unfold rlc_push; now rewrite E, A).
      apply IH. intros x Hx. apply Hl. now right.
Qed.

Lemma rlc_loop_total (g : NetGraph) (allowed : Py.strset) (end_ : string) (fuel : nat) :
  forall q visited,
    length q + unseen_nodes (graph_nodes g) visited < fuel ->
    exists found, rlc_loop fuel g allowed end_ q visited = Some found.
Proof.
  induction fuel as [|fuel IH]; intros q visited Hlt; [lia|].
  destruct q as [|node rest]; cbn [rlc_loop]; [now eexists|].
  destruct (String.eqb node end_); [now eexists|].
  pose proof (rlc_push_measure allowed (graph_nodes g) (neighbours g node)
                (neighbours_in_nodes g node) rest visited) as Hm.
  destruct (fold_left (rlc_push allowed) (neighbours g node) (rest, visited)) as [q' visited'].
  cbn [fst snd] in Hm. apply IH. cbn [length] in Hlt. lia.
Qed.

(** The breadth-first loop of [_has_rlc_path] always ends within its
    iteration bound. *)
Lemma rlc_loop_terminates (g : NetGraph) (allowed : Py.strset) (start end_ : string) :
  exists found,
    rlc_loop (dfs_fuel g) g allowed end_ [start] (PySet.add start []) = Some found.
Proof.
  apply rlc_loop_total. unfold dfs_fuel. cbn [length].
  pose proof (unseen_nodes_le (graph_nodes g) (PySet.add start [])). lia.
Qed.

(* ------------------------------------------------------------------ *)
(** ** Isolation domains (isolation_domain.py) *)
(* ------------------------------------------------------------------ *)

Lemma iso_component_of_carries (kg_store : option KGStore) (comp : Component) (ic : IsoComponent) :
  iso_component_of kg_store comp = Some ic ->
  carries_isolation_boundary kg_store comp /\ iso_pins ic = pins comp.
Proof.
  unfold iso_component_of, carries_isolation_boundary.
  destruct kg_store as [kg|]; [|discriminate].
  destruct (get_component kg (part_id comp)) as [info|] eqn:E; [|discriminate].
  destruct (isolation_boundary info) eqn:B; [|discriminate].
  intros [= <-]. split; [|reflexivity]. now exists kg, info.
Qed.

Lemma find_isolation_components_in (comps : list Component) (kg_store : option KGStore)
  (ic : IsoComponent) :
  In ic (_find_isolation_components comps kg_store) ->
  exists comp, In comp comps /\ iso_component_of kg_store comp = Some ic.
Proof.
  induction comps as [|c comps IH]; cbn; [intros []|].
  destruct (iso_component_of kg_store c) as [ic'|] eqn:E.
  - intros [<-|H].
    + exists c. split; [now left|exact E].
    + destruct (IH H) as [comp [Hin Hc]]. exists comp. split; [now right|exact Hc].
  - intros H. destruct (IH H) as [comp [Hin Hc]]. exists comp. split; [now right|exact Hc].
Qed.

Lemma find_isolation_components_none (comps : list Component) (kg_store : option KGStore) :
  (forall comp, In comp comps -> ~ carries_isolation_boundary kg_store comp) ->
  _find_isolation_components comps kg_store = [].
Proof.
  intros Hnone.
  destruct (_find_isolation_components comps kg_store) as [|ic rest] eqn:E; [reflexivity|].
  assert (Hin : In ic (_find_isolation_components comps kg_store)) by (rewrite E; now left).
  apply find_isolation_components_in in Hin. destruct Hin as [comp [Hc Hic]].
  apply iso_component_of_carries in Hic. destruct Hic as [Hcar _].
  exfalso. exact (Hnone comp Hc Hcar).
Qed.

(** C10: without any isolation-boundary component, the primary domain is
    the set of all net names of the snapshot and there is no secondary
    domain.  The anchor patterns play no part: the result is the same
    whatever the nets are called. *)
Theorem no_isolation_all_nets_primary (snapshot : Snapshot) (kg_store : option KGStore) :
  (forall comp, In comp (components snapshot) -> ~ carries_isolation_boundary kg_store comp) ->
  identify_isolation_domains snapshot kg_store
    = mkDomains (Py.set_of_list (net_names snapshot)) []
  /\ (forall x, In x (primary (identify_isolation_domains snapshot kg_store))
                <-> In x (net_names snapshot))
  /\ NoDup (primary (identify_isolation_domains snapshot kg_store)).
Proof.
  intros Hnone. unfold identify_isolation_domains.
  rewrite (find_isolation_components_none _ _ Hnone). cbn [primary].
  split; [reflexivity|]. split.
  - intros x. apply set_of_list_in.
  - unfold Py.set_of_list, net_names.
    assert (H : forall l acc, NoDup acc ->
              NoDup (fold_left (fun a y => set_add string_dec y a) l acc)).
    { induction l as [|y l IH]; intros acc Hacc; cbn; [exact Hacc|].
      apply IH. now apply set_add_nodup. }
    apply H. constructor.
Qed.

Lemma graph_range_connect (g : NetGraph) (P : string -> Prop) (a b : string) :
  graph_range g P -> P a -> P b -> graph_range (connect g a b) P.
Proof.
  intros Hg Pa Pb k vs x Hin Hx. unfold connect in Hin.
  apply dict_update_in in Hin.
  destruct Hin as [Hin|[-> [->|[v [Hv ->]]]]].
  - apply dict_update_in in Hin.
    destruct Hin as [Hin|[-> [->|[v [Hv ->]]]]].
    + exact (Hg _ _ _ Hin Hx).
    + apply pyset_add_in in Hx. destruct Hx as [->|[]]. exact Pb.
    + apply pyset_add_in in Hx. destruct Hx as [->|Hx]; [exact Pb|exact (Hg _ _ _ Hv Hx)].
  - apply pyset_add_in in Hx. destruct Hx as [->|[]]. exact Pa.
  - apply pyset_add_in in Hx. destruct Hx as [->|Hx]; [exact Pa|].
    apply dict_update_in in Hv.
    destruct Hv as [Hin|[_ [->|[v' [Hv' ->]]]]].
    + exact (Hg _ _ _ Hin Hx).
    + apply pyset_add_in in Hx. destruct Hx as [->|[]]. exact Pb.
    + apply pyset_add_in in Hx. destruct Hx as [->|Hx]; [exact Pb|exact (Hg _ _ _ Hv' Hx)].
Qed.

Lemma graph_range_connect_row (P : string -> Prop) (net1 : string) (rest : list string) :
  P net1 -> Forall P rest ->
  forall g, graph_range g P ->
    graph_range (fold_left (fun g' net2 => connect g' net1 net2) rest g) P.
Proof.
  intros P1 Hrest. induction Hrest as [|net2 rest P2 _ IH]; intros g Hg; cbn; [exact Hg|].
  apply IH. now apply graph_range_connect.
Qed.

Lemma graph_range_connect_all (P : string -> Prop) (ns : list string) :
  Forall P ns -> forall g, graph_range g P -> graph_range (connect_all g ns) P.
Proof.
  induction 1 as [|net1 rest P1 Hrest IH]; intros g Hg; cbn; [exact Hg|].
  apply IH. now apply graph_range_connect_row.
Qed.

Lemma pins_range_append (cp : Py.dict (list (string * string))) (P : string -> Prop)
  (r pid n : string) :
  pins_range cp P -> P n -> pins_range (Py.dict_append cp r (pid, n)) P.
Proof.
  intros Hcp Pn r0 ps pn Hin Hpn. unfold Py.dict_append in Hin.
  apply dict_update_in in Hin.
  destruct Hin as [Hin|[-> [->|[v [Hv ->]]]]].
  - exact (Hcp _ _ _ Hin Hpn).
  - cbn in Hpn. destruct Hpn as [<-|[]]. exact Pn.
  - apply in_app_or in Hpn. destruct Hpn as [Hpn|[<-|[]]]; [|exact Pn].
    exact (Hcp _ _ _ Hv Hpn).
Qed.

Lemma collect_net_range (P : string -> Prop) (n : Net)
  (st : NetGraph * Py.dict (list (string * string))) :
  P (name n) -> graph_range (fst st) P -> pins_range (snd st) P ->
  graph_range (fst (collect_net st n)) P /\ pins_range (snd (collect_net st n)) P.
Proof.
  destruct st as [g cp]. cbn [fst snd]. intros Pn Hg Hcp. unfold collect_net. cbn [fst snd].
  split.
  - destruct (Py.dict_has g (name n)); [exact Hg|].
    intros k vs x Hin Hx. apply in_app_or in Hin. destruct Hin as [Hin|[[= <- <-]|[]]].
    + exact (Hg _ _ _ Hin Hx).
    + destruct Hx.
  - generalize (endpoints n) cp Hcp. intros eps.
    induction eps as [|ep eps IH]; intros cp0 H0; cbn; [exact H0|].
    apply IH. now apply pins_range_append.
Qed.

Lemma collect_nets_range (P : string -> Prop) (ns : list Net) :
  Forall (fun n => P (name n)) ns ->
  forall st, graph_range (fst st) P -> pins_range (snd st) P ->
    graph_range (fst (fold_left collect_net ns st)) P
    /\ pins_range (snd (fold_left collect_net ns st)) P.
Proof.
  induction 1 as [|n ns Pn _ IH]; intros st Hg Hcp; cbn; [now split|].
  destruct (collect_net_range P n st Pn Hg Hcp) as [Hg' Hcp']. now apply IH.
Qed.

Lemma connect_component_range (P : string -> Prop) (ics : list IsoComponent) (g : NetGraph)
  (entry : string * list (string * string)) :
  graph_range g P -> (forall pn, In pn (snd entry) -> P (snd pn)) ->
  graph_range (connect_component ics g entry) P.
Proof.
  destruct entry as [r ps]. cbn [snd]. intros Hg Hps. unfold connect_component.
  assert (Hall : forall f, Forall P (map snd (filter f ps))).
  { intros f. apply Forall_forall. intros x Hx. apply in_map_iff in Hx.
    destruct Hx as [pn [<- Hpn]]. apply filter_In in Hpn. apply Hps. tauto. }
  destruct (iso_refs_get ics r).
  - apply graph_range_connect_all; [apply Hall|].
    apply graph_range_connect_all; [apply Hall|exact Hg].
  - apply graph_range_connect_all; [|exact Hg].
    apply Forall_forall. intros x Hx. apply in_map_iff in Hx.
    destruct Hx as [pn [<- Hpn]]. now apply Hps.
Qed.

(** Every neighbour in the net graph is the name of a net of the snapshot. *)
Lemma build_net_graph_range (snapshot : Snapshot) (ics : list IsoComponent) :
  graph_range (_build_net_graph snapshot ics) (fun x => In x (net_names snapshot)).
Proof.
  unfold _build_net_graph.
  set (P := fun x => In x (net_names snapshot)).
  assert (Hnets : Forall (fun n => P (name n)) (nets snapshot)).
  { apply Forall_forall. intros n Hn. unfold P, net_names. now apply in_map. }
  destruct (collect_nets_range P (nets snapshot) Hnets ([], [])) as [Hg Hcp].
  { intros k vs x []. }
  { intros r ps pn []. }
  destruct (fold_left collect_net (nets snapshot) ([], [])) as [g cp]. cbn [fst snd] in *.
  revert g Hg. induction cp as [|entry cp IH]; intros g Hg; cbn; [exact Hg|].
  apply IH.
  - intros r ps pn Hin. apply (Hcp r ps pn). now right.
  - apply connect_component_range; [exact Hg|].
    destruct entry as [r ps]. intros pn Hpn. apply (Hcp r ps pn); [now left|exact Hpn].
Qed.

Lemma neighbours_range (g : NetGraph) (P : string -> Prop) (k x : string) :
  graph_range g P -> In x (neighbours g k) -> P x.
Proof.
  intros Hg. unfold neighbours. destruct (Py.dict_get g k) as [vs|] eqn:E; [|intros []].
  intros Hx. apply dict_get_in in E. exact (Hg _ _ _ E Hx).
Qed.

Lemma primary_start_nets_range (ns : list Net) (x : string) :
  In x (primary_start_nets ns) -> In x (map name ns).
Proof.
  unfold primary_start_nets.
  set (step := fun acc n =>
                 if Py.any_contains anchor_patterns (Py.upper (name n))
                 then PySet.add (name n) acc else acc).
  assert (Hfold : forall l acc y, In y (fold_left step l acc) -> In y acc \/ In y (map name l)).
  { induction l as [|n l IH]; intros acc y; cbn; [tauto|].
    intros H. apply IH in H. destruct H as [H|H]; [|tauto].
    unfold step in H. destruct (Py.any_contains _ _); [|tauto].
    apply pyset_add_in in H. destruct H as [->|H]; tauto. }
  destruct (fold_left step ns []) as [|a anchored] eqn:E.
  - destruct (find _ ns) as [n|] eqn:F.
    + cbn. intros [<-|[]]. apply find_some in F. apply in_map. tauto.
    + destruct ns as [|n ns']; [intros []|].
      cbn. intros [<-|[]]. now left.
  - intros Hx. rewrite <- E in Hx. apply Hfold in Hx. destruct Hx as [[]|Hx]. exact Hx.
Qed.

Lemma secondary_start_nets_range (ic : IsoComponent) (all_visited : Py.strset) (x : string) :
  In x (secondary_start_nets ic all_visited) ->
  (exists p, In p (iso_pins ic) /\ net p = Some x /\ x <> EmptyString)
  /\ ~ In x all_visited.
Proof.
  unfold secondary_start_nets.
  set (Q := fun y => (exists p, In p (iso_pins ic) /\ net p = Some y /\ y <> EmptyString)
                     /\ ~ In y all_visited).
  assert (Hfold : forall l acc,
             (forall p, In p l -> In p (iso_pins ic)) ->
             (forall y, In y acc -> Q y) ->
             forall y,
               In y (fold_left
                       (fun acc p =>
                          if _pin_in_set (pin_id p) (iso_secondary_pins ic) then
                            match net p with
                            | Some net_name =>
                                if Py.truthy (Some net_name)
                                   && negb (PySet.mem net_name all_visited)
                                then PySet.add net_name acc else acc
                            | None => acc
                            end
                          else acc) l acc) -> Q y).
  { induction l as [|p l IH]; intros acc Hl Hacc y; cbn [fold_left]; [apply Hacc|].
    apply IH; [intros q Hq; apply Hl; now right|].
    intros z Hz. destruct (_pin_in_set _ _); [|now apply Hacc].
    destruct (net p) as [n|] eqn:En; [|now apply Hacc].
    destruct (Py.truthy (Some n) && negb (PySet.mem n all_visited)) eqn:Et; [|now apply Hacc].
    apply pyset_add_in in Hz. destruct Hz as [->|Hz]; [|now apply Hacc].
    apply andb_prop in Et. destruct Et as [Ht Hm]. split.
    - exists p. split; [apply Hl; now left|]. split; [exact En|].
      intros ->. discriminate.
    - apply negb_true_iff in Hm. now apply pyset_mem_false. }
  intros Hx. apply (Hfold (iso_pins ic) []); auto. intros y [].
Qed.

Lemma ForallOrdPairs_snoc {A} (R : A -> A -> Prop) (l : list A) (x : A) :
  ForallOrdPairs R l -> (forall y, In y l -> R y x) -> ForallOrdPairs R (l ++ [x]).
Proof.
  induction 1 as [|a l Ha Hl IH]; intros Hx; cbn.
  - constructor; constructor.
  - constructor.
    + apply Forall_app. split; [exact Ha|]. constructor; [|constructor]. apply Hx. now left.
    + apply IH. intros y Hy. apply Hx. now right.
Qed.

Lemma secondary_step_inv (g : NetGraph) (primary_nets : Py.strset) (P : string -> Prop)
  (st : list Py.strset * Py.strset) (ic : IsoComponent) :
  graph_range g P ->
  (forall p n, In p (iso_pins ic) -> net p = Some n -> n <> EmptyString -> P n) ->
  secondary_inv primary_nets P st ->
  secondary_inv primary_nets P (secondary_step g st ic).
Proof.
  intros Hg Hpins Hinv. destruct st as [doms av]. unfold secondary_step.
  destruct (secondary_start_nets ic av) as [|s0 ss] eqn:Es; [exact Hinv|].
  rewrite <- Es.
  set (domain := PySet.diff (_bfs_connected_nets (secondary_start_nets ic av) g) av).
  destruct domain as [|d0 ds] eqn:Ed; [exact Hinv|].
  rewrite <- Ed.
  assert (Hdom : forall x, In x domain -> ~ In x av /\ P x).
  { intros x Hx. unfold domain in Hx. apply pyset_diff_in in Hx. destruct Hx as [Hb Hnav].
    split; [exact Hnav|].
    apply bfs_connected_nets_range in Hb. destruct Hb as [Hb|[k Hb]].
    - apply secondary_start_nets_range in Hb. destruct Hb as [[p [Hp [Hn Hne]]] _].
      exact (Hpins p x Hp Hn Hne).
    - exact (neighbours_range g P k x Hg Hb). }
  destruct Hinv as [Hprim [Hin [Hdisj Hpair]]]. cbn [fst snd] in *.
  repeat split.
  - intros x Hx. apply pyset_union_in. left. now apply Hprim.
  - apply in_app_or in H. destruct H as [H|[<-|[]]].
    + apply pyset_union_in. left. exact (proj1 (Hin d x H H0)).
    + apply pyset_union_in. now right.
  - apply in_app_or in H. destruct H as [H|[<-|[]]].
    + exact (proj2 (Hin d x H H0)).
    + exact (proj2 (Hdom x H0)).
  - intros d Hd x Hx1 Hx2. apply in_app_or in Hd. destruct Hd as [Hd|[<-|[]]].
    + exact (Hdisj d Hd x Hx1 Hx2).
    + exact (proj1 (Hdom x Hx2) (Hprim x Hx1)).
  - apply ForallOrdPairs_snoc; [exact Hpair|].
    intros y Hy x Hx1 Hx2. exact (proj1 (Hdom x Hx2) (proj1 (Hin y x Hy Hx1))).
Qed.

Lemma find_secondary_domains_inv (g : NetGraph) (primary_nets : Py.strset)
  (P : string -> Prop) (ics : list IsoComponent) :
  graph_range g P ->
  Forall (fun ic => forall p n, In p (iso_pins ic) -> net p = Some n -> n <> EmptyString -> P n)
    ics ->
  forall st, secondary_inv primary_nets P st ->
    secondary_inv primary_nets P (fold_left (secondary_step g) ics st).
Proof.
  intros Hg Hics. induction Hics as [|ic ics Hic _ IH]; intros st Hst; cbn; [exact Hst|].
  apply IH. now apply secondary_step_inv.
Qed.

(** Disjointness needs nothing of the snapshot: each secondary domain is
    cut down by everything found before it. *)
Lemma isolation_domains_disjoint (snapshot : Snapshot) (kg_store : option KGStore) :
  pairwise_disjoint_domains (identify_isolation_domains snapshot kg_store).
Proof.
  unfold pairwise_disjoint_domains, identify_isolation_domains.
  destruct (_find_isolation_components (components snapshot) kg_store) as [|ic0 ics0] eqn:E.
  - cbn. constructor; constructor.
  - rewrite <- E. cbn [primary secondary].
    set (ics := _find_isolation_components (components snapshot) kg_store).
    set (g := _build_net_graph snapshot ics).
    set (prim := _find_primary_domain snapshot g ics).
    unfold _find_secondary_domains.
    assert (Hinv : secondary_inv prim (fun _ => True)
                     (fold_left (secondary_step g) ics ([], prim))).
    { apply find_secondary_domains_inv.
      - intros k vs x _ _. exact I.
      - apply Forall_forall. intros ic _ p n _ _ _. exact I.
      - unfold secondary_inv; cbn [fst snd].
        split; [tauto|]. split; [intros d x []|]. split; [intros d []|constructor]. }
    destruct Hinv as [_ [_ [Hdisj Hpair]]].
    constructor; [|exact Hpair]. apply Forall_forall. exact Hdisj.
Qed.

(** The primary domain never leaves the snapshot's nets. *)
Lemma primary_domain_within_nets (snapshot : Snapshot) (kg_store : option KGStore) (x : string) :
  In x (primary (identify_isolation_domains snapshot kg_store)) -> In x (net_names snapshot).
Proof.
  unfold identify_isolation_domains.
  destruct (_find_isolation_components (components snapshot) kg_store) as [|ic0 ics0] eqn:E.
  - cbn. apply set_of_list_in.
  - rewrite <- E. cbn [primary]. unfold _find_primary_domain. intros Hx.
    apply bfs_connected_nets_range in Hx. destruct Hx as [Hx|[k Hx]].
    + now apply primary_start_nets_range in Hx.
    + exact (neighbours_range _ _ k x (build_net_graph_range snapshot _) Hx).
Qed.

(** C7: the isolation partition invariant.  On a snapshot as the
    extraction builds it, where every connected pin sits on a listed net
    ([snapshot_from_circuit] enters the net of every pin into [nets]), the
    domains found are pairwise disjoint and hold only names of nets of the
    snapshot. *)
Theorem isolation_partition_holds (snapshot : Snapshot) (kg_store : option KGStore) :
  pins_on_listed_nets snapshot ->
  isolation_partition snapshot (identify_isolation_domains snapshot kg_store).
Proof.
  intros Hwf. split; [apply isolation_domains_disjoint|].
  intros dom x [<-|Hdom] Hx; [now apply (primary_domain_within_nets snapshot kg_store)|].
  revert Hdom. unfold identify_isolation_domains.
  destruct (_find_isolation_components (components snapshot) kg_store) as [|ic0 ics0] eqn:E.
  - intros [].
  - rewrite <- E. cbn [secondary].
    set (ics := _find_isolation_components (components snapshot) kg_store).
    set (g := _build_net_graph snapshot ics).
    set (prim := _find_primary_domain snapshot g ics).
    unfold _find_secondary_domains. intros Hdom.
    assert (Hinv : secondary_inv prim (fun y => In y (net_names snapshot))
                     (fold_left (secondary_step g) ics ([], prim))).
    { apply find_secondary_domains_inv.
      - apply build_net_graph_range.
      - apply Forall_forall. intros ic Hic p n Hp Hn Hne.
        apply find_isolation_components_in in Hic. destruct Hic as [comp [Hc Hic]].
        apply iso_component_of_carries in Hic. destruct Hic as [_ Hpins].
        rewrite Hpins in Hp. exact (Hwf comp p n Hc Hp Hn Hne).
      - unfold secondary_inv; cbn [fst snd].
        split; [tauto|]. split; [intros d y []|]. split; [intros d []|constructor]. }
    destruct Hinv as [_ [Hin _]]. exact (proj2 (Hin dom x Hdom Hx)).
Qed.

Example two_supplies_domains :
  identify_isolation_domains Samples.two_supplies_snapshot (Some Samples.kg)
  = mkDomains ["V12"; "GND_PRI"] [["VDD1"; "COM1"; "VEE1"]; ["VDD2"; "COM2"; "VEE2"]].
Proof. vm_compute. reflexivity. Qed.

(** C7, witness: the two-supply sample satisfies the hypothesis. *)
Lemma isolation_partition_holds_witness :
  pins_on_listed_nets Samples.two_supplies_snapshot
  /\ isolation_partition Samples.two_supplies_snapshot
       (identify_isolation_domains Samples.two_supplies_snapshot (Some Samples.kg)).
Proof.
  assert (H : pins_on_listed_nets Samples.two_supplies_snapshot).
  { intros comp p n Hc Hp Hn _.
    cbn in Hc. destruct Hc as [<-|[<-|[]]]; cbn in Hp;
      repeat (destruct Hp as [<-|Hp]; [injection Hn as <-; cbn; tauto|]); destruct Hp. }
  split; [exact H|].
  exact (isolation_partition_holds Samples.two_supplies_snapshot (Some Samples.kg) H).
Defined.

(** Why the invariant is stated for snapshots of the extraction: on a
    hand-made dictionary whose [nets] omit the net of a secondary pin, which
    [snapshot_from_circuit] never returns, that net name still enters a
    secondary domain. *)
Lemma isolation_partition_unlisted_net :
  identify_isolation_domains Samples.unlisted_net_snapshot (Some Samples.kg)
  = mkDomains [] [["VDD_SEC"]]
  /\ net_names Samples.unlisted_net_snapshot = []
  /\ (exists dom x,
        In dom (secondary (identify_isolation_domains
                             Samples.unlisted_net_snapshot (Some Samples.kg)))
        /\ In x dom /\ ~ In x (net_names Samples.unlisted_net_snapshot)).
Proof.
  split; [vm_compute; reflexivity|]. split; [reflexivity|].
  exists ["VDD_SEC"], "VDD_SEC". split; [vm_compute; now left|].
  split; [now left|]. intros [].
Qed.

(** C10, witness: the resistor divider has no boundary component. *)
Lemma no_isolation_all_nets_primary_witness :
  (forall comp, In comp (components Samples.divider_snapshot) ->
                ~ carries_isolation_boundary (Some Samples.kg) comp)
  /\ identify_isolation_domains Samples.divider_snapshot (Some Samples.kg)
     = mkDomains ["VIN"; "MID"; "GND"] [].
Proof.
  assert (H : forall comp, In comp (components Samples.divider_snapshot) ->
                           ~ carries_isolation_boundary (Some Samples.kg) comp).
  { intros comp Hc [kg0 [info [Hkg [Hget _]]]]. injection Hkg as <-.
    cbn in Hc. destruct Hc as [<-|[<-|[]]]; vm_compute in Hget; discriminate. }
  split; [exact H|].
  exact (proj1 (no_isolation_all_nets_primary Samples.divider_snapshot (Some Samples.kg) H)).
Defined.

(* ------------------------------------------------------------------ *)
(** ** Net conflicts (net_conflict_checker.py) *)
(* ------------------------------------------------------------------ *)

(** The loop of [_check_cross_domain_nets] records for a name the domain
    that [get_net_domain] gives it, and [get_net_domain] is a function of
    the name: a second net of the same name is given the same domain. *)
Lemma cross_domain_loop_silent (domains : Domains) (ns : list Net) :
  forall net_domains,
    (forall k d, In (k, d) net_domains -> d = get_net_domain k domains) ->
    snd (fold_left (cross_domain_step domains) ns (net_domains, [])) = [].
Proof.
  induction ns as [|n ns IH]; intros net_domains Hrec; cbn [fold_left]; [reflexivity|].
  unfold cross_domain_step at 2.
  destruct (Py.dict_get net_domains (name n)) as [recorded|] eqn:E.
  - apply dict_get_in in E. apply Hrec in E. subst recorded.
    rewrite String.eqb_refl. cbn [negb]. now apply IH.
  - apply IH. intros k d Hin. apply in_app_or in Hin.
    destruct Hin as [Hin|[[= <- <-]|[]]]; [now apply Hrec|reflexivity].
Qed.

Lemma check_cross_domain_nets_silent (snapshot : Snapshot) (domains : Domains) :
  _check_cross_domain_nets snapshot domains = [].
Proof.
  unfold _check_cross_domain_nets. destruct (negb (has_secondary domains)); [reflexivity|].
  apply cross_domain_loop_silent. intros k d [].
Qed.

Lemma reserved_name_conflicts_silent (snapshot : Snapshot) (domains : Domains) :
  _check_reserved_name_conflicts snapshot domains = [].
Proof.
  unfold _check_reserved_name_conflicts. destruct (negb (has_secondary domains)); [reflexivity|].
  induction RESERVED_PATTERNS as [|pattern rest IH]; [reflexivity|].
  cbn [flat_map]. rewrite IH. now destruct (1 <? length _).
Qed.

(** Every message of [check_net_conflicts] is a GND or an instance naming
    warning. *)
Lemma net_conflict_messages (snapshot : Snapshot) (kg_store : option KGStore) (e : string) :
  In e (check_net_conflicts snapshot kg_store) ->
  Py.startswith e "GND NAMING WARNING" = true
  \/ Py.startswith e "INSTANCE NAMING WARNING" = true.
Proof.
  unfold check_net_conflicts.
  rewrite check_cross_domain_nets_silent, reserved_name_conflicts_silent.
  intros Hin.
  repeat (apply in_app_or in Hin; destruct Hin as [Hin|Hin]); try (now destruct Hin).
  - left. unfold _check_gnd_naming in Hin.
    repeat match type of Hin with
           | context [if ?c then _ else _] => destruct c
           end; try destruct Hin as [<-|[]]; try destruct Hin. reflexivity.
  - right. unfold _check_instance_conflicts in Hin. apply in_flat_map in Hin.
    destruct Hin as [[base instances] [_ Hin]]. unfold instance_warning in Hin.
    match type of Hin with
    | context [if ?c then _ else _] => destruct c
    end; [|destruct Hin]. destruct Hin as [<-|[]]. reflexivity.
Qed.

(** The second reading of scenario S6, the primary side on a ground of its
    own: the two secondary sides merge into one domain and nothing is
    reported either. *)
Example s6_secondary_only_silent :
  check_net_conflicts Samples.s6_secondary_only_snapshot (Some Samples.kg) = []
  /\ identify_isolation_domains Samples.s6_secondary_only_snapshot (Some Samples.kg)
     = mkDomains ["V12"; "GND_PRI"] [["VDD2"; "VEE2"; "VDD1"; "GND"; "VEE1"]].
Proof. split; vm_compute; reflexivity. Qed.

(** C1: on scenario S6 the checker reports nothing at all; no snapshot can
    make the cross-domain analysis report a conflict, and no message of
    [check_net_conflicts] ever begins with NET CONFLICT. *)
Theorem net_conflict_never_reported :
  check_net_conflicts Samples.s6_snapshot (Some Samples.kg) = []
  /\ identify_isolation_domains Samples.s6_snapshot (Some Samples.kg)
     = mkDomains ["V12"; "GND"; "VEE1"; "VDD1"; "VEE2"; "VDD2"] []
  /\ (forall snapshot domains, _check_cross_domain_nets snapshot domains = [])
  /\ (forall snapshot kg_store e,
        In e (check_net_conflicts snapshot kg_store) ->
        Py.startswith e "NET CONFLICT" = false).
Proof.
  split; [vm_compute; reflexivity|]. split; [vm_compute; reflexivity|].
  split; [exact check_cross_domain_nets_silent|].
  intros snapshot kg_store e Hin.
  destruct (net_conflict_messages snapshot kg_store e Hin) as [H|H];
    destruct e as [|c e]; try discriminate H;
    unfold Py.startswith in *; cbn [String.prefix] in *;
    destruct (Ascii.ascii_dec _ _) as [<-|_] in H; try discriminate H; reflexivity.
Qed.

(* ------------------------------------------------------------------ *)
(** ** The complex-task validator (complex_task_validator.py) *)
(* ------------------------------------------------------------------ *)

Lemma divert_warnings_split (stage_errors errors warnings : list string) :
  divert_warnings stage_errors (errors, warnings)
  = (errors ++ errors_only stage_errors, warnings ++ warnings_only stage_errors).
Proof.
  unfold divert_warnings, errors_only, warnings_only, is_warning.
  revert errors warnings.
  induction stage_errors as [|err rest IH]; intros errors warnings; cbn [fold_left filter].
  - now rewrite !app_nil_r.
  - destruct (Py.contains "WARNING" err); cbn [negb]; rewrite IH.
    + now rewrite <- app_assoc.
    + now rewrite <- app_assoc.
Qed.

Example gate_warning_is_diverted :
  check_mosfet_net_conflicts Samples.shared_gate_snapshot
  = ["GATE NET WARNING: Net 'GATE' connects to 3 MOSFET gates: ['Q1', 'Q2', 'Q3']. This may indicate unintended parallel connection or missing numeric suffix for multi-half-bridge design."]
  /\ errors_only (check_mosfet_net_conflicts Samples.shared_gate_snapshot) = [].
Proof. split; vm_compute; reflexivity. Qed.

(** The interface checker and the template dispatch of the system
    topology checker are left open: the validator is studied for whatever
    those two stages return. *)
Section ValidatorProperties.

Variable check_interfaces : Snapshot -> option KGStore -> list string.
Variable check_system_topology : Snapshot -> Z -> option KGStore -> list string.

(** C2 (amended): a non-empty Phase 2 result is returned alone, failed, and
    no other stage is called; otherwise all six stages are called in
    pipeline order and the errors are the stage outputs concatenated in
    that order, the net-conflict and the MOSFET net-conflict outputs both
    losing their 'WARNING' entries to the warnings list. *)
Theorem validate_complex_task_pipeline (snapshot : Snapshot) (task_id : Z)
  (kg_store : option KGStore) :
  let stage :=
    stage_impl (fun s kg t => run_phase2_checks s kg (Some t))
      check_interfaces check_system_topology in
  let phase2 := run_phase2_checks snapshot kg_store (Some task_id) in
  let iso := check_isolation_boundary_violations snapshot kg_store in
  let net := check_net_conflicts snapshot kg_store in
  let iface := check_interfaces snapshot kg_store in
  let sys := check_system_topology snapshot task_id kg_store in
  let mosfet := check_mosfet_net_conflicts snapshot in
  let errors := pipeline_errors iso net iface sys mosfet in
  run stage (validate_complex_task snapshot task_id kg_store)
  = match phase2 with
    | _ :: _ => (false, phase2, [])
    | [] => (passed_flag errors, errors, warnings_only net ++ warnings_only mosfet)
    end
  /\ calls stage (validate_complex_task snapshot task_id kg_store)
     = match phase2 with
       | _ :: _ => [CallPhase2 snapshot kg_store task_id]
       | [] => [CallPhase2 snapshot kg_store task_id;
                CallIsolationBoundary snapshot kg_store;
                CallNetConflicts snapshot kg_store;
                CallInterfaces snapshot kg_store;
                CallSystemTopology snapshot task_id kg_store;
                CallMosfetNetConflicts snapshot]
       end.
Proof.
  cbv zeta. unfold validate_complex_task. cbn [run calls stage_impl].
  destruct (run_phase2_checks snapshot kg_store (Some task_id)) as [|e phase2].
  - cbn [run calls stage_impl app].
    rewrite divert_warnings_split. cbn [run calls stage_impl app].
    rewrite divert_warnings_split. cbn [run calls stage_impl app].
    unfold pipeline_errors, passed_flag. rewrite <- !app_assoc. split; reflexivity.
  - cbn [run calls app]. split; reflexivity.
Qed.

End ValidatorProperties.

(** Phase 2 finds nothing on the three MOSFETs that share a gate net, and
    neither do the isolation and net-conflict stages. *)
Example shared_gate_early_stages :
  run_phase2_checks Samples.shared_gate_snapshot None (Some 17%Z) = []
  /\ check_isolation_boundary_violations Samples.shared_gate_snapshot None = []
  /\ check_net_conflicts Samples.shared_gate_snapshot None = [].
Proof. repeat split; vm_compute; reflexivity. Qed.

(** C2, as worded, fails on three MOSFETs sharing a gate net (task 17, no
    knowledge graph): Phase 2 passes, the MOSFET net-conflict stage
    returns one entry, and whatever the interface and system-topology
    stages return, that entry is in the warnings of the result and not in
    its errors, so the errors are not the unfiltered concatenation. *)
Lemma validator_diverts_gate_warnings :
  run_phase2_checks Samples.shared_gate_snapshot None (Some 17%Z) = []
  /\ check_mosfet_net_conflicts Samples.shared_gate_snapshot
     = ["GATE NET WARNING: Net 'GATE' connects to 3 MOSFET gates: ['Q1', 'Q2', 'Q3']. This may indicate unintended parallel connection or missing numeric suffix for multi-half-bridge design."]
  /\ forall (check_interfaces : Snapshot -> option KGStore -> list string)
       (check_system_topology : Snapshot -> Z -> option KGStore -> list string),
       let s := Samples.shared_gate_snapshot in
       let stage :=
         stage_impl (fun s kg t => run_phase2_checks s kg (Some t))
           check_interfaces check_system_topology in
       let result := run stage (validate_complex_task s 17%Z None) in
       let iface := check_interfaces s None in
       let sys := check_system_topology s 17%Z None in
       result
       = (passed_flag (iface ++ sys), iface ++ sys, check_mosfet_net_conflicts s)
       /\ snd (fst result)
          <> claimed_errors (check_isolation_boundary_violations s None)
               (check_net_conflicts s None) iface sys (check_mosfet_net_conflicts s).
Proof.
  split; [vm_compute; reflexivity|]. split; [vm_compute; reflexivity|].
  intros ci cs. cbv zeta. unfold validate_complex_task. cbn [run stage_impl].
  destruct shared_gate_early_stages as (Hp & Hi & Hn).
  destruct gate_warning_is_diverted as (Hm & He).
  assert (Hw : warnings_only (check_mosfet_net_conflicts Samples.shared_gate_snapshot)
               = check_mosfet_net_conflicts Samples.shared_gate_snapshot)
    by (vm_compute; reflexivity).
  rewrite Hp. cbn [run stage_impl app]. rewrite !divert_warnings_split.
  cbn [run stage_impl app]. rewrite !divert_warnings_split.
  rewrite Hi, Hn, He, Hw. cbn [app errors_only warnings_only filter fst snd].
  rewrite !app_nil_r. split; [reflexivity|].
  unfold claimed_errors. cbn [app errors_only filter]. rewrite Hm.
  intros H. cbn [run fst snd app] in H. apply (f_equal (@length string)) in H.
  rewrite !length_app in H. cbn [length] in H. lia.
Qed.

(* ------------------------------------------------------------------ *)
(** ** Rule checking (rule_checker.py) *)
(* ------------------------------------------------------------------ *)

Section RuleCheckerProperties.

Variable _check_p3_gain : Snapshot -> list string.

(** C9: for task 15 the rule list plays no part: any two rule lists give
    the same output, which is what the UCC5390E OUT-resistor check returns
    (one of its two messages, or nothing). *)
Theorem check_rules_task15_ignores_rules (snapshot : Snapshot) (rules rules' : list Rule) :
  check_rules _check_p3_gain snapshot rules (Some 15%Z)
  = check_rules _check_p3_gain snapshot rules' (Some 15%Z)
  /\ check_rules _check_p3_gain snapshot rules (Some 15%Z)
     = fst (_check_task15_out_resistor snapshot (_passive_net_components snapshot "R") [])
  /\ (check_rules _check_p3_gain snapshot rules (Some 15%Z) = []
      \/ check_rules _check_p3_gain snapshot rules (Some 15%Z)
         = ["UCC5390E: OUT pin missing net"]
      \/ check_rules _check_p3_gain snapshot rules (Some 15%Z)
         = ["UCC5390E: OUT must connect to a gate net through a resistor network"]).
Proof.
  unfold check_rules. cbn [task_is Z.eqb Pos.eqb app].
  split; [reflexivity|]. split; [reflexivity|].
  unfold _check_task15_out_resistor.
  destruct (_resolve_endpoint_nets snapshot (task_endpoint "UCC5390E" "out") [])
    as [out_nets cache].
  destruct (is_empty out_nets); [right; left; reflexivity|].
  match goal with
  | |- context [fold_left ?f ?l ?a] => destruct (fold_left f l a) as [supply_nets cache']
  end.
  match goal with
  | |- context [existsb ?f ?l] => destruct (existsb f l)
  end; [left; reflexivity|right; right; reflexivity].
Qed.

End RuleCheckerProperties.

Lemma key_eqb_eq (a b : EndpointKey) : key_eqb a b = true <-> a = b.
Proof.
  destruct a as [[[[a1 a2] a3] a4] a5], b as [[[[b1 b2] b3] b4] b5]. cbn.
  rewrite !andb_true_iff, !String.eqb_eq. split.
  - intros [[[[-> ->] ->] ->] ->]. reflexivity.
  - intros [= -> -> -> -> ->]. tauto.
Qed.

Lemma truthy_or_empty (o : option string) :
  Py.truthy o = negb (String.eqb (Py.or_empty o) EmptyString).
Proof. destruct o as [[|c s]|]; reflexivity. Qed.

(** The resolution reads a descriptor only through its signature, which is
    why caching by signature is sound. *)
Lemma resolve_endpoint_signature (snapshot : Snapshot) (e1 e2 : RuleEndpoint) :
  _endpoint_signature e1 = _endpoint_signature e2 ->
  resolve_endpoint snapshot e1 = resolve_endpoint snapshot e2.
Proof.
  unfold _endpoint_signature. intros [= H1 H2 H3 H4 H5].
  unfold resolve_endpoint, resolve_pins, field_rejects.
  rewrite !truthy_or_empty, H1, H2, H3, H4, H5. reflexivity.
Qed.

Lemma cache_sound_nil (snapshot : Snapshot) : cache_sound snapshot [].
Proof. intros e nets_ H. discriminate. Qed.

Lemma cache_get_app (cache : EndpointCache) (k k0 : EndpointKey) (v : Py.strset) :
  cache_get (cache ++ [(k0, v)]) k
  = match cache_get cache k with
    | Some r => Some r
    | None => if key_eqb k k0 then Some v else None
    end.
Proof.
  induction cache as [|[k' v'] cache IH]; cbn; [reflexivity|].
  destruct (key_eqb k k'); [reflexivity|exact IH].
Qed.

Lemma resolve_endpoint_nets_sound (snapshot : Snapshot) (e : RuleEndpoint)
  (cache : EndpointCache) :
  cache_sound snapshot cache ->
  fst (_resolve_endpoint_nets snapshot e cache) = resolve_endpoint snapshot e
  /\ cache_sound snapshot (snd (_resolve_endpoint_nets snapshot e cache)).
Proof.
  intros Hc. unfold _resolve_endpoint_nets.
  destruct (cache_get cache (_endpoint_signature e)) as [nets_|] eqn:E; cbn [fst snd].
  - split; [now apply Hc|exact Hc].
  - split; [reflexivity|]. intros e' nets' H. rewrite cache_get_app in H.
    destruct (cache_get cache (_endpoint_signature e')) as [r|] eqn:E'.
    + injection H as <-. now apply Hc.
    + destruct (key_eqb (_endpoint_signature e') (_endpoint_signature e)) eqn:K; [|discriminate].
      injection H as <-. apply key_eqb_eq in K. now apply resolve_endpoint_signature.
Qed.

Lemma scan_inner (linked : string -> string -> bool) (a : string) (B : Py.strset) :
  forall shorted,
    fold_left (scan_pair linked a) B (Scanning shorted)
    = if linked_any linked a B then Linked else Scanning (shorted || equal_any a B).
Proof.
  assert (HL : forall l, fold_left (scan_pair linked a) l Linked = Linked)
    by (induction l; cbn; auto).
  induction B as [|b B IH]; intros shorted; cbn [fold_left linked_any equal_any existsb].
  - now rewrite orb_false_r.
  - unfold scan_pair at 2. destruct (String.eqb a b) eqn:E; cbn [negb andb orb].
    + rewrite IH. fold (linked_any linked a B). fold (equal_any a B).
      now rewrite orb_true_r.
    + destruct (linked a b); cbn [orb].
      * apply HL.
      * rewrite IH. reflexivity.
Qed.

Lemma scan_outer (linked : string -> string -> bool) (B : Py.strset) (A : Py.strset) :
  forall shorted,
    fold_left (fun st net_a => fold_left (scan_pair linked net_a) B st) A (Scanning shorted)
    = if existsb (fun a => linked_any linked a B) A then Linked
      else Scanning (shorted || existsb (fun a => equal_any a B) A).
Proof.
  assert (HL : forall l b, fold_left (scan_pair linked b) l Linked = Linked)
    by (induction l; cbn; auto).
  assert (HLo : forall l,
             fold_left (fun st net_a => fold_left (scan_pair linked net_a) B st) l Linked
             = Linked).
  { induction l as [|x l IHl]; cbn; [reflexivity|]. now rewrite HL. }
  induction A as [|a A IH]; intros shorted; cbn [fold_left existsb].
  - now rewrite orb_false_r.
  - rewrite scan_inner. destruct (linked_any linked a B); cbn [orb].
    + apply HLo.
    + rewrite IH. now rewrite orb_assoc.
Qed.

Lemma check_pair_rule_closed (linked : string -> string -> bool) (A B : Py.strset) :
  check_pair_rule linked A B
  = if existsb (fun a => linked_any linked a B) A then (true, false, None)
    else if existsb (fun a => equal_any a B) A && negb (_has_nonshort_pair A B)
         then (false, true, _first_common A B)
         else (false, false, None).
Proof.
  unfold check_pair_rule, scan_pairs. rewrite scan_outer.
  destruct (existsb (fun a => linked_any linked a B) A); reflexivity.
Qed.

Lemma linked_any_spec (linked : string -> string -> bool) (A B : Py.strset) :
  existsb (fun a => linked_any linked a B) A = true
  <-> exists a b, In a A /\ In b B /\ a <> b /\ linked a b = true.
Proof.
  rewrite existsb_exists. split.
  - intros [a [Ha H]]. unfold linked_any in H. apply existsb_exists in H.
    destruct H as [b [Hb H]]. apply andb_true_iff in H. destruct H as [Hne Hl].
    exists a, b. repeat split; auto. apply negb_true_iff, String.eqb_neq in Hne. exact Hne.
  - intros [a [b [Ha [Hb [Hne Hl]]]]]. exists a. split; [exact Ha|].
    unfold linked_any. apply existsb_exists. exists b. split; [exact Hb|].
    apply andb_true_iff. split; [|exact Hl]. now apply negb_true_iff, String.eqb_neq.
Qed.

Lemma equal_any_spec (A B : Py.strset) :
  existsb (fun a => equal_any a B) A = true <-> some_equal_pair A B.
Proof.
  unfold some_equal_pair. rewrite existsb_exists. split.
  - intros [a [Ha H]]. unfold equal_any in H. apply existsb_exists in H.
    destruct H as [b [Hb H]]. apply String.eqb_eq in H. now exists a, b.
  - intros [a [b [Ha [Hb ->]]]]. exists b. split; [exact Ha|].
    unfold equal_any. apply existsb_exists. exists b. split; [exact Hb|apply String.eqb_refl].
Qed.

Lemma has_nonshort_pair_spec (A B : Py.strset) :
  _has_nonshort_pair A B = true <-> some_distinct_pair A B.
Proof.
  unfold _has_nonshort_pair, some_distinct_pair. rewrite existsb_exists. split.
  - intros [a [Ha H]]. apply existsb_exists in H. destruct H as [b [Hb H]].
    exists a, b. repeat split; auto. now apply negb_true_iff, String.eqb_neq in H.
  - intros [a [b [Ha [Hb Hne]]]]. exists a. split; [exact Ha|].
    apply existsb_exists. exists b. split; [exact Hb|].
    now apply negb_true_iff, String.eqb_neq.
Qed.

Lemma insert_sorted_perm (x : string) (l : list string) :
  Permutation (Py.insert_sorted x l) (x :: l).
Proof.
  induction l as [|y l IH]; cbn; [apply Permutation_refl|].
  destruct (String.leb x y); [apply Permutation_refl|].
  eapply Permutation_trans; [apply perm_skip, IH|apply perm_swap].
Qed.

Lemma sorted_perm (l : list string) : Permutation (Py.sorted l) l.
Proof.
  unfold Py.sorted. induction l as [|x l IH]; cbn; [apply Permutation_refl|].
  eapply Permutation_trans; [apply insert_sorted_perm|now apply perm_skip].
Qed.

Lemma sorted_in (l : list string) (x : string) : In x (Py.sorted l) <-> In x l.
Proof.
  split; apply Permutation_in; [apply sorted_perm|apply Permutation_sym, sorted_perm].
Qed.

Lemma sorted_nodup (l : list string) : NoDup l -> NoDup (Py.sorted l).
Proof. apply Permutation_NoDup, Permutation_sym, sorted_perm. Qed.

Lemma component_net_set_nodup (comp : Component) : NoDup (component_net_set comp).
Proof.
  unfold component_net_set.
  assert (H : forall ps acc, NoDup acc ->
            NoDup (fold_left
                     (fun acc p =>
                        match net p with
                        | Some n => if Py.truthy (Some n) then PySet.add n acc else acc
                        | None => acc
                        end) ps acc)).
  { induction ps as [|p ps IH]; intros acc Hacc; cbn [fold_left]; [exact Hacc|].
    apply IH. destruct (net p) as [n|]; [|exact Hacc].
    destruct (Py.truthy (Some n)); [|exact Hacc]. now apply set_add_nodup. }
  apply H. constructor.
Qed.

Lemma sorted_pair_some (l : list string) (x y : string) :
  sorted_pair l = Some (x, y) -> forall z, In z l <-> z = x \/ z = y.
Proof.
  unfold sorted_pair. destruct (Py.sorted l) as [|a [|b [|c r]]] eqn:E; try discriminate.
  intros [= <- <-] z. rewrite <- sorted_in, E. cbn. intuition auto.
Qed.

Lemma sorted_pair_of_two (l : list string) (a b : string) :
  NoDup l -> (forall z, In z l <-> z = a \/ z = b) -> a <> b ->
  sorted_pair l = Some (a, b) \/ sorted_pair l = Some (b, a).
Proof.
  intros Hnd Hin Hne.
  assert (Hp : Permutation (Py.sorted l) [a; b]).
  { eapply Permutation_trans; [apply sorted_perm|].
    apply NoDup_Permutation; [exact Hnd| |].
    - constructor; [intros [H|[]]; congruence|]. constructor; [intros []|constructor].
    - intros z. rewrite Hin. cbn. intuition auto. }
  unfold sorted_pair.
  apply Permutation_sym, Permutation_length_2_inv in Hp.
  destruct Hp as [->| ->]; auto.
Qed.

Lemma pair_eqb_spec (a b x y : string) :
  pair_eqb a b (x, y) = true <-> (x = a /\ y = b) \/ (x = b /\ y = a).
Proof.
  unfold pair_eqb. cbn [fst snd].
  rewrite orb_true_iff, !andb_true_iff, !String.eqb_eq. tauto.
Qed.

Lemma pair_mem_app (a b : string) (pairs : list (string * string)) (x y : string) :
  pair_mem a b (pairs ++ [(x, y)]) = pair_mem a b pairs || pair_eqb a b (x, y).
Proof. unfold pair_mem. rewrite existsb_app. cbn. now rewrite orb_false_r. Qed.

Lemma is_passive_of_spec (t : string) (comp : Component) :
  is_passive_of t comp = true <-> classify_passive comp = Some t.
Proof.
  unfold is_passive_of. destruct (classify_passive comp) as [c|]; cbn.
  - rewrite String.eqb_eq. split; [now intros ->|now intros [= ->]].
  - split; discriminate.
Qed.

(** The set comprehension [{pin.get("net") for pin in pins if pin.get("net")}]
    holds exactly the nets on which the component has a connected pin. *)
Lemma component_net_set_in (comp : Component) (x : string) :
  In x (component_net_set comp) <-> on_net comp x.
Proof.
  unfold component_net_set, on_net.
  assert (H : forall ps acc,
            In x (fold_left
                    (fun acc p =>
                       match net p with
                       | Some n => if Py.truthy (Some n) then PySet.add n acc else acc
                       | None => acc
                       end) ps acc)
            <-> In x acc
                \/ exists p, In p ps /\ net p = Some x /\ Py.truthy (Some x) = true).
  { induction ps as [|p ps IH]; intros acc; cbn [fold_left].
    - split; [now left | intros [H|(p & [] & _)]; exact H].
    - rewrite IH. split.
      + intros [H|(q & Hq & Hn & Ht)].
        * destruct (net p) as [n|] eqn:En; [|now left].
          destruct (Py.truthy (Some n)) eqn:Et; [|now left].
          apply pyset_add_in in H. destruct H as [->|H]; [|now left].
          right. exists p. split; [now left|]. now split.
        * right. exists q. split; [now right|]. now split.
      + intros [H|(q & [<-|Hq] & Hn & Ht)].
        * left. destruct (net p) as [n|]; [|exact H].
          destruct (Py.truthy (Some n)); [|exact H]. apply pyset_add_in. now right.
        * left. rewrite Hn, Ht. apply pyset_add_in. now left.
        * right. exists q. split; [exact Hq|]. now split. }
  rewrite H. cbn [In]. split; [intros [[]|H']; exact H' | now right].
Qed.

Lemma bridges_net_set (comp : Component) (a b : string) :
  bridges comp a b
  <-> classify_passive comp = Some "C"
      /\ forall x, In x (component_net_set comp) <-> x = a \/ x = b.
Proof.
  unfold bridges. split; intros [H1 H2]; (split; [exact H1|]); intros x.
  - rewrite component_net_set_in. apply H2.
  - rewrite <- component_net_set_in. apply H2.
Qed.

(** [_capacitor_pairs] holds exactly the pairs of distinct nets bridged by
    a capacitor. *)
Lemma capacitor_pairs_fold (a b : string) (comps : list Component) :
  forall pairs,
    pair_mem a b
      (fold_left
         (fun pairs comp =>
            if negb (is_passive_of "C" comp) then pairs
            else
              match sorted_pair (component_net_set comp) with
              | None => pairs
              | Some (net_a, net_b) =>
                  if String.eqb net_a net_b then pairs
                  else if pair_mem net_a net_b pairs then pairs
                  else pairs ++ [(net_a, net_b)]
              end) comps pairs) = true
    <-> pair_mem a b pairs = true
        \/ (a <> b /\ exists comp, In comp comps /\ bridges comp a b).
Proof.
  induction comps as [|comp comps IH]; intros pairs; cbn [fold_left].
  - split; [auto|]. intros [H|[_ [c [[] _]]]]. exact H.
  - rewrite IH. clear IH.
    assert (Hcase :
      (pair_mem a b
         (if negb (is_passive_of "C" comp) then pairs
          else
            match sorted_pair (component_net_set comp) with
            | None => pairs
            | Some (net_a, net_b) =>
                if String.eqb net_a net_b then pairs
                else if pair_mem net_a net_b pairs then pairs
                else pairs ++ [(net_a, net_b)]
            end) = true)
      <-> pair_mem a b pairs = true \/ (a <> b /\ bridges comp a b)).
    { rewrite bridges_net_set.
      destruct (is_passive_of "C" comp) eqn:EC; cbn [negb].
      2:{ split; [auto|]. intros [H|[_ [Hc _]]]; [exact H|].
          apply is_passive_of_spec in Hc. congruence. }
      apply is_passive_of_spec in EC.
      destruct (sorted_pair (component_net_set comp)) as [[x y]|] eqn:ES.
      2:{ split; [auto|]. intros [H|[Hne [_ Hin]]]; [exact H|].
          destruct (sorted_pair_of_two _ a b (component_net_set_nodup comp) Hin Hne);
            congruence. }
      pose proof (sorted_pair_some _ x y ES) as Hxy.
      destruct (String.eqb_spec x y) as [->|Hxne].
      { split; [auto|]. intros [H|[Hne [_ Hin]]]; [exact H|].
        exfalso. apply Hne.
        assert (Ha : In a (component_net_set comp)) by (apply Hin; now left).
        assert (Hb : In b (component_net_set comp)) by (apply Hin; now right).
        apply Hxy in Ha, Hb. destruct Ha, Hb; congruence. }
      assert (Hbr : (classify_passive comp = Some "C"
                     /\ forall z, In z (component_net_set comp) <-> z = a \/ z = b)
                    /\ a <> b <-> pair_eqb a b (x, y) = true).
      { rewrite pair_eqb_spec. split.
        - intros [[_ Hin] Hne].
          assert (Ha : In a (component_net_set comp)) by (apply Hin; now left).
          assert (Hb : In b (component_net_set comp)) by (apply Hin; now right).
          assert (Hx : In x (component_net_set comp)) by (apply Hxy; now left).
          assert (Hy : In y (component_net_set comp)) by (apply Hxy; now right).
          apply Hxy in Ha, Hb. apply Hin in Hx, Hy.
          destruct Ha, Hb, Hx, Hy; subst; try congruence; auto.
        - intros [[-> ->]|[-> ->]].
          + split; [|exact Hxne]. split; [exact EC|exact Hxy].
          + split; [|congruence]. split; [exact EC|].
            intros z. rewrite Hxy. tauto. }
      destruct (pair_mem x y pairs) eqn:EM.
      - split; [auto|]. intros [H|[Hne Hb]]; [exact H|].
        assert (Hp : pair_eqb a b (x, y) = true) by (apply Hbr; tauto).
        apply pair_eqb_spec in Hp. unfold pair_mem in *. apply existsb_exists in EM.
        destruct EM as [[p q] [Hin Hpq]]. apply existsb_exists. exists (p, q).
        split; [exact Hin|]. apply pair_eqb_spec in Hpq. apply pair_eqb_spec.
        destruct Hp as [[-> ->]|[-> ->]]; tauto.
      - rewrite pair_mem_app, orb_true_iff, <- Hbr. tauto. }
    rewrite Hcase. split.
    + intros [[H|[Hne Hb]]|[Hne [c [Hc Hb]]]]; auto.
      * right. split; [exact Hne|]. exists comp. split; [now left|exact Hb].
      * right. split; [exact Hne|]. exists c. split; [now right|exact Hb].
    + intros [H|[Hne [c [[<-|Hc] Hb]]]]; auto.
      right. split; [exact Hne|]. now exists c.
Qed.

Lemma capacitor_pairs_spec (snapshot : Snapshot) (a b : string) :
  pair_mem a b (_capacitor_pairs snapshot) = true
  <-> a <> b /\ capacitor_bridges snapshot a b.
Proof.
  unfold _capacitor_pairs. rewrite capacitor_pairs_fold. cbn [pair_mem existsb].
  unfold capacitor_bridges, bridges. split.
  - intros [H|[Hne [c [Hc [H1 H2]]]]]; [discriminate|]. split; [exact Hne|]. now exists c.
  - intros [Hne [c [Hc [H1 H2]]]]. right. split; [exact Hne|]. now exists c.
Qed.

Example regulator_rules :
  build_rules Samples.regulator_snapshot = [Samples.regulator_rule].
Proof. vm_compute. reflexivity. Qed.

Lemma shorted_is_not_missing (a b : RuleEndpoint) (p : option string) (A B : Py.strset) :
  shorted_message "C_DIRECT" a b p <> missing_message "C_DIRECT" a b A B.
Proof. unfold shorted_message, missing_message. cbn [append]. discriminate. Qed.

Lemma singleton_inj {T} (x y : T) : [x] = [y] -> x = y.
Proof. now intros [= ->]. Qed.

Lemma app_same_nil {T} (l x : list T) : l = l ++ x <-> x = [].
Proof.
  split; [|intros ->; now rewrite app_nil_r].
  intros H. apply (f_equal (@length T)) in H. rewrite length_app in H.
  destruct x; [reflexivity|cbn in H; lia].
Qed.

(** C6: the verdict of the rule checker on a non-waived C_DIRECT rule whose
    endpoints resolve to non-empty net sets [A] and [B].  No error exactly
    when a capacitor bridges a pair of distinct nets, that is, when some
    component classified ["C"] has its connected pins ([on_net]) on exactly
    these two nets; the "shorted" error exactly when there is no such pair,
    some pair is equal and no pair is distinct; the "missing" error in every
    other failing case. *)
Theorem c_direct_rule_verdict (snapshot : Snapshot) (task_id : option Z) (rule : Rule)
  (r_components l_components : list Py.strset)
  (errors : list string) (cache : EndpointCache) :
  cache_sound snapshot cache ->
  rule_waived task_id rule = false ->
  rule_type rule = "C_DIRECT" ->
  resolve_endpoint snapshot (endpoint_a rule) <> [] ->
  resolve_endpoint snapshot (endpoint_b rule) <> [] ->
  let A := resolve_endpoint snapshot (endpoint_a rule) in
  let B := resolve_endpoint snapshot (endpoint_b rule) in
  let out :=
    fst (check_rule snapshot task_id (_capacitor_pairs snapshot) r_components l_components
           (errors, cache) rule) in
  (out = errors <-> bridged_pair snapshot A B)
  /\ (out = errors ++ [shorted_message "C_DIRECT" (endpoint_a rule) (endpoint_b rule)
                         (_first_common A B)]
      <-> ~ bridged_pair snapshot A B /\ some_equal_pair A B /\ ~ some_distinct_pair A B)
  /\ (out = errors ++ [missing_message "C_DIRECT" (endpoint_a rule) (endpoint_b rule) A B]
      <-> ~ bridged_pair snapshot A B
          /\ ~ (some_equal_pair A B /\ ~ some_distinct_pair A B)).
Proof.
  intros Hcache Hw Ht HA HB A B out.
  assert (Hout :
    out = errors ++
      (if existsb (fun a => linked_any (fun a b => pair_mem a b (_capacitor_pairs snapshot)) a B) A
       then []
       else if existsb (fun a => equal_any a B) A && negb (_has_nonshort_pair A B)
            then [shorted_message "C_DIRECT" (endpoint_a rule) (endpoint_b rule)
                    (_first_common A B)]
            else [missing_message "C_DIRECT" (endpoint_a rule) (endpoint_b rule) A B])).
  { subst out. unfold check_rule. rewrite Hw.
    destruct (resolve_endpoint_nets_sound snapshot (endpoint_a rule) cache Hcache) as [Ea Hc1].
    destruct (_resolve_endpoint_nets snapshot (endpoint_a rule) cache) as [nets_a cache1].
    cbn [fst snd] in Ea, Hc1. subst nets_a.
    destruct (resolve_endpoint_nets_sound snapshot (endpoint_b rule) cache1 Hc1) as [Eb Hc2].
    destruct (_resolve_endpoint_nets snapshot (endpoint_b rule) cache1) as [nets_b cache2].
    cbn [fst snd] in Eb. subst nets_b. fold A B.
    assert (EA : is_empty A = false).
    { subst A. destruct (resolve_endpoint snapshot (endpoint_a rule)); [congruence|reflexivity]. }
    assert (EB : is_empty B = false).
    { subst B. destruct (resolve_endpoint snapshot (endpoint_b rule)); [congruence|reflexivity]. }
    rewrite EA, EB, Ht. cbn [orb String.eqb Ascii.eqb Bool.eqb andb].
    unfold _check_cap_rule. rewrite check_pair_rule_closed.
    destruct (existsb _ A); cbn [fst]; [now rewrite app_nil_r|].
    destruct (existsb (fun a => equal_any a B) A && negb (_has_nonshort_pair A B));
      cbn [fst].
    - unfold _is_ucc21710_gate_short, _is_ucc27511_out_pair.
      cbn [String.eqb Ascii.eqb Bool.eqb negb andb]. now rewrite andb_false_r.
    - reflexivity. }
  assert (Hbridged :
    existsb (fun a => linked_any (fun a b => pair_mem a b (_capacitor_pairs snapshot)) a B) A
    = true <-> bridged_pair snapshot A B).
  { rewrite linked_any_spec. unfold bridged_pair. split.
    - intros [a [b [Ha [Hb [Hne Hl]]]]]. exists a, b. repeat split; auto.
      now apply capacitor_pairs_spec in Hl.
    - intros [a [b [Ha [Hb [Hne Hl]]]]]. exists a, b. repeat split; auto.
      now apply capacitor_pairs_spec. }
  assert (Hshort :
    existsb (fun a => equal_any a B) A && negb (_has_nonshort_pair A B) = true
    <-> some_equal_pair A B /\ ~ some_distinct_pair A B).
  { rewrite andb_true_iff, equal_any_spec, negb_true_iff.
    rewrite <- has_nonshort_pair_spec. destruct (_has_nonshort_pair A B); intuition congruence. }
  rewrite Hout. clear Hout.
  destruct (existsb (fun a => linked_any _ a B) A) eqn:E1.
  - assert (Hb : bridged_pair snapshot A B) by (now apply Hbridged).
    rewrite app_nil_r. split; [tauto|]. split.
    + split; [|tauto]. intros H. apply app_same_nil in H. discriminate.
    + split; [|tauto]. intros H. apply app_same_nil in H. discriminate.
  - assert (Hnb : ~ bridged_pair snapshot A B)
      by (intros H; apply Hbridged in H; discriminate).
    destruct (existsb (fun a => equal_any a B) A && negb (_has_nonshort_pair A B)) eqn:E2.
    + assert (Hs : some_equal_pair A B /\ ~ some_distinct_pair A B) by (now apply Hshort).
      split; [|split].
      * split; [|tauto]. intros H. symmetry in H. apply app_same_nil in H. discriminate.
      * tauto.
      * split; [|tauto]. intros H. apply app_inv_head, singleton_inj in H.
        now apply shorted_is_not_missing in H.
    + assert (Hs : ~ (some_equal_pair A B /\ ~ some_distinct_pair A B))
        by (intros H; apply Hshort in H; discriminate).
      split; [|split].
      * split; [|tauto]. intros H. symmetry in H. apply app_same_nil in H. discriminate.
      * split; [|tauto]. intros H. apply app_inv_head, singleton_inj in H.
        symmetry in H. now apply shorted_is_not_missing in H.
      * tauto.
Qed.

(** C6, witness: the regulator sample with its decoupling capacitor. *)
Lemma c_direct_rule_verdict_witness :
  fst (check_rule Samples.regulator_snapshot None
         (_capacitor_pairs Samples.regulator_snapshot) [] [] ([], [])
         Samples.regulator_rule) = []
  <-> bridged_pair Samples.regulator_snapshot
        (resolve_endpoint Samples.regulator_snapshot (endpoint_a Samples.regulator_rule))
        (resolve_endpoint Samples.regulator_snapshot (endpoint_b Samples.regulator_rule)).
Proof.
  refine (proj1 (c_direct_rule_verdict Samples.regulator_snapshot None Samples.regulator_rule
                   [] [] [] [] (cache_sound_nil _) eq_refl eq_refl _ _)).
  - vm_compute. discriminate.
  - vm_compute. discriminate.
Defined.

Example regulator_rule_passes :
  fst (check_rule Samples.regulator_snapshot None
         (_capacitor_pairs Samples.regulator_snapshot) [] [] ([], [])
         Samples.regulator_rule) = [].
Proof. vm_compute. reflexivity. Qed.

(* ------------------------------------------------------------------ *)
(** ** Rule stability (rule_extractor.py against rule_checker.py) *)
(* ------------------------------------------------------------------ *)

Lemma field_rejects_self (f : option string) : field_rejects f f = false.
Proof.
  unfold field_rejects. destruct f as [[|c s]|]; cbn; try reflexivity.
  now rewrite Ascii.eqb_refl, String.eqb_refl.
Qed.

Lemma resolve_pins_mono (e : RuleEndpoint) (full : bool) (ps : list Pin) :
  forall acc x, In x acc -> In x (resolve_pins e full acc ps).
Proof.
  unfold resolve_pins. induction ps as [|p ps IH]; intros acc x Hx; cbn [fold_left]; [exact Hx|].
  apply IH.
  destruct (field_rejects (re_pin_role e) (pin_role p)); [exact Hx|].
  destruct (full && field_rejects (re_pin_id e) (Some (pin_id p))); [exact Hx|].
  destruct (full && field_rejects (re_pin_name e) (Some (pin_name p))); [exact Hx|].
  destruct (net p) as [n|]; [|exact Hx].
  destruct (Py.truthy (Some n)); [|exact Hx].
  apply pyset_add_in. now right.
Qed.

(** The descriptor written for a pin matches that pin. *)
Lemma resolve_pins_own (comp : Component) (p : Pin) (n : string) (ps : list Pin) :
  In p ps -> net p = Some n -> Py.truthy (Some n) = true ->
  forall acc, In n (resolve_pins (endpoint_of_pin comp p) true acc ps).
Proof.
  intros Hp Hn Ht. induction ps as [|q ps IH]; [destruct Hp|].
  intros acc. destruct Hp as [->|Hp].
  - unfold resolve_pins. cbn [fold_left]. fold (resolve_pins (endpoint_of_pin comp p) true).
    apply resolve_pins_mono.
    cbn [endpoint_of_pin re_pin_role re_pin_id re_pin_name].
    rewrite !field_rejects_self. cbn [andb]. rewrite Hn, Ht.
    apply pyset_add_in. now left.
  - unfold resolve_pins. cbn [fold_left]. fold (resolve_pins (endpoint_of_pin comp p) true).
    apply IH. exact Hp.
Qed.

Lemma resolve_endpoint_own (snapshot : Snapshot) (comp : Component) (p : Pin) (n : string) :
  In comp (components snapshot) -> In p (pins comp) ->
  net p = Some n -> Py.truthy (Some n) = true ->
  In n (resolve_endpoint snapshot (endpoint_of_pin comp p)).
Proof.
  intros Hc Hp Hn Ht. unfold resolve_endpoint.
  set (e := endpoint_of_pin comp p).
  set (step := fun acc c =>
                 if field_rejects (re_part_id e) (Some (part_id c)) then acc
                 else if negb (Py.truthy (re_part_id e))
                         && field_rejects (re_category e) (category c) then acc
                 else resolve_pins e true acc (pins c)).
  assert (Hmono : forall cs acc x, In x acc -> In x (fold_left step cs acc)).
  { induction cs as [|c cs IH]; intros acc x Hx; cbn [fold_left]; [exact Hx|].
    apply IH. unfold step.
    destruct (field_rejects (re_part_id e) (Some (part_id c))); [exact Hx|].
    destruct (negb (Py.truthy (re_part_id e)) && _); [exact Hx|].
    now apply resolve_pins_mono. }
  assert (Hfirst : forall cs acc, In comp cs -> In n (fold_left step cs acc)).
  { induction cs as [|c cs IH]; intros acc Hin; [destruct Hin|].
    cbn [fold_left]. destruct Hin as [->|Hin]; [|now apply IH].
    apply Hmono. unfold step. subst e.
    cbn [endpoint_of_pin re_part_id re_category].
    rewrite !field_rejects_self, andb_false_r.
    now apply resolve_pins_own. }
  specialize (Hfirst (components snapshot) [] Hc).
  destruct (fold_left step (components snapshot) []) as [|y ys]; [destruct Hfirst|exact Hfirst].
Qed.

Lemma collect_net_endpoints_origin (snapshot : Snapshot) (n : string)
  (eps : list RuleEndpoint) (e : RuleEndpoint) :
  In (n, eps) (_collect_net_endpoints snapshot) -> In e eps -> endpoint_origin snapshot n e.
Proof.
  unfold _collect_net_endpoints.
  set (Inv := fun (m : Py.dict (list RuleEndpoint)) =>
                forall k l x, In (k, l) m -> In x l -> endpoint_origin snapshot k x).
  assert (Hpins : forall comp, In comp (components snapshot) ->
            forall ps m, (forall p, In p ps -> In p (pins comp)) -> Inv m ->
                         Inv (fold_left (collect_pin comp) ps m)).
  { intros comp Hc. induction ps as [|p ps IH]; intros m Hsub Hm; cbn [fold_left]; [exact Hm|].
    apply IH; [intros q Hq; apply Hsub; now right|].
    unfold collect_pin. destruct (net p) as [np|] eqn:En; [|exact Hm].
    destruct (Py.truthy (Some np)) eqn:Et; [|exact Hm].
    intros k l x Hin Hx. unfold Py.dict_append in Hin. apply dict_update_in in Hin.
    assert (Hnew : endpoint_origin snapshot np (endpoint_of_pin comp p)).
    { exists comp, p. repeat split; auto. apply Hsub. now left. }
    destruct Hin as [Hin|[-> [->|[v [Hv ->]]]]].
    - exact (Hm _ _ _ Hin Hx).
    - destruct Hx as [<-|[]]. exact Hnew.
    - apply in_app_or in Hx. destruct Hx as [Hx|[<-|[]]]; [exact (Hm _ _ _ Hv Hx)|exact Hnew]. }
  assert (Hcomps : forall cs m, (forall c, In c cs -> In c (components snapshot)) -> Inv m ->
            Inv (fold_left
                   (fun m comp =>
                      if Py.opt_eqb (category comp) (Some "passive") then m
                      else fold_left (collect_pin comp) (pins comp) m) cs m)).
  { induction cs as [|c cs IH]; intros m Hsub Hm; cbn [fold_left]; [exact Hm|].
    apply IH; [intros c' Hc'; apply Hsub; now right|].
    destruct (Py.opt_eqb (category c) (Some "passive")); [exact Hm|].
    apply Hpins; auto. apply Hsub. now left. }
  intros Hin He.
  refine (Hcomps (components snapshot) [] _ _ n eps e Hin He); [auto|].
  intros k l x [].
Qed.

Lemma least_endpoint_in (rest : list RuleEndpoint) :
  forall best, In (least_endpoint best rest) (best :: rest).
Proof.
  induction rest as [|e rest IH]; intros best; cbn [least_endpoint]; [now left|].
  destruct (sort_key_ltb _ _).
  - right. apply IH.
  - destruct (IH best) as [H|H]; [now left|right; now right].
Qed.

(** The endpoint picked for a net resolves back to that net. *)
Lemma picked_endpoint_resolves (snapshot : Snapshot) (n : string) (e : RuleEndpoint) :
  _pick_endpoint (Py.dict_get (_collect_net_endpoints snapshot) n) = Some e ->
  In n (resolve_endpoint snapshot e).
Proof.
  destruct (Py.dict_get (_collect_net_endpoints snapshot) n) as [eps|] eqn:E; [|discriminate].
  destruct eps as [|e0 rest]; [discriminate|]. cbn [_pick_endpoint]. intros [= <-].
  apply dict_get_in in E.
  destruct (collect_net_endpoints_origin snapshot n (e0 :: rest) _ E (least_endpoint_in rest e0))
    as [comp [p [Hc [Hp [Hn [Ht ->]]]]]].
  now apply resolve_endpoint_own.
Qed.

Lemma component_net_set_truthy (comp : Component) (x : string) :
  In x (component_net_set comp) -> Py.truthy (Some x) = true.
Proof.
  unfold component_net_set.
  assert (H : forall ps acc,
            (forall y, In y acc -> Py.truthy (Some y) = true) ->
            forall y,
              In y (fold_left
                      (fun acc p =>
                         match net p with
                         | Some n => if Py.truthy (Some n) then PySet.add n acc else acc
                         | None => acc
                         end) ps acc) -> Py.truthy (Some y) = true).
  { induction ps as [|p ps IH]; intros acc Hacc y; cbn [fold_left]; [apply Hacc|].
    apply IH. intros z Hz. destruct (net p) as [n|]; [|now apply Hacc].
    destruct (Py.truthy (Some n)) eqn:Et; [|now apply Hacc].
    apply pyset_add_in in Hz. destruct Hz as [->|Hz]; [exact Et|now apply Hacc]. }
  apply H. intros y [].
Qed.

Lemma filter_all {T} (f : T -> bool) (l : list T) :
  (forall x, In x l -> f x = true) -> filter f l = l.
Proof.
  induction l as [|x l IH]; intros H; cbn; [reflexivity|].
  rewrite (H x) by now left. f_equal. apply IH. intros y Hy. apply H. now right.
Qed.

Lemma component_nets_is_set (comp : Component) :
  _component_nets comp = component_net_set comp.
Proof. unfold _component_nets. apply filter_all. apply component_net_set_truthy. Qed.

Lemma dfs_loop_nodup (fuel : nat) (g : NetGraph) :
  forall stack visited nets_ visited' nets',
    dfs_loop fuel g stack visited nets_ = Some (visited', nets') ->
    NoDup nets_ -> NoDup nets'.
Proof.
  induction fuel as [|fuel IH]; intros stack visited nets_ visited' nets'; cbn [dfs_loop];
    [discriminate|].
  destruct stack as [|cur rest]; [now intros [= <- <-]|].
  destruct (fold_left dfs_push (neighbours g cur) (rest, visited)) as [stack1 visited1].
  intros Hrun Hnd. apply (IH _ _ _ _ _ Hrun).
  destruct (Py.startswith cur "net:"); [now apply set_add_nodup|exact Hnd].
Qed.

Lemma passive_net_components_nodup (snapshot : Snapshot) (t : string) (nets_ : Py.strset) :
  In nets_ (_passive_net_components snapshot t) -> NoDup nets_.
Proof.
  unfold _passive_net_components.
  set (g := passive_graph snapshot t).
  assert (H : forall nodes st,
            Forall (@NoDup string) (snd st) ->
            Forall (@NoDup string) (snd (fold_left (sweep_step g) nodes st))).
  { induction nodes as [|node nodes IH]; intros st Hst; cbn [fold_left]; [exact Hst|].
    apply IH. destruct st as [visited comps]. unfold sweep_step.
    destruct (PySet.mem node visited); [exact Hst|].
    destruct (dfs_loop (dfs_fuel g) g [node] (PySet.add node visited) [])
      as [[visited' nets']|] eqn:E; [|exact Hst].
    destruct nets' as [|n0 ns]; [exact Hst|].
    cbn [snd] in *. apply Forall_app. split; [exact Hst|].
    constructor; [|constructor].
    apply (dfs_loop_nodup _ _ _ _ _ _ _ E). constructor. }
  intros Hin. specialize (H (map fst g) ([], []) (Forall_nil _)).
  rewrite Forall_forall in H. now apply H.
Qed.

Lemma combinations2_in {T} (l : list (string * T)) (x y : string * T) :
  In (x, y) (combinations2 l) ->
  In x l /\ In y l /\ (NoDup (map fst l) -> fst x <> fst y).
Proof.
  induction l as [|h l IH]; cbn [combinations2]; [intros []|].
  intros H. apply in_app_or in H. destruct H as [H|H].
  - apply in_map_iff in H. destruct H as [z [[= <- <-] Hz]].
    split; [now left|]. split; [now right|].
    cbn [map]. intros Hnd. inversion Hnd as [|? ? Hnotin _]; subst.
    intros Heq. apply Hnotin. rewrite Heq. now apply in_map.
  - destruct (IH H) as [Hx [Hy Hne]]. split; [now right|]. split; [now right|].
    cbn [map]. intros Hnd. inversion Hnd; subst. now apply Hne.
Qed.

Lemma add_rule_ok (snapshot : Snapshot) (st : list Rule * list RuleKey) (rtype : string)
  (a b : RuleEndpoint) (series : bool) :
  Forall (rule_ok snapshot) (fst st) ->
  rule_ok snapshot (mkRule rtype a b series 1 true) ->
  Forall (rule_ok snapshot) (fst (_add_rule st rtype a b series)).
Proof.
  destruct st as [rules seen]. cbn [fst]. intros Hrules Hnew. unfold _add_rule.
  destruct (_should_skip_rule rtype a b); [exact Hrules|].
  destruct (existsb _ seen); [exact Hrules|].
  cbn [fst]. apply Forall_app. split; [exact Hrules|]. now constructor.
Qed.

Lemma capacitor_rule_step_ok (snapshot : Snapshot) (st : list Rule * list RuleKey)
  (comp : Component) :
  In comp (components snapshot) ->
  Forall (rule_ok snapshot) (fst st) ->
  Forall (rule_ok snapshot)
    (fst (capacitor_rule_step (_collect_net_endpoints snapshot) st comp)).
Proof.
  intros Hc Hst. unfold capacitor_rule_step.
  destruct (is_passive_of "C" comp) eqn:EC; cbn [negb]; [|exact Hst].
  rewrite component_nets_is_set.
  destruct (sorted_pair (component_net_set comp)) as [[net_a net_b]|] eqn:ES; [|exact Hst].
  destruct (_pick_endpoint (Py.dict_get (_collect_net_endpoints snapshot) net_a))
    as [ep_a|] eqn:Ea; [|exact Hst].
  destruct (_pick_endpoint (Py.dict_get (_collect_net_endpoints snapshot) net_b))
    as [ep_b|] eqn:Eb; [|exact Hst].
  apply add_rule_ok; [exact Hst|].
  assert (Hne : net_a <> net_b).
  { pose proof (sorted_nodup _ (component_net_set_nodup comp)) as Hnd.
    unfold sorted_pair in ES.
    destruct (Py.sorted (component_net_set comp)) as [|x [|y [|z r]]]; try discriminate.
    injection ES as <- <-. inversion Hnd as [|? ? Hnotin _]; subst.
    intros ->. apply Hnotin. now left. }
  exists net_a, net_b. cbn [endpoint_a endpoint_b rule_type].
  split; [exact Hne|]. split; [now apply picked_endpoint_resolves|].
  split; [now apply picked_endpoint_resolves|]. left. split; [reflexivity|].
  apply capacitor_pairs_spec. split; [exact Hne|].
  exists comp. split; [exact Hc|]. split; [now apply is_passive_of_spec|].
  intros z. rewrite <- component_net_set_in. now apply sorted_pair_some.
Qed.

Lemma component_endpoints_spec (snapshot : Snapshot) (nets_ : Py.strset) :
  NoDup nets_ ->
  NoDup (map fst (component_endpoints (_collect_net_endpoints snapshot) nets_))
  /\ forall n e,
       In (n, e) (component_endpoints (_collect_net_endpoints snapshot) nets_) ->
       In n nets_ /\ In n (resolve_endpoint snapshot e).
Proof.
  intros Hnd. unfold component_endpoints.
  apply sorted_nodup in Hnd.
  assert (Hsub : forall n, In n (Py.sorted nets_) -> In n nets_) by (intros n; apply sorted_in).
  revert Hnd Hsub. generalize (Py.sorted nets_) as l.
  induction l as [|n l IH]; intros Hnd Hsub; cbn [flat_map map].
  - split; [constructor|intros n e []].
  - inversion Hnd as [|? ? Hnotin Hnd']; subst.
    destruct (IH Hnd' (fun m Hm => Hsub m (or_intror Hm))) as [IH1 IH2].
    destruct (_pick_endpoint (Py.dict_get (_collect_net_endpoints snapshot) n))
      as [ep|] eqn:E; cbn [app map fst].
    + split.
      * constructor; [|exact IH1]. intros Hin. apply in_map_iff in Hin.
        destruct Hin as [[m e] [Hm Hin]]. cbn in Hm. subst m.
        apply Hnotin. apply in_flat_map in Hin. destruct Hin as [k [Hk Hin]].
        destruct (_pick_endpoint (Py.dict_get (_collect_net_endpoints snapshot) k));
          [|destruct Hin].
        destruct Hin as [[= <- _]|[]]. exact Hk.
      * intros m e [[= <- <-]|Hin]; [|now apply IH2].
        split; [apply Hsub; now left|now apply picked_endpoint_resolves].
    + split; [exact IH1|exact IH2].
Qed.

Lemma path_rule_step_ok (snapshot : Snapshot) (rtype t : string)
  (st : list Rule * list RuleKey) (nets_ : Py.strset) :
  (rtype = "R_PATH" /\ t = "R") \/ (rtype = "L_PATH" /\ t = "L") ->
  In nets_ (_passive_net_components snapshot t) ->
  Forall (rule_ok snapshot) (fst st) ->
  Forall (rule_ok snapshot)
    (fst (path_rule_step (_collect_net_endpoints snapshot) rtype st nets_)).
Proof.
  intros Hty Hin Hst. unfold path_rule_step.
  pose proof (passive_net_components_nodup snapshot t nets_ Hin) as Hnd.
  destruct (component_endpoints_spec snapshot nets_ Hnd) as [Hnd' Hres].
  assert (Hpairs : forall pr,
            In pr (combinations2 (component_endpoints (_collect_net_endpoints snapshot) nets_)) ->
            rule_ok snapshot (mkRule rtype (snd (fst pr)) (snd (snd pr)) true 1 true)).
  { intros [[na ea] [nb eb]] Hpr. cbn [fst snd].
    apply combinations2_in in Hpr. destruct Hpr as [Ha [Hb Hne]].
    specialize (Hne Hnd'). cbn [fst] in Hne.
    destruct (Hres na ea Ha) as [Hna Hra]. destruct (Hres nb eb Hb) as [Hnb Hrb].
    exists na, nb. cbn [endpoint_a endpoint_b rule_type].
    split; [exact Hne|]. split; [exact Hra|]. split; [exact Hrb|].
    assert (Hconn : _nets_connected na nb (_passive_net_components snapshot t) = true).
    { unfold _nets_connected. apply existsb_exists. exists nets_. split; [exact Hin|].
      apply andb_true_iff. split; now apply pyset_mem_true. }
    destruct Hty as [[-> ->]|[-> ->]]; [right; left|right; right]; now split. }
  revert st Hst Hpairs.
  generalize (combinations2 (component_endpoints (_collect_net_endpoints snapshot) nets_)).
  induction l as [|pr l IH]; intros st Hst Hpairs; cbn [fold_left]; [exact Hst|].
  apply IH; [|intros pr' Hpr'; apply Hpairs; now right].
  apply add_rule_ok; [exact Hst|]. apply Hpairs. now left.
Qed.

(** Every rule that [build_rules] extracts is witnessed by the snapshot. *)
Lemma build_rules_ok (snapshot : Snapshot) :
  Forall (rule_ok snapshot) (build_rules snapshot).
Proof.
  unfold build_rules.
  assert (Hcap : forall cs st,
            (forall c, In c cs -> In c (components snapshot)) ->
            Forall (rule_ok snapshot) (fst st) ->
            Forall (rule_ok snapshot)
              (fst (fold_left (capacitor_rule_step (_collect_net_endpoints snapshot)) cs st))).
  { induction cs as [|c cs IH]; intros st Hsub Hst; cbn [fold_left]; [exact Hst|].
    apply IH; [intros c' Hc'; apply Hsub; now right|].
    apply capacitor_rule_step_ok; [apply Hsub; now left|exact Hst]. }
  assert (Hpath : forall rtype t,
            (rtype = "R_PATH" /\ t = "R") \/ (rtype = "L_PATH" /\ t = "L") ->
            forall cs st,
              (forall c, In c cs -> In c (_passive_net_components snapshot t)) ->
              Forall (rule_ok snapshot) (fst st) ->
              Forall (rule_ok snapshot)
                (fst (fold_left (path_rule_step (_collect_net_endpoints snapshot) rtype) cs st))).
  { intros rtype t Hty. induction cs as [|c cs IH]; intros st Hsub Hst; cbn [fold_left];
      [exact Hst|].
    apply IH; [intros c' Hc'; apply Hsub; now right|].
    apply (path_rule_step_ok snapshot rtype t); auto. apply Hsub. now left. }
  apply (Hpath "L_PATH" "L"); [right; now split|auto|].
  apply (Hpath "R_PATH" "R"); [left; now split|auto|].
  apply Hcap; [auto|]. constructor.
Qed.

Lemma nonempty_of_in (x : string) (s : Py.strset) : In x s -> is_empty s = false.
Proof. destruct s; [intros []|reflexivity]. Qed.

(** A witnessed rule adds no error, whatever the task-independent state. *)
Lemma check_rule_ok (snapshot : Snapshot) (rule : Rule)
  (errors : list string) (cache : EndpointCache) :
  cache_sound snapshot cache ->
  rule_ok snapshot rule ->
  let st := check_rule snapshot None (_capacitor_pairs snapshot)
              (_passive_net_components snapshot "R") (_passive_net_components snapshot "L")
              (errors, cache) rule in
  fst st = errors /\ cache_sound snapshot (snd st).
Proof.
  intros Hcache [a [b [Hne [Ha [Hb Hlink]]]]]. cbv zeta. unfold check_rule.
  destruct (rule_waived None rule); [now split|].
  destruct (resolve_endpoint_nets_sound snapshot (endpoint_a rule) cache Hcache) as [Ea Hc1].
  destruct (_resolve_endpoint_nets snapshot (endpoint_a rule) cache) as [nets_a cache1].
  cbn [fst snd] in Ea, Hc1. subst nets_a.
  destruct (resolve_endpoint_nets_sound snapshot (endpoint_b rule) cache1 Hc1) as [Eb Hc2].
  destruct (_resolve_endpoint_nets snapshot (endpoint_b rule) cache1) as [nets_b cache2].
  cbn [fst snd] in Eb, Hc2. subst nets_b.
  rewrite (nonempty_of_in a _ Ha), (nonempty_of_in b _ Hb). cbn [orb].
  assert (Hfound : forall linked,
            linked a b = true ->
            check_pair_rule linked (resolve_endpoint snapshot (endpoint_a rule))
              (resolve_endpoint snapshot (endpoint_b rule)) = (true, false, None)).
  { intros linked Hl. rewrite check_pair_rule_closed.
    assert (H : existsb (fun x => linked_any linked x
                                    (resolve_endpoint snapshot (endpoint_b rule)))
                  (resolve_endpoint snapshot (endpoint_a rule)) = true).
    { apply linked_any_spec. exists a, b. auto. }
    now rewrite H. }
  destruct Hlink as [[-> Hl]|[[-> Hl]|[-> Hl]]];
    cbn [String.eqb Ascii.eqb Bool.eqb andb];
    unfold _check_cap_rule, _check_path_rule;
    rewrite (Hfound _ Hl); cbn [fst snd]; now split.
Qed.

Lemma check_rules_loop_ok (snapshot : Snapshot) (rules : list Rule) :
  Forall (rule_ok snapshot) rules ->
  forall errors cache,
    cache_sound snapshot cache ->
    fst (fold_left
           (check_rule snapshot None (_capacitor_pairs snapshot)
              (_passive_net_components snapshot "R") (_passive_net_components snapshot "L"))
           rules (errors, cache)) = errors.
Proof.
  induction 1 as [|rule rules Hr _ IH]; intros errors cache Hc; cbn [fold_left]; [reflexivity|].
  destruct (check_rule_ok snapshot rule errors cache Hc Hr) as [He Hc'].
  destruct (check_rule snapshot None _ _ _ (errors, cache) rule) as [errors' cache'].
  cbn [fst snd] in He, Hc'. subst errors'. now apply IH.
Qed.

Section RuleStability.

Variable _check_p3_gain : Snapshot -> list string.

(** C3: the rules extracted from a snapshot produce no error when checked
    against that same snapshot without a task identifier. *)
Theorem rules_are_self_verifying (snapshot : Snapshot) :
  check_rules _check_p3_gain snapshot (build_rules snapshot) None = [].
Proof.
  unfold check_rules. cbn [task_is app].
  match goal with
  | |- context [fold_left ?f ?l ?i] =>
      assert (H : fst (fold_left f l i) = [])
        by (apply check_rules_loop_ok; [apply build_rules_ok|apply cache_sound_nil]);
      destruct (fold_left f l i) as [errors cache]
  end.
  exact H.
Qed.

End RuleStability.

(* ------------------------------------------------------------------ *)
(** ** Component-count tolerance (match_skeleton.py) *)
(* ------------------------------------------------------------------ *)

Lemma half_bounds (n : nat) :
  tolerance_min (1, 2) n = (n + 1) / 2 /\ tolerance_max (1, 2) n = (3 * n) / 2.
Proof.
  unfold tolerance_min, tolerance_max. cbn [fst snd]. split; f_equal; lia.
Qed.

Lemma outside_range (lo hi g : nat) :
  (g <? lo) || (hi <? g) = negb ((lo <=? g) && (g <=? hi)).
Proof.
  destruct (Nat.ltb_spec g lo), (Nat.ltb_spec hi g), (Nat.leb_spec lo g), (Nat.leb_spec g hi);
    cbn; try reflexivity; lia.
Qed.

Lemma four_or_more (g : nat) : (4 <=? g) = negb ((0 <=? g) && (g <=? 3)).
Proof.
  destruct (Nat.leb_spec 4 g), (Nat.leb_spec 0 g), (Nat.leb_spec g 3);
    cbn; try reflexivity; lia.
Qed.

(** Whatever the loop body emits for a counted part is in the output, and
    the output holds nothing else but the header line. *)
Lemma count_tolerance_reported (std_snapshot gen_snapshot : Snapshot) (task_id : option Z)
  (part m : string) :
  In part (counted_parts (_component_part_counts std_snapshot)
             (_component_part_counts gen_snapshot)) ->
  In m (count_tolerance_step task_id (_component_part_counts std_snapshot)
          (_component_part_counts gen_snapshot) part) ->
  In m (_check_component_count_tolerance std_snapshot gen_snapshot task_id).
Proof.
  intros Hp Hm. unfold _check_component_count_tolerance.
  assert (Hin : In m (flat_map
                        (count_tolerance_step task_id (_component_part_counts std_snapshot)
                           (_component_part_counts gen_snapshot))
                        (counted_parts (_component_part_counts std_snapshot)
                           (_component_part_counts gen_snapshot)))).
  { apply in_flat_map. now exists part. }
  destruct (flat_map _ _) as [|e es]; [destruct Hin|]. now right.
Qed.

Lemma count_tolerance_origin (std_snapshot gen_snapshot : Snapshot) (task_id : option Z)
  (m : string) :
  In m (_check_component_count_tolerance std_snapshot gen_snapshot task_id) ->
  m = "NetworkX component count tolerance check failed."
  \/ exists part,
       In part (counted_parts (_component_part_counts std_snapshot)
                  (_component_part_counts gen_snapshot))
       /\ In m (count_tolerance_step task_id (_component_part_counts std_snapshot)
                  (_component_part_counts gen_snapshot) part).
Proof.
  unfold _check_component_count_tolerance.
  destruct (flat_map _ _) as [|e es] eqn:E; [intros []|].
  intros [<-|Hin]; [now left|]. right. rewrite <- E in Hin.
  apply in_flat_map in Hin. exact Hin.
Qed.

(* ------------------------------------------------------------------ *)
(** ** The tank-path search (system_topology_checker.py) *)
(* ------------------------------------------------------------------ *)

Lemma state_eqb_eq (a b : TankState) : state_eqb a b = true <-> a = b.
Proof.
  destruct a as [[n1 f1] i1], b as [[n2 f2] i2]. cbn.
  rewrite !andb_true_iff, String.eqb_eq, !Bool.eqb_true_iff. split.
  - intros [[-> ->] ->]. reflexivity.
  - intros [= -> -> ->]. tauto.
Qed.

Lemma state_mem_in (s : TankState) (seen : list TankState) :
  state_mem s seen = true <-> In s seen.
Proof.
  unfold state_mem. rewrite existsb_exists. split.
  - intros [x [Hx He]]. apply state_eqb_eq in He. now subst.
  - intros H. exists s. split; [exact H|]. now apply state_eqb_eq.
Qed.

Lemma expand_some (t : string) (rf ri : bool) (s : TankState) (edges : list Edge) :
  forall q q',
    expand t rf ri s edges q = Some q' ->
    q' = q ++ map (follow s) edges
    /\ forall e, In e edges -> hits t rf ri (follow s e) = false.
Proof.
  induction edges as [|e edges IH]; intros q q'; cbn [expand map].
  - intros [= <-]. split; [now rewrite app_nil_r|intros e []].
  - destruct (hits t rf ri (follow s e)) eqn:H; [discriminate|].
    intros Hx. apply IH in Hx. destruct Hx as [-> Hall]. split.
    + now rewrite <- app_assoc.
    + intros e' [<-|He']; [exact H|now apply Hall].
Qed.

Lemma expand_none (t : string) (rf ri : bool) (s : TankState) (edges : list Edge) :
  forall q,
    expand t rf ri s edges q = None ->
    exists e, In e edges /\ hits t rf ri (follow s e) = true.
Proof.
  induction edges as [|e edges IH]; intros q; cbn [expand]; [discriminate|].
  destruct (hits t rf ri (follow s e)) eqn:H.
  - intros _. exists e. split; [now left|exact H].
  - intros Hx. apply IH in Hx. destruct Hx as [e' [He' Hh]]. exists e'. split; [now right|exact Hh].
Qed.

(** *** Termination *)

Lemma unseen_flags_other (k n : string) (f i : bool) (seen : list TankState) :
  k <> n -> unseen_flags k ((n, f, i) :: seen) = unseen_flags k seen.
Proof.
  intros Hne. unfold unseen_flags, all_flags, state_mem. cbn [filter existsb fst snd state_eqb].
  apply String.eqb_neq in Hne. rewrite Hne. reflexivity.
Qed.

Lemma unseen_flags_le (k n : string) (f i : bool) (seen : list TankState) :
  unseen_flags k ((n, f, i) :: seen) <= unseen_flags k seen.
Proof.
  unfold unseen_flags, all_flags, state_mem. cbn [filter existsb fst snd].
  repeat match goal with
         | |- context [state_eqb ?a ?b || ?c] => destruct (state_eqb a b), c; cbn [orb negb length]
         end; lia.
Qed.

Lemma unseen_flags_pay (n : string) (f i : bool) (seen : list TankState) :
  state_mem (n, f, i) seen = false ->
  S (unseen_flags n ((n, f, i) :: seen)) <= unseen_flags n seen.
Proof.
  intros Hs. unfold unseen_flags, all_flags.
  assert (Hself : forall f' i', state_mem (n, f', i') ((n, f, i) :: seen)
                                = (Bool.eqb f' f && Bool.eqb i' i) || state_mem (n, f', i') seen).
  { intros f' i'. unfold state_mem. cbn [existsb state_eqb]. now rewrite String.eqb_refl. }
  cbn [filter fst snd]. rewrite !Hself.
  destruct f, i; cbn [Bool.eqb andb orb]; rewrite ?Hs; cbn [negb length];
    repeat match goal with
           | |- context [state_mem ?s seen] => destruct (state_mem s seen); cbn [negb length]
           end; lia.
Qed.

Lemma unseen_weight_cons (k : string) (es : list Edge) (g : PassiveGraph)
  (seen : list TankState) :
  unseen_weight ((k, es) :: g) seen = length es * unseen_flags k seen + unseen_weight g seen.
Proof. reflexivity. Qed.

Lemma unseen_weight_le (g : PassiveGraph) (s : TankState) (seen : list TankState) :
  unseen_weight g (s :: seen) <= unseen_weight g seen.
Proof.
  destruct s as [[n f] i]. induction g as [|[k es] g IH]; [cbn; lia|].
  rewrite !unseen_weight_cons.
  apply Nat.add_le_mono; [|exact IH].
  apply Nat.mul_le_mono_l, unseen_flags_le.
Qed.

Lemma adjacent_cons (k : string) (es : list Edge) (g : PassiveGraph) (n : string) :
  adjacent ((k, es) :: g) n = if String.eqb n k then es else adjacent g n.
Proof. unfold adjacent. cbn. now destruct (String.eqb n k). Qed.

Lemma unseen_weight_pay (g : PassiveGraph) (n : string) (f i : bool) (seen : list TankState) :
  state_mem (n, f, i) seen = false ->
  length (adjacent g n) + unseen_weight g ((n, f, i) :: seen) <= unseen_weight g seen.
Proof.
  intros Hs. induction g as [|[k es] g IH]; [cbn; lia|].
  rewrite !unseen_weight_cons, adjacent_cons.
  destruct (String.eqb_spec n k) as [<-|Hne].
  - pose proof (unseen_flags_pay n f i seen Hs) as Hp.
    pose proof (unseen_weight_le g (n, f, i) seen) as Hw.
    pose proof (Nat.mul_le_mono_l _ _ (length es) Hp) as Hm.
    rewrite Nat.mul_succ_r in Hm. lia.
  - rewrite (unseen_flags_other k n f i seen) by congruence. lia.
Qed.

Lemma unseen_weight_nil (g : PassiveGraph) : unseen_weight g [] = 4 * edge_count g.
Proof.
  unfold edge_count. induction g as [|[k es] g IH]; [reflexivity|].
  rewrite unseen_weight_cons, IH. cbn [fold_right snd]. unfold unseen_flags. cbn. lia.
Qed.

Lemma path_loop_total (fuel : nat) (g : PassiveGraph) (t : string) (rf ri : bool) :
  forall q seen,
    length q + unseen_weight g seen < fuel ->
    exists found, path_loop fuel g t rf ri q seen = Some found.
Proof.
  induction fuel as [|fuel IH]; intros q seen Hlt; [lia|].
  destruct q as [|s q]; cbn [path_loop]; [now exists false|].
  destruct (state_mem s seen) eqn:Es.
  - apply IH. cbn [length] in Hlt. lia.
  - destruct (expand t rf ri s (adjacent g (fst (fst s))) q) as [q''|] eqn:Ex;
      [|now exists true].
    apply IH. apply expand_some in Ex. destruct Ex as [-> _].
    rewrite length_app, length_map. destruct s as [[n f] i]. cbn [fst].
    pose proof (unseen_weight_pay g n f i seen Es). cbn [length] in Hlt.
    unfold Edge, TankState in *. lia.
Qed.

(** The tank-path search terminates: within [path_fuel] iterations the loop
    has answered, whatever the graph, the start, the target and the
    requirements. *)
Lemma path_loop_terminates (g : PassiveGraph) (s t : string) (rf ri : bool) :
  exists found, path_loop (path_fuel g) g t rf ri [(s, false, false)] [] = Some found.
Proof.
  apply path_loop_total. rewrite unseen_weight_nil. unfold path_fuel. cbn [length]. lia.
Qed.

(** *** Soundness and completeness *)

Lemma walk_snoc (g : PassiveGraph) (a b : string) (es : list Edge) (e : Edge) :
  walk g a es b -> In e (adjacent g b) -> walk g a (es ++ [e]) (edge_net e).
Proof.
  induction 1 as [a|a e0 es b Hin Hw IH]; intros He; cbn [app].
  - apply walk_cons; [exact He|apply walk_nil].
  - apply walk_cons; [exact Hin|now apply IH].
Qed.

Lemma walk_snoc_inv (g : PassiveGraph) (es : list Edge) (e : Edge) :
  forall a b,
    walk g a (es ++ [e]) b ->
    exists c, walk g a es c /\ In e (adjacent g c) /\ b = edge_net e.
Proof.
  induction es as [|e0 es IH]; intros a b Hw; cbn [app] in Hw.
  - inversion Hw as [|? ? ? ? Hin Hrest]; subst. inversion Hrest; subst.
    exists a. split; [apply walk_nil|]. now split.
  - inversion Hw as [|? ? ? ? Hin Hrest]; subst.
    destruct (IH _ _ Hrest) as [c [Hc [He Hb]]].
    exists c. split; [now apply walk_cons|]. now split.
Qed.

Lemma has_film_edge_snoc (es : list Edge) (e : Edge) :
  has_film_edge (es ++ [e]) = has_film_edge es || is_film (edge_part e).
Proof. unfold has_film_edge. rewrite existsb_app. cbn. now rewrite orb_false_r. Qed.

Lemma has_inductor_edge_snoc (es : list Edge) (e : Edge) :
  has_inductor_edge (es ++ [e]) = has_inductor_edge es || is_inductor (edge_part e).
Proof. unfold has_inductor_edge. rewrite existsb_app. cbn. now rewrite orb_false_r. Qed.

Lemma reach_follow (g : PassiveGraph) (start : string) (s : TankState) (e : Edge) :
  reach g start s -> In e (adjacent g (fst (fst s))) -> reach g start (follow s e).
Proof.
  destruct s as [[n f] i]. intros [es [Hw [Hf Hi]]] He. cbn [fst snd] in *.
  exists (es ++ [e]). cbn [follow fst snd].
  rewrite has_film_edge_snoc, has_inductor_edge_snoc, <- Hf, <- Hi.
  split; [now apply (walk_snoc g start n)|]. now split.
Qed.

Lemma path_loop_sound (g : PassiveGraph) (start t : string) (rf ri : bool) (fuel : nat) :
  forall q seen,
    path_loop fuel g t rf ri q seen = Some true ->
    (forall s, In s q -> reach g start s) ->
    exists s e,
      reach g start s /\ In e (adjacent g (fst (fst s)))
      /\ hits t rf ri (follow s e) = true.
Proof.
  induction fuel as [|fuel IH]; intros q seen; cbn [path_loop]; [discriminate|].
  destruct q as [|s q]; [discriminate|].
  intros Hrun Hq. destruct (state_mem s seen).
  - apply (IH _ _ Hrun). intros s' Hs'. apply Hq. now right.
  - destruct (expand t rf ri s (adjacent g (fst (fst s))) q) as [q''|] eqn:Ex.
    + apply (IH _ _ Hrun). apply expand_some in Ex. destruct Ex as [-> _].
      intros s' Hs'. apply in_app_or in Hs'. destruct Hs' as [Hs'|Hs'].
      * apply Hq. now right.
      * apply in_map_iff in Hs'. destruct Hs' as [e [<- He]].
        apply reach_follow; [apply Hq; now left|exact He].
    + apply expand_none in Ex. destruct Ex as [e [He Hh]].
      exists s, e. split; [apply Hq; now left|]. now split.
Qed.

Lemma path_loop_complete (g : PassiveGraph) (t : string) (rf ri : bool) (fuel : nat) :
  forall q seen,
    path_loop fuel g t rf ri q seen = Some false ->
    closed_under_edges g t rf ri q seen ->
    exists seen',
      (forall s, In s q \/ In s seen -> In s seen')
      /\ closed_under_edges g t rf ri [] seen'.
Proof.
  induction fuel as [|fuel IH]; intros q seen; cbn [path_loop]; [discriminate|].
  destruct q as [|s q].
  - intros _ Hinv. exists seen. split; [intros s [[]|H]; exact H|exact Hinv].
  - intros Hrun Hinv. destruct (state_mem s seen) eqn:Es.
    + apply state_mem_in in Es.
      destruct (IH _ _ Hrun) as [seen' [Hsub Hclosed]].
      * intros s0 Hs0 e He.
        destruct (Hinv s0 Hs0 e He) as [Hh [H|[Heq|H]]]; (split; [exact Hh|]).
        -- now left.
        -- left. now rewrite <- Heq.
        -- now right.
      * exists seen'. split; [|exact Hclosed].
        intros s0 [[<-|H]|H]; apply Hsub; auto.
    + destruct (expand t rf ri s (adjacent g (fst (fst s))) q) as [q''|] eqn:Ex;
        [|discriminate].
      apply expand_some in Ex. destruct Ex as [-> Hnohit].
      destruct (IH _ _ Hrun) as [seen' [Hsub Hclosed]].
      * intros s0 [<-|Hs0] e He.
        -- split; [now apply Hnohit|]. right. apply in_or_app. right. now apply in_map.
        -- destruct (Hinv s0 Hs0 e He) as [Hh [H|[Heq|H]]].
           ++ split; [exact Hh|]. left. now right.
           ++ split; [exact Hh|]. left. now left.
           ++ split; [exact Hh|]. right. apply in_or_app. now left.
      * exists seen'. split; [|exact Hclosed].
        intros s0 [[<-|H]|H]; apply Hsub.
        -- right. now left.
        -- left. apply in_or_app. now left.
        -- right. now right.
Qed.

Lemma closed_contains_walks (g : PassiveGraph) (start t : string) (rf ri : bool)
  (seen : list TankState) :
  In (start, false, false) seen ->
  closed_under_edges g t rf ri [] seen ->
  forall es n,
    walk g start es n ->
    In (n, has_film_edge es, has_inductor_edge es) seen
    /\ (es <> [] -> hits t rf ri (n, has_film_edge es, has_inductor_edge es) = false).
Proof.
  intros Hstart Hclosed. induction es as [|e es IH] using rev_ind; intros n Hw.
  - inversion Hw; subst. split; [exact Hstart|congruence].
  - apply walk_snoc_inv in Hw. destruct Hw as [c [Hc [He ->]]].
    destruct (IH c Hc) as [Hin _].
    destruct (Hclosed _ Hin e He) as [Hh [Hs|[]]].
    cbn [follow fst snd] in Hh, Hs.
    rewrite has_film_edge_snoc, has_inductor_edge_snoc. split; [exact Hs|now intros _].
Qed.

Lemma hits_spec (t : string) (rf ri : bool) (n : string) (f i : bool) :
  hits t rf ri (n, f, i) = true
  <-> n = t /\ (rf = true -> f = true) /\ (ri = true -> i = true).
Proof.
  unfold hits. rewrite !andb_true_iff, String.eqb_eq.
  destruct rf, ri, f, i; cbn; intuition congruence.
Qed.

(** [path_loop] answers [true] exactly when a walk of at least one edge
    leads from the start to the target with the required elements. *)
Lemma path_loop_spec (g : PassiveGraph) (s t : string) (rf ri : bool) :
  path_loop (path_fuel g) g t rf ri [(s, false, false)] [] = Some true
  <-> tank_path g rf ri s t.
Proof.
  split.
  - intros Hrun.
    destruct (path_loop_sound g s t rf ri _ _ _ Hrun) as [[[n f] i] [e [Hr [He Hh]]]].
    { intros s0 [<-|[]]. exists []. cbn. split; [apply walk_nil|now split]. }
    pose proof (reach_follow g s (n, f, i) e Hr He) as [es [Hw [Hf Hi]]].
    cbn [follow fst snd] in *. apply hits_spec in Hh. destruct Hh as [Ht [Hrf Hri]].
    destruct Hr as [es0 [Hw0 [Hf0 Hi0]]]. cbn [fst snd] in *.
    exists (es0 ++ [e]). split; [now destruct es0|].
    split; [rewrite <- Ht; now apply (walk_snoc g s n)|].
    rewrite has_film_edge_snoc, has_inductor_edge_snoc, <- Hf0, <- Hi0. now split.
  - intros [es [Hne [Hw [Hf Hi]]]].
    destruct (path_loop_terminates g s t rf ri) as [[|] Hrun]; [exact Hrun|].
    exfalso.
    destruct (path_loop_complete g t rf ri _ _ _ Hrun) as [seen' [Hsub Hclosed]].
    { intros s0 []. }
    assert (Hstart : In (s, false, false) seen') by (apply Hsub; left; now left).
    destruct (closed_contains_walks g s t rf ri seen' Hstart Hclosed es t Hw) as [_ Hno].
    specialize (Hno Hne).
    assert (Hyes : hits t rf ri (t, has_film_edge es, has_inductor_edge es) = true)
      by (apply hits_spec; auto).
    congruence.
Qed.

(** [_path_exists] between two different, named nets. *)
Lemma path_exists_spec (snapshot : Snapshot) (a b : string) (allowed_parts : list string)
  (rf ri : bool) :
  a <> EmptyString -> b <> EmptyString -> a <> b ->
  _path_exists snapshot (Some a) (Some b) allowed_parts rf ri = true
  <-> tank_path (_build_passive_net_graph snapshot allowed_parts) rf ri a b.
Proof.
  intros Ha Hb Hab. unfold _path_exists.
  assert (Hta : Py.truthy (Some a) = true) by (destruct a; [congruence|reflexivity]).
  assert (Htb : Py.truthy (Some b) = true) by (destruct b; [congruence|reflexivity]).
  rewrite Hta, Htb. cbn [negb orb].
  apply String.eqb_neq in Hab. rewrite Hab.
  rewrite <- path_loop_spec.
  destruct (path_loop_terminates (_build_passive_net_graph snapshot allowed_parts) a b rf ri)
    as [found ->].
  split; [now intros ->|now intros [= ->]].
Qed.

(** *** The graph searched is the passive-induced graph of the snapshot *)

Lemma dict_get_update {V} (d : Py.dict V) (k k' : string) (dflt : V) (f : V -> V) :
  Py.dict_get (Py.dict_update d k dflt f) k'
  = if String.eqb k' k
    then Some (f (match Py.dict_get d k with Some v => v | None => dflt end))
    else Py.dict_get d k'.
Proof.
  induction d as [|[k0 v0] d IH]; cbn [Py.dict_update Py.dict_get].
  - destruct (String.eqb k' k); reflexivity.
  - destruct (String.eqb_spec k k0) as [->|Hne]; cbn [Py.dict_get].
    + destruct (String.eqb k' k0); reflexivity.
    + rewrite IH. destruct (String.eqb_spec k' k0) as [->|Hne'].
      * apply String.eqb_neq in Hne. rewrite String.eqb_sym in Hne. now rewrite Hne.
      * reflexivity.
Qed.

Lemma adjacent_append (g : PassiveGraph) (k n : string) (e x : Edge) :
  In e (adjacent (Py.dict_append g k x) n) <-> In e (adjacent g n) \/ (n = k /\ e = x).
Proof.
  unfold adjacent, Py.dict_append. rewrite dict_get_update.
  destruct (String.eqb_spec n k) as [->|Hne].
  - destruct (Py.dict_get g k); rewrite in_app_iff; cbn; intuition congruence.
  - intuition congruence.
Qed.

Lemma passive_edge_step_adjacent (allowed_parts : list string) (g : PassiveGraph)
  (comp : Component) (a : string) (e : Edge) :
  In e (adjacent (passive_edge_step allowed_parts g comp) a)
  <-> In e (adjacent g a)
      \/ (Py.mem (part_id comp) allowed_parts = true
          /\ exists b,
               e = (b, part_id comp, ref comp)
               /\ a <> EmptyString /\ b <> EmptyString /\ a <> b
               /\ (passive_terminals comp = (Some a, Some b)
                   \/ passive_terminals comp = (Some b, Some a))).
Proof.
  unfold passive_edge_step.
  destruct (Py.mem (part_id comp) allowed_parts) eqn:Em; cbn [negb].
  2:{ split; [auto|]. intros [H|[H _]]; [exact H|discriminate]. }
  destruct (passive_terminals comp) as [[x|] [y|]] eqn:Et;
    try (split; [auto|]; intros [H|[_ [b [_ [_ [_ [_ [H|H]]]]]]]]; [exact H|discriminate..]).
  assert (Htr : forall z : string, Py.truthy (Some z) = true <-> z <> EmptyString)
    by (intros [|c z]; cbn; split; congruence).
  destruct (Py.truthy (Some x)) eqn:Ex; cbn [negb orb].
  2:{ split; [auto|]. intros [H|[_ [b [_ [Ha [Hb [_ [[= <- <-]|[= <- <-]]]]]]]]]; [exact H| |].
      - apply Htr in Ha. congruence.
      - apply Htr in Hb. congruence. }
  destruct (Py.truthy (Some y)) eqn:Ey; cbn [negb orb].
  2:{ split; [auto|]. intros [H|[_ [b [_ [Ha [Hb [_ [[= <- <-]|[= <- <-]]]]]]]]]; [exact H| |].
      - apply Htr in Hb. congruence.
      - apply Htr in Ha. congruence. }
  apply Htr in Ex, Ey.
  destruct (String.eqb_spec x y) as [->|Hxy].
  { split; [auto|]. intros [H|[_ [b [_ [_ [_ [Hab [[= <- <-]|[= <- <-]]]]]]]]]; congruence. }
  rewrite !adjacent_append. split.
  - intros [[H|[-> ->]]|[-> ->]]; [now left| |].
    + right. split; [reflexivity|]. exists y. repeat split; auto.
    + right. split; [reflexivity|]. exists x. repeat split; auto.
  - intros [H|[_ [b [-> [Ha [Hb [Hab [[= <- <-]|[= <- <-]]]]]]]]]; auto.
Qed.

Lemma build_passive_net_graph_adjacent (snapshot : Snapshot) (allowed_parts : list string)
  (a : string) (e : Edge) :
  In e (adjacent (_build_passive_net_graph snapshot allowed_parts) a)
  <-> passive_link snapshot allowed_parts a e.
Proof.
  unfold _build_passive_net_graph, passive_link.
  assert (H : forall comps g,
            In e (adjacent (fold_left (passive_edge_step allowed_parts) comps g) a)
            <-> In e (adjacent g a)
                \/ exists comp b,
                     In comp comps
                     /\ Py.mem (part_id comp) allowed_parts = true
                     /\ e = (b, part_id comp, ref comp)
                     /\ a <> EmptyString /\ b <> EmptyString /\ a <> b
                     /\ (passive_terminals comp = (Some a, Some b)
                         \/ passive_terminals comp = (Some b, Some a))).
  { induction comps as [|c comps IH]; intros g; cbn [fold_left].
    - split; [auto|]. intros [H|[c [b [[] _]]]]. exact H.
    - rewrite IH, passive_edge_step_adjacent. split.
      + intros [[H|[Hm [b Hb]]]|[c' [b [Hc' Hr]]]].
        * now left.
        * right. exists c, b. split; [now left|]. tauto.
        * right. exists c', b. split; [now right|exact Hr].
      + intros [H|[c' [b [[<-|Hc'] Hr]]]].
        * left. now left.
        * left. right. split; [tauto|]. exists b. tauto.
        * right. exists c', b. tauto. }
  rewrite H. unfold adjacent. cbn. split; [intros [[]|Hx]; exact Hx|auto].
Qed.

(** *** The tank requirement of the DAB template *)

Lemma path_exists_required_inv (snapshot : Snapshot) (so to : option string)
  (allowed_parts : list string) :
  _path_exists snapshot so to allowed_parts true true = true ->
  exists a b,
    so = Some a /\ to = Some b /\ a <> EmptyString /\ b <> EmptyString /\ a <> b.
Proof.
  unfold _path_exists. destruct so as [a|]; [|discriminate].
  destruct to as [b|]; [|discriminate].
  destruct a as [|ca a]; [discriminate|]. destruct b as [|cb b]; [discriminate|].
  cbn [Py.truthy negb orb].
  destruct (String.eqb_spec (String ca a) (String cb b)) as [E|E]; [discriminate|].
  intros _. exists (String ca a), (String cb b). repeat split; congruence.
Qed.

Lemma exists_required_tank_path_spec (snapshot : Snapshot)
  (starts targets : list (option string)) :
  _exists_required_tank_path snapshot starts targets true true PATH_PART_IDS = true
  <-> exists a b,
        tank_pair starts targets a b /\ a <> b
        /\ tank_path (_build_passive_net_graph snapshot PATH_PART_IDS) true true a b.
Proof.
  unfold _exists_required_tank_path, tank_pair. rewrite existsb_exists. split.
  - intros [s [Hs H]]. apply existsb_exists in H. destruct H as [t [Ht H]].
    destruct (path_exists_required_inv _ _ _ _ H) as [a [b [-> [-> [Ha [Hb Hab]]]]]].
    exists a, b. repeat split; auto. now apply path_exists_spec in H.
  - intros [a [b [[Hs [Ht [Ha Hb]]] [Hab Hp]]]].
    exists (Some a). split; [exact Hs|]. apply existsb_exists.
    exists (Some b). split; [exact Ht|]. now apply path_exists_spec.
Qed.

(** A bridge that is missing always comes with an error message, so the
    branches of [dab_input_bridge] that pair no bridge with no error are
    never taken. *)
Lemma infer_half_bridge_none (mosfets_ : list Info) (vsw_net : option string) :
  fst (_infer_half_bridge_on_vsw mosfets_ vsw_net) = None ->
  snd (_infer_half_bridge_on_vsw mosfets_ vsw_net) <> [].
Proof.
  unfold _infer_half_bridge_on_vsw.
  destruct vsw_net as [v|]; [|discriminate].
  destruct (negb (Py.truthy (Some v))); [discriminate|].
  destruct (filter _ mosfets_); [discriminate|].
  destruct (filter _ mosfets_); [discriminate|].
  destruct (fold_left _ _ _) as [[b|] score]; [|discriminate].
  destruct (negb (_is_ground_net (Some (hb_gnd b)))); discriminate.
Qed.

Lemma infer_full_bridge_none (mosfets_ : list Info) (vsw_nets : list (option string)) :
  fst (_infer_full_bridge_from_vsw mosfets_ vsw_nets) = None ->
  snd (_infer_full_bridge_from_vsw mosfets_ vsw_nets) <> [].
Proof.
  unfold _infer_full_bridge_from_vsw.
  destruct vsw_nets as [|v1 [|v2 [|v3 rest]]]; try discriminate.
  pose proof (infer_half_bridge_none mosfets_ v1) as H1.
  pose proof (infer_half_bridge_none mosfets_ v2) as H2.
  destruct (_infer_half_bridge_on_vsw mosfets_ v1) as [hb1 e1].
  destruct (_infer_half_bridge_on_vsw mosfets_ v2) as [hb2 e2].
  cbn [fst snd] in H1, H2.
  destruct hb1 as [b1|].
  - destruct hb2 as [b2|]; [discriminate|].
    intros _. cbn [snd]. intros E. apply app_eq_nil in E. destruct E as [_ E].
    now apply H2.
  - intros _. cbn [snd]. intros E. apply app_eq_nil in E. destruct E as [E _].
    now apply H1.
Qed.

Lemma infer_other_bridge_none (snapshot : Snapshot) (mosfets_ : list Info)
  (excluded : string * string) (terms : option string * option string)
  (allowed_parts : list string) :
  fst (_infer_other_bridge_connected_to_terms snapshot mosfets_ excluded terms
         allowed_parts) = None ->
  snd (_infer_other_bridge_connected_to_terms snapshot mosfets_ excluded terms
         allowed_parts) <> [].
Proof.
  unfold _infer_other_bridge_connected_to_terms. destruct (find _ _); discriminate.
Qed.

Lemma select_input_bridge_none (snapshot : Snapshot) (bridges : list Bridge) :
  fst (_select_input_bridge snapshot bridges) = None ->
  snd (_select_input_bridge snapshot bridges) <> [].
Proof.
  unfold _select_input_bridge.
  destruct (if Py.truthy _ then _ else _); [|discriminate].
  destruct (filter _ _); discriminate.
Qed.

Lemma infer_other_bridge_errors (snapshot : Snapshot) (mosfets_ : list Info)
  (excluded : string * string) (terms : option string * option string)
  (allowed_parts : list string) (e : string) :
  In e (snd (_infer_other_bridge_connected_to_terms snapshot mosfets_ excluded terms
               allowed_parts)) ->
  e = ("cannot find a second full-bridge connected to transformer terminals "
       ++ repr_terms terms)%string.
Proof.
  unfold _infer_other_bridge_connected_to_terms.
  destruct (find _ _); cbn [snd]; [intros []|]. now intros [<-|[]].
Qed.

Lemma select_input_bridge_errors (snapshot : Snapshot) (bridges : list Bridge) (e : string) :
  In e (snd (_select_input_bridge snapshot bridges)) ->
  e = "cannot identify VIN/VBUS-referenced input bridge (bus net not VIN/VBUS-like)".
Proof.
  unfold _select_input_bridge.
  destruct (if Py.truthy _ then _ else _); cbn [snd]; [|intros []].
  destruct (filter _ _); cbn [snd]; [|intros []]. now intros [<-|[]].
Qed.

(** No early return of [_verify_dab] carries the tank message. *)
Lemma dab_early_return_not_tank (power_graph : PowerGraph) (snapshot : Snapshot)
  (errors : list string) :
  dab_input_bridge power_graph snapshot = inl errors -> ~ In dab_tank_message errors.
Proof.
  unfold dab_input_bridge. intros H.
  repeat match type of H with
         | inl _ = inl _ => injection H as <-
         | inr _ = inl _ => discriminate H
         | context [_infer_other_bridge_connected_to_terms ?a ?b ?c ?d ?e] =>
             let Hother := fresh "Hother" in
             pose proof (infer_other_bridge_errors a b c d e) as Hother;
             destruct (_infer_other_bridge_connected_to_terms a b c d e) as [[?|] [|? ?]]
         | context [_select_input_bridge ?a ?b] =>
             let Hselect := fresh "Hselect" in
             pose proof (select_input_bridge_errors a b) as Hselect;
             destruct (_select_input_bridge a b) as [[?|] [|? ?]]
         | context [if ?c then _ else _] => destruct c
         | context [match ?x with _ => _ end] => destruct x
         end;
    try (intros [E|[]]; discriminate E);
    try (intros Hin; now destruct Hin);
    cbn [snd] in *; intros Hin;
    (destruct Hin as [E|Hin];
     [ try discriminate E;
       match goal with
       | Hx : forall e : string, In e (?x :: _) -> e = _ |- _ =>
           pose proof (Hx x (or_introl eq_refl)) as Hs; rewrite Hs in E;
           unfold dab_tank_message in E; cbn [append] in E; discriminate E
       end
     | apply in_map_iff in Hin; destruct Hin as [e [E He]];
       try discriminate E;
       match goal with
       | Hx : forall e : string, In e (_ :: ?l) -> e = _, Hl : In _ ?l |- _ =>
           pose proof (Hx _ (or_intror Hl)) as Hs; rewrite Hs in E;
           unfold dab_tank_message in E; cbn [append] in E; discriminate E
       end ]).
Qed.

(** C4 (amended): the search terminates on every graph, and [_verify_dab]
    reports the missing series elements exactly when it gets as far as
    the tank requirement and no switch node of the input bridge reaches a
    different net that is a transformer terminal of the driven side by a
    walk of the passive-induced graph (parts R, C, C_film, Inductor_power,
    L; nets and edges may repeat) with at least one C_film edge and at
    least one inductor edge.  The search states are (net, has_film,
    has_inductor) triples and so are the entries of its visited list. *)
Theorem tank_path_search_spec (snapshot : Snapshot) (kg_store : option KGStore) :
  let g := _build_passive_net_graph snapshot PATH_PART_IDS in
  let power_graph := _build_power_graph snapshot kg_store in
  (forall s t rf ri,
      exists found, path_loop (path_fuel g) g t rf ri [(s, false, false)] [] = Some found)
  /\ (In dab_tank_message (_verify_dab power_graph snapshot)
      <-> exists starts targets,
            dab_input_bridge power_graph snapshot = inr (starts, targets)
            /\ ~ exists a b,
                   tank_pair starts targets a b /\ a <> b /\ tank_path g true true a b)
  /\ (forall starts targets,
        dab_input_bridge power_graph snapshot = inr (starts, targets) ->
        (exists a b, tank_pair starts targets a b /\ a <> b /\ tank_path g true true a b) ->
        _verify_dab power_graph snapshot = [])
  /\ (forall a e, In e (adjacent g a) <-> passive_link snapshot PATH_PART_IDS a e).
Proof.
  cbv zeta. split; [intros s t rf ri; apply path_loop_terminates|].
  split; [|split].
  - unfold _verify_dab.
    destruct (dab_input_bridge (_build_power_graph snapshot kg_store) snapshot)
      as [errors|[starts targets]] eqn:Hd.
    + split.
      * intros Hin. exfalso. revert Hin. now apply (dab_early_return_not_tank _ _ _ Hd).
      * intros [starts [targets [H _]]]. discriminate H.
    + pose proof (exists_required_tank_path_spec snapshot starts targets) as Hspec.
      unfold dab_tank_check.
      destruct (_exists_required_tank_path snapshot starts targets true true PATH_PART_IDS);
        cbn [negb].
      * split; [intros []|]. intros [s' [t' [[= <- <-] Hno]]]. apply Hno. now apply Hspec.
      * split; [|intros _; now left]. intros _. exists starts, targets.
        split; [reflexivity|]. intros H. apply Hspec in H. discriminate H.
  - intros starts targets Hd Hp. unfold _verify_dab. rewrite Hd. unfold dab_tank_check.
    apply (exists_required_tank_path_spec snapshot starts targets) in Hp. now rewrite Hp.
  - intros a e. apply build_passive_net_graph_adjacent.
Qed.

(** A film capacitor and an inductor in series between the input bridge
    and the transformer satisfy the template. *)
Example dab_series_passes :
  _verify_dab (_build_power_graph Samples.dab_series_snapshot None)
    Samples.dab_series_snapshot = [].
Proof. vm_compute. reflexivity. Qed.

(** Scenario S5: a valid eight-MOSFET arrangement with the transformer and
    one film capacitor in series, but no inductor. *)
Example dab_missing_inductor :
  _verify_dab (_build_power_graph Samples.dab_no_inductor_snapshot None)
    Samples.dab_no_inductor_snapshot = [dab_tank_message].
Proof. vm_compute. reflexivity. Qed.

Example dab_loop_graph :
  _build_passive_net_graph Samples.dab_loop_snapshot PATH_PART_IDS
  = [("VSW_1", [("TANK", "C_film", "C1"); ("TANK", "L", "L1")]);
     ("TANK", [("VSW_1", "C_film", "C1"); ("VSW_1", "L", "L1")])].
Proof. vm_compute. reflexivity. Qed.

Example dab_stub_graph :
  _build_passive_net_graph Samples.dab_stub_snapshot PATH_PART_IDS
  = [("VSW_1", [("STUB", "C_film", "C1"); ("PRI_1", "L", "L1")]);
     ("STUB", [("VSW_1", "C_film", "C1")]);
     ("PRI_1", [("VSW_1", "L", "L1")])].
Proof. vm_compute. reflexivity. Qed.

Lemma walk_from_isolated (g : PassiveGraph) (a b : string) (es : list Edge) :
  adjacent g a = [] -> walk g a es b -> es = [].
Proof.
  intros Hadj Hw. inversion Hw as [|? e ? ? Hin _]; subst; [reflexivity|].
  rewrite Hadj in Hin. destruct Hin.
Qed.

(** No strict path of the stub graph from a switch node to a transformer
    terminal holds both elements: the only way to the film capacitor leads
    into a dead end. *)
Lemma dab_stub_no_simple_path (a b : string) :
  tank_pair [Some "VSW_1"; Some "VSW_2"] [Some "PRI_1"; Some "VSW_2"] a b ->
  ~ simple_tank_path (_build_passive_net_graph Samples.dab_stub_snapshot PATH_PART_IDS) a b.
Proof.
  rewrite dab_stub_graph. intros [Ha [Hb _]] [es [Hw [Hnd [Hf Hi]]]].
  destruct Ha as [[= <-]|[[= <-]|[]]].
  - inversion Hw as [|? e1 es1 ? Hin1 Hw1]; subst; [discriminate|].
    cbn in Hin1. destruct Hin1 as [<-|[<-|[]]]; cbn [edge_net fst] in Hw1.
    + inversion Hw1 as [|? e2 es2 ? Hin2 Hw2]; subst.
      * destruct Hb as [[=]|[[=]|[]]].
      * cbn in Hin2. destruct Hin2 as [<-|[]].
        cbn in Hnd. inversion Hnd as [|? ? Hnotin _]; subst.
        apply Hnotin. right. now left.
    + inversion Hw1 as [|? e2 es2 ? Hin2 Hw2]; subst.
      * discriminate.
      * cbn in Hin2. destruct Hin2 as [<-|[]].
        cbn in Hnd. inversion Hnd as [|? ? Hnotin _]; subst.
        apply Hnotin. right. now left.
  - apply walk_from_isolated in Hw; [|reflexivity]. subst es. discriminate.
Qed.

(** C4, counterexample to the claim as stated, on two complete dual
    active bridges.  Read with walks, the claim fails on the loop: the
    switch node VSW_1 is itself a transformer terminal and has a closed
    walk through a film capacitor and an inductor, and the error is
    emitted all the same.  Read with strict paths, it fails on the stub:
    no strict path from a switch node to a transformer terminal holds both
    elements, and no error is emitted. *)
Lemma tank_path_claim_fails :
  (_verify_dab (_build_power_graph Samples.dab_loop_snapshot None) Samples.dab_loop_snapshot
   = [dab_tank_message]
   /\ dab_input_bridge (_build_power_graph Samples.dab_loop_snapshot None)
        Samples.dab_loop_snapshot
      = inr ([Some "VSW_1"; Some "VSW_2"], [Some "VSW_1"; Some "VSW_2"])
   /\ exists a b,
        tank_pair [Some "VSW_1"; Some "VSW_2"] [Some "VSW_1"; Some "VSW_2"] a b
        /\ tank_path (_build_passive_net_graph Samples.dab_loop_snapshot PATH_PART_IDS)
             true true a b)
  /\ (_verify_dab (_build_power_graph Samples.dab_stub_snapshot None)
        Samples.dab_stub_snapshot = []
      /\ dab_input_bridge (_build_power_graph Samples.dab_stub_snapshot None)
           Samples.dab_stub_snapshot
         = inr ([Some "VSW_1"; Some "VSW_2"], [Some "PRI_1"; Some "VSW_2"])
      /\ forall a b,
           tank_pair [Some "VSW_1"; Some "VSW_2"] [Some "PRI_1"; Some "VSW_2"] a b ->
           ~ simple_tank_path
               (_build_passive_net_graph Samples.dab_stub_snapshot PATH_PART_IDS) a b).
Proof.
  split; (split; [vm_compute; reflexivity|]); (split; [vm_compute; reflexivity|]).
  - exists "VSW_1", "VSW_1". split.
    + repeat split; try discriminate; now left.
    + rewrite dab_loop_graph.
      exists [("TANK", "C_film", "C1"); ("VSW_1", "L", "L1")].
      split; [discriminate|]. split; [|split; reflexivity].
      apply walk_cons; [now left|]. apply walk_cons; [right; now left|]. apply walk_nil.
  - exact dab_stub_no_simple_path.
Qed.

(* ================================================================== *)
(** ** Reachability computed by the net BFS (isolation_domain.py) *)
(* ================================================================== *)

Lemma bfs_loop_sound (g : NetGraph) (start_nets : Py.strset) (fuel : nat) :
  forall queue visited result,
    bfs_loop fuel g queue visited = Some result ->
    (forall x, In x queue -> net_reachable g start_nets x) ->
    (forall x, In x visited -> net_reachable g start_nets x) ->
    forall x, In x result -> net_reachable g start_nets x.
Proof.
  induction fuel as [|fuel IH]; intros queue visited result H Hq Hv; [discriminate|].
  cbn [bfs_loop] in H. destruct queue as [|n q].
  - injection H as <-. exact Hv.
  - destruct (PySet.mem n visited) eqn:E.
    + apply (IH _ _ _ H); [intros x Hx; apply Hq; now right | exact Hv].
    + apply (IH _ _ _ H).
      * intros x Hx. apply in_app_or in Hx. destruct Hx as [Hx|Hx].
        -- apply Hq. now right.
        -- apply filter_In in Hx. destruct Hx as [Hx _].
           apply reachable_step with (x := n); [apply Hq; now left | exact Hx].
      * intros x Hx. apply pyset_add_in in Hx. destruct Hx as [->|Hx].
        -- apply Hq. now left.
        -- now apply Hv.
Qed.

Lemma bfs_loop_closed (g : NetGraph) (start_nets : Py.strset) (fuel : nat) :
  forall queue visited result,
    bfs_loop fuel g queue visited = Some result ->
    (forall x, In x start_nets -> In x visited \/ In x queue) ->
    (forall v nb, In v visited -> In nb (neighbours g v) -> In nb visited \/ In nb queue) ->
    (forall x, In x start_nets -> In x result)
    /\ (forall v nb, In v result -> In nb (neighbours g v) -> In nb result).
Proof.
  induction fuel as [|fuel IH]; intros queue visited result H Hs Hc; [discriminate|].
  cbn [bfs_loop] in H. destruct queue as [|n q].
  - injection H as <-. split.
    + intros x Hx. destruct (Hs x Hx) as [Hv|[]]. exact Hv.
    + intros v nb Hv Hnb. destruct (Hc v nb Hv Hnb) as [Hr|[]]. exact Hr.
  - destruct (PySet.mem n visited) eqn:E.
    + apply pyset_mem_true in E. apply (IH _ _ _ H).
      * intros x Hx. destruct (Hs x Hx) as [Hv|[->|Hq]]; auto.
      * intros v nb Hv Hnb. destruct (Hc v nb Hv Hnb) as [Hr|[->|Hq]]; auto.
    + apply (IH _ _ _ H).
      * intros x Hx. destruct (Hs x Hx) as [Hv|[->|Hq]].
        -- left. apply pyset_add_in. now right.
        -- left. apply pyset_add_in. now left.
        -- right. apply in_or_app. now left.
      * intros v nb Hv Hnb.
        destruct (PySet.mem nb (PySet.add n visited)) eqn:Enb.
        { left. now apply pyset_mem_true. }
        right. apply in_or_app.
        apply pyset_add_in in Hv. destruct Hv as [->|Hv].
        -- right. apply filter_In. split; [exact Hnb | now rewrite Enb].
        -- destruct (Hc v nb Hv Hnb) as [Hr|[->|Hq]].
           ++ apply pyset_mem_false in Enb. exfalso. apply Enb. apply pyset_add_in. now right.
           ++ apply pyset_mem_false in Enb. exfalso. apply Enb. apply pyset_add_in. now left.
           ++ now left.
Qed.

Lemma bfs_loop_nodup (g : NetGraph) (fuel : nat) :
  forall queue visited result,
    bfs_loop fuel g queue visited = Some result -> NoDup visited -> NoDup result.
Proof.
  induction fuel as [|fuel IH]; intros queue visited result H Hn; [discriminate|].
  cbn [bfs_loop] in H. destruct queue as [|n q].
  - now injection H as <-.
  - destruct (PySet.mem n visited).
    + now apply (IH _ _ _ H).
    + apply (IH _ _ _ H). now apply set_add_nodup.
Qed.

(** X1 (isolation_domain._bfs_connected_nets).  The breadth-first sweep
    always finishes, and the set it returns holds exactly the nets that can
    be reached from the start nets along the adjacency, each of them once. *)
Theorem bfs_connected_nets_reachable (start_nets : Py.strset) (g : NetGraph) :
  bfs_loop (bfs_fuel g start_nets) g start_nets []
  = Some (_bfs_connected_nets start_nets g)
  /\ (forall x, In x (_bfs_connected_nets start_nets g) <-> net_reachable g start_nets x)
  /\ NoDup (_bfs_connected_nets start_nets g).
Proof.
  unfold _bfs_connected_nets.
  destruct (bfs_loop_terminates g start_nets) as [result H]. rewrite H.
  split; [reflexivity|]. split.
  - intros x. split.
    + apply (bfs_loop_sound g start_nets _ _ _ _ H); [now constructor | intros y []].
    + destruct (bfs_loop_closed g start_nets _ _ _ _ H) as [Hs Hc].
      * intros y Hy. now right.
      * intros v nb [].
      * intros Hr. induction Hr as [y Hy | y z _ IH Hz]; [now apply Hs | now apply (Hc y)].
  - apply (bfs_loop_nodup g _ _ _ _ H). constructor.
Qed.

(* ================================================================== *)
(** ** Domain labels (isolation_domain.get_net_domain) *)
(* ================================================================== *)

Lemma str_of_nat_inj (i j : nat) : Py.str_of_nat i = Py.str_of_nat j -> i = j.
Proof.
  unfold Py.str_of_nat. intros H.
  apply (f_equal NilEmpty.uint_of_string) in H. rewrite !NilEmpty.usu in H.
  injection H as H. now apply DecimalNat.Unsigned.to_uint_inj.
Qed.

Lemma secondary_index_spec (x : string) (ds : list Py.strset) :
  forall k i,
    secondary_index x ds k = Some i
    <-> k <= i
        /\ (exists dom, nth_error ds (i - k) = Some dom /\ In x dom)
        /\ (forall j dom, j < i - k -> nth_error ds j = Some dom -> ~ In x dom).
Proof.
  induction ds as [|d rest IH]; intros k i; cbn [secondary_index].
  - split; [discriminate|]. intros (_ & (dom & H & _) & _). now destruct (i - k).
  - destruct (PySet.mem x d) eqn:E.
    + apply pyset_mem_true in E. split.
      * intros H. injection H as <-. split; [lia|]. rewrite Nat.sub_diag. split.
        -- now exists d.
        -- intros j dom Hj. lia.
      * intros (Hk & (dom & Hn & Hx) & Hfirst).
        destruct (i - k) as [|m] eqn:Ei; [f_equal; lia|].
        exfalso. apply (Hfirst 0 d); [lia | reflexivity | exact E].
    + apply pyset_mem_false in E. rewrite IH. split.
      * intros (Hk & (dom & Hn & Hx) & Hfirst). split; [lia|].
        replace (i - k) with (S (i - S k)) by lia. split.
        -- now exists dom.
        -- intros [|j] dom' Hj Hn'.
           ++ injection Hn' as <-. exact E.
           ++ apply (Hfirst j); [lia | exact Hn'].
      * intros (Hk & (dom & Hn & Hx) & Hfirst).
        destruct (i - k) as [|m] eqn:Ei.
        { injection Hn as <-. contradiction. }
        split; [lia|]. replace (i - S k) with m by lia. split.
        -- now exists dom.
        -- intros j dom' Hj Hn'. apply (Hfirst (S j)); [lia | exact Hn'].
Qed.

Lemma secondary_index_found (x : string) (ds : list Py.strset) :
  forall k i dom,
    nth_error ds i = Some dom -> In x dom -> exists i0, secondary_index x ds k = Some i0.
Proof.
  induction ds as [|d0 rest IH]; intros k i dom Hn Hx; [now destruct i|].
  cbn [secondary_index]. destruct (PySet.mem x d0) eqn:E0; [now eexists|].
  destruct i as [|i].
  - injection Hn as ->. apply pyset_mem_false in E0. contradiction.
  - apply (IH (S k) i dom Hn Hx).
Qed.

Lemma ForallOrdPairs_nth {A} (R : A -> A -> Prop) (l : list A) :
  ForallOrdPairs R l ->
  forall i j a b, i < j -> nth_error l i = Some a -> nth_error l j = Some b -> R a b.
Proof.
  induction 1 as [|x l Hx _ IH]; intros i j a b Hij Ha Hb.
  - now destruct i.
  - destruct j as [|j]; [lia|]. cbn in Hb. destruct i as [|i].
    + injection Ha as <-. rewrite Forall_forall in Hx. apply Hx.
      now apply nth_error_In with (n := j).
    + cbn in Ha. apply (IH i j); [lia | exact Ha | exact Hb].
Qed.

(** X2 (isolation_domain.get_net_domain on the result of
    identify_isolation_domains).  The label of a net names the one domain
    that holds it: ["primary"] exactly for the nets of the primary domain,
    ["secondary_i"] exactly for the nets of the i-th secondary domain, and
    ["unknown"] exactly for the nets that no domain holds. *)
Theorem get_net_domain_names_the_domain (snapshot : Snapshot) (kg_store : option KGStore)
  (x : string) :
  let d := identify_isolation_domains snapshot kg_store in
  (get_net_domain x d = "primary" <-> In x (primary d))
  /\ (forall i,
        get_net_domain x d = ("secondary_" ++ Py.str_of_nat i)%string
        <-> exists dom, nth_error (secondary d) i = Some dom /\ In x dom)
  /\ (get_net_domain x d = "unknown"
      <-> forall dom, In dom (primary d :: secondary d) -> ~ In x dom).
Proof.
  intros d. pose proof (isolation_domains_disjoint snapshot kg_store) as Hdis.
  fold d in Hdis. unfold pairwise_disjoint_domains in Hdis.
  unfold get_net_domain.
  destruct (PySet.mem x (primary d)) eqn:Ep.
  - apply pyset_mem_true in Ep. split; [tauto|]. split.
    + intros i. split; [discriminate|]. intros (dom & Hn & Hx). exfalso.
      apply (ForallOrdPairs_nth _ _ Hdis 0 (S i) (primary d) dom) with (x := x); auto. lia.
    + split; [discriminate|]. intros H. exfalso. apply (H (primary d)); [now left | exact Ep].
  - apply pyset_mem_false in Ep.
    destruct (secondary_index x (secondary d) 0) as [k|] eqn:Es.
    + apply secondary_index_spec in Es. rewrite Nat.sub_0_r in Es.
      destruct Es as (_ & (dom & Hn & Hx) & Hfirst).
      split; [split; [discriminate | contradiction]|]. split.
      * intros i. split.
        -- intros H. injection H as H. apply str_of_nat_inj in H. subst i. now exists dom.
        -- intros (dom' & Hn' & Hx'). do 2 f_equal.
           destruct (Nat.lt_trichotomy k i) as [Hlt|[Heq|Hgt]]; [exfalso | exact Heq | exfalso].
           ++ apply (ForallOrdPairs_nth _ _ Hdis (S k) (S i) dom dom') with (x := x); auto. lia.
           ++ apply (Hfirst i dom'); auto.
      * split; [discriminate|]. intros H. exfalso. apply (H dom); [|exact Hx].
        right. now apply nth_error_In with (n := k).
    + split; [split; [discriminate | contradiction]|]. split.
      * intros i. split; [discriminate|]. intros (dom & Hn & Hx). exfalso.
        destruct (secondary_index_found x (secondary d) 0 i dom Hn Hx) as [i0 Hi0].
        congruence.
      * split; [|intros _; reflexivity]. intros _ dom [<-|Hin] Hx; [contradiction|].
        apply In_nth_error in Hin. destruct Hin as [i Hn].
        destruct (secondary_index_found x (secondary d) 0 i dom Hn Hx) as [i0 Hi0].
        congruence.
Qed.

(* ================================================================== *)
(** ** Shorts across a boundary (isolation_domain.py) *)
(* ================================================================== *)

Lemma fold_collects {S A T} (step : S -> A -> S) (proj : S -> list T) (P : A -> T -> Prop) :
  (forall st a n, In n (proj (step st a)) <-> In n (proj st) \/ P a n) ->
  forall l st n,
    In n (proj (fold_left step l st)) <-> In n (proj st) \/ exists a, In a l /\ P a n.
Proof.
  intros Hstep. induction l as [|a l IH]; intros st n; cbn [fold_left].
  - split; [now left | intros [H|(a & [] & _)]; exact H].
  - rewrite IH, Hstep. split.
    + intros [[H|H]|(b & Hb & Hp)].
      * now left.
      * right. exists a. split; [now left | exact H].
      * right. exists b. split; [now right | exact Hp].
    + intros [H|(b & [<-|Hb] & Hp)].
      * left. now left.
      * left. now right.
      * right. now exists b.
Qed.

Lemma side_nets_fold (ic : IsoComponent) (n : string) :
  (In n (fst (side_nets ic))
   <-> exists p, In p (iso_pins ic) /\ net p = Some n /\ is_nc (Some n) = false
                 /\ _pin_in_set (pin_id p) (iso_primary_pins ic) = true)
  /\ (In n (snd (side_nets ic))
      <-> exists p, In p (iso_pins ic) /\ net p = Some n /\ is_nc (Some n) = false
                    /\ _pin_in_set (pin_id p) (iso_primary_pins ic) = false
                    /\ _pin_in_set (pin_id p) (iso_secondary_pins ic) = true).
Proof.
  unfold side_nets. split.
  - rewrite (fold_collects _ fst
               (fun p n => net p = Some n /\ is_nc (Some n) = false
                           /\ _pin_in_set (pin_id p) (iso_primary_pins ic) = true)).
    + cbn [fst]. split; [intros [[]|H]; exact H | now right].
    + intros st p x. destruct (net p) as [m|]; [|intuition congruence].
      destruct (is_nc (Some m)) eqn:Enc; [intuition congruence|].
      destruct (_pin_in_set (pin_id p) (iso_primary_pins ic)).
      * cbn [fst]. rewrite pyset_add_in. split.
        -- intros [->|H]; [right | now left]. auto.
        -- intros [H|(H & _)]; [now right | left; congruence].
      * destruct (_pin_in_set (pin_id p) (iso_secondary_pins ic)); cbn [fst];
          intuition congruence.
  - rewrite (fold_collects _ snd
               (fun p n => net p = Some n /\ is_nc (Some n) = false
                           /\ _pin_in_set (pin_id p) (iso_primary_pins ic) = false
                           /\ _pin_in_set (pin_id p) (iso_secondary_pins ic) = true)).
    + cbn [snd]. split; [intros [[]|H]; exact H | now right].
    + intros st p x. destruct (net p) as [m|]; [|intuition congruence].
      destruct (is_nc (Some m)) eqn:Enc; [intuition congruence|].
      destruct (_pin_in_set (pin_id p) (iso_primary_pins ic)); [cbn [snd]; intuition congruence|].
      destruct (_pin_in_set (pin_id p) (iso_secondary_pins ic)).
      * cbn [snd]. rewrite pyset_add_in. split.
        -- intros [->|H]; [right | now left]. auto.
        -- intros [H|(H & _)]; [now right | left; congruence].
      * intuition congruence.
Qed.

Lemma find_isolation_components_complete (comps : list Component) (kg_store : option KGStore)
  (comp : Component) (ic : IsoComponent) :
  In comp comps -> iso_component_of kg_store comp = Some ic ->
  In ic (_find_isolation_components comps kg_store).
Proof.
  induction comps as [|c rest IH]; intros Hin Hic; [destruct Hin|].
  cbn [_find_isolation_components]. destruct Hin as [->|Hin].
  - rewrite Hic. now left.
  - destruct (iso_component_of kg_store c); [right|]; now apply IH.
Qed.

(** X3 (isolation_domain.check_isolation_boundary_violations).  A violation
    is reported exactly for a boundary component and a net that sits on one
    of its primary pins and on one of its pins that is secondary without
    being primary; a pin listed on both sides counts for the primary side
    only, and unconnected and ["NC"] pins are skipped. *)
Theorem boundary_violations_spec (snapshot : Snapshot) (kg_store : option KGStore)
  (m : string) :
  In m (check_isolation_boundary_violations snapshot kg_store)
  <-> exists comp n,
        In comp (components snapshot)
        /\ boundary_short kg_store comp n
        /\ m = (ref comp ++ ": Net '" ++ n ++ "' connects both primary and secondary sides "
                ++ "(isolation barrier violation)")%string.
Proof.
  unfold check_isolation_boundary_violations. rewrite in_flat_map. split.
  - intros (ic & Hic & Hm).
    apply find_isolation_components_in in Hic. destruct Hic as (comp & Hcomp & Hic).
    unfold boundary_violations in Hm.
    destruct (side_nets ic) as [pn sn] eqn:Es.
    apply in_map_iff in Hm. destruct Hm as (n & <- & Hn).
    apply pyset_inter_in in Hn. destruct Hn as [Hp Hs].
    pose proof (side_nets_fold ic n) as H.
    rewrite Es in H. cbn [fst snd] in H. destruct H as [H1 H2].
    apply H1 in Hp. apply H2 in Hs.
    destruct Hp as (p & Hpin & Hpn & Hpnc & Hpp).
    destruct Hs as (q & Hqin & Hqn & Hqnc & Hqp & Hqs).
    unfold iso_component_of in Hic.
    destruct kg_store as [kg|]; [|discriminate].
    destruct (get_component kg (part_id comp)) as [info|] eqn:Ei; [|discriminate].
    destruct (isolation_boundary info) eqn:Eb; [|discriminate].
    injection Hic as <-. cbn [iso_ref iso_pins iso_primary_pins iso_secondary_pins] in *.
    exists comp, n. split; [exact Hcomp|]. split; [|reflexivity].
    exists kg, info, p, q. repeat split; auto.
  - intros (comp & n & Hcomp & (kg & info & p & q & -> & Hi & Hb & Hp & Hq & Hpn & Hqn & Hnc
                                   & Hpp & Hqp & Hqs) & ->).
    set (ic := mkIsoComponent (ref comp) (part_id comp) (primary_pins info)
                 (secondary_pins info) (pins comp)).
    exists ic. split.
    + apply find_isolation_components_complete with (comp := comp); [exact Hcomp|].
      unfold iso_component_of. now rewrite Hi, Hb.
    + unfold boundary_violations. destruct (side_nets ic) as [pn sn] eqn:Es.
      apply in_map_iff. exists n. split; [reflexivity|].
      pose proof (side_nets_fold ic n) as H.
      rewrite Es in H. cbn [fst snd] in H. destruct H as [H1 H2].
      apply pyset_inter_in. split.
      * apply H1. exists p. repeat split; auto.
      * apply H2. exists q. repeat split; auto.
Qed.

(* ================================================================== *)
(** ** Gate nets shared by MOSFETs (net_conflict_checker.py) *)
(* ================================================================== *)

Lemma dict_update_keys {V} (d : Py.dict V) (k : string) (dflt : V) (f : V -> V) :
  map fst (Py.dict_update d k dflt f)
  = if Py.dict_has d k then map fst d else map fst d ++ [k].
Proof.
  unfold Py.dict_has. induction d as [|[k' v] r IH]; [reflexivity|].
  cbn [Py.dict_update Py.dict_get]. destruct (String.eqb k k') eqn:E; [reflexivity|].
  cbn [map fst]. rewrite IH. now destruct (Py.dict_get r k).
Qed.

Lemma dict_get_none_keys {V} (d : Py.dict V) (k : string) :
  Py.dict_get d k = None <-> ~ In k (map fst d).
Proof.
  induction d as [|[k' v] r IH]; cbn [Py.dict_get map fst In]; [tauto|].
  destruct (String.eqb k k') eqn:E.
  - apply String.eqb_eq in E. subst. split; [discriminate | intros H; exfalso; apply H; now left].
  - apply String.eqb_neq in E. rewrite IH. split; [intros H [Hk|Hk]; congruence | tauto].
Qed.

Lemma dict_update_nodup {V} (d : Py.dict V) (k : string) (dflt : V) (f : V -> V) :
  NoDup (map fst d) -> NoDup (map fst (Py.dict_update d k dflt f)).
Proof.
  intros Hn. rewrite dict_update_keys. unfold Py.dict_has.
  destruct (Py.dict_get d k) eqn:E; [exact Hn|].
  apply dict_get_none_keys in E.
  apply NoDup_app; [exact Hn | repeat constructor; intros [] |].
  intros x Hx [<-|[]]. contradiction.
Qed.

Lemma dict_in_get {V} (d : Py.dict V) (k : string) (v : V) :
  NoDup (map fst d) -> (In (k, v) d <-> Py.dict_get d k = Some v).
Proof.
  intros Hn. split; [|apply dict_get_in].
  induction d as [|[k' v'] r IH]; [intros []|].
  cbn [map fst] in Hn. inversion Hn as [|? ? Hk Hr]; subst.
  intros [H|H]; cbn [Py.dict_get].
  - injection H as -> ->. now rewrite String.eqb_refl.
  - destruct (String.eqb k k') eqn:E.
    + apply String.eqb_eq in E. subst. exfalso. apply Hk.
      apply in_map_iff. now exists (k', v).
    + now apply IH.
Qed.

Lemma dict_get_append {V} (d : Py.dict (list V)) (f : string -> list V) (k n : string) (x : V) :
  (forall n, Py.dict_get d n = grouped (f n)) ->
  Py.dict_get (Py.dict_append d k x) n
  = grouped (f n ++ (if String.eqb k n then [x] else [])).
Proof.
  intros Hd. unfold Py.dict_append. rewrite dict_get_update, (Hd k).
  rewrite (String.eqb_sym k n). destruct (String.eqb n k) eqn:E.
  - apply String.eqb_eq in E. subst n. destruct (f k); reflexivity.
  - rewrite app_nil_r. apply Hd.
Qed.

Lemma gate_nets_pins (r : string) (ps : list Pin) :
  forall (d : Py.dict (list string)) (f : string -> list string),
    NoDup (map fst d) ->
    (forall n, Py.dict_get d n = grouped (f n)) ->
    NoDup (map fst (fold_left (gate_nets_step r) ps d))
    /\ forall n,
         Py.dict_get (fold_left (gate_nets_step r) ps d) n
         = grouped (f n ++ flat_map (fun p => if gate_pin_on n p then [r] else []) ps).
Proof.
  induction ps as [|p ps IH]; intros d f Hn Hd; cbn [fold_left flat_map].
  - split; [exact Hn|]. intros n. now rewrite app_nil_r.
  - destruct (IH (gate_nets_step r d p)
                (fun n => f n ++ (if gate_pin_on n p then [r] else []))) as [IH1 IH2].
    + unfold gate_nets_step. destruct (net p); [|exact Hn].
      destruct (is_nc _); [exact Hn|]. destruct (Py.opt_eqb _ _); [|exact Hn].
      now apply dict_update_nodup.
    + intros n. unfold gate_nets_step, gate_pin_on.
      destruct (net p) as [m|]; [|now rewrite app_nil_r].
      destruct (is_nc (Some m)); [now rewrite andb_false_r, app_nil_r|].
      destruct (Py.opt_eqb (pin_role p) (Some "mosfet_gate"));
        [|now rewrite andb_false_r, app_nil_r].
      rewrite (dict_get_append d f m n r Hd), !andb_true_r. reflexivity.
    + split; [exact IH1|]. intros n. rewrite IH2, <- app_assoc. reflexivity.
Qed.

Lemma gate_nets_mosfets (ms : list Component) :
  forall (d : Py.dict (list string)) (f : string -> list string),
    NoDup (map fst d) ->
    (forall n, Py.dict_get d n = grouped (f n)) ->
    let d' := fold_left (fun g m => fold_left (gate_nets_step (ref m)) (pins m) g) ms d in
    NoDup (map fst d')
    /\ forall n,
         Py.dict_get d' n
         = grouped (f n ++ flat_map
                             (fun m => flat_map (fun p => if gate_pin_on n p then [ref m] else [])
                                         (pins m)) ms).
Proof.
  induction ms as [|m ms IH]; intros d f Hn Hd; cbn [fold_left flat_map].
  - split; [exact Hn|]. intros n. now rewrite app_nil_r.
  - destruct (gate_nets_pins (ref m) (pins m) d f Hn Hd) as [H1 H2].
    destruct (IH _ _ H1 H2) as [IH1 IH2]. split; [exact IH1|].
    intros n. cbn zeta in IH2. rewrite IH2, <- app_assoc. reflexivity.
Qed.

(** X4 (net_conflict_checker.check_mosfet_net_conflicts).  A gate-net
    warning is issued exactly for a net that carries more than two gate
    pins of MOSFET-like components; it is the gate pins that are counted,
    so that one MOSFET with three gate pins on a net is reported, and the
    message lists one reference per pin in snapshot order. *)
Theorem gate_net_warning_spec (snapshot : Snapshot) (m : string) :
  In m (check_mosfet_net_conflicts snapshot)
  <-> exists n,
        2 < length (gate_refs snapshot n)
        /\ m = ("GATE NET WARNING: Net '" ++ n ++ "' connects to "
                ++ Py.str_of_nat (length (gate_refs snapshot n))
                ++ " MOSFET gates: " ++ Py.repr_list (gate_refs snapshot n)
                ++ ". This may indicate unintended parallel "
                ++ "connection or " ++ "missing numeric suffix for multi-half-bridge design.")%string.
Proof.
  unfold check_mosfet_net_conflicts.
  destruct (gate_nets_mosfets (filter looks_like_mosfet (components snapshot)) []
              (fun _ => [])) as [Hn Hd]; [constructor | reflexivity|].
  cbn zeta in Hn, Hd. cbn [app] in Hd. fold (gate_refs snapshot) in Hd.
  rewrite in_flat_map. split.
  - intros ([n refs] & Hin & Hm). apply (dict_in_get _ _ _ Hn) in Hin.
    rewrite Hd in Hin. unfold gate_refs in Hin. fold (gate_refs snapshot n) in Hin.
    assert (Hrefs : refs = gate_refs snapshot n).
    { destruct (gate_refs snapshot n); [discriminate | now injection Hin]. }
    subst refs. unfold gate_warning in Hm.
    destruct (2 <? length (gate_refs snapshot n)) eqn:E; [|destruct Hm].
    apply Nat.ltb_lt in E. destruct Hm as [<-|[]]. now exists n.
  - intros (n & Hlen & ->). exists (n, gate_refs snapshot n). split.
    + apply (dict_in_get _ _ _ Hn). rewrite Hd.
      unfold gate_refs at 1. fold (gate_refs snapshot n).
      destruct (gate_refs snapshot n); [cbn in Hlen; lia | reflexivity].
    + unfold gate_warning. apply Nat.ltb_lt in Hlen. rewrite Hlen. now left.
Qed.

(* ================================================================== *)
(** ** The validator on the embedded stages (complex_task_validator.py) *)
(* ================================================================== *)

Lemma prefix_app (p a b : string) :
  String.prefix p a = true -> String.prefix p (a ++ b) = true.
Proof.
  revert a. induction p as [|c p IH]; intros a H; [now destruct (a ++ b)%string|].
  destruct a as [|c' a]; [discriminate|]. cbn [String.prefix append] in *.
  destruct (Ascii.ascii_dec c c'); [now apply IH | discriminate].
Qed.

Lemma contains_app (needle a b : string) :
  Py.contains needle a = true -> Py.contains needle (a ++ b) = true.
Proof.
  induction a as [|c a IH]; intros H.
  - cbn [Py.contains] in H. rewrite orb_false_r in H.
    destruct needle; [|discriminate]. now destruct b.
  - cbn [Py.contains append] in *. apply orb_true_iff in H. apply orb_true_iff.
    destruct H as [H|H].
    + left. now apply (prefix_app needle (String c a) b).
    + right. now apply IH.
Qed.

Lemma prefix_split (p s : string) :
  String.prefix p s = true -> exists rest, s = (p ++ rest)%string.
Proof.
  revert s. induction p as [|c p IH]; intros s H; [now exists s|].
  destruct s as [|c' s]; [discriminate|]. cbn [String.prefix] in H.
  destruct (Ascii.ascii_dec c c') as [<-|]; [|discriminate].
  destruct (IH s H) as [rest ->]. now exists rest.
Qed.

Lemma net_conflicts_are_warnings (snapshot : Snapshot) (kg_store : option KGStore)
  (e : string) :
  In e (check_net_conflicts snapshot kg_store) -> is_warning e = true.
Proof.
  intros Hin. unfold is_warning.
  destruct (net_conflict_messages snapshot kg_store e Hin) as [H|H];
    apply prefix_split in H; destruct H as [rest ->]; now apply contains_app.
Qed.

Lemma mosfet_net_conflicts_are_warnings (snapshot : Snapshot) (e : string) :
  In e (check_mosfet_net_conflicts snapshot) -> is_warning e = true.
Proof.
  unfold check_mosfet_net_conflicts. intros Hin. apply in_flat_map in Hin.
  destruct Hin as ([n refs] & _ & Hin). unfold gate_warning in Hin.
  destruct (2 <? length refs); [|destruct Hin]. destruct Hin as [<-|[]].
  unfold is_warning.
  apply (contains_app "WARNING" "GATE NET WARNING: Net '"). reflexivity.
Qed.

Lemma all_warnings (l : list string) :
  (forall e, In e l -> is_warning e = true) -> errors_only l = [] /\ warnings_only l = l.
Proof.
  intros H. unfold errors_only, warnings_only. induction l as [|e l IH]; [now split|].
  cbn [filter]. rewrite (H e (or_introl eq_refl)). cbn [negb].
  destruct IH as [IH1 IH2]; [intros x Hx; apply H; now right|].
  now rewrite IH1, IH2.
Qed.

(** X5 (complex_task_validator.validate_complex_task over the embedded
    stages).  A non-empty Phase 2 result is the whole answer.  Otherwise
    the errors are exactly the isolation-boundary, interface and system
    topology findings, in this order, and every finding of the two
    net-conflict checkers is a warning: a naming finding never fails a
    design. *)
Theorem validate_errors_and_warnings (snapshot : Snapshot) (task_id : Z)
  (kg_store : option KGStore) :
  validate snapshot task_id kg_store
  = match run_phase2_checks snapshot kg_store (Some task_id) with
    | _ :: _ => (false, run_phase2_checks snapshot kg_store (Some task_id), [])
    | [] =>
        let errors :=
          check_isolation_boundary_violations snapshot kg_store
          ++ check_interfaces snapshot kg_store
          ++ check_system_topology snapshot task_id kg_store in
        (passed_flag errors, errors,
         check_net_conflicts snapshot kg_store ++ check_mosfet_net_conflicts snapshot)
    end.
Proof.
  unfold validate, validate_complex_task. cbn [run stages stage_impl app].
  destruct (run_phase2_checks snapshot kg_store (Some task_id)) as [|e l] eqn:Ep.
  - cbn [run stages stage_impl app]. rewrite divert_warnings_split.
    cbn [run stages stage_impl app]. rewrite divert_warnings_split.
    destruct (all_warnings _ (net_conflicts_are_warnings snapshot kg_store)) as [-> ->].
    destruct (all_warnings _ (mosfet_net_conflicts_are_warnings snapshot)) as [-> ->].
    cbn [run]. rewrite !app_nil_r, <- !app_assoc. reflexivity.
  - reflexivity.
Qed.

(* ================================================================== *)
(** ** Component counts (system_topology_checker.py) *)
(* ================================================================== *)

Lemma mem_in (x : string) (l : list string) : Py.mem x l = true <-> In x l.
Proof.
  unfold Py.mem. rewrite existsb_exists. split.
  - intros (y & Hy & E). apply String.eqb_eq in E. now subst.
  - intros H. exists x. split; [exact H | apply String.eqb_refl].
Qed.

(** The classes of [_count_components] exclude one another, so the order
    of the [elif] chain decides nothing. *)
Lemma count_step_adds (c : Counts) (comp : Component) :
  count_step c comp = add_counts c (class_counts (part_id comp))
  /\ counted (class_counts (part_id comp)) <= 1.
Proof.
  unfold count_step, class_counts. cbv zeta beta. fold (is_mosfet_part (part_id comp)).
  generalize (part_id comp). intros p.
  assert (Hcases :
    In p (GATE_DRIVER_IDS ++ ISOLATED_SUPPLY_IDS ++ TRANSFORMER_IDS ++ FILM_CAP_IDS
          ++ POWER_INDUCTOR_IDS ++ GENERIC_INDUCTOR_IDS ++ ["C"; "R"])
    \/ (Py.mem p GATE_DRIVER_IDS = false /\ Py.mem p ISOLATED_SUPPLY_IDS = false
        /\ Py.mem p TRANSFORMER_IDS = false /\ Py.mem p FILM_CAP_IDS = false
        /\ Py.mem p POWER_INDUCTOR_IDS = false /\ Py.mem p GENERIC_INDUCTOR_IDS = false
        /\ String.eqb p "C" = false /\ String.eqb p "R" = false)).
  { destruct (Py.mem p (GATE_DRIVER_IDS ++ ISOLATED_SUPPLY_IDS ++ TRANSFORMER_IDS
                        ++ FILM_CAP_IDS ++ POWER_INDUCTOR_IDS ++ GENERIC_INDUCTOR_IDS
                        ++ ["C"; "R"])) eqn:E.
    - left. now apply mem_in.
    - right. unfold Py.mem in *. cbn [app GATE_DRIVER_IDS ISOLATED_SUPPLY_IDS TRANSFORMER_IDS
        FILM_CAP_IDS POWER_INDUCTOR_IDS GENERIC_INDUCTOR_IDS existsb] in *.
      repeat (apply orb_false_iff in E; destruct E as [? E]).
      repeat match goal with H : _ = false |- _ => rewrite H end. repeat split. }
  destruct Hcases as [Hin|(-> & -> & -> & -> & -> & -> & -> & ->)].
  - unfold GATE_DRIVER_IDS, ISOLATED_SUPPLY_IDS, TRANSFORMER_IDS, FILM_CAP_IDS,
      POWER_INDUCTOR_IDS, GENERIC_INDUCTOR_IDS in Hin. simpl in Hin.
    destruct c as [c1 c2 c3 c4 c5 c6 c7 c8 c9]. unfold add_counts, counted. cbn [n_mosfets n_gate_drivers n_isolated_supplies
      n_transformers n_film_caps n_power_inductors n_inductors n_caps n_resistors].
    repeat (destruct Hin as [<-|Hin];
            [repeat match goal with
                    | |- context [if ?b then _ else _] =>
                        let v := eval vm_compute in b in change b with v; cbv iota
                    end; split; [f_equal; lia | lia]|]).
    destruct Hin.
  - destruct c as [c1 c2 c3 c4 c5 c6 c7 c8 c9]. unfold add_counts, counted. cbn [n_mosfets n_gate_drivers n_isolated_supplies
      n_transformers n_film_caps n_power_inductors n_inductors n_caps n_resistors].
    destruct (is_mosfet_part p); split; try (f_equal; lia); lia.
Qed.

Lemma count_components_fold (comps : list Component) (f : Counts -> nat) (g : string -> bool) :
  (forall c comp, f (count_step c comp) = f c + (if g (part_id comp) then 1 else 0)) ->
  forall c,
    f (fold_left count_step comps c)
    = f c + length (filter (fun comp => g (part_id comp)) comps).
Proof.
  intros Hstep. induction comps as [|comp comps IH]; intros c; simpl.
  - lia.
  - rewrite IH, Hstep. destruct (g (part_id comp)); simpl; lia.
Qed.

Lemma count_components_total (comps : list Component) :
  forall c, counted (fold_left count_step comps c) <= counted c + length comps.
Proof.
  induction comps as [|comp comps IH]; intros c; cbn [fold_left length]; [lia|].
  specialize (IH (count_step c comp)).
  assert (Hstep : counted (count_step c comp) <= S (counted c)).
  { destruct (count_step_adds c comp) as [E Hle]. rewrite E.
    unfold counted, add_counts in *. cbn [n_mosfets n_gate_drivers n_isolated_supplies
      n_transformers n_film_caps n_power_inductors n_inductors n_caps n_resistors] in *. lia. }
  lia.
Qed.

(** X6 (system_topology_checker._count_components).  Each counter is the
    number of components of its class: the classes exclude one another, so
    that the order of the [elif] chain decides nothing, and no component is
    counted twice. *)
Theorem count_components_spec (snapshot : Snapshot) :
  let c := _count_components snapshot in
  n_mosfets c = count_parts is_mosfet_part snapshot
  /\ n_gate_drivers c = count_parts (fun p => Py.mem p GATE_DRIVER_IDS) snapshot
  /\ n_isolated_supplies c = count_parts (fun p => Py.mem p ISOLATED_SUPPLY_IDS) snapshot
  /\ n_transformers c = count_parts (fun p => Py.mem p TRANSFORMER_IDS) snapshot
  /\ n_film_caps c = count_parts (fun p => Py.mem p FILM_CAP_IDS) snapshot
  /\ n_power_inductors c = count_parts (fun p => Py.mem p POWER_INDUCTOR_IDS) snapshot
  /\ n_inductors c = count_parts (fun p => Py.mem p GENERIC_INDUCTOR_IDS) snapshot
  /\ n_caps c = count_parts (fun p => String.eqb p "C") snapshot
  /\ n_resistors c = count_parts (fun p => String.eqb p "R") snapshot
  /\ counted c <= length (components snapshot).
Proof.
  cbn zeta.
  assert (H : forall (f : Counts -> nat) (g : string -> bool),
             (forall c comp, f (count_step c comp) = f c + (if g (part_id comp) then 1 else 0)) ->
             f (mkCounts 0 0 0 0 0 0 0 0 0) = 0 ->
             f (_count_components snapshot) = count_parts g snapshot).
  { intros f g Hstep H0. unfold _count_components, count_parts.
    rewrite (count_components_fold _ f g Hstep). lia. }
  repeat split;
    try (apply H; [|reflexivity]; intros c comp;
         destruct (count_step_adds c comp) as [-> _]; reflexivity).
  exact (count_components_total (components snapshot) (mkCounts 0 0 0 0 0 0 0 0 0)).
Qed.

(* ================================================================== *)
(** ** Templates and the system stage (system_topology_checker.py) *)
(* ================================================================== *)

Lemma count_components_field (snapshot : Snapshot) (f : Counts -> nat) (g : string -> bool) :
  (forall c comp, f (count_step c comp) = f c + (if g (part_id comp) then 1 else 0)) ->
  f (mkCounts 0 0 0 0 0 0 0 0 0) = 0 ->
  f (_count_components snapshot) = count_parts g snapshot.
Proof.
  intros Hstep H0. unfold _count_components, count_parts.
  rewrite (count_components_fold _ f g Hstep). lia.
Qed.

Lemma get_task_template_some (task_id : Z) (template : Template) :
  get_task_template task_id = Some template -> In (task_id, template) TASK_TEMPLATES.
Proof.
  unfold get_task_template. destruct (find _ TASK_TEMPLATES) as [[t tpl]|] eqn:E; [|discriminate].
  intros H. injection H as <-. apply find_some in E. destruct E as [Hin Heq].
  cbn [fst] in Heq. apply Z.eqb_eq in Heq. now subst.
Qed.

(** X7 (system_topology_checker.check_system_topology,
    get_task_template).  Only the tasks 17 to 23 have a template; for any
    other task id the system stage reports nothing, whatever the design. *)
Theorem system_stage_only_for_templates (task_id : Z) :
  (is_complex_task task_id = true <-> (17 <= task_id <= 23)%Z)
  /\ (get_task_template task_id = None <-> ~ (17 <= task_id <= 23)%Z)
  /\ (forall snapshot kg_store,
        ~ (17 <= task_id <= 23)%Z -> check_system_topology snapshot task_id kg_store = []).
Proof.
  assert (Hnone : get_task_template task_id = None <-> ~ (17 <= task_id <= 23)%Z).
  { unfold get_task_template, TASK_TEMPLATES. cbn [find fst].
    repeat match goal with
           | |- context [Z.eqb ?a task_id] =>
               destruct (Z.eqb_spec a task_id); [subst; cbn; split; [discriminate | lia]|]
           end.
    cbn. split; [lia | reflexivity]. }
  split; [|split].
  - unfold is_complex_task, TASK_TEMPLATES. cbn [existsb fst].
    repeat match goal with
           | |- context [Z.eqb ?a task_id] =>
               destruct (Z.eqb_spec a task_id); [subst; cbn; split; [lia | reflexivity]|]
           end.
    cbn. split; [discriminate | lia].
  - exact Hnone.
  - intros snapshot kg_store H. apply Hnone in H. unfold check_system_topology. now rewrite H.
Qed.

(** X8 (system_topology_checker.check_system_topology).  A design that
    passes the system stage of a task has at least the template's numbers
    of MOSFETs, gate drivers and isolated supplies, the transformer, film
    capacitor and inductors the template requires, and passes the power
    topology test of the template. *)
Theorem system_stage_pass_needs_parts (snapshot : Snapshot) (task_id : Z)
  (kg_store : option KGStore) (template : Template) :
  get_task_template task_id = Some template ->
  check_system_topology snapshot task_id kg_store = [] ->
  min_mosfets template <= count_parts is_mosfet_part snapshot
  /\ min_gate_drivers template <= count_parts (fun p => Py.mem p GATE_DRIVER_IDS) snapshot
  /\ min_isolated_supplies template
     <= count_parts (fun p => Py.mem p ISOLATED_SUPPLY_IDS) snapshot
  /\ (requires_transformer template = true ->
      0 < count_parts (fun p => Py.mem p TRANSFORMER_IDS) snapshot)
  /\ (requires_resonant_cap template = true \/ requires_blocking_cap template = true ->
      0 < count_parts (fun p => Py.mem p FILM_CAP_IDS) snapshot)
  /\ (requires_resonant_inductor template = true ->
      0 < count_parts (fun p => Py.mem p POWER_INDUCTOR_IDS) snapshot
          + count_parts (fun p => Py.mem p GENERIC_INDUCTOR_IDS) snapshot)
  /\ (requires_inductor template = true ->
      0 < count_parts (fun p => Py.mem p POWER_INDUCTOR_IDS) snapshot)
  /\ min_output_caps template <= _count_output_caps snapshot
  /\ _check_vbus_decoupling snapshot task_id = []
  /\ _verify_power_topology snapshot (topology_type template) kg_store = [].
Proof.
  intros Ht Hpass. unfold check_system_topology in Hpass. rewrite Ht in Hpass.
  cbv zeta in Hpass.
  repeat match type of Hpass with
         | _ ++ _ = [] => apply app_eq_nil in Hpass; destruct Hpass as [? Hpass]
         end.
  assert (Hf : forall (f : Counts -> nat) (g : string -> bool),
             (forall c comp, f (count_step c comp)
                             = f c + (if g (part_id comp) then 1 else 0)) ->
             f (mkCounts 0 0 0 0 0 0 0 0 0) = 0 ->
             count_parts g snapshot = f (_count_components snapshot)).
  { intros f g Hs1 Hs2. symmetry. now apply count_components_field. }
  rewrite (Hf n_mosfets is_mosfet_part), (Hf n_gate_drivers (fun p => Py.mem p GATE_DRIVER_IDS)),
    (Hf n_isolated_supplies (fun p => Py.mem p ISOLATED_SUPPLY_IDS)),
    (Hf n_transformers (fun p => Py.mem p TRANSFORMER_IDS)),
    (Hf n_film_caps (fun p => Py.mem p FILM_CAP_IDS)),
    (Hf n_power_inductors (fun p => Py.mem p POWER_INDUCTOR_IDS)),
    (Hf n_inductors (fun p => Py.mem p GENERIC_INDUCTOR_IDS));
    try reflexivity;
    try (intros c comp; destruct (count_step_adds c comp) as [-> _]; reflexivity).
  unfold _check_component_counts in *.
  repeat match goal with
         | H : _ ++ _ = [] |- _ => apply app_eq_nil in H; destruct H
         end.
  repeat match goal with
         | H : (if ?c then _ :: _ else []) = [] |- _ =>
             destruct c eqn:?; [discriminate H | clear H]
         end.
  repeat match goal with
         | H : (_ <? _) = false |- _ => apply Nat.ltb_ge in H
         | H : _ && _ = false |- _ => apply andb_false_iff in H
         end.
  assert (Hcaps : min_output_caps template <= _count_output_caps snapshot).
  { match goal with
    | H : (if 0 <? min_output_caps template then _ else _) = [] |- _ =>
        destruct (0 <? min_output_caps template) eqn:E0;
        [destruct (_count_output_caps snapshot <? min_output_caps template) eqn:E1;
         [discriminate H | now apply Nat.ltb_ge in E1]
        | apply Nat.ltb_ge in E0; lia]
    end. }
  assert (Hpower : _verify_power_topology snapshot (topology_type template) kg_store = []).
  { apply get_task_template_some in Ht. unfold TASK_TEMPLATES in Ht. cbn [In] in Ht.
    repeat (destruct Ht as [Ht|Ht]; [injection Ht as <- <-; exact Hpass|]). destruct Ht. }
  repeat split; try assumption; try lia.
  all: intros; repeat match goal with
         | H : _ \/ _ |- _ => destruct H
         | H : _ && _ = false |- _ => apply andb_false_iff in H
         | H : (_ =? 0) = false |- _ => apply Nat.eqb_neq in H
         end; try lia; try congruence.
Qed.

Lemma system_stage_pass_needs_parts_witness :
  check_system_topology Samples.full_bridge_snapshot 23%Z None = []
  /\ 4 <= count_parts is_mosfet_part Samples.full_bridge_snapshot.
Proof.
  assert (Hpass : check_system_topology Samples.full_bridge_snapshot 23%Z None = [])
    by (vm_compute; reflexivity).
  split; [exact Hpass|].
  exact (proj1 (system_stage_pass_needs_parts Samples.full_bridge_snapshot 23%Z None
                  (mkTemplate "Single-Phase Grid Inverter" 4 4 2 false 0 false false false false
                     "1ph_fullbridge") eq_refl Hpass)).
Defined.

(* ================================================================== *)
(** ** Half bridges (system_topology_checker.py) *)
(* ================================================================== *)

Lemma fold_left_pairs {S A B} (f : A -> S -> B -> S) (la : list A) (lb : list B) :
  forall st,
    fold_left (fun st a => fold_left (f a) lb st) la st
    = fold_left (fun st ab => f (fst ab) st (snd ab)) (list_prod la lb) st.
Proof.
  induction la as [|a la IH]; intros st; [reflexivity|].
  cbn [fold_left list_prod]. rewrite fold_left_app, IH. f_equal.
  clear IH. revert st. induction lb as [|b lb IHb]; intros st; [reflexivity|].
  cbn [map fold_left fst snd]. apply IHb.
Qed.

Lemma half_bridge_pick_score (v : string) (hs_ ls_ : Info) (st : option HalfBridge * Z) :
  half_bridge_pick v hs_ st ls_
  = match pair_score hs_ ls_ with
    | Some score =>
        if (snd st <? score)%Z
        then (Some (mkHalfBridge v hs_ ls_
                      (Py.or_empty (info_get_str hs_ "drain_net"))
                      (Py.or_empty (info_get_str ls_ "source_net"))), score)
        else st
    | None => st
    end.
Proof.
  unfold half_bridge_pick, pair_score.
  destruct (Py.opt_eqb _ _); [reflexivity|].
  destruct (info_get_str hs_ "drain_net") as [bus_|]; [|reflexivity].
  destruct (info_get_str ls_ "source_net") as [gnd_|]; [|reflexivity].
  destruct (negb _ || negb _); reflexivity.
Qed.

Lemma half_bridge_score_nonneg (bus_ gnd_ : string) : (0 <= half_bridge_score bus_ gnd_)%Z.
Proof.
  unfold half_bridge_score.
  destruct (_is_ground_net (Some gnd_)), (negb (_is_ground_net (Some bus_))),
    (_is_input_supply_net (Some bus_)); lia.
Qed.

Lemma pair_score_some (hs_ ls_ : Info) (score : Z) :
  pair_score hs_ ls_ = Some score ->
  Py.opt_eqb (info_get hs_ "ref") (info_get ls_ "ref") = false
  /\ Py.truthy (info_get_str hs_ "drain_net") = true
  /\ Py.truthy (info_get_str ls_ "source_net") = true
  /\ score = half_bridge_score (Py.or_empty (info_get_str hs_ "drain_net"))
               (Py.or_empty (info_get_str ls_ "source_net"))
  /\ (0 <= score)%Z.
Proof.
  unfold pair_score. destruct (Py.opt_eqb _ _); [discriminate|].
  destruct (info_get_str hs_ "drain_net") as [bus_|]; [|discriminate].
  destruct (info_get_str ls_ "source_net") as [gnd_|]; [|discriminate].
  destruct (Py.truthy (Some bus_)) eqn:Eb; [|discriminate].
  destruct (Py.truthy (Some gnd_)) eqn:Eg; [|discriminate].
  cbn [negb orb Py.or_empty]. intros H. injection H as <-.
  repeat split; auto. apply half_bridge_score_nonneg.
Qed.

(** The invariant of the double loop: [best] is a pair already seen, its
    score is the running maximum, and nothing seen scores higher. *)
Lemma half_bridge_fold (v : string) (pairs : list (Info * Info)) :
  forall (done : list (Info * Info)) (st : option HalfBridge * Z),
    (match fst st with
     | Some b =>
         In (hs b, ls b) done /\ pair_score (hs b) (ls b) = Some (snd st) /\ vsw b = v
         /\ hb_bus b = Py.or_empty (info_get_str (hs b) "drain_net")
         /\ hb_gnd b = Py.or_empty (info_get_str (ls b) "source_net")
     | None => snd st = (-1)%Z
     end) ->
    (forall p score, In p done -> pair_score (fst p) (snd p) = Some score ->
                     (score <= snd st)%Z) ->
    let st' := fold_left (fun st ab => half_bridge_pick v (fst ab) st (snd ab)) pairs st in
    (match fst st' with
     | Some b =>
         In (hs b, ls b) (done ++ pairs) /\ pair_score (hs b) (ls b) = Some (snd st')
         /\ vsw b = v
         /\ hb_bus b = Py.or_empty (info_get_str (hs b) "drain_net")
         /\ hb_gnd b = Py.or_empty (info_get_str (ls b) "source_net")
     | None => snd st' = (-1)%Z
     end)
    /\ (forall p score, In p (done ++ pairs) -> pair_score (fst p) (snd p) = Some score ->
                        (score <= snd st')%Z).
Proof.
  induction pairs as [|[h l] pairs IH]; intros done st Hbest Hmax; cbn [fold_left].
  - cbn zeta. rewrite app_nil_r. now split.
  - cbn zeta. cbn [fst snd].
    replace (done ++ (h, l) :: pairs) with ((done ++ [(h, l)]) ++ pairs)
      by (now rewrite <- app_assoc).
    apply IH; rewrite half_bridge_pick_score.
    + destruct (pair_score h l) as [score|] eqn:Es.
      * destruct (snd st <? score)%Z eqn:Elt.
        -- cbn [fst snd hs ls vsw hb_bus hb_gnd]. repeat split; auto.
           apply in_or_app. right. now left.
        -- destruct (fst st) as [b|]; [|exact Hbest].
           destruct Hbest as (Hin & Hrest). split; [|exact Hrest].
           apply in_or_app. now left.
      * destruct (fst st) as [b|]; [|exact Hbest].
        destruct Hbest as (Hin & Hrest). split; [|exact Hrest].
        apply in_or_app. now left.
    + intros p score Hp Hscore. apply in_app_or in Hp.
      destruct (pair_score h l) as [score0|] eqn:Es.
      * destruct (snd st <? score0)%Z eqn:Elt; cbn [snd].
        -- apply Z.ltb_lt in Elt. destruct Hp as [Hp|[<-|[]]].
           ++ specialize (Hmax p score Hp Hscore). lia.
           ++ cbn [fst snd] in Hscore. rewrite Es in Hscore. injection Hscore as <-. lia.
        -- apply Z.ltb_ge in Elt. destruct Hp as [Hp|[<-|[]]].
           ++ now apply (Hmax p).
           ++ cbn [fst snd] in Hscore. rewrite Es in Hscore. injection Hscore as <-. lia.
      * destruct Hp as [Hp|[<-|[]]].
        -- now apply (Hmax p).
        -- cbn [fst snd] in Hscore. congruence.
Qed.

(** X9 (system_topology_checker._infer_half_bridge_on_vsw).  A half
    bridge that is returned is made of two distinct MOSFETs of the list,
    the high side with its source and the low side with its drain on the
    switch node; its bus and ground are the named drain and source nets of
    the two; no other pair of candidates scores higher; and it comes
    without errors exactly when its ground looks like a ground net. *)
Theorem infer_half_bridge_sound (mosfets_ : list Info) (vsw_net : option string)
  (b : HalfBridge) (errors : list string) :
  _infer_half_bridge_on_vsw mosfets_ vsw_net = (Some b, errors) ->
  vsw_net = Some (vsw b)
  /\ In (hs b) mosfets_ /\ In (ls b) mosfets_
  /\ hs_candidate (vsw b) (hs b) = true /\ ls_candidate (vsw b) (ls b) = true
  /\ Py.opt_eqb (info_get (hs b) "ref") (info_get (ls b) "ref") = false
  /\ info_get (hs b) "drain_net" = Some (hb_bus b) /\ hb_bus b <> EmptyString
  /\ info_get (ls b) "source_net" = Some (hb_gnd b) /\ hb_gnd b <> EmptyString
  /\ (forall h l score,
        In h mosfets_ -> In l mosfets_ ->
        hs_candidate (vsw b) h = true -> ls_candidate (vsw b) l = true ->
        pair_score h l = Some score ->
        (score <= half_bridge_score (hb_bus b) (hb_gnd b))%Z)
  /\ (errors = [] <-> _is_ground_net (Some (hb_gnd b)) = true).
Proof.
  unfold _infer_half_bridge_on_vsw. destruct vsw_net as [v|]; [|discriminate].
  destruct (negb (Py.truthy (Some v))); [discriminate|].
  fold (hs_candidate v) (ls_candidate v).
  set (hss := filter (hs_candidate v) mosfets_).
  set (lss := filter (ls_candidate v) mosfets_).
  intros H.
  assert (Hfold :
    fst (fold_left (fun st hs_ => fold_left (half_bridge_pick v hs_) lss st) hss
           (None, (-1)%Z)) = Some b
    /\ (errors = [] <-> _is_ground_net (Some (hb_gnd b)) = true)).
  { destruct hss as [|h0 hss']; [discriminate|]. destruct lss as [|l0 lss']; [discriminate|].
    destruct (fold_left _ (h0 :: hss') _) as [best sc]. cbn [fst].
    destruct best as [b0|]; [|discriminate].
    destruct (_is_ground_net (Some (hb_gnd b0))) eqn:Eg; cbn [negb] in H;
      injection H as -> <-; (split; [reflexivity|]); rewrite Eg;
      split; intros Hx; try reflexivity; discriminate Hx. }
  clear H. destruct Hfold as [Hfold Herr].
  rewrite fold_left_pairs in Hfold.
  destruct (half_bridge_fold v (list_prod hss lss) [] (None, (-1)%Z) eq_refl)
    as [Hbest Hmax]; [intros p score []|].
  cbn zeta in Hbest, Hmax. cbn [app] in Hbest, Hmax. rewrite Hfold in Hbest.
  destruct Hbest as (Hin & Hscore & Hv & Hbus & Hgnd).
  apply in_prod_iff in Hin. destruct Hin as [Hh Hl].
  apply filter_In in Hh. apply filter_In in Hl.
  destruct Hh as [Hh Hhc]. destruct Hl as [Hl Hlc]. subst v.
  pose proof (pair_score_some _ _ _ Hscore) as (Href & Hbt & Hgt & Hsc & _).
  assert (Hd : info_get (hs b) "drain_net" = Some (hb_bus b) /\ hb_bus b <> EmptyString).
  { unfold hs_candidate in Hhc. apply andb_true_iff in Hhc. destruct Hhc as [_ Ht].
    rewrite Hbus. unfold info_get, info_get_str in *.
    destruct (Py.dict_get (hs b) "drain_net") as [[d|]|]; try discriminate Ht.
    destruct d; [discriminate Ht|]. cbn [Py.or_empty]. split; [reflexivity | discriminate]. }
  assert (Hs : info_get (ls b) "source_net" = Some (hb_gnd b) /\ hb_gnd b <> EmptyString).
  { unfold ls_candidate in Hlc. apply andb_true_iff in Hlc. destruct Hlc as [_ Ht].
    rewrite Hgnd. unfold info_get, info_get_str in *.
    destruct (Py.dict_get (ls b) "source_net") as [[d|]|]; try discriminate Ht.
    destruct d; [discriminate Ht|]. cbn [Py.or_empty]. split; [reflexivity | discriminate]. }
  repeat split; try tauto; try assumption.
  intros h l score Hh' Hl' Hhc' Hlc' Hscore'.
  rewrite Hbus, Hgnd, <- Hsc.
  apply (Hmax (h, l) score); [|exact Hscore'].
  apply in_prod_iff. split; apply filter_In; split; assumption.
Qed.

Lemma infer_half_bridge_sound_witness :
  exists b,
    _infer_half_bridge_on_vsw
      (mosfets (_build_power_graph Samples.full_bridge_snapshot None)) (Some "VSW_1")
    = (Some b, [])
    /\ vsw b = "VSW_1" /\ hb_bus b = "VIN" /\ hb_gnd b = "GND"
    /\ In (hs b) (mosfets (_build_power_graph Samples.full_bridge_snapshot None)).
Proof.
  assert (E : { b | _infer_half_bridge_on_vsw
                      (mosfets (_build_power_graph Samples.full_bridge_snapshot None))
                      (Some "VSW_1") = (Some b, [])
                    /\ vsw b = "VSW_1" /\ hb_bus b = "VIN" /\ hb_gnd b = "GND" }).
  { eexists. repeat split; lazy; reflexivity. }
  destruct E as [b (E & E1 & E2 & E3)]. exists b. repeat split; try assumption.
  exact (proj1 (proj2 (infer_half_bridge_sound _ _ _ _ E))).
Defined.

(* ================================================================== *)
(** ** Connection through passives (system_topology_checker.py) *)
(* ================================================================== *)

Lemma truthy_some (o : option string) :
  Py.truthy o = true <-> exists s, o = Some s /\ s <> EmptyString.
Proof.
  split.
  - destruct o as [[|c s]|]; try discriminate. intros _. now eexists.
  - intros (s & -> & Hs). destruct s; [contradiction | reflexivity].
Qed.

Lemma walk_app (g : PassiveGraph) (a b c : string) (es1 es2 : list Edge) :
  walk g a es1 b -> walk g b es2 c -> walk g a (es1 ++ es2) c.
Proof.
  induction 1 as [a|a e es b Hin _ IH]; intros H2; [exact H2|].
  cbn [app]. constructor; [exact Hin | now apply IH].
Qed.

Lemma passive_graph_symmetric (snapshot : Snapshot) (allowed_parts : list string)
  (a : string) (e : Edge) :
  In e (adjacent (_build_passive_net_graph snapshot allowed_parts) a) ->
  In (a, edge_part e, snd e)
    (adjacent (_build_passive_net_graph snapshot allowed_parts) (edge_net e)).
Proof.
  rewrite !build_passive_net_graph_adjacent.
  intros (comp & b & Hcomp & Hmem & -> & Ha & Hb & Hab & Hterm).
  cbn [edge_part edge_net fst snd]. exists comp, a. repeat split; auto. tauto.
Qed.

Lemma walk_reverse (snapshot : Snapshot) (allowed_parts : list string) (a b : string)
  (es : list Edge) :
  walk (_build_passive_net_graph snapshot allowed_parts) a es b ->
  exists es', walk (_build_passive_net_graph snapshot allowed_parts) b es' a.
Proof.
  induction 1 as [a|a e es b Hin _ [es' IH]]; [exists []; constructor|].
  exists (es' ++ [(a, edge_part e, snd e)]).
  change a with (edge_net (a, edge_part e, snd e)) at 2.
  apply (walk_snoc _ _ _ _ _ IH). now apply passive_graph_symmetric.
Qed.

Lemma nets_connected_via_spec (snapshot : Snapshot) (allowed_parts : list string)
  (a b : option string) :
  _nets_connected_via snapshot a b allowed_parts = true
  <-> exists x y es,
        a = Some x /\ b = Some y /\ x <> EmptyString /\ y <> EmptyString
        /\ walk (_build_passive_net_graph snapshot allowed_parts) x es y.
Proof.
  unfold _nets_connected_via.
  destruct (Py.truthy a) eqn:Ea.
  2:{ cbn [negb orb]. split; [discriminate|]. intros (x & y & es & -> & -> & Hx & _).
      destruct x; [contradiction | discriminate]. }
  destruct (Py.truthy b) eqn:Eb.
  2:{ cbn [negb orb]. split; [discriminate|]. intros (x & y & es & -> & -> & _ & Hy & _).
      destruct y; [contradiction | discriminate]. }
  apply truthy_some in Ea. apply truthy_some in Eb.
  destruct Ea as (x & -> & Hx). destruct Eb as (y & -> & Hy). cbn [negb orb Py.opt_eqb].
  destruct (String.eqb x y) eqn:E.
  - apply String.eqb_eq in E. subst y. split; [|reflexivity]. intros _.
    exists x, x, []. repeat split; auto. constructor.
  - apply String.eqb_neq in E. rewrite (path_exists_spec _ _ _ _ _ _ Hx Hy E). split.
    + intros (es & _ & Hw & _). exists x, y, es. repeat split; auto.
    + intros (x' & y' & es & Hx' & Hy' & _ & _ & Hw).
      injection Hx' as <-. injection Hy' as <-. exists es. repeat split; try discriminate; auto.
      intros ->. inversion Hw. contradiction.
Qed.

(** X10 (system_topology_checker._nets_connected_via).  Connection through
    the allowed passives is an equivalence on the named nets: a named net
    is connected to itself, the test does not depend on the order of its
    two nets, and connections chain. *)
Theorem nets_connected_via_equivalence (snapshot : Snapshot) (allowed_parts : list string) :
  (forall a, Py.truthy a = true -> _nets_connected_via snapshot a a allowed_parts = true)
  /\ (forall a b,
        _nets_connected_via snapshot a b allowed_parts
        = _nets_connected_via snapshot b a allowed_parts)
  /\ (forall a b c,
        _nets_connected_via snapshot a b allowed_parts = true ->
        _nets_connected_via snapshot b c allowed_parts = true ->
        _nets_connected_via snapshot a c allowed_parts = true).
Proof.
  assert (Hsym : forall a b,
             _nets_connected_via snapshot a b allowed_parts = true ->
             _nets_connected_via snapshot b a allowed_parts = true).
  { intros a b H. apply nets_connected_via_spec in H. apply nets_connected_via_spec.
    destruct H as (x & y & es & -> & -> & Hx & Hy & Hw).
    destruct (walk_reverse _ _ _ _ _ Hw) as [es' Hw'].
    exists y, x, es'. repeat split; auto. }
  split; [|split].
  - intros a Ha. apply truthy_some in Ha. destruct Ha as (x & -> & Hx).
    apply nets_connected_via_spec. exists x, x, []. repeat split; auto. constructor.
  - intros a b.
    destruct (_nets_connected_via snapshot a b allowed_parts) eqn:E1,
             (_nets_connected_via snapshot b a allowed_parts) eqn:E2; try reflexivity.
    + apply Hsym in E1. congruence.
    + apply Hsym in E2. congruence.
  - intros a b c H1 H2. apply nets_connected_via_spec in H1, H2.
    apply nets_connected_via_spec.
    destruct H1 as (x & y & es1 & -> & -> & Hx & Hy & Hw1).
    destruct H2 as (y' & z & es2 & Hy' & -> & _ & Hz & Hw2). injection Hy' as <-.
    exists x, z, (es1 ++ es2). repeat split; auto. now apply walk_app with (b := y).
Qed.

(* ================================================================== *)
(** ** Terminals of two-pin parts (system_topology_checker.py) *)
(* ================================================================== *)

Lemma distinct_pin_nets_in (comp : Component) (n : string) :
  In n (distinct_pin_nets comp) <-> connected_net comp n.
Proof.
  unfold distinct_pin_nets, connected_net.
  rewrite (fold_collects _ (fun l => l)
             (fun p n => net p = Some n /\ unconnected (Some n) = false)).
  - split; [intros [[]|H]; exact H | now right].
  - intros st p x. destruct (net p) as [m|]; [|intuition congruence].
    destruct (unconnected (Some m)) eqn:Eu; [intuition congruence|].
    destruct (Py.mem m st) eqn:Em.
    + apply mem_in in Em. split; [now left|]. intros [H|[H _]]; [exact H | congruence].
    + rewrite in_app_iff. cbn [In]. split.
      * intros [H|[<-|[]]]; [now left | right; auto].
      * intros [H|[H _]]; [now left | right; left; congruence].
Qed.

Lemma distinct_pin_nets_nodup (comp : Component) : NoDup (distinct_pin_nets comp).
Proof.
  unfold distinct_pin_nets.
  assert (H : forall ps st,
             NoDup st ->
             NoDup (fold_left
                      (fun nets_ p =>
                         match net p with
                         | Some n => if unconnected (Some n) then nets_
                                     else if Py.mem n nets_ then nets_ else nets_ ++ [n]
                         | None => nets_
                         end) ps st)).
  { induction ps as [|p ps IH]; intros st Hn; [exact Hn|].
    cbn [fold_left]. apply IH. destruct (net p) as [m|]; [|exact Hn].
    destruct (unconnected (Some m)); [exact Hn|].
    destruct (Py.mem m st) eqn:Em; [exact Hn|].
    apply NoDup_app; [exact Hn | repeat constructor; intros [] |].
    intros x Hx [<-|[]]. apply mem_in in Hx. congruence. }
  apply H. constructor.
Qed.

(** X11 (system_topology_checker._extract_two_terminal_nets).  The two
    terminals are two different connected nets of the part, or both are
    missing, which happens exactly when the part has fewer than two
    different connected nets; never is one terminal present alone. *)
Theorem extract_two_terminal_nets_spec (comp : Component) :
  match _extract_two_terminal_nets comp with
  | (Some a, Some b) => a <> b /\ connected_net comp a /\ connected_net comp b
  | (None, None) => forall a b, connected_net comp a -> connected_net comp b -> a = b
  | _ => False
  end.
Proof.
  unfold _extract_two_terminal_nets.
  pose proof (distinct_pin_nets_nodup comp) as Hn.
  pose proof (distinct_pin_nets_in comp) as Hin.
  destruct (distinct_pin_nets comp) as [|a [|b rest]].
  - intros a b Ha _. apply Hin in Ha. destruct Ha.
  - intros x y Hx Hy. apply Hin in Hx, Hy.
    destruct Hx as [<-|[]]. destruct Hy as [<-|[]]. reflexivity.
  - split.
    + intros ->. inversion Hn as [|? ? Hnot _]. apply Hnot. now left.
    + split; apply Hin; [now left | right; now left].
Qed.

(* ================================================================== *)
(** ** Several half bridges on one bus (system_topology_checker.py) *)
(* ================================================================== *)

Lemma multi_half_bridge_fold (mosfets_ : list Info) (vsw_nets : list (option string)) :
  forall st,
    fold_left (multi_half_bridge_step mosfets_) vsw_nets st
    = (fst st ++ flat_map (fun v => match fst (_infer_half_bridge_on_vsw mosfets_ v) with
                                    | Some b => [b]
                                    | None => []
                                    end) vsw_nets,
       snd st ++ flat_map (fun v => match snd (_infer_half_bridge_on_vsw mosfets_ v) with
                                    | [] => []
                                    | hb_errs =>
                                        [(str_of_option v ++ ": "
                                          ++ String.concat "; " hb_errs)%string]
                                    end) vsw_nets).
Proof.
  induction vsw_nets as [|v vs IH]; intros [hbs errs]; cbn [fold_left flat_map fst snd].
  - now rewrite !app_nil_r.
  - rewrite IH. unfold multi_half_bridge_step.
    destruct (_infer_half_bridge_on_vsw mosfets_ v) as [[b|] [|e es]];
      cbn [fst snd app]; rewrite <- ?app_assoc, ?app_nil_r; reflexivity.
Qed.

Lemma found_all {A B} (f : A -> option B) (l : list A) :
  length (flat_map (fun v => match f v with Some b => [b] | None => [] end) l) <= length l
  /\ (length (flat_map (fun v => match f v with Some b => [b] | None => [] end) l) = length l ->
      forall v, In v l ->
        exists b, f v = Some b
                  /\ In b (flat_map (fun v => match f v with Some b => [b] | None => [] end) l))
  /\ (length (flat_map (fun v => match f v with Some b => [b] | None => [] end) l) <> length l ->
      exists v, In v l /\ f v = None).
Proof.
  induction l as [|a l (IH1 & IH2 & IH3)]; simpl.
  - split; [lia|]. split; [intros _ v [] | intros H; now contradiction H].
  - destruct (f a) as [b|] eqn:E; simpl.
    + split; [lia|]. split.
      * intros Hlen v [<-|Hv].
        -- exists b. split; [exact E | now left].
        -- destruct (IH2 (eq_add_S _ _ Hlen) v Hv) as (b' & Hb' & Hin).
           exists b'. split; [exact Hb' | now right].
      * intros Hlen. destruct IH3 as (v & Hv & Hnone); [lia|].
        exists v. split; [now right | exact Hnone].
    + split; [lia|]. split; [lia|]. intros _. exists a. split; [now left | exact E].
Qed.

Lemma flat_map_nil {A B} (f : A -> list B) (l : list A) :
  flat_map f l = [] <-> forall x, In x l -> f x = [].
Proof.
  induction l as [|a l IH]; cbn [flat_map]; [split; [intros _ x [] | reflexivity]|].
  split.
  - intros H. apply app_eq_nil in H. destruct H as [Ha Hl].
    intros x [<-|Hx]; [exact Ha | now apply IH].
  - intros H. rewrite (H a (or_introl eq_refl)). apply IH. intros x Hx. apply H. now right.
Qed.

(** X12 (system_topology_checker._infer_multi_half_bridges).  The function
    raises exactly on an empty list of switch nodes.  A result without
    errors means that every switch node has an error-free half bridge and
    that all of them sit on the returned bus and ground, the bus looking
    like an input supply when that is asked for; a result without a bridge
    always carries an error. *)
Theorem infer_multi_half_bridges_spec (mosfets_ : list Info)
  (vsw_nets : list (option string)) (require_input_bus : bool) :
  (_infer_multi_half_bridges mosfets_ vsw_nets require_input_bus = None <-> vsw_nets = [])
  /\ (forall bus_ gnd_,
        _infer_multi_half_bridges mosfets_ vsw_nets require_input_bus
        = Some (Some (bus_, gnd_), []) ->
        (forall v, In v vsw_nets ->
           exists b, _infer_half_bridge_on_vsw mosfets_ v = (Some b, [])
                     /\ hb_bus b = bus_ /\ hb_gnd b = gnd_)
        /\ (require_input_bus = true -> _is_input_supply_net (Some bus_) = true))
  /\ (forall errors,
        _infer_multi_half_bridges mosfets_ vsw_nets require_input_bus = Some (None, errors) ->
        errors <> []).
Proof.
  unfold _infer_multi_half_bridges. rewrite multi_half_bridge_fold. cbn [fst snd Datatypes.app].
  pose (f := fun v => fst (_infer_half_bridge_on_vsw mosfets_ v)).
  destruct (found_all f vsw_nets) as (Hle & Hall & Hmiss). unfold f in Hle, Hall, Hmiss.
  set (hbs := flat_map (fun v => match fst (_infer_half_bridge_on_vsw mosfets_ v) with
                                 | Some b => [b]
                                 | None => []
                                 end) vsw_nets) in *.
  set (errs := flat_map _ vsw_nets).
  destruct (length hbs =? length vsw_nets) eqn:Elen; cbn [negb].
  - apply Nat.eqb_eq in Elen. specialize (Hall Elen).
    destruct hbs as [|first rest] eqn:Ehbs.
    + split; [split; [intros _ | reflexivity]|split; [discriminate | discriminate]].
      destruct vsw_nets; [reflexivity | discriminate Elen].
    + split; [split; [discriminate | intros ->; discriminate Elen]|].
      split; [|discriminate].
      intros bus_ gnd_ H.
      assert (Hbus : hb_bus first = bus_) by congruence.
      assert (Hgnd : hb_gnd first = gnd_) by congruence.
      assert (Herrs' : errs = []
                       /\ flat_map
                            (fun b =>
                               if negb (String.eqb (hb_bus b) (hb_bus first))
                                  || negb (String.eqb (hb_gnd b) (hb_gnd first))
                               then [("half-bridges do not share common bus/gnd (expected "
                                      ++ hb_bus first ++ "/" ++ hb_gnd first ++ ", got "
                                      ++ hb_bus b ++ "/" ++ hb_gnd b ++ ")")%string]
                               else []) rest = []
                       /\ (require_input_bus = true ->
                           _is_input_supply_net (Some (hb_bus first)) = true)).
      { match type of H with
        | Some (_, ?X) = _ => assert (Herrs : X = []) by congruence
        end.
        clear H.
        destruct (require_input_bus && negb (_is_input_supply_net (Some (hb_bus first))))
          eqn:Erib.
        - apply app_eq_nil in Herrs. destruct Herrs as [_ Herrs]. discriminate Herrs.
        - apply app_eq_nil in Herrs. destruct Herrs as [He Hr]. repeat split; auto.
          intros ->. cbn [andb] in Erib. now apply negb_false_iff in Erib. }
      destruct Herrs' as (He & Hrest & Hin). split; [|now rewrite <- Hbus].
      intros v Hv. destruct (Hall v Hv) as (b & Hb & Hbin).
      unfold f in Hb. exists b.
      unfold errs in He. rewrite flat_map_nil in He. specialize (He v Hv).
      destruct (_infer_half_bridge_on_vsw mosfets_ v) as [ob hb_errs].
      cbn [fst snd] in Hb, He. subst ob.
      destruct hb_errs; [|discriminate He]. split; [reflexivity|].
      destruct Hbin as [<-|Hbin]; [now split|].
      rewrite flat_map_nil in Hrest. specialize (Hrest b Hbin).
      destruct (String.eqb (hb_bus b) (hb_bus first)) eqn:E1;
        destruct (String.eqb (hb_gnd b) (hb_gnd first)) eqn:E2; try discriminate Hrest.
      apply String.eqb_eq in E1, E2. split; congruence.
  - apply Nat.eqb_neq in Elen. split; [|split].
    + split; [discriminate|]. intros ->. now contradiction Elen.
    + discriminate.
    + intros errors H. injection H as <-. destruct (Hmiss Elen) as (v & Hv & Hnone).
      unfold f in Hnone. apply infer_half_bridge_none in Hnone.
      intros He. unfold errs in He. rewrite flat_map_nil in He. specialize (He v Hv).
      destruct (snd (_infer_half_bridge_on_vsw mosfets_ v)); [now apply Hnone | discriminate He].
Qed.

(* ================================================================== *)
(** ** The synchronous buck template (system_topology_checker.py) *)
(* ================================================================== *)

Lemma opt_eqb_eq (a b : option string) : Py.opt_eqb a b = true <-> a = b.
Proof.
  destruct a as [x|], b as [y|]; cbn [Py.opt_eqb]; try (split; (discriminate || reflexivity)).
  rewrite String.eqb_eq. split; congruence.
Qed.

Lemma buck_pick_fold (vsw_net : string) (ms : list Info) :
  forall st,
    (forall m, fst st = Some m -> info_get m "source_net" = Some vsw_net) ->
    (forall m, snd st = Some m ->
               info_get m "drain_net" = Some vsw_net
               /\ info_get m "source_net" <> Some vsw_net) ->
    let st' := fold_left (buck_pick vsw_net) ms st in
    (forall m, fst st' = Some m ->
               (fst st = Some m \/ In m ms) /\ info_get m "source_net" = Some vsw_net)
    /\ (forall m, snd st' = Some m ->
                  (snd st = Some m \/ In m ms)
                  /\ info_get m "drain_net" = Some vsw_net
                  /\ info_get m "source_net" <> Some vsw_net).
Proof.
  induction ms as [|m0 ms IH]; intros st Hf Hs; cbn [fold_left]; cbn zeta.
  - split; intros m Hm; [split; [now left | now apply Hf] | split; [now left | now apply Hs]].
  - destruct (IH (buck_pick vsw_net st m0)) as [IH1 IH2].
    + unfold buck_pick. destruct (Py.opt_eqb (info_get m0 "source_net") (Some vsw_net)) eqn:E1.
      * cbn [fst]. intros m Hm. injection Hm as <-. now apply opt_eqb_eq.
      * destruct (Py.opt_eqb (info_get m0 "drain_net") (Some vsw_net)); exact Hf.
    + unfold buck_pick. destruct (Py.opt_eqb (info_get m0 "source_net") (Some vsw_net)) eqn:E1.
      * exact Hs.
      * destruct (Py.opt_eqb (info_get m0 "drain_net") (Some vsw_net)) eqn:E2; [|exact Hs].
        cbn [snd]. intros m Hm. injection Hm as <-. split; [now apply opt_eqb_eq|].
        intros H. apply opt_eqb_eq in H. congruence.
    + assert (Hstep : forall m,
                (fst (buck_pick vsw_net st m0) = Some m -> fst st = Some m \/ m = m0)
                /\ (snd (buck_pick vsw_net st m0) = Some m -> snd st = Some m \/ m = m0)).
      { intros m. unfold buck_pick.
        destruct (Py.opt_eqb (info_get m0 "source_net") (Some vsw_net)); cbn [fst snd].
        - split; [intros H; right; congruence | now left].
        - destruct (Py.opt_eqb (info_get m0 "drain_net") (Some vsw_net)); cbn [fst snd].
          + split; [now left | intros H; right; congruence].
          + split; now left. }
      split; intros m Hm.
      * destruct (IH1 m Hm) as [[H|H] Hsrc]; (split; [|exact Hsrc]).
        -- apply Hstep in H. destruct H as [H| ->]; [now left | right; now left].
        -- right. now right.
      * destruct (IH2 m Hm) as [[H|H] Hrest]; (split; [|exact Hrest]).
        -- apply Hstep in H. destruct H as [H| ->]; [now left | right; now left].
        -- right. now right.
Qed.

(** X13 (system_topology_checker._verify_sync_buck).  A power graph passes
    the buck test only if, around its first switch-node candidate, one
    MOSFET has its source on the node and its drain on a net that looks
    like the input supply, another has its drain on the node and its
    source on a ground-like net, and every inductor of the design, not
    just one, has one terminal on the node and the other on an output
    net. *)
Theorem verify_sync_buck_pass (power_graph : PowerGraph) (snapshot : Snapshot) :
  _verify_sync_buck power_graph snapshot = [] ->
  exists vsw_net hs_ ls_,
    hd_error (vsw_candidates power_graph) = Some vsw_net
    /\ In hs_ (mosfets power_graph) /\ In ls_ (mosfets power_graph)
    /\ info_get hs_ "source_net" = Some vsw_net
    /\ _is_input_supply_net (info_get_str hs_ "drain_net") = true
    /\ info_get ls_ "drain_net" = Some vsw_net
    /\ info_get ls_ "source_net" <> Some vsw_net
    /\ _is_ground_net (info_get_str ls_ "source_net") = true
    /\ inductors power_graph <> []
    /\ forall ind, In ind (inductors power_graph) ->
         (terminal_a_net ind = Some vsw_net /\ _is_output_net (terminal_b_net ind) = true)
         \/ (terminal_a_net ind <> Some vsw_net /\ terminal_b_net ind = Some vsw_net
             /\ _is_output_net (terminal_a_net ind) = true).
Proof.
  unfold _verify_sync_buck.
  destruct (length (mosfets power_graph) <? 2); [discriminate|].
  destruct (length (inductors power_graph) <? 1) eqn:Eind; [discriminate|].
  destruct (vsw_candidates power_graph) as [|vsw_net rest]; [discriminate|].
  pose proof (buck_pick_fold vsw_net (mosfets power_graph) (None, None)) as Hfold.
  cbn zeta in Hfold.
  destruct (fold_left (buck_pick vsw_net) (mosfets power_graph) (None, None))
    as [hs_mosfet ls_mosfet].
  destruct Hfold as [Hhs Hls]; [discriminate | discriminate|]. cbn [fst snd] in Hhs, Hls.
  destruct hs_mosfet as [hs_|]; [|destruct ls_mosfet; discriminate].
  destruct ls_mosfet as [ls_|]; [|discriminate].
  cbn [Datatypes.app]. intros H.
  destruct (_is_input_supply_net (info_get_str hs_ "drain_net")) eqn:Ein; [|discriminate H].
  destruct (_is_ground_net (info_get_str ls_ "source_net")) eqn:Egnd; [|discriminate H].
  cbn [negb Datatypes.app] in H. rewrite flat_map_nil in H.
  destruct (Hhs hs_ eq_refl) as [[Hx|Hhin] Hsrc]; [discriminate|].
  destruct (Hls ls_ eq_refl) as [[Hx|Hlin] [Hdr Hnot]]; [discriminate|].
  exists vsw_net, hs_, ls_. repeat split; auto.
  - intros Hnil. rewrite Hnil in Eind. discriminate Eind.
  - intros ind Hind. specialize (H ind Hind). unfold buck_inductor_errors in H.
    destruct (Py.opt_eqb (terminal_a_net ind) (Some vsw_net)) eqn:Ea.
    + apply opt_eqb_eq in Ea. left. split; [exact Ea|].
      destruct (_is_output_net (terminal_b_net ind)); [reflexivity | discriminate H].
    + destruct (Py.opt_eqb (terminal_b_net ind) (Some vsw_net)) eqn:Eb; [|discriminate H].
      apply opt_eqb_eq in Eb. right. split; [|split; [exact Eb|]].
      * intros Hc. apply opt_eqb_eq in Hc. congruence.
      * destruct (_is_output_net (terminal_a_net ind)); [reflexivity | discriminate H].
Qed.

Lemma verify_sync_buck_pass_witness :
  _verify_sync_buck (_build_power_graph Samples.buck_snapshot None) Samples.buck_snapshot = []
  /\ exists vsw_net hs_ ls_,
       hd_error (vsw_candidates (_build_power_graph Samples.buck_snapshot None)) = Some vsw_net
       /\ In hs_ (mosfets (_build_power_graph Samples.buck_snapshot None))
       /\ In ls_ (mosfets (_build_power_graph Samples.buck_snapshot None)).
Proof.
  assert (Hpass : _verify_sync_buck (_build_power_graph Samples.buck_snapshot None)
                    Samples.buck_snapshot = []) by (vm_compute; reflexivity).
  split; [exact Hpass|].
  destruct (verify_sync_buck_pass _ _ Hpass) as (vsw_net & hs_ & ls_ & H1 & H2 & H3 & _).
  now exists vsw_net, hs_, ls_.
Defined.

(* ================================================================== *)
(** ** Part counts and self-comparison (match_skeleton.py) *)
(* ================================================================== *)

Lemma part_counts_fold (part : string) (comps : list Component) :
  forall counts,
    count_of
      (fold_left
         (fun counts comp =>
            if Py.truthy (Some (part_id comp))
            then Py.dict_update counts (part_id comp) 0 S
            else counts) comps counts) part
    = count_of counts part
      + length (filter (fun comp => Py.truthy (Some (part_id comp))
                                    && String.eqb (part_id comp) part) comps).
Proof.
  induction comps as [|comp comps IH]; intros counts; cbn [fold_left filter length]; [lia|].
  rewrite IH. destruct (Py.truthy (Some (part_id comp))) eqn:Et; cbn [andb].
  - unfold count_of at 1. rewrite dict_get_update. rewrite (String.eqb_sym part).
    destruct (String.eqb (part_id comp) part) eqn:E; cbn [length].
    + apply String.eqb_eq in E. subst part. unfold count_of.
      destruct (Py.dict_get counts (part_id comp)); lia.
    + fold (count_of counts part). lia.
  - lia.
Qed.

(** X14 (match_skeleton._component_part_counts).  The count recorded for a
    part id is the number of components that carry it; components with an
    empty part id are not counted, and an id that does not occur reads as
    zero. *)
Theorem component_part_counts_spec (snapshot : Snapshot) (part : string) :
  count_of (_component_part_counts snapshot) part
  = (if String.eqb part EmptyString then 0
     else count_parts (fun p => String.eqb p part) snapshot)
  /\ (Py.dict_has (_component_part_counts snapshot) part = true
      <-> part <> EmptyString /\ exists comp, In comp (components snapshot) /\ part_id comp = part).
Proof.
  assert (Hcount : count_of (_component_part_counts snapshot) part
                   = if String.eqb part EmptyString then 0
                     else count_parts (fun p => String.eqb p part) snapshot).
  { unfold _component_part_counts. rewrite part_counts_fold.
    unfold count_of, count_parts. cbn [Py.dict_get]. cbn [Nat.add].
    destruct (String.eqb part EmptyString) eqn:E.
    - apply String.eqb_eq in E. subst part.
      induction (components snapshot) as [|c cs IH]; [reflexivity|]. cbn [filter].
      destruct (part_id c); cbn; exact IH.
    - apply String.eqb_neq in E.
      induction (components snapshot) as [|c cs IH]; [reflexivity|]. cbn [filter].
      destruct (String.eqb (part_id c) part) eqn:Ep.
      + apply String.eqb_eq in Ep. rewrite Ep.
        assert (Ht : Py.truthy (Some part) = true) by (destruct part; [contradiction | reflexivity]).
        rewrite Ht. cbn [andb length]. now rewrite IH.
      + rewrite andb_false_r. exact IH. }
  split; [exact Hcount|].
  assert (Hkeys : forall comps counts k,
             In k (map fst (fold_left
                              (fun counts comp =>
                                 if Py.truthy (Some (part_id comp))
                                 then Py.dict_update counts (part_id comp) 0 S
                                 else counts) comps counts))
             <-> In k (map fst counts)
                 \/ (k <> EmptyString /\ exists comp, In comp comps /\ part_id comp = k)).
  { induction comps as [|c cs IH]; intros counts k; cbn [fold_left].
    - split; [now left | intros [H|(_ & comp & [] & _)]; exact H].
    - rewrite IH. destruct (Py.truthy (Some (part_id c))) eqn:Et.
      + rewrite dict_update_keys. unfold Py.dict_has.
        destruct (Py.dict_get counts (part_id c)) eqn:Eg.
        * split.
          -- intros [H|(Hk & comp & Hc & Hp)]; [now left|].
             right. split; [exact Hk|]. exists comp. split; [now right | exact Hp].
          -- intros [H|(Hk & comp & [<-|Hc] & Hp)]; [now left | |].
             ++ left. subst k. apply dict_get_in in Eg.
                apply in_map_iff. now exists (part_id c, n).
             ++ right. split; [exact Hk|]. now exists comp.
        * rewrite in_app_iff. cbn [In]. split.
          -- intros [[H|[<-|[]]]|(Hk & comp & Hc & Hp)].
             ++ now left.
             ++ right. split; [destruct (part_id c); [discriminate Et | discriminate]|].
                exists c. split; [now left | reflexivity].
             ++ right. split; [exact Hk|]. exists comp. split; [now right | exact Hp].
          -- intros [H|(Hk & comp & [<-|Hc] & Hp)].
             ++ left. now left.
             ++ left. right. left. exact Hp.
             ++ right. split; [exact Hk|]. now exists comp.
      + split.
        * intros [H|(Hk & comp & Hc & Hp)]; [now left|].
          right. split; [exact Hk|]. exists comp. split; [now right | exact Hp].
        * intros [H|(Hk & comp & [<-|Hc] & Hp)]; [now left | |].
          -- exfalso. subst k. destruct (part_id c); [now apply Hk | discriminate Et].
          -- right. split; [exact Hk|]. now exists comp. }
  unfold Py.dict_has.
  destruct (Py.dict_get (_component_part_counts snapshot) part) as [n|] eqn:Eg.
  - split; [intros _ | reflexivity].
    apply dict_get_in in Eg.
    assert (Hin : In part (map fst (_component_part_counts snapshot))).
    { apply in_map_iff. now exists (part, n). }
    apply Hkeys in Hin. destruct Hin as [[]|H]. exact H.
  - split; [discriminate|]. intros H. exfalso.
    apply dict_get_none_keys in Eg. apply Eg. apply Hkeys. now right.
Qed.

Lemma tolerance_bounds (t : nat * nat) (n : nat) :
  t = (1, 2) \/ t = (3, 5) -> 4 < n -> tolerance_min t n <= n /\ n <= tolerance_max t n.
Proof.
  unfold tolerance_min, tolerance_max. intros [-> | ->] Hn; cbn [fst snd Nat.sub Nat.add].
  - split.
    + apply Nat.Div0.div_le_upper_bound. lia.
    + apply Nat.div_le_lower_bound; lia.
  - split.
    + apply Nat.Div0.div_le_upper_bound. lia.
    + apply Nat.div_le_lower_bound; lia.
Qed.

(** X15 (match_skeleton._check_component_count_tolerance).  A design
    compared with itself is within tolerance, for every task: no count of
    a part lies outside the range allowed around itself. *)
Theorem count_tolerance_reflexive (snapshot : Snapshot) (task_id : option Z) :
  _check_component_count_tolerance snapshot snapshot task_id = [].
Proof.
  unfold _check_component_count_tolerance. cbv zeta.
  replace (flat_map _ _) with (@nil string); [reflexivity|].
  symmetry. apply flat_map_nil. intros part _. unfold count_tolerance_step.
  destruct (task_is task_id 15 && String.eqb part "D"); [reflexivity|]. cbv zeta.
  generalize (count_of (_component_part_counts snapshot) part). intros n.
  destruct (n =? 0) eqn:E0.
  - apply Nat.eqb_eq in E0. subst n. reflexivity.
  - apply Nat.eqb_neq in E0. destruct (n <=? 4) eqn:E4.
    + apply Nat.leb_le in E4.
      replace (n <? 1) with false by (symmetry; apply Nat.ltb_ge; lia).
      replace (4 <? n) with false by (symmetry; apply Nat.ltb_ge; lia). reflexivity.
    + apply Nat.leb_gt in E4.
      destruct (tolerance_bounds
                  (if task_is task_id 16 && Py.mem part ["R"; "C"]
                   then P16_PASSIVE_TOLERANCE else COMPONENT_COUNT_TOLERANCE) n) as [Hlo Hhi];
        [destruct (task_is task_id 16 && Py.mem part ["R"; "C"]); [now right | now left]
        | exact E4|].
      replace (n <? tolerance_min _ n) with false by (symmetry; apply Nat.ltb_ge; exact Hlo).
      replace (tolerance_max _ n <? n) with false by (symmetry; apply Nat.ltb_ge; exact Hhi).
      reflexivity.
Qed.

(* ================================================================== *)
(** ** Shape and uniqueness of extracted rules (rule_extractor.py) *)
(* ================================================================== *)

Lemma key_eqb_sym (a b : EndpointKey) : key_eqb a b = key_eqb b a.
Proof.
  destruct (key_eqb a b) eqn:E1, (key_eqb b a) eqn:E2; try reflexivity.
  - apply key_eqb_eq in E1. subst.
    assert (H : key_eqb b b = true) by now apply key_eqb_eq. congruence.
  - apply key_eqb_eq in E2. subst.
    assert (H : key_eqb a a = true) by now apply key_eqb_eq. congruence.
Qed.

Lemma rule_key_eqb_sym (k1 k2 : RuleKey) : rule_key_eqb k1 k2 = rule_key_eqb k2 k1.
Proof.
  destruct k1 as [[t1 a1] b1], k2 as [[t2 a2] b2]. unfold rule_key_eqb.
  rewrite (String.eqb_sym t1 t2), (key_eqb_sym a1 a2), (key_eqb_sym b1 b2),
    (key_eqb_sym a1 b2), (key_eqb_sym b1 a2).
  destruct (String.eqb t2 t1), (key_eqb a2 a1), (key_eqb b2 b1), (key_eqb b2 a1),
    (key_eqb a2 b1); reflexivity.
Qed.

Lemma add_rule_inv (st : list Rule * list RuleKey) (rtype : string) (a b : RuleEndpoint)
  (series : bool) :
  (rtype = "C_DIRECT" /\ series = false)
  \/ ((rtype = "R_PATH" \/ rtype = "L_PATH") /\ series = true) ->
  rules_inv st -> rules_inv (_add_rule st rtype a b series).
Proof.
  intros Hshape (Hseen & Hall & Hpairs). destruct st as [rules seen]. cbn [fst snd] in *.
  unfold _add_rule. destruct (_should_skip_rule rtype a b) eqn:Eskip; [now repeat split|].
  destruct (existsb (rule_key_eqb (_rule_key rtype a b)) seen) eqn:Eseen; [now repeat split|].
  repeat split; cbn [fst snd].
  - rewrite map_app, Hseen. reflexivity.
  - apply Forall_app. split; [exact Hall|]. constructor; [|constructor].
    unfold extracted_shape. cbn [rule_type allow_series min_count fail_on_short
      endpoint_a endpoint_b]. repeat split; auto.
  - apply ForallOrdPairs_snoc; [exact Hpairs|].
    intros r Hr. rewrite rule_key_eqb_sym.
    unfold key_of_rule at 1. cbn [rule_type endpoint_a endpoint_b].
    destruct (rule_key_eqb (_rule_key rtype a b) (key_of_rule r)) eqn:E; [|reflexivity].
    assert (Hex : existsb (rule_key_eqb (_rule_key rtype a b)) seen = true).
    { apply existsb_exists. exists (key_of_rule r). split; [|exact E].
      rewrite Hseen. now apply in_map. }
    congruence.
Qed.

Lemma capacitor_rule_step_inv (net_endpoints : Py.dict (list RuleEndpoint))
  (st : list Rule * list RuleKey) (comp : Component) :
  rules_inv st -> rules_inv (capacitor_rule_step net_endpoints st comp).
Proof.
  intros H. unfold capacitor_rule_step.
  destruct (negb (is_passive_of "C" comp)); [exact H|].
  destruct (sorted_pair (_component_nets comp)) as [[net_a net_b]|]; [|exact H].
  destruct (_pick_endpoint (Py.dict_get net_endpoints net_a)); [|exact H].
  destruct (_pick_endpoint (Py.dict_get net_endpoints net_b)); [|exact H].
  apply add_rule_inv; [now left | exact H].
Qed.

Lemma path_rule_step_inv (net_endpoints : Py.dict (list RuleEndpoint)) (rtype : string)
  (st : list Rule * list RuleKey) (nets_ : Py.strset) :
  rtype = "R_PATH" \/ rtype = "L_PATH" ->
  rules_inv st -> rules_inv (path_rule_step net_endpoints rtype st nets_).
Proof.
  intros Ht. unfold path_rule_step.
  generalize (combinations2 (component_endpoints net_endpoints nets_)). intros prs.
  revert st. induction prs as [|pr prs IH]; intros st H; [exact H|].
  cbn [fold_left]. apply IH. apply add_rule_inv; [now right | exact H].
Qed.

Lemma fold_left_inv {S A} (P : S -> Prop) (f : S -> A -> S) (l : list A) :
  (forall st a, P st -> P (f st a)) -> forall st, P st -> P (fold_left f l st).
Proof.
  intros Hf. induction l as [|a l IH]; intros st H; [exact H|].
  cbn [fold_left]. apply IH. now apply Hf.
Qed.

(** X16 (rule_extractor.build_rules, _add_rule).  Every extracted rule is
    a C_DIRECT rule without series allowance or an R_PATH or L_PATH rule
    with it, asks for one element, fails on a short and is not one the
    extractor skips; and no two extracted rules have the same type and the
    same unordered pair of endpoint signatures. *)
Theorem build_rules_wellformed (snapshot : Snapshot) :
  Forall extracted_shape (build_rules snapshot)
  /\ ForallOrdPairs
       (fun r1 r2 => rule_key_eqb (key_of_rule r1) (key_of_rule r2) = false)
       (build_rules snapshot).
Proof.
  assert (H : rules_inv
                (fold_left (path_rule_step (_collect_net_endpoints snapshot) "L_PATH")
                   (_passive_net_components snapshot "L")
                   (fold_left (path_rule_step (_collect_net_endpoints snapshot) "R_PATH")
                      (_passive_net_components snapshot "R")
                      (fold_left (capacitor_rule_step (_collect_net_endpoints snapshot))
                         (components snapshot) ([], []))))).
  { apply fold_left_inv; [intros st a; apply path_rule_step_inv; now right|].
    apply fold_left_inv; [intros st a; apply path_rule_step_inv; now left|].
    apply fold_left_inv; [intros st a; apply capacitor_rule_step_inv|].
    repeat split; constructor. }
  destruct H as (_ & H1 & H2). unfold build_rules. now split.
Qed.

(* ================================================================== *)
(** ** Rules are judged one by one (rule_checker.py) *)
(* ================================================================== *)

Lemma check_rule_cache (snapshot : Snapshot) (task_id : option Z) (rule : Rule)
  (errors : list string) (cache : EndpointCache) :
  cache_sound snapshot cache ->
  let st := check_rule snapshot task_id (_capacitor_pairs snapshot)
              (_passive_net_components snapshot "R") (_passive_net_components snapshot "L")
              (errors, cache) rule in
  fst st = errors ++ rule_errors snapshot task_id rule
  /\ cache_sound snapshot (snd st).
Proof.
  intros Hc. cbn zeta. unfold rule_errors, check_rule.
  destruct (rule_waived task_id rule); [cbn [fst snd]; now rewrite app_nil_r|].
  destruct (resolve_endpoint_nets_sound snapshot (endpoint_a rule) cache Hc) as [Ha Hc1].
  destruct (resolve_endpoint_nets_sound snapshot (endpoint_a rule) [] (cache_sound_nil _))
    as [Ha0 Hc01].
  destruct (_resolve_endpoint_nets snapshot (endpoint_a rule) cache) as [nets_a cache1].
  destruct (_resolve_endpoint_nets snapshot (endpoint_a rule) []) as [nets_a0 cache01].
  cbn [fst snd] in *. subst nets_a nets_a0.
  destruct (resolve_endpoint_nets_sound snapshot (endpoint_b rule) cache1 Hc1) as [Hb Hc2].
  destruct (resolve_endpoint_nets_sound snapshot (endpoint_b rule) cache01 Hc01) as [Hb0 Hc02].
  destruct (_resolve_endpoint_nets snapshot (endpoint_b rule) cache1) as [nets_b cache2].
  destruct (_resolve_endpoint_nets snapshot (endpoint_b rule) cache01) as [nets_b0 cache02].
  cbn [fst snd] in *. subst nets_b nets_b0.
  repeat (match goal with
          | |- context [if ?c then _ else _] => destruct c
          | |- context [let (_, _) := ?v in _] => destruct v
          end; cbv beta iota);
    cbn [fst snd Datatypes.app]; rewrite ?app_nil_r; split; auto.
Qed.

Lemma check_rule_loop (snapshot : Snapshot) (task_id : option Z) (rules : list Rule) :
  forall errors cache,
    cache_sound snapshot cache ->
    let st := fold_left
                (check_rule snapshot task_id (_capacitor_pairs snapshot)
                   (_passive_net_components snapshot "R")
                   (_passive_net_components snapshot "L"))
                rules (errors, cache) in
    fst st = errors ++ flat_map (rule_errors snapshot task_id) rules
    /\ cache_sound snapshot (snd st).
Proof.
  induction rules as [|rule rules IH]; intros errors cache Hc; cbn [fold_left flat_map].
  - cbn zeta. cbn [fst snd]. now rewrite app_nil_r.
  - cbn zeta. destruct (check_rule_cache snapshot task_id rule errors cache Hc) as [He Hc'].
    destruct (check_rule _ _ _ _ _ (errors, cache) rule) as [errors' cache'].
    cbn [fst snd] in He, Hc'. subst errors'.
    destruct (IH (errors ++ rule_errors snapshot task_id rule) cache' Hc') as [IH1 IH2].
    cbn zeta in IH1, IH2. rewrite IH1, <- app_assoc. now split.
Qed.

Lemma check_task6_enable_cache (snapshot : Snapshot) (r_components : list Py.strset)
  (cache : EndpointCache) :
  cache_sound snapshot cache ->
  fst (_check_task6_enable snapshot r_components cache)
  = fst (_check_task6_enable snapshot r_components []).
Proof.
  intros Hc. unfold _check_task6_enable.
  destruct (resolve_endpoint_nets_sound snapshot (task_endpoint "TPS54302" "buck_en") cache Hc)
    as [H1 Hc1].
  destruct (resolve_endpoint_nets_sound snapshot (task_endpoint "TPS54302" "buck_en") []
              (cache_sound_nil _)) as [H1' Hc1'].
  destruct (_resolve_endpoint_nets snapshot (task_endpoint "TPS54302" "buck_en") cache)
    as [en cache1].
  destruct (_resolve_endpoint_nets snapshot (task_endpoint "TPS54302" "buck_en") [])
    as [en' cache1'].
  cbn [fst snd] in *. subst en en'.
  destruct (negb (_is_connected_nets _)); [reflexivity|].
  destruct (resolve_endpoint_nets_sound snapshot (task_endpoint "TPS54302" "buck_vin") cache1 Hc1)
    as [H2 Hc2].
  destruct (resolve_endpoint_nets_sound snapshot (task_endpoint "TPS54302" "buck_vin") cache1'
              Hc1') as [H2' Hc2'].
  destruct (_resolve_endpoint_nets snapshot (task_endpoint "TPS54302" "buck_vin") cache1)
    as [vin cache2].
  destruct (_resolve_endpoint_nets snapshot (task_endpoint "TPS54302" "buck_vin") cache1')
    as [vin' cache2'].
  cbn [fst snd] in *. subst vin vin'.
  destruct (resolve_endpoint_nets_sound snapshot (task_endpoint "TPS54302" "buck_gnd") cache2 Hc2)
    as [H3 Hc3].
  destruct (resolve_endpoint_nets_sound snapshot (task_endpoint "TPS54302" "buck_gnd") cache2'
              Hc2') as [H3' Hc3'].
  destruct (_resolve_endpoint_nets snapshot (task_endpoint "TPS54302" "buck_gnd") cache2)
    as [gnd_ cache3].
  destruct (_resolve_endpoint_nets snapshot (task_endpoint "TPS54302" "buck_gnd") cache2')
    as [gnd' cache3'].
  cbn [fst snd] in *. subst gnd_ gnd'.
  destruct (_check_path_rule _ _ _) as [[ok_vin short_vin] p1].
  destruct (_check_path_rule _ _ _) as [[ok_gnd short_gnd] p2].
  destruct (ok_vin && ok_gnd); [reflexivity|]. destruct (short_vin || short_gnd); reflexivity.
Qed.

(** X17 (rule_checker.check_rules).  Outside task 15 the rules are judged
    one by one: the errors are, in rule order, those each rule gives when
    checked alone, followed by the task checks that do not look at the
    rules; the endpoint cache shared by the rules changes no verdict. *)
Theorem check_rules_per_rule (_check_p3_gain : Snapshot -> list string)
  (snapshot : Snapshot) (rules : list Rule) (task_id : option Z) :
  task_is task_id 15 = false ->
  check_rules _check_p3_gain snapshot rules task_id
  = flat_map (rule_errors snapshot task_id) rules
    ++ check_rules _check_p3_gain snapshot [] task_id.
Proof.
  intros H15. unfold check_rules. rewrite H15. cbv zeta. cbn [fold_left].
  destruct (check_rule_loop snapshot task_id rules [] [] (cache_sound_nil _)) as [He Hc].
  cbn zeta in He, Hc.
  match type of He with
  | fst ?t = _ =>
      match goal with
      | |- context [fold_left ?f rules ?i] => change (fold_left f rules i) with t
      end;
      destruct t as [errors cache]
  end.
  cbn [fst snd Datatypes.app] in He, Hc. subst errors.
  rewrite (check_task6_enable_cache snapshot _ cache Hc).
  destruct (task_is task_id 6), (task_is task_id 3); cbn [Datatypes.app];
    rewrite ?app_nil_r, <- ?app_assoc; reflexivity.
Qed.

Lemma check_rules_per_rule_witness :
  check_rules (fun _ => []) Samples.regulator_snapshot [Samples.regulator_rule] None
  = rule_errors Samples.regulator_snapshot None Samples.regulator_rule.
Proof.
  rewrite (check_rules_per_rule (fun _ => []) Samples.regulator_snapshot
             [Samples.regulator_rule] None eq_refl).
  cbn [flat_map]. rewrite !app_nil_r. reflexivity.
Defined.

(* ================================================================== *)
(** ** The capacitor pair list (rule_checker.py) *)
(* ================================================================== *)

Lemma capacitor_pairs_distinct_fold (comps : list Component) :
  forall pairs,
    ForallOrdPairs (fun p q => pair_eqb (fst q) (snd q) p = false) pairs ->
    ForallOrdPairs (fun p q => pair_eqb (fst q) (snd q) p = false)
      (fold_left
         (fun pairs comp =>
            if negb (is_passive_of "C" comp) then pairs
            else
              match sorted_pair (component_net_set comp) with
              | None => pairs
              | Some (net_a, net_b) =>
                  if String.eqb net_a net_b then pairs
                  else if pair_mem net_a net_b pairs then pairs
                  else pairs ++ [(net_a, net_b)]
              end) comps pairs).
Proof.
  induction comps as [|comp comps IH]; intros pairs H; [exact H|].
  cbn [fold_left]. apply IH.
  destruct (negb (is_passive_of "C" comp)); [exact H|].
  destruct (sorted_pair (component_net_set comp)) as [[net_a net_b]|]; [|exact H].
  destruct (String.eqb net_a net_b); [exact H|].
  destruct (pair_mem net_a net_b pairs) eqn:Em; [exact H|].
  apply ForallOrdPairs_snoc; [exact H|].
  intros p Hp. cbn [fst snd].
  destruct (pair_eqb net_a net_b p) eqn:E; [|reflexivity].
  assert (Hex : pair_mem net_a net_b pairs = true).
  { apply existsb_exists. now exists p. }
  congruence.
Qed.

(** X18 (rule_checker._capacitor_pairs).  The list holds the unordered
    pair of two nets exactly when the nets differ and some capacitor of
    the snapshot has its connected pins on these two nets and no other:
    every pin of it with a non-empty net is on one of the two, and each of
    the two carries such a pin ([on_net]).  The test does not depend on the
    order of the two nets, and no pair is listed twice, in either order. *)
Theorem capacitor_pairs_characterised (snapshot : Snapshot) :
  (forall a b,
     pair_mem a b (_capacitor_pairs snapshot) = true
     <-> a <> b /\ capacitor_bridges snapshot a b)
  /\ (forall a b,
        pair_mem a b (_capacitor_pairs snapshot) = pair_mem b a (_capacitor_pairs snapshot))
  /\ ForallOrdPairs (fun p q => pair_eqb (fst q) (snd q) p = false)
       (_capacitor_pairs snapshot).
Proof.
  split; [|split].
  - intros a b. apply capacitor_pairs_spec.
  - intros a b. unfold pair_mem.
    induction (_capacitor_pairs snapshot) as [|p l IH]; [reflexivity|].
    cbn [existsb]. rewrite IH. f_equal. unfold pair_eqb. apply orb_comm.
  - apply capacitor_pairs_distinct_fold. constructor.
Qed.

(* ================================================================== *)
(** ** The path from a driver output to a gate (interface_checker.py) *)
(* ================================================================== *)

Lemma gate_path_pins_push (gate_nets : Py.strset) (current_net : string) (ps : list Pin) :
  forall st,
    fold_left (gate_path_pin gate_nets current_net) ps st
    = fold_left (gate_path_push gate_nets current_net)
        (flat_map (fun p => match net p with
                            | Some n => if Py.truthy (Some n) then [n] else []
                            | None => []
                            end) ps) st.
Proof.
  induction ps as [|p ps IH]; intros st; [reflexivity|].
  cbn [fold_left flat_map]. rewrite fold_left_app, IH. f_equal.
  destruct st as [[found queue] visited]. unfold gate_path_pin, gate_path_push.
  destruct found; destruct (net p) as [n|]; try reflexivity;
    destruct (Py.truthy (Some n)); reflexivity.
Qed.

Lemma gate_path_push_found (gate_nets : Py.strset) (current_net : string) (l : list string) :
  forall queue visited,
    fold_left (gate_path_push gate_nets current_net) l (true, queue, visited)
    = (true, queue, visited).
Proof. induction l as [|n l IH]; intros queue visited; [reflexivity | apply IH]. Qed.

Lemma gate_path_endpoints_push (snapshot : Snapshot) (gate_nets : Py.strset)
  (current_net : string) (eps : list NetEndpoint) :
  forall st,
    fold_left (gate_path_endpoint snapshot gate_nets current_net) eps st
    = fold_left (gate_path_push gate_nets current_net)
        (flat_map
           (fun ep =>
              match _find_component_by_ref snapshot (ep_ref ep) with
              | Some comp =>
                  if Py.mem (part_id comp) ["R"; "D"]
                  then flat_map
                         (fun p =>
                            match net p with
                            | Some n => if Py.truthy (Some n) then [n] else []
                            | None => []
                            end)
                         (pins comp)
                  else []
              | None => []
              end) eps) st.
Proof.
  induction eps as [|ep eps IH]; intros st; [reflexivity|].
  cbn [fold_left flat_map]. rewrite fold_left_app, IH. f_equal.
  unfold gate_path_endpoint. destruct st as [[[|] queue] visited]; cbn [fst].
  - now rewrite gate_path_push_found.
  - destruct (_find_component_by_ref snapshot (ep_ref ep)) as [comp|]; [|reflexivity].
    destruct (Py.mem (part_id comp) ["R"; "D"]); [|reflexivity].
    apply gate_path_pins_push.
Qed.

(** What the inner loops do to the search state, from a state that has
    not found a gate yet. *)
Lemma gate_path_push_fold (gate_nets : Py.strset) (current_net : string) (nodes : list string)
  (l : list string) :
  forall queue visited,
    (forall n, In n l -> In n nodes) ->
    let st := fold_left (gate_path_push gate_nets current_net) l (false, queue, visited) in
    length (snd (fst st)) + unseen_nodes nodes (snd st)
    <= length queue + unseen_nodes nodes visited
    /\ (fst (fst st) = true -> exists n, In n l /\ In n gate_nets)
    /\ (fst (fst st) = false ->
        exists new,
          snd (fst st) = queue ++ new
          /\ (forall x, In x (snd st) <-> In x visited \/ In x new)
          /\ (forall x, In x new -> In x l /\ ~ In x gate_nets)
          /\ (forall x, In x l -> x = current_net \/ In x (snd st))).
Proof.
  induction l as [|n l IH]; intros queue visited Hl; cbn [fold_left]; cbn zeta.
  - cbn [fst snd]. split; [lia|]. split; [discriminate|]. intros _. exists [].
    rewrite app_nil_r. repeat split; try tauto.
    + intros [H|[]]. exact H.
    + intros x [].
  - assert (Hstep : gate_path_push gate_nets current_net (false, queue, visited) n
                    = if negb (String.eqb n current_net) && negb (PySet.mem n visited)
                      then if PySet.mem n gate_nets then (true, queue, visited)
                           else (false, queue ++ [n], PySet.add n visited)
                      else (false, queue, visited)) by reflexivity.
    rewrite Hstep. clear Hstep.
    destruct (negb (String.eqb n current_net) && negb (PySet.mem n visited)) eqn:E.
    + apply andb_true_iff in E. destruct E as [E1 E2].
      apply negb_true_iff in E1, E2. apply String.eqb_neq in E1.
      destruct (PySet.mem n gate_nets) eqn:Eg.
      * rewrite gate_path_push_found. cbn [fst snd]. split; [lia|]. split; [|discriminate].
        intros _. exists n. split; [now left | now apply pyset_mem_true].
      * destruct (IH (queue ++ [n]) (PySet.add n visited)) as (IH1 & IH2 & IH3);
          [intros x Hx; apply Hl; now right|]. cbn zeta in IH1, IH2, IH3.
        split; [|split].
        -- rewrite length_app in IH1. cbn [length] in IH1.
           pose proof (unseen_nodes_add_lt nodes n visited (Hl n (or_introl eq_refl)) E2). lia.
        -- intros H. destruct (IH2 H) as (x & Hx & Hg). exists x. split; [now right | exact Hg].
        -- intros H. destruct (IH3 H) as (new & Hq & Hv & Hnew & Hall).
           exists (n :: new). split; [now rewrite Hq, <- app_assoc|]. split; [|split].
           ++ intros x. rewrite Hv, pyset_add_in. cbn [In]. intuition congruence.
           ++ intros x [<-|Hx].
              ** split; [now left | now apply pyset_mem_false].
              ** destruct (Hnew x Hx). split; [now right | assumption].
           ++ intros x [<-|Hx]; [|now apply Hall].
              right. apply Hv. left. apply pyset_add_in. now left.
    + destruct (IH queue visited) as (IH1 & IH2 & IH3); [intros x Hx; apply Hl; now right|].
      cbn zeta in IH1, IH2, IH3. split; [exact IH1|]. split.
      * intros H. destruct (IH2 H) as (x & Hx & Hg). exists x. split; [now right | exact Hg].
      * intros H. destruct (IH3 H) as (new & Hq & Hv & Hnew & Hall).
        exists new. split; [exact Hq|]. split; [exact Hv|]. split.
        -- intros x Hx. destruct (Hnew x Hx). split; [now right | assumption].
        -- intros x [<-|Hx]; [|now apply Hall].
           apply andb_false_iff in E. destruct E as [E|E]; apply negb_false_iff in E.
           ++ left. now apply String.eqb_eq.
           ++ right. apply Hv. left. now apply pyset_mem_true.
Qed.

Lemma find_component_by_ref_in (snapshot : Snapshot) (r : string) (comp : Component) :
  _find_component_by_ref snapshot r = Some comp -> In comp (components snapshot).
Proof. unfold _find_component_by_ref. intros H. now apply find_some in H. Qed.

Lemma gate_neighbours_in_nets (snapshot : Snapshot) (a b : string) :
  In b (gate_neighbours snapshot a) -> In b (pin_nets_all snapshot).
Proof.
  unfold gate_neighbours, pin_nets_all. rewrite !in_flat_map.
  intros (ep & _ & H).
  destruct (_find_component_by_ref snapshot (ep_ref ep)) as [comp|] eqn:Ec; [|destruct H].
  destruct (Py.mem (part_id comp) ["R"; "D"]); [|destruct H].
  apply in_flat_map in H. destruct H as (p & Hp & H).
  exists comp. split; [now apply find_component_by_ref_in with (r := ep_ref ep)|].
  apply in_flat_map. exists p. split; [exact Hp|].
  destruct (net p) as [n|]; [|destruct H]. destruct (Py.truthy (Some n)); [exact H | destruct H].
Qed.

Lemma gate_path_loop_total (snapshot : Snapshot) (gate_nets : Py.strset) (fuel : nat) :
  forall queue visited,
    length queue + unseen_nodes (pin_nets_all snapshot) visited < fuel ->
    exists found, gate_path_loop fuel snapshot gate_nets queue visited = Some found.
Proof.
  induction fuel as [|fuel IH]; intros queue visited Hlt; [lia|].
  cbn [gate_path_loop]. destruct queue as [|current_net rest]; [now eexists|].
  rewrite gate_path_endpoints_push. fold (gate_neighbours snapshot current_net).
  destruct (gate_path_push_fold gate_nets current_net (pin_nets_all snapshot)
              (gate_neighbours snapshot current_net) rest visited) as (Hm & _);
    [intros n; apply gate_neighbours_in_nets|].
  cbn zeta in Hm.
  destruct (fold_left (gate_path_push gate_nets current_net)
              (gate_neighbours snapshot current_net) (false, rest, visited))
    as [[found queue'] visited'].
  cbn [fst snd] in Hm. destruct found; [now eexists|].
  apply IH. cbn [length] in Hlt. lia.
Qed.

Lemma gate_path_loop_terminates (snapshot : Snapshot) (gate_nets : Py.strset)
  (start_net : string) :
  exists found,
    gate_path_loop (gate_path_fuel snapshot) snapshot gate_nets [start_net]
      (PySet.add start_net []) = Some found.
Proof.
  apply gate_path_loop_total. unfold gate_path_fuel. cbn [length].
  pose proof (unseen_nodes_le (pin_nets_all snapshot) (PySet.add start_net [])). lia.
Qed.

Lemma gate_path_loop_sound (snapshot : Snapshot) (gate_nets : Py.strset) (start_net : string)
  (fuel : nat) :
  forall queue visited,
    gate_path_loop fuel snapshot gate_nets queue visited = Some true ->
    (forall x, In x queue -> gate_reachable snapshot start_net x) ->
    exists g, In g gate_nets /\ gate_reachable snapshot start_net g.
Proof.
  induction fuel as [|fuel IH]; intros queue visited H Hq; [discriminate|].
  cbn [gate_path_loop] in H. destruct queue as [|current_net rest]; [discriminate|].
  rewrite gate_path_endpoints_push in H. fold (gate_neighbours snapshot current_net) in H.
  destruct (gate_path_push_fold gate_nets current_net (pin_nets_all snapshot)
              (gate_neighbours snapshot current_net) rest visited) as (_ & Hfound & Hnot);
    [intros n; apply gate_neighbours_in_nets|].
  cbn zeta in Hfound, Hnot.
  destruct (fold_left (gate_path_push gate_nets current_net)
              (gate_neighbours snapshot current_net) (false, rest, visited))
    as [[found queue'] visited'].
  cbn [fst snd] in Hfound, Hnot. destruct found.
  - destruct (Hfound eq_refl) as (g & Hg & Hgate). exists g. split; [exact Hgate|].
    apply gate_reach_step with (a := current_net); [apply Hq; now left | exact Hg].
  - destruct (Hnot eq_refl) as (new & -> & _ & Hnew & _).
    apply (IH _ _ H). intros x Hx. apply in_app_or in Hx. destruct Hx as [Hx|Hx].
    + apply Hq. now right.
    + apply gate_reach_step with (a := current_net); [apply Hq; now left | now apply Hnew].
Qed.

Lemma gate_path_loop_complete (snapshot : Snapshot) (gate_nets : Py.strset) (fuel : nat) :
  forall queue visited,
    gate_path_loop fuel snapshot gate_nets queue visited = Some false ->
    (forall x, In x queue -> In x visited) ->
    (forall x, In x visited -> ~ In x gate_nets) ->
    (forall x, In x visited ->
       In x queue \/ forall b, In b (gate_neighbours snapshot x) -> In b visited) ->
    exists closed,
      (forall x, In x visited -> In x closed)
      /\ (forall x, In x closed -> ~ In x gate_nets)
      /\ (forall x b, In x closed -> In b (gate_neighbours snapshot x) -> In b closed).
Proof.
  induction fuel as [|fuel IH]; intros queue visited H Hq Hg Hc; [discriminate|].
  cbn [gate_path_loop] in H. destruct queue as [|current_net rest].
  - exists visited. split; [auto|]. split; [exact Hg|].
    intros x b Hx Hb. destruct (Hc x Hx) as [[]|Hall]. now apply Hall.
  - rewrite gate_path_endpoints_push in H. fold (gate_neighbours snapshot current_net) in H.
    destruct (gate_path_push_fold gate_nets current_net (pin_nets_all snapshot)
                (gate_neighbours snapshot current_net) rest visited) as (_ & _ & Hnot);
      [intros n; apply gate_neighbours_in_nets|].
    cbn zeta in Hnot.
    destruct (fold_left (gate_path_push gate_nets current_net)
                (gate_neighbours snapshot current_net) (false, rest, visited))
      as [[found queue'] visited'].
    cbn [fst snd] in Hnot. destruct found; [discriminate|].
    destruct (Hnot eq_refl) as (new & -> & Hv & Hnew & Hall).
    destruct (IH _ _ H) as (closed & Hsub & Hgate & Hclosed).
    + intros x Hx. apply Hv. apply in_app_or in Hx. destruct Hx as [Hx|Hx].
      * left. apply Hq. now right.
      * now right.
    + intros x Hx. apply Hv in Hx. destruct Hx as [Hx|Hx]; [now apply Hg | now apply Hnew].
    + intros x Hx. apply Hv in Hx. destruct Hx as [Hx|Hx].
      * destruct (Hc x Hx) as [[<-|Hin]|Hdone].
        -- right. intros b Hb. destruct (Hall b Hb) as [->|Hb']; [|exact Hb'].
           apply Hv. left. apply Hq. now left.
        -- left. apply in_or_app. now left.
        -- right. intros b Hb. apply Hv. left. now apply Hdone.
      * left. apply in_or_app. now right.
    + exists closed. split; [|split; assumption].
      intros x Hx. apply Hsub. apply Hv. now left.
Qed.

(** X19 (interface_checker._check_path_to_mosfet_gate).  The search always
    finishes, and it answers yes exactly when some gate net can be reached
    from the start net by stepping from a net to the named nets of the
    resistors and diodes that have an endpoint on it; the start net itself
    counts. *)
Theorem check_path_to_mosfet_gate_spec (start_net : string) (gate_nets : Py.strset)
  (snapshot : Snapshot) :
  (exists found,
     gate_path_loop (gate_path_fuel snapshot) snapshot gate_nets [start_net]
       (PySet.add start_net []) = Some found)
  /\ (_check_path_to_mosfet_gate start_net gate_nets snapshot = true
      <-> exists g, In g gate_nets /\ gate_reachable snapshot start_net g).
Proof.
  split; [apply gate_path_loop_terminates|].
  unfold _check_path_to_mosfet_gate.
  destruct (PySet.mem start_net gate_nets) eqn:Es.
  - apply pyset_mem_true in Es. split; [|reflexivity]. intros _.
    exists start_net. split; [exact Es | constructor].
  - apply pyset_mem_false in Es.
    destruct (gate_path_loop_terminates snapshot gate_nets start_net) as [found Hf].
    rewrite Hf. destruct found.
    + split; [|reflexivity]. intros _.
      apply (gate_path_loop_sound _ _ start_net _ _ _ Hf).
      intros x [<-|[]]. constructor.
    + split; [discriminate|]. intros (g & Hg & Hreach). exfalso.
      destruct (gate_path_loop_complete _ _ _ _ _ Hf) as (closed & Hsub & Hgate & Hclosed).
      * intros x [<-|[]]. apply pyset_add_in. now left.
      * intros x Hx. apply pyset_add_in in Hx. destruct Hx as [->|[]]. exact Es.
      * intros x Hx. apply pyset_add_in in Hx. destruct Hx as [->|[]]. left. now left.
      * apply (Hgate g); [|exact Hg]. clear Hg.
        induction Hreach as [|a b _ IH Hb].
        -- apply Hsub. apply pyset_add_in. now left.
        -- now apply (Hclosed a).
Qed.

(* ================================================================== *)
(** ** Who the interface checker reports (interface_checker.py) *)
(* ================================================================== *)

Lemma prefix_ref (r rest : string) :
  String.prefix (r ++ ": ") (r ++ String ":" (String " " rest)) = true.
Proof.
  induction r as [|c r IH]; cbn [append String.prefix].
  - destruct (Ascii.ascii_dec ":" ":") as [_|H]; [|now contradiction H].
    destruct (Ascii.ascii_dec " " " ") as [_|H]; [|now contradiction H].
    now destruct rest.
  - destruct (Ascii.ascii_dec c c) as [_|H]; [exact IH | now contradiction H].
Qed.

(** X20 (interface_checker.check_interfaces).  Every message of the
    interface checker is about a gate driver or an isolated supply of the
    snapshot and starts with its reference; MOSFETs and passives are never
    reported on their own, and a snapshot without drivers and supplies
    passes. *)
Theorem check_interfaces_reports_drivers (snapshot : Snapshot) (kg_store : option KGStore) :
  (forall m,
     In m (check_interfaces snapshot kg_store) ->
     exists comp,
       In comp (components snapshot)
       /\ (Py.mem (part_id comp) ALL_GATE_DRIVERS = true
           \/ Py.mem (part_id comp) ISOLATED_SUPPLIES = true)
       /\ Py.startswith m (ref comp ++ ": ") = true)
  /\ (_find_gate_drivers snapshot = [] -> _find_isolated_supplies snapshot = [] ->
      check_interfaces snapshot kg_store = []).
Proof.
  split.
  - intros m Hm. unfold check_interfaces in Hm. cbv zeta in Hm.
    assert (Hdrv : forall driver, In driver (_find_gate_drivers snapshot) ->
                     In driver (components snapshot)
                     /\ Py.mem (part_id driver) ALL_GATE_DRIVERS = true).
    { intros driver Hd. unfold _find_gate_drivers in Hd. now apply filter_In in Hd. }
    assert (Hsup : forall supply, In supply (_find_isolated_supplies snapshot) ->
                     In supply (components snapshot)
                     /\ Py.mem (part_id supply) ISOLATED_SUPPLIES = true).
    { intros supply Hd. unfold _find_isolated_supplies in Hd. now apply filter_In in Hd. }
    unfold Py.startswith.
    repeat (apply in_app_or in Hm; destruct Hm as [Hm|Hm]).
    + unfold _check_gate_driver_to_mosfet in Hm. cbv zeta in Hm.
      apply in_flat_map in Hm. destruct Hm as (driver & Hd & Hm).
      apply in_flat_map in Hm. destruct Hm as (out_pin & _ & Hm).
      destruct (Hdrv driver Hd) as [Hin Hpart]. exists driver.
      split; [exact Hin|]. split; [now left|].
      destruct (_get_pin_net driver out_pin) as [n|].
      * destruct (_is_not_connected (Some n)); [destruct Hm as [<-|[]]; apply prefix_ref|].
        destruct (negb _); [destruct Hm as [<-|[]]; apply prefix_ref | destruct Hm].
      * destruct Hm as [<-|[]]. apply prefix_ref.
    + unfold _check_gate_resistors in Hm.
      apply in_flat_map in Hm. destruct Hm as (driver & Hd & Hm).
      apply in_flat_map in Hm. destruct Hm as (out_pin & _ & Hm).
      destruct (Hdrv driver Hd) as [Hin Hpart]. exists driver.
      split; [exact Hin|]. split; [now left|]. cbv zeta in Hm.
      destruct (_get_pin_net driver out_pin) as [n|]; [|destruct Hm].
      destruct (_is_not_connected (Some n)); [destruct Hm|].
      destruct (existsb _ _); [destruct Hm|].
      apply in_flat_map in Hm. destruct Hm as (ep & _ & Hm).
      destruct (_find_component_by_ref snapshot (ep_ref ep)) as [comp|]; [|destruct Hm].
      destruct (_is_mosfet (part_id comp)); [|destruct Hm].
      destruct Hm as [<-|[]]. apply prefix_ref.
    + unfold _check_kelvin_source_connections in Hm.
      destruct (kelvin_maps (_find_mosfets snapshot) kg_store) as [ks_nets power_source_nets].
      apply in_flat_map in Hm. destruct Hm as (driver & Hd & Hm).
      destruct (Hdrv driver Hd) as [Hin Hpart]. exists driver.
      split; [exact Hin|]. split; [now left|].
      destruct (negb (Py.mem (part_id driver) ISOLATED_GATE_DRIVERS)); [destruct Hm|].
      destruct (_get_driver_gnd2_pin (part_id driver)) as [gnd2_pin|]; [|destruct Hm].
      cbv zeta in Hm.
      destruct (_get_pin_net driver gnd2_pin) as [n|];
        [|destruct Hm as [<-|[]]; apply prefix_ref].
      destruct (_is_not_connected (Some n)); [destruct Hm as [<-|[]]; apply prefix_ref|].
      destruct (PySet.mem n ks_nets); [destruct Hm|].
      destruct (Py.dict_get power_source_nets n) as [mosfet_ref|]; [|destruct Hm].
      destruct (_find_component_by_ref snapshot mosfet_ref) as [mosfet|]; [|destruct Hm].
      destruct (_get_mosfet_ks_pin (part_id mosfet) kg_store) as [ks_pin|]; [|destruct Hm].
      destruct (Py.truthy (Some ks_pin)); [|destruct Hm].
      destruct Hm as [<-|[]]. apply prefix_ref.
    + unfold _check_isolated_supply_connections in Hm.
      apply in_flat_map in Hm. destruct Hm as (supply & Hd & Hm).
      destruct (Hsup supply Hd) as [Hin Hpart]. exists supply.
      split; [exact Hin|]. split; [now right|].
      destruct (String.eqb (part_id supply) "MGJ2D121505SC"); [|destruct Hm].
      repeat (apply in_app_or in Hm; destruct Hm as [Hm|Hm]);
        match type of Hm with
        | In _ (if ?c then _ else _) => destruct c; [destruct Hm as [<-|[]] | destruct Hm]
        end; apply prefix_ref.
    + unfold _check_bootstrap_connections in Hm.
      apply in_flat_map in Hm. destruct Hm as (driver & Hd & Hm).
      destruct (Hdrv driver Hd) as [Hin Hpart]. exists driver.
      split; [exact Hin|]. split; [now left|].
      destruct (negb (String.eqb (part_id driver) "UCC27211")); [destruct Hm|].
      cbv zeta in Hm.
      destruct (_is_not_connected (_get_pin_net driver "2"));
        [destruct Hm as [<-|[]]; apply prefix_ref|].
      destruct (_is_not_connected (_get_pin_net driver "4"));
        [destruct Hm as [<-|[]]; apply prefix_ref|].
      destruct (PySet.inter _ _); [destruct Hm as [<-|[]]; apply prefix_ref | destruct Hm].
  - intros Hd Hs. unfold check_interfaces. cbv zeta. rewrite Hd, Hs.
    unfold _check_gate_driver_to_mosfet, _check_gate_resistors, _check_kelvin_source_connections,
      _check_isolated_supply_connections, _check_bootstrap_connections.
    destruct (kelvin_maps (_find_mosfets snapshot) kg_store). reflexivity.
Qed.

(* ================================================================== *)
(** ** Phase 2 on the complex tasks (phase2_checks.py) *)
(* ================================================================== *)

(** X21 (phase2_checks.run_phase2_checks).  For the complex tasks 17 to
    23 Phase 2 runs only its generic checks: none of the task-specific
    checks applies (the strict half-bridge checks stop at task 12), and a
    gate net with a single endpoint is reported as floating. *)
Theorem phase2_generic_on_complex_tasks (snapshot : Snapshot) (kg_store : option KGStore)
  (task_id : Z) :
  (17 <= task_id <= 23)%Z ->
  run_phase2_checks snapshot kg_store (Some task_id)
  = _check_constraints snapshot kg_store None
    ++ _check_acs37010_ip_short snapshot
    ++ _check_mgj2d_vin_short snapshot.
Proof.
  intros Hrange. unfold run_phase2_checks.
  assert (Hin : forall tasks, (forall t, In t tasks -> (t < 17)%Z) ->
                  task_in (Some task_id) tasks = false).
  { intros tasks Ht. unfold task_in.
    induction tasks as [|t tasks IH]; [reflexivity|]. cbn [existsb].
    destruct (Z.eqb_spec task_id t) as [->|_].
    - specialize (Ht t (or_introl eq_refl)). lia.
    - apply IH. intros x Hx. apply Ht. now right. }
  assert (His : forall t, (t < 17)%Z -> task_is (Some task_id) t = false).
  { intros t Ht. unfold task_is. apply Z.eqb_neq. lia. }
  rewrite (His 6%Z), (His 15%Z), (His 13%Z) by lia.
  rewrite (Hin STRICT_HALFBRIDGE_TASKS), (Hin KS_SOURCE_RLC_TASKS).
  - cbn [Datatypes.app]. rewrite !app_nil_r.
    unfold _check_constraints. cbv zeta. rewrite (Hin GATE_FLOAT_TASKS); [reflexivity|].
    intros t Ht. unfold GATE_FLOAT_TASKS in Ht. cbn [In] in Ht.
    repeat (destruct Ht as [<-|Ht]; [lia|]). destruct Ht.
  - intros t Ht. unfold KS_SOURCE_RLC_TASKS in Ht. cbn [In] in Ht.
    repeat (destruct Ht as [<-|Ht]; [lia|]). destruct Ht.
  - intros t Ht. unfold STRICT_HALFBRIDGE_TASKS in Ht. cbn [In] in Ht.
    repeat (destruct Ht as [<-|Ht]; [lia|]). destruct Ht.
Qed.

Lemma phase2_generic_on_complex_tasks_witness :
  run_phase2_checks Samples.full_bridge_snapshot None (Some 23%Z)
  = _check_constraints Samples.full_bridge_snapshot None None
    ++ _check_acs37010_ip_short Samples.full_bridge_snapshot
    ++ _check_mgj2d_vin_short Samples.full_bridge_snapshot.
Proof.
  apply (phase2_generic_on_complex_tasks Samples.full_bridge_snapshot None 23%Z). lia.
Defined.

(* ================================================================== *)
(** ** The R/L/C path search (phase2_checks.py) *)
(* ================================================================== *)

Lemma rlc_push_fold (allowed : Py.strset) (nbs : list string) :
  forall q visited,
    exists new,
      fold_left (rlc_push allowed) nbs (q, visited) = (q ++ new, fold_left
        (fun v n => PySet.add n v) new visited)
      /\ (forall x, In x new -> In x nbs /\ In x allowed)
      /\ (forall x, In x nbs -> In x allowed ->
                    In x (fold_left (fun v n => PySet.add n v) new visited))
      /\ (forall x, In x (fold_left (fun v n => PySet.add n v) new visited)
                    <-> In x visited \/ In x new).
Proof.
  induction nbs as [|nb nbs IH]; intros q visited.
  - exists []. cbn [fold_left]. rewrite app_nil_r.
    split; [reflexivity|]. split; [intros x []|]. split; [intros x []|].
    intros x. cbn [In]. tauto.
  - cbn [fold_left]. unfold rlc_push at 2.
    destruct (PySet.mem nb visited || negb (PySet.mem nb allowed)) eqn:E.
    + destruct (IH q visited) as (new & Hf & Hnew & Hall & Hv). exists new.
      split; [exact Hf|]. split; [|split; [|exact Hv]].
      * intros x Hx. destruct (Hnew x Hx). split; [now right | assumption].
      * intros x [<-|Hx] Ha; [|now apply Hall].
        apply orb_true_iff in E. destruct E as [E|E].
        -- apply Hv. left. now apply pyset_mem_true.
        -- apply negb_true_iff in E. apply pyset_mem_false in E. contradiction.
    + apply orb_false_iff in E. destruct E as [E1 E2]. apply negb_false_iff in E2.
      apply pyset_mem_true in E2.
      destruct (IH (q ++ [nb]) (PySet.add nb visited)) as (new & Hf & Hnew & Hall & Hv).
      exists (nb :: new). cbn [fold_left]. rewrite Hf, <- app_assoc.
      split; [reflexivity|]. split; [|split].
      * intros x [<-|Hx]; [split; [now left | exact E2]|].
        destruct (Hnew x Hx). split; [now right | assumption].
      * intros x [<-|Hx] Ha; [|now apply Hall].
        apply Hv. left. apply pyset_add_in. now left.
      * intros x. rewrite Hv, pyset_add_in. cbn [In]. intuition congruence.
Qed.

Lemma rlc_loop_sound (g : NetGraph) (allowed : Py.strset) (start end_ : string) (fuel : nat) :
  forall q visited,
    rlc_loop fuel g allowed end_ q visited = Some true ->
    (forall x, In x q -> rlc_reachable g allowed start x) ->
    rlc_reachable g allowed start end_.
Proof.
  induction fuel as [|fuel IH]; intros q visited H Hq; [discriminate|].
  cbn [rlc_loop] in H. destruct q as [|node rest]; [discriminate|].
  destruct (String.eqb node end_) eqn:E.
  - apply String.eqb_eq in E. subst. apply Hq. now left.
  - destruct (rlc_push_fold allowed (neighbours g node) rest visited)
      as (new & Hf & Hnew & _). rewrite Hf in H.
    apply (IH _ _ H). intros x Hx. apply in_app_or in Hx. destruct Hx as [Hx|Hx].
    + apply Hq. now right.
    + destruct (Hnew x Hx) as [Hn Ha].
      apply rlc_reach_step with (a := node); [apply Hq; now left | exact Hn | exact Ha].
Qed.

Lemma rlc_loop_complete (g : NetGraph) (allowed : Py.strset) (end_ : string) (fuel : nat) :
  forall q visited,
    rlc_loop fuel g allowed end_ q visited = Some false ->
    (forall x, In x q -> In x visited) ->
    (forall x, In x visited ->
       In x q \/ (x <> end_ /\ forall b, In b (neighbours g x) -> In b allowed -> In b visited)) ->
    exists closed,
      (forall x, In x visited -> In x closed)
      /\ ~ In end_ closed
      /\ (forall x b, In x closed -> In b (neighbours g x) -> In b allowed -> In b closed).
Proof.
  induction fuel as [|fuel IH]; intros q visited H Hq Hc; [discriminate|].
  cbn [rlc_loop] in H. destruct q as [|node rest].
  - exists visited. split; [auto|]. split.
    + intros He. destruct (Hc end_ He) as [[]|[Hne _]]. now apply Hne.
    + intros x b Hx Hb Ha. destruct (Hc x Hx) as [[]|[_ Hall]]. now apply Hall.
  - destruct (String.eqb node end_) eqn:E; [discriminate|]. apply String.eqb_neq in E.
    destruct (rlc_push_fold allowed (neighbours g node) rest visited)
      as (new & Hf & Hnew & Hall & Hv). rewrite Hf in H.
    destruct (IH _ _ H) as (closed & Hsub & Hend & Hclosed).
    + intros x Hx. apply Hv. apply in_app_or in Hx. destruct Hx as [Hx|Hx].
      * left. apply Hq. now right.
      * now right.
    + intros x Hx. apply Hv in Hx. destruct Hx as [Hx|Hx].
      * destruct (Hc x Hx) as [[<-|Hin]|[Hne Hdone]].
        -- right. split; [exact E|]. intros b Hb Ha. now apply Hall.
        -- left. apply in_or_app. now left.
        -- right. split; [exact Hne|]. intros b Hb Ha. apply Hv. left. now apply Hdone.
      * left. apply in_or_app. now right.
    + exists closed. split; [|split; assumption].
      intros x Hx. apply Hsub. apply Hv. now left.
Qed.

(** X22 (phase2_checks._has_rlc_path).  The search finishes, and it finds
    a path exactly when both nets are nodes of the graph and the end net
    can be reached from the start net along edges of the graph through
    allowed nodes only; the start net itself need not be allowed. *)
Theorem has_rlc_path_spec (g : NetGraph) (allowed : Py.strset) (start_net end_net : string) :
  (exists found,
     rlc_loop (dfs_fuel g) g allowed (net_node end_net) [net_node start_net]
       (PySet.add (net_node start_net) []) = Some found)
  /\ (_has_rlc_path g allowed start_net end_net = true
      <-> Py.dict_has g (net_node start_net) = true
          /\ Py.dict_has g (net_node end_net) = true
          /\ rlc_reachable g allowed (net_node start_net) (net_node end_net)).
Proof.
  split; [apply rlc_loop_terminates|].
  unfold _has_rlc_path. cbv zeta.
  destruct (Py.dict_has g (net_node start_net)); cbn [negb orb];
    [|split; [discriminate | intros (H & _); discriminate H]].
  destruct (Py.dict_has g (net_node end_net)); cbn [negb];
    [|split; [discriminate | intros (_ & H & _); discriminate H]].
  destruct (rlc_loop_terminates g allowed (net_node start_net) (net_node end_net))
    as [found Hf].
  rewrite Hf. destruct found.
  - split; [|reflexivity]. intros _. repeat split.
    apply (rlc_loop_sound _ _ _ _ _ _ _ Hf). intros x [<-|[]]. constructor.
  - split; [discriminate|]. intros (_ & _ & Hreach). exfalso.
    destruct (rlc_loop_complete _ _ _ _ _ _ Hf) as (closed & Hsub & Hend & Hclosed).
    + intros x [<-|[]]. apply pyset_add_in. now left.
    + intros x Hx. apply pyset_add_in in Hx. destruct Hx as [->|[]]. left. now left.
    + apply Hend.
      assert (Hin : forall x, rlc_reachable g allowed (net_node start_net) x -> In x closed).
      { intros x Hx. induction Hx as [|a b _ IH Hb Ha].
        - apply Hsub. apply pyset_add_in. now left.
        - now apply (Hclosed a). }
      now apply Hin.
Qed.

(* ================================================================== *)
(** ** Numeric pin ids (isolation_domain.py) *)
(* ================================================================== *)

Lemma lstrip_no_space (s : string) : no_space s = true -> Py.lstrip s = s.
Proof.
  destruct s as [|c r]; [reflexivity|]. cbn [no_space Py.lstrip]. intros H.
  apply andb_true_iff in H. destruct H as [H _]. apply negb_true_iff in H. now rewrite H.
Qed.

Lemma rev_onto_no_space (s acc : string) :
  no_space (Py.rev_onto s acc) = no_space s && no_space acc.
Proof.
  revert acc. induction s as [|c r IH]; intros acc; [reflexivity|].
  cbn [Py.rev_onto no_space]. rewrite IH. cbn [no_space].
  destruct (negb (Py.is_space c)), (no_space r), (no_space acc); reflexivity.
Qed.

Lemma rev_onto_rev_onto (s acc acc' : string) :
  Py.rev_onto (Py.rev_onto s acc) acc' = Py.rev_onto acc (s ++ acc')%string.
Proof.
  revert acc acc'. induction s as [|c r IH]; intros acc acc'; [reflexivity|].
  cbn [Py.rev_onto append]. rewrite IH. reflexivity.
Qed.

Lemma strip_no_space (s : string) : no_space s = true -> Py.strip s = s.
Proof.
  intros H. unfold Py.strip, Py.rstrip. rewrite (lstrip_no_space s H).
  rewrite lstrip_no_space.
  - unfold Py.rev. rewrite rev_onto_rev_onto. cbn [Py.rev_onto].
    clear H. induction s as [|c r IH]; [reflexivity|]. cbn [append]. now rewrite IH.
  - unfold Py.rev. rewrite rev_onto_no_space, H. reflexivity.
Qed.

Lemma uint_string_digits (d : uint) :
  Py.all_digits (NilEmpty.string_of_uint d) = true
  /\ no_space (NilEmpty.string_of_uint d) = true.
Proof.
  induction d as [|d [IH1 IH2]|d [IH1 IH2]|d [IH1 IH2]|d [IH1 IH2]|d [IH1 IH2]|d [IH1 IH2]
                  |d [IH1 IH2]|d [IH1 IH2]|d [IH1 IH2]|d [IH1 IH2]];
    cbn [NilEmpty.string_of_uint Py.all_digits no_space]; try (now split);
    rewrite IH1, IH2; split; reflexivity.
Qed.

Lemma int_digits_uint (d : uint) :
  forall acc,
    (0 <= acc)%Z ->
    int_digits (NilEmpty.string_of_uint d) acc false
    = Some (Z.of_nat (Nat.of_uint_acc d (Z.to_nat acc))).
Proof.
  induction d; intros acc Hacc; cbn [NilEmpty.string_of_uint int_digits Nat.of_uint_acc];
    try (f_equal; lia);
    match goal with
    | |- context [Py.is_digit ?c] =>
        replace (Py.is_digit c) with true by reflexivity
    end;
    rewrite IHd by (cbn; lia); do 3 f_equal; rewrite Nat.tail_mul_spec; cbn; lia.
Qed.

Lemma to_uint_not_nil (k : nat) : Nat.to_uint k <> Nil.
Proof.
  intros H. pose proof (Unsigned.of_to k) as E. rewrite H in E. cbn in E. subst k.
  discriminate H.
Qed.

Lemma parse_int_str_of_nat (k : nat) : parse_int (Py.str_of_nat k) = Some (Z.of_nat k).
Proof.
  unfold parse_int, Py.str_of_nat.
  destruct (uint_string_digits (Nat.to_uint k)) as [Hd Hs]. rewrite (strip_no_space _ Hs).
  pose proof (int_digits_uint (Nat.to_uint k) 0%Z (Z.le_refl 0)) as Hv.
  change (Z.to_nat 0) with 0 in Hv. fold (Nat.of_uint (Nat.to_uint k)) in Hv.
  rewrite Unsigned.of_to in Hv.
  pose proof (to_uint_not_nil k) as Hn.
  destruct (Nat.to_uint k) as [|d|d|d|d|d|d|d|d|d|d]; [now contradiction Hn| ..];
    cbn [NilEmpty.string_of_uint] in *; unfold int_unsigned;
    match goal with
    | |- context [Py.is_digit ?c] => replace (Py.is_digit c) with true by reflexivity
    end; exact Hv.
Qed.

Lemma parse_int_str_of_Z (n : Z) : parse_int (str_of_Z n) = Some n.
Proof.
  unfold str_of_Z. destruct (n <? 0)%Z eqn:E.
  - apply Z.ltb_lt in E.
    pose proof (parse_int_str_of_nat (Z.to_nat (- n))) as H.
    unfold parse_int in *. unfold Py.str_of_nat in *.
    destruct (uint_string_digits (Nat.to_uint (Z.to_nat (- n)))) as [Hd Hs].
    rewrite (strip_no_space _ Hs) in H.
    rewrite strip_no_space by (cbn [append no_space]; now rewrite Hs).
    cbn [append].
    pose proof (to_uint_not_nil (Z.to_nat (- n))) as Hn.
    assert (Hu : int_unsigned (NilEmpty.string_of_uint (Nat.to_uint (Z.to_nat (- n))))
                 = Some (Z.of_nat (Z.to_nat (- n)))).
    { destruct (Nat.to_uint (Z.to_nat (- n))) as [|d|d|d|d|d|d|d|d|d|d];
        [now contradiction Hn| ..]; cbn [NilEmpty.string_of_uint] in *; exact H. }
    rewrite Hu. cbn [option_map]. f_equal. lia.
  - apply Z.ltb_ge in E. rewrite parse_int_str_of_nat. f_equal. lia.
Qed.

(** X23 (isolation_domain._pin_in_set).  The decimal text of an integer
    reads back as that integer, and such a pin id is found in a pin set
    exactly when the integer itself is a key: a key given as a string
    never matches a numeric pin id. *)
Theorem pin_in_set_integer_keys (n : Z) (pin_set : list PinKey) :
  parse_int (str_of_Z n) = Some n
  /\ (_pin_in_set (str_of_Z n) pin_set = true <-> In (PinInt n) pin_set).
Proof.
  split; [apply parse_int_str_of_Z|].
  unfold _pin_in_set. rewrite parse_int_str_of_Z, existsb_exists. split.
  - intros ([m|s] & Hin & E); [|discriminate]. apply Z.eqb_eq in E. now subst.
  - intros H. exists (PinInt n). split; [exact H | apply Z.eqb_refl].
Qed.

(* ================================================================== *)
(** ** The feedback text (complex_task_validator.py) *)
(* ================================================================== *)

Lemma prefix_refl (s : string) : String.prefix s s = true.
Proof.
  induction s as [|c s IH]; [reflexivity|]. cbn [String.prefix].
  destruct (Ascii.ascii_dec c c) as [_|H]; [exact IH | now contradiction H].
Qed.

Lemma contains_refl (s : string) : Py.contains s s = true.
Proof. destruct s; cbn [Py.contains]; now rewrite prefix_refl. Qed.

Lemma contains_app_r (needle a b : string) :
  Py.contains needle b = true -> Py.contains needle (a ++ b) = true.
Proof.
  intros H. induction a as [|c a IH]; [exact H|].
  cbn [append Py.contains]. rewrite IH. apply orb_true_r.
Qed.

Lemma contains_concat (sep x : string) (l : list string) :
  In x l -> Py.contains x (String.concat sep l) = true.
Proof.
  induction l as [|y l IH]; [intros []|]. intros [->|Hin]; cbn [String.concat].
  - destruct l; [apply contains_refl | apply contains_app, contains_refl].
  - destruct l as [|z l]; [destruct Hin|]. apply contains_app_r, contains_app_r. now apply IH.
Qed.

Ltac find_item H :=
  solve [ exact H
        | apply in_or_app; left; find_item H
        | apply in_or_app; right; find_item H
        | right; find_item H ].

(** X24 (complex_task_validator.get_validation_feedback_for_llm).  The
    feedback is empty exactly when there is neither an error nor a
    warning; otherwise it opens with the failure heading and quotes every
    error and every warning as a list item. *)
Theorem validation_feedback_keeps_findings (errors warnings : list string) :
  (get_validation_feedback_for_llm errors warnings = EmptyString
   <-> errors = [] /\ warnings = [])
  /\ (errors <> [] \/ warnings <> [] ->
      Py.startswith (get_validation_feedback_for_llm errors warnings)
        "## Topology Verification Failed" = true)
  /\ (forall e, In e errors \/ In e warnings ->
        Py.contains ("- " ++ e) (get_validation_feedback_for_llm errors warnings) = true).
Proof.
  split; [|split].
  - split.
    + destruct errors, warnings; try (intros _; now split); discriminate.
    + intros [-> ->]. reflexivity.
  - intros H. destruct errors as [|e es], warnings as [|w ws]; try reflexivity.
    destruct H as [H|H]; now contradiction H.
  - intros e H.
    assert (Hin : forall lines, In ("- " ++ e)%string lines ->
                    Py.contains ("- " ++ e) (String.concat newline lines) = true).
    { intros lines. apply contains_concat. }
    assert (He : forall l : list string, In e l -> In ("- " ++ e)%string
                                                      (map (fun x => ("- " ++ x)%string) l)).
    { intros l Hl. apply in_map_iff. now exists e. }
    unfold get_validation_feedback_for_llm.
    destruct errors as [|e0 es], warnings as [|w0 ws];
      [destruct H as [[]|[]] | apply Hin; cbv zeta ..];
      destruct H as [H|H]; try (now destruct H); apply He in H; find_item H.
Qed.

(* ================================================================== *)
(** ** What augmentation writes (build_topology.py, kg_loader.py) *)
(* ================================================================== *)

Lemma infer_category_named (part ref_ : string) (kg_store : option KGStore) :
  infer_category part ref_ kg_store <> EmptyString.
Proof.
  unfold infer_category.
  destruct kg_store as [kg|].
  - destruct (get_category kg (_normalize_part_id part)) as [c|] eqn:E.
    + unfold get_category in E.
      destruct (get_component kg (_normalize_part_id part)) as [comp|].
      * destruct (Py.truthy (kg_category comp)) eqn:Et.
        -- destruct (kg_category comp) as [[|a s]|]; try discriminate Et.
           injection E as <-. discriminate.
        -- destruct (get_component_info kg (_normalize_part_id part)) as [cat|];
             [|discriminate].
           destruct (Py.truthy cat) eqn:Ec; [|discriminate].
           destruct cat as [[|a s]|]; try discriminate Ec. injection E as <-. discriminate.
      * destruct (get_component_info kg (_normalize_part_id part)) as [cat|]; [|discriminate].
        destruct (Py.truthy cat) eqn:Ec; [|discriminate].
        destruct cat as [[|a s]|]; try discriminate Ec. injection E as <-. discriminate.
    + repeat match goal with |- context [if ?c then _ else _] => destruct c end; discriminate.
  - repeat match goal with |- context [if ?c then _ else _] => destruct c end; discriminate.
Qed.

Lemma augment_component_wiring (kg_store : option KGStore) (c : Component) :
  augment_component kg_store (wiring_of_component c) = augment_component kg_store c
  /\ wiring_of_component (augment_component kg_store c) = wiring_of_component c.
Proof.
  unfold augment_component, wiring_of_component.
  cbn [ref part_id value pins category]. rewrite !map_map. cbn [pin_id pin_name net].
  split; reflexivity.
Qed.

(** X25 (build_topology.augment_snapshot, kg_loader.infer_category).
    Augmentation changes no wiring, its result depends on the wiring
    alone (annotations that were there before are overwritten), and it
    leaves every component with a category that is not empty. *)
Theorem augment_snapshot_annotates (snapshot : Snapshot) (kg_store : option KGStore) :
  wiring (augment_snapshot snapshot kg_store) = wiring snapshot
  /\ augment_snapshot (wiring snapshot) kg_store = augment_snapshot snapshot kg_store
  /\ (forall comp, In comp (components (augment_snapshot snapshot kg_store)) ->
        exists c, category comp = Some c /\ c <> EmptyString).
Proof.
  assert (Hcomps : map (augment_component kg_store) (map wiring_of_component
                                                       (components snapshot))
                   = map (augment_component kg_store) (components snapshot)).
  { rewrite map_map. apply map_ext. intros c. apply augment_component_wiring. }
  split; [|split].
  - unfold wiring, augment_snapshot. cbn [components nets]. f_equal.
    + rewrite map_map. apply map_ext. intros c. apply augment_component_wiring.
    + rewrite map_map. apply map_ext. intros n. unfold wiring_of_net, augment_net.
      cbn [name endpoints]. now rewrite map_map.
  - unfold augment_snapshot, wiring. cbn [components nets]. rewrite Hcomps. f_equal.
    rewrite map_map. apply map_ext. intros n. unfold augment_net, wiring_of_net.
    cbn [name endpoints]. now rewrite map_map.
  - intros comp Hin. unfold augment_snapshot in Hin. cbn [components] in Hin.
    apply in_map_iff in Hin. destruct Hin as (c & <- & _).
    exists (infer_category (part_id c) (ref c) kg_store). split; [reflexivity|].
    apply infer_category_named.
Qed.

(* ================================================================== *)
(** ** Numbered and bare net names (net_conflict_checker.py) *)
(* ================================================================== *)

Lemma rsplit1_some (sep : ascii) (s a d : string) :
  rsplit1 sep s = Some (a, d) -> s = (a ++ String sep d)%string.
Proof.
  revert a. induction s as [|c r IH]; intros a H; [discriminate|].
  cbn [rsplit1] in H. destruct (rsplit1 sep r) as [[a' d']|].
  - injection H as <- <-. cbn [append]. f_equal. now apply IH.
  - destruct (Ascii.eqb c sep) eqn:E; [|discriminate].
    apply Ascii.eqb_eq in E. injection H as <- <-. now subst.
Qed.

Lemma rsplit1_app (sep : ascii) (a d : string) :
  rsplit1 sep d = None -> rsplit1 sep (a ++ String sep d) = Some (a, d).
Proof.
  intros H. induction a as [|c a IH]; cbn [append rsplit1].
  - now rewrite H, Ascii.eqb_refl.
  - now rewrite IH.
Qed.

Lemma rsplit1_digits (d : string) : Py.all_digits d = true -> rsplit1 "_" d = None.
Proof.
  induction d as [|c d IH]; [reflexivity|]. cbn [Py.all_digits rsplit1]. intros H.
  apply andb_true_iff in H. destruct H as [Hc Hd]. rewrite (IH Hd).
  destruct (Ascii.eqb c "_") eqn:E; [|reflexivity].
  apply Ascii.eqb_eq in E. subst c. discriminate Hc.
Qed.

Lemma numbered_base_spec (s b : string) :
  numbered_base s = Some b <-> exists d, s = (b ++ "_" ++ d)%string /\ Py.isdigit d = true.
Proof.
  unfold numbered_base. split.
  - destruct (rsplit1 "_" s) as [[base suffix]|] eqn:E; [|discriminate].
    destruct (Py.isdigit suffix) eqn:Ed; [|discriminate].
    intros H. injection H as <-. exists suffix. split; [|exact Ed].
    now apply rsplit1_some.
  - intros (d & -> & Hd). cbn [append].
    rewrite rsplit1_app, Hd; [reflexivity|].
    apply rsplit1_digits. destruct d; [discriminate | exact Hd].
Qed.

Lemma instance_step_fold (ns : list Net) :
  forall (d : Py.dict (list (string * bool))) (f : string -> list (string * bool)),
    NoDup (map fst d) ->
    (forall b, Py.dict_get d b = grouped (f b)) ->
    NoDup (map fst (fold_left instance_step ns d))
    /\ forall b,
         Py.dict_get (fold_left instance_step ns d) b
         = grouped (f b ++ flat_map
                             (fun n =>
                                match numbered_base (name n) with
                                | Some base => if String.eqb base b then [(name n, true)] else []
                                | None => if String.eqb (name n) b then [(name n, false)] else []
                                end) ns).
Proof.
  induction ns as [|n ns IH]; intros d f Hn Hd; cbn [fold_left flat_map].
  - split; [exact Hn|]. intros b. now rewrite app_nil_r.
  - destruct (IH (instance_step d n)
                (fun b => f b ++ match numbered_base (name n) with
                                 | Some base =>
                                     if String.eqb base b then [(name n, true)] else []
                                 | None => if String.eqb (name n) b then [(name n, false)] else []
                                 end)) as [IH1 IH2].
    + unfold instance_step. destruct (rsplit1 "_" (name n)) as [[base suffix]|];
        [destruct (Py.isdigit suffix)|]; now apply dict_update_nodup.
    + intros b. unfold instance_step, numbered_base.
      destruct (rsplit1 "_" (name n)) as [[base suffix]|];
        [destruct (Py.isdigit suffix)|]; now apply dict_get_append.
    + split; [exact IH1|]. intros b. rewrite IH2, <- app_assoc. reflexivity.
Qed.

(** X26 (net_conflict_checker._check_instance_conflicts).  On a snapshot
    whose net names are ASCII, the check is silent exactly when no base
    name occurs both bare, as the name of a net that does not itself end in
    [_<digits>], and numbered, as the name of a net followed by
    [_<digits>]; a name such as [A_1] counts as a numbered [A], never as a
    bare [A_1].  (Beyond ASCII, Python's [isdigit] accepts further digits,
    which the statement does not cover.) *)
Theorem instance_conflicts_spec (snapshot : Snapshot) :
  (forall n, In n (nets snapshot) -> Py.isascii (name n) = true) ->
  (_check_instance_conflicts snapshot = []
   <-> forall b,
         ~ ((exists n, In n (nets snapshot) /\ name n = b /\ numbered_base b = None)
            /\ (exists n, In n (nets snapshot) /\ numbered_base (name n) = Some b)))
  /\ (forall s b,
        Py.isascii s = true ->
        (numbered_base s = Some b
         <-> exists d, s = (b ++ "_" ++ d)%string /\ Py.isdigit d = true)).
Proof.
  intros _. split; [|intros s b _; apply numbered_base_spec].
  unfold _check_instance_conflicts.
  destruct (instance_step_fold (nets snapshot) [] (fun _ => [])) as [Hn Hd];
    [constructor | reflexivity|].
  assert (Hd' : forall b,
             Py.dict_get (fold_left instance_step (nets snapshot) []) b
             = grouped (instances_of snapshot b)) by exact Hd.
  clear Hd. rename Hd' into Hd.
  assert (Hnum : forall b,
             existsb (fun i => snd i) (instances_of snapshot b) = true
             <-> exists n, In n (nets snapshot) /\ numbered_base (name n) = Some b).
  { intros b. rewrite existsb_exists. unfold instances_of. split.
    - intros ([nm fl] & Hin & Hfl). cbn [snd] in Hfl. subst fl.
      apply in_flat_map in Hin. destruct Hin as (n & Hnin & Hin). exists n. split; [exact Hnin|].
      destruct (numbered_base (name n)) as [base|].
      + destruct (String.eqb base b) eqn:E; [|destruct Hin].
        apply String.eqb_eq in E. now subst.
      + destruct (String.eqb (name n) b); [|destruct Hin]. destruct Hin as [H|[]]. discriminate H.
    - intros (n & Hnin & Hb). exists (name n, true). split; [|reflexivity].
      apply in_flat_map. exists n. split; [exact Hnin|]. rewrite Hb, String.eqb_refl. now left. }
  assert (Hbare : forall b,
             existsb (fun i => negb (snd i)) (instances_of snapshot b) = true
             <-> exists n, In n (nets snapshot) /\ name n = b /\ numbered_base b = None).
  { intros b. rewrite existsb_exists. unfold instances_of. split.
    - intros ([nm fl] & Hin & Hfl). cbn [snd] in Hfl. apply negb_true_iff in Hfl. subst fl.
      apply in_flat_map in Hin. destruct Hin as (n & Hnin & Hin). exists n. split; [exact Hnin|].
      destruct (numbered_base (name n)) as [base|] eqn:Eb.
      + destruct (String.eqb base b); [|destruct Hin]. destruct Hin as [H|[]]. discriminate H.
      + destruct (String.eqb (name n) b) eqn:E; [|destruct Hin].
        apply String.eqb_eq in E. subst b. now split.
    - intros (n & Hnin & <- & Hb). exists (name n, false). split; [|reflexivity].
      apply in_flat_map. exists n. split; [exact Hnin|]. rewrite Hb, String.eqb_refl. now left. }
  rewrite flat_map_nil. split.
  - intros H b [Hb Hm].
    apply Hbare in Hb. apply Hnum in Hm.
    assert (Hin : In (b, instances_of snapshot b) (fold_left instance_step (nets snapshot) [])).
    { apply (dict_in_get _ _ _ Hn). rewrite Hd.
      destruct (instances_of snapshot b); [discriminate Hb | reflexivity]. }
    specialize (H _ Hin). unfold instance_warning in H. rewrite Hm, Hb in H. discriminate H.
  - intros H [b instances] Hin. apply (dict_in_get _ _ _ Hn) in Hin. rewrite Hd in Hin.
    assert (Hi : instances = instances_of snapshot b).
    { destruct (instances_of snapshot b); [discriminate | now injection Hin]. }
    subst instances. unfold instance_warning.
    destruct (existsb (fun i => snd i) (instances_of snapshot b)) eqn:E1; [|reflexivity].
    destruct (existsb (fun i => negb (snd i)) (instances_of snapshot b)) eqn:E2; [|reflexivity].
    exfalso. apply (H b). split; [now apply Hbare | now apply Hnum].
Qed.

(** X26, witness: the full-bridge sample, with the numbered nets [VSW_1]
    and [VSW_2] and no bare [VSW]. *)
Lemma instance_conflicts_spec_witness :
  (forall n, In n (nets Samples.full_bridge_snapshot) -> Py.isascii (name n) = true)
  /\ (_check_instance_conflicts Samples.full_bridge_snapshot = []
      <-> forall b,
            ~ ((exists n, In n (nets Samples.full_bridge_snapshot)
                          /\ name n = b /\ numbered_base b = None)
               /\ (exists n, In n (nets Samples.full_bridge_snapshot)
                             /\ numbered_base (name n) = Some b))).
Proof.
  assert (H : forall n, In n (nets Samples.full_bridge_snapshot) ->
                        Py.isascii (name n) = true).
  { intros n Hn. cbn [nets Samples.full_bridge_snapshot In] in Hn.
    repeat (destruct Hn as [<-|Hn]; [reflexivity|]). destruct Hn. }
  split; [exact H|].
  exact (proj1 (instance_conflicts_spec Samples.full_bridge_snapshot H)).
Defined.

(* ================================================================== *)
(** ** The lists of the power graph (system_topology_checker.py) *)
(* ================================================================== *)

Lemma power_graph_fold (kg_store : option KGStore) (comps : list Component) :
  forall g,
    let g' := fold_left (power_graph_step kg_store) comps g in
    mosfets g'
    = mosfets g ++ map (fun c => _extract_mosfet_connections c kg_store)
                     (filter (fun c => is_mosfet_part (part_id c)) comps)
    /\ inductors g'
       = inductors g ++ map _extract_inductor_connections
                          (filter (fun c => Py.mem (part_id c) POWER_INDUCTOR_IDS
                                            || Py.mem (part_id c) GENERIC_INDUCTOR_IDS) comps)
    /\ transformers g'
       = transformers g ++ map _extract_transformer_connections
                             (filter (fun c => Py.mem (part_id c) TRANSFORMER_IDS) comps).
Proof.
  induction comps as [|c comps IH]; intros g; cbn [fold_left filter map]; cbn zeta.
  - now rewrite !app_nil_r.
  - destruct (IH (power_graph_step kg_store g c)) as (IH1 & IH2 & IH3). cbn zeta in IH1, IH2, IH3.
    rewrite IH1, IH2, IH3. clear IH IH1 IH2 IH3.
    unfold power_graph_step. fold (is_mosfet_part (part_id c)).
    destruct (count_step_adds (mkCounts 0 0 0 0 0 0 0 0 0) c) as [_ Hone].
    unfold counted, class_counts in Hone.
    cbn [n_mosfets n_gate_drivers n_isolated_supplies n_transformers n_film_caps
         n_power_inductors n_inductors n_caps n_resistors] in Hone.
    destruct (is_mosfet_part (part_id c)) eqn:Em.
    + destruct (Py.mem (part_id c) POWER_INDUCTOR_IDS); [lia|].
      destruct (Py.mem (part_id c) GENERIC_INDUCTOR_IDS); [lia|].
      destruct (Py.mem (part_id c) TRANSFORMER_IDS); [lia|].
      cbn [mosfets inductors transformers orb map]. rewrite <- !app_assoc. now repeat split.
    + destruct (Py.mem (part_id c) POWER_INDUCTOR_IDS || Py.mem (part_id c) GENERIC_INDUCTOR_IDS)
        eqn:Ei.
      * destruct (Py.mem (part_id c) TRANSFORMER_IDS).
        { exfalso. destruct (Py.mem (part_id c) POWER_INDUCTOR_IDS),
            (Py.mem (part_id c) GENERIC_INDUCTOR_IDS); try discriminate Ei; lia. }
        cbn [mosfets inductors transformers map]. rewrite <- !app_assoc. now repeat split.
      * destruct (Py.mem (part_id c) TRANSFORMER_IDS);
          cbn [mosfets inductors transformers map]; rewrite <- ?app_assoc; now repeat split.
Qed.

(** X27 (system_topology_checker._build_power_graph against
    _count_components).  The power graph lists, in snapshot order, one
    entry for every MOSFET-pattern part, every inductor part and every
    transformer part, so that the lengths of its lists are the counters of
    the component count: the templates' own minimum-MOSFET tests look at
    the same number as the count check. *)
Theorem power_graph_matches_counts (snapshot : Snapshot) (kg_store : option KGStore) :
  let power_graph := _build_power_graph snapshot kg_store in
  let counts := _count_components snapshot in
  mosfets power_graph
  = map (fun c => _extract_mosfet_connections c kg_store)
      (filter (fun c => is_mosfet_part (part_id c)) (components snapshot))
  /\ inductors power_graph
     = map _extract_inductor_connections
         (filter (fun c => Py.mem (part_id c) POWER_INDUCTOR_IDS
                           || Py.mem (part_id c) GENERIC_INDUCTOR_IDS) (components snapshot))
  /\ transformers power_graph
     = map _extract_transformer_connections
         (filter (fun c => Py.mem (part_id c) TRANSFORMER_IDS) (components snapshot))
  /\ length (mosfets power_graph) = n_mosfets counts
  /\ length (inductors power_graph) = n_power_inductors counts + n_inductors counts
  /\ length (transformers power_graph) = n_transformers counts.
Proof.
  cbv zeta. unfold _build_power_graph.
  destruct (power_graph_fold kg_store (components snapshot) (mkPowerGraph [] [] [] []))
    as (H1 & H2 & H3). cbn zeta in H1, H2, H3.
  cbn [mosfets inductors transformers Datatypes.app] in H1, H2, H3.
  rewrite H1, H2, H3. clear H1 H2 H3. repeat split; rewrite length_map.
  - symmetry. apply (count_components_field snapshot n_mosfets is_mosfet_part); [|reflexivity].
    intros c comp. destruct (count_step_adds c comp) as [-> _]. reflexivity.
  - rewrite (count_components_field snapshot n_power_inductors
               (fun p => Py.mem p POWER_INDUCTOR_IDS)),
      (count_components_field snapshot n_inductors (fun p => Py.mem p GENERIC_INDUCTOR_IDS));
      try reflexivity;
      try (intros c comp; destruct (count_step_adds c comp) as [-> _]; reflexivity).
    unfold count_parts.
    induction (components snapshot) as [|c cs IH]; [reflexivity|]. cbn [filter].
    destruct (count_step_adds (mkCounts 0 0 0 0 0 0 0 0 0) c) as [_ Hone].
    unfold counted, class_counts in Hone.
    cbn [n_mosfets n_gate_drivers n_isolated_supplies n_transformers n_film_caps
         n_power_inductors n_inductors n_caps n_resistors] in Hone.
    destruct (Py.mem (part_id c) POWER_INDUCTOR_IDS),
      (Py.mem (part_id c) GENERIC_INDUCTOR_IDS); cbn [orb length]; lia.
  - symmetry.
    apply (count_components_field snapshot n_transformers (fun p => Py.mem p TRANSFORMER_IDS));
      [|reflexivity].
    intros c comp. destruct (count_step_adds c comp) as [-> _]. reflexivity.
Qed.

(* ================================================================== *)
(** ** The passive-induced components are the connected classes *)
(* ================================================================== *)

Lemma fold_left_rel {S A} (step : S -> A -> S) (M : S -> Prop) (P : A -> Prop) :
  (forall st a, M (step st a) <-> M st \/ P a) ->
  forall l st, M (fold_left step l st) <-> M st \/ exists a, In a l /\ P a.
Proof.
  intros Hstep. induction l as [|a l IH]; intros st; cbn [fold_left].
  - split; [now left | intros [H|(a & [] & _)]; exact H].
  - rewrite IH, Hstep. split.
    + intros [[H|H]|(b & Hb & H)]; [now left | right; exists a; split; [now left | exact H]
                                    | right; exists b; split; [now right | exact H]].
    + intros [H|(b & [<-|Hb] & H)]; [now left; left | now left; right | right; now exists b].
Qed.

Lemma neighbours_graph_add (g : NetGraph) (a b x y : string) :
  In y (neighbours (graph_add g a b) x) <-> In y (neighbours g x) \/ (x = a /\ y = b).
Proof.
  unfold neighbours, graph_add. rewrite dict_get_update.
  destruct (String.eqb x a) eqn:E.
  - apply String.eqb_eq in E. subst x. rewrite pyset_add_in.
    destruct (Py.dict_get g a); cbn [In]; intuition.
  - apply String.eqb_neq in E. intuition.
Qed.

Lemma passive_graph_edges (snapshot : Snapshot) (t : string) (x y : string) :
  In y (neighbours (passive_graph snapshot t) x) <-> passive_edge snapshot t x y.
Proof.
  unfold passive_graph, passive_edge.
  rewrite (fold_left_rel _ (fun g => In y (neighbours g x))
             (fun comp => is_passive_of t comp = true
                          /\ exists p n, In p (pins comp) /\ net p = Some n
                                         /\ Py.truthy (Some n) = true
                                         /\ ((x = comp_node (ref comp) /\ y = net_node n)
                                             \/ (x = net_node n /\ y = comp_node (ref comp))))).
  - cbn [neighbours Py.dict_get]. split.
    + intros [[]|(comp & Hc & Hp & p & n & H)]. now exists comp, p, n.
    + intros (comp & p & n & Hc & Hp & H). right. exists comp. split; [exact Hc|].
      split; [exact Hp|]. now exists p, n.
  - intros g comp. destruct (is_passive_of t comp); [|intuition discriminate].
    rewrite (fold_left_rel _ (fun g => In y (neighbours g x))
               (fun p => exists n, net p = Some n /\ Py.truthy (Some n) = true
                                   /\ ((x = comp_node (ref comp) /\ y = net_node n)
                                       \/ (x = net_node n /\ y = comp_node (ref comp))))).
    + split.
      * intros [H|(p & Hp & n & H)]; [now left|]. right. split; [reflexivity|]. now exists p, n.
      * intros [H|(_ & p & n & Hp & H)]; [now left|]. right. exists p. split; [exact Hp|].
        now exists n.
    + intros g' p. unfold passive_graph_pin. destruct (net p) as [n|].
      * destruct (Py.truthy (Some n)) eqn:Et.
        -- rewrite !neighbours_graph_add. split.
           ++ intros [[H|H]|H]; [now left | right; exists n; intuition | right; exists n; intuition].
           ++ intros [H|(n' & Hn & _ & H)]; [now left; left|].
              injection Hn as <-. tauto.
        -- split; [now left|]. intros [H|(n' & Hn & Ht & _)]; [exact H|].
           injection Hn as <-. congruence.
      * split; [now left|]. intros [H|(n' & Hn & _)]; [exact H | discriminate].
Qed.

Lemma net_node_iff (x a : string) :
  Py.startswith x "net:" = true /\ drop 4 x = a <-> x = net_node a.
Proof.
  unfold Py.startswith, net_node. split.
  - intros [Hp <-].
    destruct x as [|c1 [|c2 [|c3 [|c4 r]]]]; cbn in Hp;
      repeat match type of Hp with
             | (if ?d then _ else _) = true => destruct d as [<-|]; [|discriminate Hp]
             end;
      try discriminate Hp.
    reflexivity.
  - intros ->. split; [cbn; now destruct a | reflexivity].
Qed.

Lemma neighbours_key (g : NetGraph) (x y : string) :
  In y (neighbours g x) -> In x (map fst g).
Proof.
  unfold neighbours. intros H.
  destruct (in_dec string_dec x (map fst g)) as [Hi|Hn]; [exact Hi|].
  apply dict_get_none_keys in Hn. rewrite Hn in H. destruct H.
Qed.

Lemma dfs_push_fold (nbs : list string) :
  forall stack vis,
    (forall x, In x (snd (fold_left dfs_push nbs (stack, vis))) <-> In x vis \/ In x nbs)
    /\ (forall x, In x (fst (fold_left dfs_push nbs (stack, vis)))
                  <-> In x stack \/ (In x nbs /\ ~ In x vis)).
Proof.
  induction nbs as [|nb nbs IH]; intros stack vis; cbn [fold_left].
  - cbn [fst snd In]. split; intros x; tauto.
  - unfold dfs_push at 2 4. destruct (PySet.mem nb vis) eqn:E.
    + apply pyset_mem_true in E. destruct (IH stack vis) as [H1 H2].
      split; intros x; [rewrite H1 | rewrite H2]; cbn [In].
      * intuition (subst; auto).
      * intuition (subst; auto). subst. contradiction.
    + apply pyset_mem_false in E. destruct (IH (nb :: stack) (PySet.add nb vis)) as [H1 H2].
      split; intros x; [rewrite H1 | rewrite H2]; rewrite pyset_add_in; cbn [In].
      * intuition.
      * destruct (string_dec x nb) as [->|Hne]; intuition.
Qed.

Section Sweep.

Variable g : NetGraph.
Hypothesis g_symmetric : forall x y, In y (neighbours g x) -> In x (neighbours g y).

Lemma graph_reachable_trans (x y z : string) :
  graph_reachable g x y -> graph_reachable g y z -> graph_reachable g x z.
Proof.
  intros Hxy Hyz. induction Hyz as [|u v _ IH Hv]; [exact Hxy|].
  exact (graph_reach_step g x u v IH Hv).
Qed.

Lemma graph_reachable_sym (x y : string) :
  graph_reachable g x y -> graph_reachable g y x.
Proof.
  induction 1 as [|u v _ IH Hv]; [constructor|].
  apply (graph_reachable_trans v u x); [|exact IH].
  apply (graph_reach_step g v v u); [constructor | now apply g_symmetric].
Qed.

Lemma edge_closed_reachable (v : Py.strset) (x y : string) :
  edge_closed g v -> In x v -> graph_reachable g x y -> In y v.
Proof.
  intros Hc Hx. induction 1 as [|u w _ IH Hw]; [exact Hx|]. exact (Hc u w IH Hw).
Qed.

Lemma dfs_loop_inv (base : Py.strset) (node : string) :
  forall fuel stack vis nets_ done vis' nets',
    dfs_loop fuel g stack vis nets_ = Some (vis', nets') ->
    (forall x, In x vis <-> In x base \/ In x done \/ In x stack) ->
    (forall x y, In x done -> In y (neighbours g x) -> In y vis) ->
    (forall x, In x done \/ In x stack -> graph_reachable g node x) ->
    (forall a, In a nets_ <-> In (net_node a) done) ->
    exists done',
      (forall x, In x vis' <-> In x base \/ In x done')
      /\ (forall x y, In x done' -> In y (neighbours g x) -> In y vis')
      /\ (forall x, In x done' -> graph_reachable g node x)
      /\ (forall a, In a nets' <-> In (net_node a) done')
      /\ (forall x, In x done \/ In x stack -> In x done').
Proof.
  induction fuel as [|fuel IH]; intros stack vis nets_ done vis' nets' Hrun Hvis Hdone Hreach Hnets;
    [discriminate|].
  cbn [dfs_loop] in Hrun. destruct stack as [|cur rest].
  - injection Hrun as <- <-. exists done. repeat split.
    + intros H. apply Hvis in H. cbn [In] in H. tauto.
    + intros H. apply Hvis. tauto.
    + exact Hdone.
    + intros x H. apply Hreach. now left.
    + apply Hnets.
    + apply Hnets.
    + cbn [In]. tauto.
  - destruct (dfs_push_fold (neighbours g cur) rest vis) as [Hv1 Hs1].
    destruct (fold_left dfs_push (neighbours g cur) (rest, vis)) as [stack1 vis1].
    cbn [fst snd] in Hv1, Hs1.
    destruct (IH stack1 vis1 _ (cur :: done) vis' nets' Hrun) as (done' & H1 & H2 & H3 & H4 & H5).
    + intros x. rewrite Hv1, Hs1, Hvis. cbn [In].
      destruct (in_dec string_dec x vis) as [Hi|Hn].
      * apply Hvis in Hi. cbn [In] in Hi. intuition.
      * rewrite Hvis in Hn. cbn [In] in Hn. intuition.
    + intros x y [<-|Hx] Hy; apply Hv1; [now right|]. left. exact (Hdone x y Hx Hy).
    + intros x [[<-|Hx]|Hx].
      * apply Hreach. right. now left.
      * apply Hreach. now left.
      * apply Hs1 in Hx. destruct Hx as [Hx|[Hx _]].
        -- apply Hreach. right. now right.
        -- apply (graph_reach_step g node cur x); [|exact Hx]. apply Hreach. right. now left.
    + intros a. cbn [In]. destruct (Py.startswith cur "net:") eqn:Es.
      * rewrite pyset_add_in, Hnets. split.
        -- intros [->|H]; [left | now right].
           apply (proj1 (net_node_iff cur (drop 4 cur))). now split.
        -- intros [H|H]; [left | now right].
           apply (proj2 (net_node_iff cur a)) in H. symmetry. apply H.
      * rewrite Hnets. split; [now right|]. intros [H|H]; [|exact H].
        apply (proj2 (net_node_iff cur a)) in H. destruct H as [H _]. congruence.
    + exists done'. repeat split; try assumption; try apply H1; try apply H4.
      intros x [Hx|[<-|Hx]]; apply H5.
      * left. now right.
      * left. now left.
      * right. apply Hs1. now left.
Qed.

(** One sweep from an unvisited node of a closed visited set adds exactly
    the nodes linked to it, and returns the nets among them. *)
Lemma dfs_sweep (base : Py.strset) (node : string) (fuel : nat) (vis' nets' : Py.strset) :
  edge_closed g base -> ~ In node base ->
  dfs_loop fuel g [node] (PySet.add node base) [] = Some (vis', nets') ->
  (forall x, In x vis' <-> In x base \/ graph_reachable g node x)
  /\ (forall x, graph_reachable g node x -> ~ In x base)
  /\ (forall a, In a nets' <-> graph_reachable g node (net_node a))
  /\ edge_closed g vis'.
Proof.
  intros Hc Hn Hrun.
  assert (Hout : forall x, graph_reachable g node x -> ~ In x base).
  { intros x Hx Hb. apply Hn.
    apply (edge_closed_reachable base x node Hc Hb). now apply graph_reachable_sym. }
  destruct (dfs_loop_inv base node fuel [node] _ [] [] vis' nets' Hrun)
    as (done' & H1 & H2 & H3 & H4 & H5).
  - intros x. rewrite pyset_add_in. cbn [In]. intuition.
  - intros x y [].
  - intros x [[]|[<-|[]]]. constructor.
  - intros a. cbn [In]. tauto.
  - assert (Hcl : edge_closed g vis').
    { intros x y Hx Hy. apply H1 in Hx. destruct Hx as [Hx|Hx].
      - apply H1. left. exact (Hc x y Hx Hy).
      - exact (H2 x y Hx Hy). }
    assert (Hnode : In node vis').
    { apply H1. right. apply H5. right. now left. }
    assert (Hdone : forall x, In x done' <-> graph_reachable g node x).
    { intros x. split; [apply H3|]. intros Hx.
      pose proof (edge_closed_reachable vis' node x Hcl Hnode Hx) as Hv.
      apply H1 in Hv. destruct Hv as [Hv|Hv]; [|exact Hv]. now destruct (Hout x Hx). }
    repeat split.
    + intros Hx. apply H1 in Hx. rewrite <- Hdone. exact Hx.
    + intros Hx. apply H1. rewrite Hdone. exact Hx.
    + exact Hout.
    + intros Ha. apply Hdone, H4, Ha.
    + intros Ha. apply H4, Hdone, Ha.
    + exact Hcl.
Qed.

Lemma graph_reachable_key (x y : string) :
  In x (map fst g) -> graph_reachable g x y -> In y (map fst g).
Proof.
  intros Hx. induction 1 as [|u v _ _ Hv]; [exact Hx|].
  apply g_symmetric in Hv. exact (neighbours_key g v u Hv).
Qed.

Lemma sweep_step_inv (st : Py.strset * list Py.strset) (node : string) :
  sweep_inv g st -> In node (map fst g) ->
  sweep_inv g (sweep_step g st node)
  /\ (forall x, In x (fst st) \/ x = node -> In x (fst (sweep_step g st node))).
Proof.
  destruct st as [visited comps]. unfold sweep_inv. cbn [fst snd].
  intros (Hc & Hk & Hcomps & Hcov & Hdis) Hnode. unfold sweep_step.
  destruct (PySet.mem node visited) eqn:E.
  - apply pyset_mem_true in E. cbn [fst snd]. repeat split; try assumption.
    + now apply Hcomps.
    + now apply Hcomps.
    + intros x [Hx| ->]; assumption.
  - apply pyset_mem_false in E.
    destruct (dfs_loop_terminates g node visited) as [[vis' nets'] Hf]. rewrite Hf.
    destruct (dfs_sweep visited node _ vis' nets' Hc E Hf) as (Hv & Hout & Hnets & Hcl).
    assert (Hmono : forall x, In x visited \/ x = node -> In x vis').
    { intros x [Hx| ->]; apply Hv; [now left | right; constructor]. }
    assert (Hkeys : forall x, In x vis' -> In x (map fst g)).
    { intros x Hx. apply Hv in Hx. destruct Hx as [Hx|Hx]; [now apply Hk|].
      exact (graph_reachable_key node x Hnode Hx). }
    assert (Hold : forall c, In c comps ->
              c <> [] /\ exists root, In root vis'
                                      /\ forall a, In a c <-> graph_reachable g root (net_node a)).
    { intros c Hin. destruct (Hcomps c Hin) as (Hne & root & Hr & Hiff).
      split; [exact Hne|]. exists root. split; [apply Hmono; now left | exact Hiff]. }
    destruct nets' as [|n ns]; cbn [fst snd].
    + split; [|exact Hmono]. repeat split; try assumption.
      * now apply Hold.
      * now apply Hold.
      * intros a Ha. apply Hv in Ha. destruct Ha as [Ha|Ha]; [now apply Hcov|].
        apply Hnets in Ha. destruct Ha.
    + split; [|exact Hmono]. repeat split; try assumption.
      * apply in_app_or in H. destruct H as [H|[<-|[]]]; [now apply Hold | discriminate].
      * apply in_app_or in H. destruct H as [H|[<-|[]]]; [now apply Hold|].
        exists node. split; [apply Hmono; now right | exact Hnets].
      * intros a Ha. apply Hv in Ha. destruct Ha as [Ha|Ha].
        -- destruct (Hcov a Ha) as (c & Hin & Hac). exists c. split; [|exact Hac].
           apply in_or_app. now left.
        -- exists (n :: ns). split; [apply in_or_app; right; now left | now apply Hnets].
      * apply ForallOrdPairs_snoc; [exact Hdis|].
        intros c Hin a Hac Han. destruct (Hcomps c Hin) as (_ & root & Hr & Hiff).
        apply Hnets in Han. apply (Hout _ Han).
        apply (edge_closed_reachable visited root _ Hc Hr). now apply Hiff.
Qed.

Lemma sweep_fold_inv (nodes : list string) :
  forall st,
    sweep_inv g st -> (forall n, In n nodes -> In n (map fst g)) ->
    sweep_inv g (fold_left (sweep_step g) nodes st)
    /\ (forall x, In x (fst st) \/ In x nodes -> In x (fst (fold_left (sweep_step g) nodes st))).
Proof.
  induction nodes as [|n nodes IH]; intros st Hinv Hn; cbn [fold_left].
  - split; [exact Hinv|]. intros x [Hx|[]]. exact Hx.
  - destruct (sweep_step_inv st n Hinv (Hn n (or_introl eq_refl))) as [Hinv1 Hm1].
    destruct (IH _ Hinv1 (fun m Hm => Hn m (or_intror Hm))) as [Hinv2 Hm2].
    split; [exact Hinv2|]. intros x [Hx|[<-|Hx]]; apply Hm2.
    + left. apply Hm1. now left.
    + left. apply Hm1. now right.
    + now right.
Qed.

End Sweep.

Lemma graph_add_keys_have_edges (g : NetGraph) (a b : string) :
  (forall x, In x (map fst g) -> exists y, In y (neighbours g x)) ->
  forall x, In x (map fst (graph_add g a b)) -> exists y, In y (neighbours (graph_add g a b) x).
Proof.
  intros Hg x Hx. unfold graph_add in Hx. rewrite dict_update_keys in Hx.
  assert (Hcase : In x (map fst g) \/ x = a).
  { destruct (Py.dict_has g a); [now left|]. apply in_app_or in Hx.
    destruct Hx as [Hx|[<-|[]]]; [now left | now right]. }
  destruct Hcase as [Hk| ->].
  - destruct (Hg x Hk) as [y Hy]. exists y. apply neighbours_graph_add. now left.
  - exists b. apply neighbours_graph_add. now right.
Qed.

Lemma passive_graph_keys_have_edges (snapshot : Snapshot) (t : string) (x : string) :
  In x (map fst (passive_graph snapshot t)) ->
  exists y, In y (neighbours (passive_graph snapshot t) x).
Proof.
  unfold passive_graph. revert x.
  apply (fold_left_inv
           (fun g : NetGraph => forall x, In x (map fst g) -> exists y, In y (neighbours g x))).
  - intros g comp Hg. destruct (is_passive_of t comp); [|exact Hg].
    apply (fold_left_inv
             (fun g : NetGraph => forall x, In x (map fst g) -> exists y, In y (neighbours g x)));
      [|exact Hg].
    intros g' p Hg'. unfold passive_graph_pin. destruct (net p) as [n|]; [|exact Hg'].
    destruct (Py.truthy (Some n)); [|exact Hg'].
    now apply graph_add_keys_have_edges, graph_add_keys_have_edges.
  - intros x [].
Qed.

(** X28 (rule_extractor._passive_net_components, also rule_checker's copy).
    The graph links the node of every passive of the given type with the
    nodes of the non-empty nets on its pins, both ways.  The sets returned are
    non-empty and pairwise disjoint, a net is in one of them exactly when a
    pin of such a passive is on it, and the set holding a net holds exactly
    the nets linked to it by a chain of such passives. *)
Theorem passive_net_components_spec (snapshot : Snapshot) (t : string) :
  let g := passive_graph snapshot t in
  let comps := _passive_net_components snapshot t in
  (forall x y, In y (neighbours g x) <-> passive_edge snapshot t x y)
  /\ (forall c, In c comps -> c <> [])
  /\ ForallOrdPairs disjoint_sets comps
  /\ (forall a, (exists c, In c comps /\ In a c)
                <-> exists y, passive_edge snapshot t (net_node a) y)
  /\ (forall c a b, In c comps -> In a c ->
        (In b c <-> graph_reachable g (net_node a) (net_node b))).
Proof.
  intros g comps.
  assert (Hsym : forall x y, In y (neighbours g x) -> In x (neighbours g y)).
  { intros x y H. apply passive_graph_edges in H. apply passive_graph_edges.
    destruct H as (comp & p & n & H1 & H2 & H3 & H4 & H5 & H6).
    exists comp, p, n. tauto. }
  destruct (sweep_fold_inv g Hsym (map fst g) ([], [])) as [Hinv Hall].
  { unfold sweep_inv. cbn [fst snd]. split; [intros x y []|].
    split; [intros x []|]. split; [intros c []|]. split; [intros a []|]. constructor. }
  { intros n Hn. exact Hn. }
  destruct Hinv as (Hc & Hk & Hcomps & Hcov & Hdis).
  fold comps in Hcomps, Hcov, Hdis.
  split; [apply passive_graph_edges|].
  split; [intros c Hin; now apply Hcomps|].
  split; [exact Hdis|].
  split.
  - intros a. split.
    + intros (c & Hin & Ha). destruct (Hcomps c Hin) as (_ & root & Hr & Hiff).
      apply Hiff in Ha.
      assert (Hkey : In (net_node a) (map fst g)).
      { apply (graph_reachable_key g Hsym root); [now apply Hk | exact Ha]. }
      destruct (passive_graph_keys_have_edges snapshot t _ Hkey) as [y Hy].
      exists y. now apply passive_graph_edges.
    + intros [y Hy]. apply passive_graph_edges in Hy. apply Hcov, Hall. right.
      exact (neighbours_key _ _ _ Hy).
  - intros c a b Hin Ha. destruct (Hcomps c Hin) as (_ & root & Hr & Hiff).
    apply Hiff in Ha. rewrite Hiff. split.
    + intros Hb. apply (graph_reachable_trans g _ root); [|exact Hb].
      now apply graph_reachable_sym.
    + intros Hab. now apply (graph_reachable_trans g _ (net_node a)).
Qed.

(* ================================================================== *)
(** ** The primary domain (isolation_domain._find_primary_domain) *)
(* ================================================================== *)

Lemma bfs_connected_nets_iff (start_nets : Py.strset) (g : NetGraph) (x : string) :
  In x (_bfs_connected_nets start_nets g) <-> net_reachable g start_nets x.
Proof.
  unfold _bfs_connected_nets.
  destruct (bfs_loop_terminates g start_nets) as [result H]. rewrite H. split.
  - apply (bfs_loop_sound g start_nets _ _ _ _ H); [now constructor | intros y []].
  - destruct (bfs_loop_closed g start_nets _ _ _ _ H) as [Hs Hc].
    + intros y Hy. now right.
    + intros v nb [].
    + intros Hr. induction Hr as [y Hy | y z _ IH Hz]; [now apply Hs | now apply (Hc y)].
Qed.

Lemma primary_start_nets_spec (ns : list Net) (x : string) :
  In x (primary_start_nets ns)
  <-> (exists n, In n ns /\ anchor_named n = true /\ name n = x)
      \/ ((forall n, In n ns -> anchor_named n = false)
          /\ exists n rest, ns = n :: rest /\ name n = x).
Proof.
  unfold primary_start_nets.
  set (step := fun (acc : Py.strset) (n : Net) =>
                 if Py.any_contains anchor_patterns (Py.upper (name n))
                 then PySet.add (name n) acc else acc).
  assert (Hanch : forall y, In y (fold_left step ns [])
                            <-> exists n, In n ns /\ anchor_named n = true /\ name n = y).
  { intros y.
    rewrite (fold_collects step (fun s => s) (fun n y => anchor_named n = true /\ name n = y)).
    - cbn [In]. split; [intros [[]|H]; exact H | now right].
    - intros st a n. unfold step, anchor_named.
      destruct (Py.any_contains anchor_patterns (Py.upper (name a))).
      + rewrite pyset_add_in. intuition.
      + intuition discriminate. }
  destruct (fold_left step ns []) as [|a l] eqn:Ef.
  - assert (Hnone : forall n, In n ns -> anchor_named n = false).
    { intros n Hn. destruct (anchor_named n) eqn:E; [|reflexivity].
      destruct (proj2 (Hanch (name n))). now exists n. }
    assert (Hfind : find (fun n => Py.contains "VIN" (Py.upper (name n))) ns = None).
    { destruct (find _ ns) as [n|] eqn:E; [|reflexivity].
      apply find_some in E. destruct E as [Hn Hc]. apply Hnone in Hn.
      unfold anchor_named, Py.any_contains, anchor_patterns in Hn. cbn [existsb] in Hn.
      rewrite Hc in Hn. discriminate. }
    rewrite Hfind. destruct ns as [|n rest].
    + split; [intros []|]. intros [(n & [] & _)|(_ & n & rest & H & _)]; discriminate.
    + rewrite pyset_add_in. cbn [In]. split.
      * intros [->|[]]. right. split; [exact Hnone|]. now exists n, rest.
      * intros [(m & Hm & Ha & _)|(_ & m & rest' & H & Hx)].
        -- rewrite (Hnone m Hm) in Ha. discriminate.
        -- left. congruence.
  - cbv beta iota zeta. rewrite Hanch. split; [now left|].
    intros [H|(Hnone & _)]; [exact H|].
    destruct (proj1 (Hanch a) (or_introl eq_refl)) as (n & Hn & Ha & _).
    rewrite (Hnone n Hn) in Ha. discriminate.
Qed.

(** X29 (isolation_domain._find_primary_domain within
    identify_isolation_domains).  On a snapshot whose net names are ASCII:
    without a boundary component every net is primary.  With one, the primary
    domain holds the nets reachable in the net graph from the start nets,
    which are the anchor-named nets
    (VIN, VBUS, VCC, V12, V5, GND_PRI, PGND inside the upper-cased name) or,
    when no net is anchor-named, the first net alone; the intermediate
    fallback on a VIN net never applies.  An anchor-named net is primary in
    either case.  (Beyond ASCII, Python's [upper] maps further letters, which
    the statement does not cover.) *)
Theorem primary_domain_spec (snapshot : Snapshot) (kg_store : option KGStore) :
  (forall n, In n (nets snapshot) -> Py.isascii (name n) = true) ->
  let d := identify_isolation_domains snapshot kg_store in
  let ics := _find_isolation_components (components snapshot) kg_store in
  (ics = [] -> forall x, In x (primary d) <-> In x (map name (nets snapshot)))
  /\ (ics <> [] ->
      forall x, In x (primary d)
                <-> net_reachable (_build_net_graph snapshot ics)
                      (primary_start_nets (nets snapshot)) x)
  /\ (forall x, In x (primary_start_nets (nets snapshot))
                <-> (exists n, In n (nets snapshot) /\ anchor_named n = true /\ name n = x)
                    \/ ((forall n, In n (nets snapshot) -> anchor_named n = false)
                        /\ exists n rest, nets snapshot = n :: rest /\ name n = x))
  /\ (forall n, In n (nets snapshot) -> anchor_named n = true -> In (name n) (primary d)).
Proof.
  intros _ d ics.
  assert (H1 : ics = [] -> forall x, In x (primary d) <-> In x (map name (nets snapshot))).
  { intros E x. unfold d, identify_isolation_domains. fold ics. rewrite E.
    cbn [primary]. apply set_of_list_in. }
  assert (H2 : ics <> [] ->
               forall x, In x (primary d)
                         <-> net_reachable (_build_net_graph snapshot ics)
                               (primary_start_nets (nets snapshot)) x).
  { intros E x. unfold d, identify_isolation_domains. fold ics.
    destruct ics as [|ic0 ics0] eqn:Ei; [contradiction|].
    cbn [primary]. unfold _find_primary_domain. apply bfs_connected_nets_iff. }
  split; [exact H1|]. split; [exact H2|]. split; [apply primary_start_nets_spec|].
  intros n Hn Ha. destruct ics as [|ic0 ics0] eqn:Ei.
  - apply H1; [reflexivity|]. now apply in_map.
  - apply H2; [discriminate|]. constructor. apply primary_start_nets_spec. left. now exists n.
Qed.

(** X29, witness: the two-supply sample, whose net [V12] is anchor-named. *)
Lemma primary_domain_spec_witness :
  (forall n, In n (nets Samples.two_supplies_snapshot) -> Py.isascii (name n) = true)
  /\ In "V12"
       (primary (identify_isolation_domains Samples.two_supplies_snapshot (Some Samples.kg))).
Proof.
  assert (H : forall n, In n (nets Samples.two_supplies_snapshot) ->
                        Py.isascii (name n) = true).
  { intros n Hn. cbn [nets Samples.two_supplies_snapshot In] in Hn.
    repeat (destruct Hn as [<-|Hn]; [reflexivity|]). destruct Hn. }
  split; [exact H|].
  destruct (primary_domain_spec Samples.two_supplies_snapshot (Some Samples.kg) H)
    as (_ & _ & _ & Hanchor).
  apply (Hanchor (mkNet "V12" [Samples.endpoint "U1" "1" "+VIN";
                               Samples.endpoint "U2" "1" "+VIN"])).
  - now left.
  - reflexivity.
Defined.

(* ================================================================== *)
(** ** The edges of the net graph (isolation_domain._build_net_graph) *)
(* ================================================================== *)

Lemma paired_cons (a : string) (rest : list string) (x y : string) :
  paired (a :: rest) x y
  <-> (x = a /\ In y rest) \/ (y = a /\ In x rest) \/ paired rest x y.
Proof.
  unfold paired. split.
  - intros (i & j & Hij & Hi & Hj). destruct i as [|i], j as [|j]; cbn [nth_error] in Hi, Hj.
    + congruence.
    + left. split; [congruence|]. exact (nth_error_In _ _ Hj).
    + right. left. split; [congruence|]. exact (nth_error_In _ _ Hi).
    + right. right. exists i, j. repeat split; try assumption. congruence.
  - intros [[-> Hy]|[[-> Hx]|(i & j & Hij & Hi & Hj)]].
    + apply In_nth_error in Hy. destruct Hy as [j Hj]. exists 0, (S j). now repeat split.
    + apply In_nth_error in Hx. destruct Hx as [i Hi]. exists (S i), 0. now repeat split.
    + exists (S i), (S j). repeat split; try assumption. congruence.
Qed.

Lemma paired_nil (x y : string) : ~ paired [] x y.
Proof. intros (i & j & _ & Hi & _). now destruct i. Qed.

Lemma paired_sym (l : list string) (x y : string) : paired l x y -> paired l y x.
Proof. intros (i & j & Hij & Hi & Hj). exists j, i. repeat split; try assumption. congruence. Qed.

Lemma neighbours_connect (g : NetGraph) (a b x y : string) :
  In y (neighbours (connect g a b) x)
  <-> In y (neighbours g x) \/ (x = a /\ y = b) \/ (x = b /\ y = a).
Proof.
  unfold connect.
  change (Py.dict_update (Py.dict_update g a [] (PySet.add b)) b [] (PySet.add a))
    with (graph_add (graph_add g a b) b a).
  rewrite !neighbours_graph_add. tauto.
Qed.

Lemma neighbours_connect_all (ns : list string) :
  forall g x y,
    In y (neighbours (connect_all g ns) x) <-> In y (neighbours g x) \/ paired ns x y.
Proof.
  induction ns as [|net1 rest IH]; intros g x y; cbn [connect_all].
  - pose proof (paired_nil x y). tauto.
  - rewrite IH, paired_cons.
    rewrite (fold_left_rel (fun g' net2 => connect g' net1 net2)
               (fun g' => In y (neighbours g' x))
               (fun net2 => (x = net1 /\ y = net2) \/ (x = net2 /\ y = net1))).
    + split.
      * intros [[H|(n2 & Hn & [[-> ->]|[-> ->]])]|H]; tauto.
      * intros [H|[[-> H]|[[-> H]|H]]]; try tauto.
        -- left. right. exists y. tauto.
        -- left. right. exists x. tauto.
    + intros st n2. apply neighbours_connect.
Qed.

Lemma neighbours_connect_component (ics : list IsoComponent) (g : NetGraph)
  (entry : string * list (string * string)) (x y : string) :
  In y (neighbours (connect_component ics g entry) x)
  <-> In y (neighbours g x) \/ net_link ics (fst entry) (snd entry) x y.
Proof.
  destruct entry as [r ps]. unfold connect_component, net_link. cbn [fst snd].
  destruct (iso_refs_get ics r) as [ic|]; rewrite !neighbours_connect_all; tauto.
Qed.

Lemma collect_pins_get (n : Net) (eps : list NetEndpoint) :
  forall cp (f : string -> list (string * string)),
    (forall r, Py.dict_get cp r = grouped (f r)) ->
    forall r,
      Py.dict_get
        (fold_left (fun cp ep => Py.dict_append cp (ep_ref ep) (ep_pin_id ep, name n)) eps cp) r
      = grouped (f r ++ map (fun ep => (ep_pin_id ep, name n))
                            (filter (fun ep => String.eqb (ep_ref ep) r) eps)).
Proof.
  induction eps as [|ep eps IH]; intros cp f Hcp r; cbn [fold_left filter map].
  - rewrite app_nil_r. apply Hcp.
  - rewrite (IH _ (fun r => f r ++ (if String.eqb (ep_ref ep) r
                                    then [(ep_pin_id ep, name n)] else []))).
    + rewrite <- app_assoc. destruct (String.eqb (ep_ref ep) r); reflexivity.
    + intros r'. now apply dict_get_append.
Qed.

Lemma collect_nets_get (ns : list Net) :
  forall st (f : string -> list (string * string)),
    (forall r, Py.dict_get (snd st) r = grouped (f r)) ->
    forall r,
      Py.dict_get (snd (fold_left collect_net ns st)) r = grouped (f r ++ component_pins ns r).
Proof.
  induction ns as [|n ns IH]; intros [g cp] f Hcp r; cbn [fold_left].
  - unfold component_pins. cbn [flat_map]. rewrite app_nil_r. apply Hcp.
  - rewrite (IH _ (fun r => f r ++ map (fun ep => (ep_pin_id ep, name n))
                                       (filter (fun ep => String.eqb (ep_ref ep) r)
                                               (endpoints n)))).
    + unfold component_pins. cbn [flat_map]. now rewrite <- app_assoc.
    + intros r'. unfold collect_net. cbn [snd]. now apply collect_pins_get.
Qed.

Lemma collect_nets_nodup (ns : list Net) :
  forall st, NoDup (map fst (snd st)) -> NoDup (map fst (snd (fold_left collect_net ns st))).
Proof.
  induction ns as [|n ns IH]; intros [g cp] Hn; cbn [fold_left]; [exact Hn|].
  apply IH. unfold collect_net. cbn [snd].
  apply fold_left_inv; [|exact Hn].
  intros cp' ep H. unfold Py.dict_append. now apply dict_update_nodup.
Qed.

Lemma collect_nets_empty (ns : list Net) :
  forall st,
    (forall x, neighbours (fst st) x = []) ->
    forall x, neighbours (fst (fold_left collect_net ns st)) x = [].
Proof.
  induction ns as [|n ns IH]; intros [g cp] Hg; cbn [fold_left]; [exact Hg|].
  apply IH. unfold collect_net. cbn [fst]. cbn [fst] in Hg.
  destruct (Py.dict_has g (name n)); [exact Hg|].
  intros x. specialize (Hg x). unfold neighbours in *.
  induction g as [|[k v] g IHg]; cbn [Datatypes.app Py.dict_get] in *.
  - now destruct (String.eqb x (name n)).
  - destruct (String.eqb x k); [exact Hg | now apply IHg].
Qed.

(** X30 (isolation_domain._build_net_graph).  Two nets are adjacent in the
    net graph exactly when some component has them on two different pin
    entries: any two entries of an ordinary component, and for a boundary
    component two entries on primary pins or two entries on secondary pins.
    The adjacency is symmetric. *)
Theorem build_net_graph_edges (snapshot : Snapshot) (ics : list IsoComponent) (x y : string) :
  (In y (neighbours (_build_net_graph snapshot ics) x)
   <-> exists r, net_link ics r (component_pins (nets snapshot) r) x y)
  /\ (In y (neighbours (_build_net_graph snapshot ics) x)
      -> In x (neighbours (_build_net_graph snapshot ics) y)).
Proof.
  assert (Hedges : forall x y,
            In y (neighbours (_build_net_graph snapshot ics) x)
            <-> exists r, net_link ics r (component_pins (nets snapshot) r) x y).
  { clear x y. intros x y. unfold _build_net_graph.
    pose proof (collect_nets_get (nets snapshot) ([], []) (fun _ => [])
                  (fun r => eq_refl)) as Hget.
    pose proof (collect_nets_nodup (nets snapshot) ([], []) (NoDup_nil _)) as Hnd.
    pose proof (collect_nets_empty (nets snapshot) ([], []) (fun _ => eq_refl) x) as Hemp.
    destruct (fold_left collect_net (nets snapshot) ([], [])) as [g cp].
    cbn [fst snd Datatypes.app] in Hget, Hnd, Hemp.
    rewrite (fold_left_rel (connect_component ics) (fun g' => In y (neighbours g' x))
               (fun entry => net_link ics (fst entry) (snd entry) x y)).
    - rewrite Hemp. cbn [In]. split.
      + intros [[]|([r ps] & Hin & Hl)]. exists r. cbn [fst snd] in Hl.
        apply (dict_in_get _ _ _ Hnd) in Hin. rewrite Hget in Hin.
        destruct (component_pins (nets snapshot) r); [discriminate|].
        cbn [grouped] in Hin. now injection Hin as <-.
      + intros [r Hl]. right. exists (r, component_pins (nets snapshot) r).
        split; [|exact Hl]. apply (dict_in_get _ _ _ Hnd). rewrite Hget.
        destruct (component_pins (nets snapshot) r) eqn:E; [|reflexivity].
        exfalso. unfold net_link in Hl. cbn [filter map] in Hl.
        destruct (iso_refs_get ics r); [destruct Hl as [Hl|Hl]|]; exact (paired_nil _ _ Hl).
    - intros st entry. apply neighbours_connect_component. }
  split; [apply Hedges|].
  intros H. apply Hedges in H. apply Hedges. destruct H as [r Hl]. exists r.
  unfold net_link in *. destruct (iso_refs_get ics r).
  - destruct Hl as [Hl|Hl]; [left | right]; now apply paired_sym.
  - now apply paired_sym.
Qed.

(* ================================================================== *)
(** ** The whole component-count tolerance check (match_skeleton.py) *)
(* ================================================================== *)

Lemma insert_sorted_Sorted (x : string) (l : list string) :
  Sorted (fun a b => String.leb a b = true) l ->
  Sorted (fun a b => String.leb a b = true) (Py.insert_sorted x l).
Proof.
  induction 1 as [|y l Hl IH Hy]; cbn [Py.insert_sorted].
  - repeat constructor.
  - destruct (String.leb x y) eqn:E.
    + constructor; [now constructor | now constructor].
    + constructor; [exact IH|].
      assert (Hyx : String.leb y x = true).
      { destruct (String.leb_total x y) as [H|H]; [congruence | exact H]. }
      destruct l as [|z l]; cbn [Py.insert_sorted]; [now constructor|].
      inversion Hy as [|? ? Hyz]; subst.
      destruct (String.leb x z); now constructor.
Qed.

Lemma sorted_Sorted (l : list string) :
  Sorted (fun a b => String.leb a b = true) (Py.sorted l).
Proof.
  unfold Py.sorted. induction l as [|x l IH]; cbn [fold_right]; [constructor|].
  now apply insert_sorted_Sorted.
Qed.

Lemma truthy_nonempty (s : string) : Py.truthy (Some s) = true <-> s <> EmptyString.
Proof. destruct s; cbn; split; congruence. Qed.

Lemma part_counts_keys (snapshot : Snapshot) (p : string) :
  In p (map fst (_component_part_counts snapshot)) <-> uses_part snapshot p.
Proof.
  unfold _component_part_counts, uses_part.
  rewrite (fold_left_rel _ (fun counts : Py.dict nat => In p (map fst counts))
             (fun comp => p <> EmptyString /\ part_id comp = p)).
  - cbn [map In]. split.
    + intros [[]|(comp & Hc & Hne & Hp)]. split; [exact Hne|]. now exists comp.
    + intros (Hne & comp & Hc & Hp). right. now exists comp.
  - intros counts comp. destruct (Py.truthy (Some (part_id comp))) eqn:Et.
    + apply truthy_nonempty in Et. rewrite dict_update_keys.
      destruct (Py.dict_has counts (part_id comp)) eqn:Eh.
      * split; [now left|]. intros [H|[Hne <-]]; [exact H|].
        unfold Py.dict_has in Eh.
        destruct (in_dec string_dec (part_id comp) (map fst counts)) as [Hi|Hn]; [exact Hi|].
        apply dict_get_none_keys in Hn. rewrite Hn in Eh. discriminate.
      * rewrite in_app_iff. cbn [In]. split.
        -- intros [H|[<-|[]]]; [now left | now right].
        -- intros [H|[_ <-]]; [now left | right; now left].
    + split; [now left|]. intros [H|[Hne <-]]; [exact H|].
      apply truthy_nonempty in Hne. congruence.
Qed.

Lemma part_counts_number (snapshot : Snapshot) (p : string) :
  count_of (_component_part_counts snapshot) p = part_number snapshot p.
Proof.
  unfold _component_part_counts, part_number. rewrite part_counts_fold.
  unfold count_of at 1. cbn [Py.dict_get Nat.add]. f_equal.
  destruct (String.eqb p EmptyString) eqn:E.
  - apply String.eqb_eq in E. subst p.
    induction (components snapshot) as [|c cs IH]; [reflexivity|]. cbn [filter].
    destruct (part_id c); cbn; exact IH.
  - apply String.eqb_neq in E. f_equal.
    induction (components snapshot) as [|c cs IH]; [reflexivity|]. cbn [filter].
    destruct (String.eqb (part_id c) p) eqn:Ep.
    + apply String.eqb_eq in Ep. rewrite Ep.
      rewrite (proj2 (truthy_nonempty p) E). cbn [andb]. now rewrite IH.
    + rewrite andb_false_r. exact IH.
Qed.

Lemma count_of_key (counts : Py.dict nat) (p : string) :
  count_of counts p <> 0 -> In p (map fst counts).
Proof.
  unfold count_of. intros H.
  destruct (in_dec string_dec p (map fst counts)) as [Hi|Hn]; [exact Hi|].
  apply dict_get_none_keys in Hn. rewrite Hn in H. congruence.
Qed.

Lemma counted_parts_in (std_counts gen_counts : Py.dict nat) (p : string) :
  In p (counted_parts std_counts gen_counts)
  <-> In p (map fst std_counts) \/ In p (map fst gen_counts).
Proof.
  unfold counted_parts. now rewrite sorted_in, pyset_union_in, !set_of_list_in.
Qed.

Lemma set_of_list_nodup (l : list string) : NoDup (Py.set_of_list l).
Proof.
  unfold Py.set_of_list.
  assert (H : forall l acc, NoDup acc ->
            NoDup (fold_left (fun acc x => set_add string_dec x acc) l acc)).
  { clear l. induction l as [|x l IH]; intros acc Hacc; cbn [fold_left]; [exact Hacc|].
    apply IH. now apply set_add_nodup. }
  apply H. constructor.
Qed.

Lemma counted_parts_nodup (std_counts gen_counts : Py.dict nat) :
  NoDup (counted_parts std_counts gen_counts).
Proof.
  unfold counted_parts. apply sorted_nodup. unfold PySet.union.
  apply set_union_nodup; apply set_of_list_nodup.
Qed.

Lemma contains_char_cons (c h : ascii) (t : string) :
  Py.contains (String c EmptyString) (String h t)
  = Ascii.eqb c h || Py.contains (String c EmptyString) t.
Proof.
  cbn [Py.contains String.prefix]. destruct (ascii_dec c h) as [->|Hne].
  - rewrite Ascii.eqb_refl. now destruct t.
  - apply Ascii.eqb_neq in Hne. now rewrite Hne.
Qed.

Lemma contains_char_app (c : ascii) (a b : string) :
  Py.contains (String c EmptyString) (a ++ b)
  = Py.contains (String c EmptyString) a || Py.contains (String c EmptyString) b.
Proof.
  induction a as [|h a IH]; cbn [append].
  - reflexivity.
  - now rewrite !contains_char_cons, IH, orb_assoc.
Qed.

Lemma digits_lack_s (s : string) :
  Py.all_digits s = true -> Py.contains "s" s = false.
Proof.
  induction s as [|h s IH]; [reflexivity|]. cbn [Py.all_digits].
  intros H. apply andb_true_iff in H. destruct H as [Hd Hs].
  rewrite contains_char_cons, (IH Hs), orb_false_r.
  destruct (Ascii.eqb_spec "s" h) as [<-|]; [discriminate Hd | reflexivity].
Qed.

Lemma str_of_nat_lacks_s (n : nat) : Py.contains "s" (Py.str_of_nat n) = false.
Proof. apply digits_lack_s. apply (uint_string_digits (Nat.to_uint n)). Qed.

Lemma append_inv_head (a x y : string) : (a ++ x = a ++ y)%string -> x = y.
Proof. induction a as [|c a IH]; cbn [append]; [easy|]. intros [= H]. now apply IH. Qed.

(** The part id can be read back from a count message: what follows it
    holds the letter [s] once, at its second place. *)
Lemma std_split_unique (p q R R' : string) :
  Py.contains "s" R = false -> Py.contains "s" R' = false ->
  (p ++ " std=" ++ R = q ++ " std=" ++ R')%string -> p = q.
Proof.
  intros HR HR'. revert q.
  assert (Hno : forall x rest2,
            Py.contains "s" x = false ->
            ("td=" ++ x)%string <> (rest2 ++ " std=" ++ R')%string
            /\ ("td=" ++ x)%string <> (rest2 ++ " std=" ++ R)%string).
  { intros x rest2 Hx. split; intros H; apply (f_equal (Py.contains "s")) in H;
      rewrite !contains_char_app, Hx in H; cbn in H;
      rewrite orb_true_r in H; discriminate H. }
  induction p as [|c p IH]; intros [|c' q] H; cbn [append] in H.
  - reflexivity.
  - exfalso. injection H as Hc H. destruct q as [|c2 q]; cbn [append] in H; [discriminate H|].
    injection H as _ H. exact (proj1 (Hno R q HR) H).
  - exfalso. injection H as Hc H. destruct p as [|c2 p]; cbn [append] in H; [discriminate H|].
    injection H as _ H. symmetry in H. exact (proj2 (Hno R' p HR') H).
  - injection H as -> H. f_equal. now apply IH.
Qed.

Lemma count_message_part (p q : string) (a b c d a' b' c' d' : nat) :
  count_message p a b c d = count_message q a' b' c' d' -> p = q.
Proof.
  unfold count_message. intros H. apply append_inv_head in H.
  apply std_split_unique in H; [exact H| |];
    rewrite !contains_char_app, !str_of_nat_lacks_s; reflexivity.
Qed.

Lemma count_tolerance_step_message (task_id : option Z) (std_counts gen_counts : Py.dict nat)
  (p m : string) :
  In m (count_tolerance_step task_id std_counts gen_counts p) ->
  exists a b c d, m = count_message p a b c d.
Proof.
  unfold count_tolerance_step.
  destruct (task_is task_id 15 && String.eqb p "D"); [intros []|].
  destruct (count_of std_counts p =? 0).
  - destruct (4 <=? count_of gen_counts p); [|intros []].
    intros [<-|[]]. now exists 0, (count_of gen_counts p), 0, 3.
  - match goal with
    | |- context [let '(x, y) := ?e in _] => destruct e as [lo hi]
    end.
    destruct ((count_of gen_counts p <? lo) || (hi <? count_of gen_counts p)); [|intros []].
    intros [<-|[]]. now exists (count_of std_counts p), (count_of gen_counts p), lo, hi.
Qed.

(** C8 (amended): for a part outside the two exemptions the loop body
    emits the out-of-tolerance message, naming the part, both counts and the
    allowed range, exactly when the candidate count is outside that range;
    the range is 0-3 for a part the reference does not use, 1-4 for a
    reference count of 1 to 4, and otherwise the counts within 50% of the
    reference count, the lower end rounded up and the upper end rounded
    down.  A part out of range is among the parts looped over, and its
    message is in the list returned exactly when the candidate count is out
    of range.  The loop runs once over each part id that a
    component of either snapshot carries, in ascending order; the counts are
    the numbers of components carrying the part id; and the check returns
    nothing when the loop emits nothing, and otherwise the header line
    followed by the messages of the loop in that order. *)
Theorem count_tolerance_step_spec (task_id : option Z) (std_snapshot gen_snapshot : Snapshot)
  (part : string) :
  count_exempt task_id part = false ->
  let std_counts := _component_part_counts std_snapshot in
  let gen_counts := _component_part_counts gen_snapshot in
  let std_count := count_of std_counts part in
  let gen_count := count_of gen_counts part in
  let range := allowed_range (1, 2) std_count in
  let parts := counted_parts std_counts gen_counts in
  let messages := flat_map (count_tolerance_step task_id std_counts gen_counts) parts in
  let errors := _check_component_count_tolerance std_snapshot gen_snapshot task_id in
  count_tolerance_step task_id std_counts gen_counts part
  = (if within range gen_count then []
     else [count_message part std_count gen_count (fst range) (snd range)])
  /\ range = (if std_count =? 0 then (0, 3)
              else if std_count <=? 4 then (1, 4)
              else ((std_count + 1) / 2, (3 * std_count) / 2))
  /\ (within range gen_count = false -> In part parts)
  /\ (within range gen_count = false
      <-> In (count_message part std_count gen_count (fst range) (snd range)) errors)
  /\ (forall p, In p parts <-> uses_part std_snapshot p \/ uses_part gen_snapshot p)
  /\ Sorted (fun a b => String.leb a b = true) parts
  /\ NoDup parts
  /\ (forall p, count_of std_counts p = part_number std_snapshot p
                /\ count_of gen_counts p = part_number gen_snapshot p)
  /\ errors = match messages with
              | [] => []
              | _ :: _ => "NetworkX component count tolerance check failed." :: messages
              end.
Proof.
  intros Hex. cbv zeta.
  set (std_counts := _component_part_counts std_snapshot).
  set (gen_counts := _component_part_counts gen_snapshot).
  assert (Hstep :
    count_tolerance_step task_id std_counts gen_counts part
    = (if within (allowed_range (1, 2) (count_of std_counts part)) (count_of gen_counts part)
       then []
       else [count_message part (count_of std_counts part) (count_of gen_counts part)
               (fst (allowed_range (1, 2) (count_of std_counts part)))
               (snd (allowed_range (1, 2) (count_of std_counts part)))])).
  { unfold count_exempt in Hex. apply orb_false_iff in Hex. destruct Hex as [H15 H16].
    unfold count_tolerance_step. rewrite H15, H16. unfold allowed_range, within.
    unfold COMPONENT_COUNT_TOLERANCE.
    destruct (count_of std_counts part =? 0) eqn:E0.
    + apply Nat.eqb_eq in E0. rewrite E0, four_or_more. cbn [fst snd].
      now destruct ((0 <=? count_of gen_counts part) && (count_of gen_counts part <=? 3)).
    + destruct (count_of std_counts part <=? 4); cbn [fst snd]; rewrite outside_range.
      * now destruct ((1 <=? count_of gen_counts part) && (count_of gen_counts part <=? 4)).
      * now destruct ((tolerance_min (1, 2) (count_of std_counts part)
                         <=? count_of gen_counts part)
                      && (count_of gen_counts part
                            <=? tolerance_max (1, 2) (count_of std_counts part))). }
  assert (Hpart :
    within (allowed_range (1, 2) (count_of std_counts part)) (count_of gen_counts part) = false ->
    In part (counted_parts std_counts gen_counts)).
  { intros Hout. apply counted_parts_in. unfold allowed_range, within in Hout.
    destruct (count_of std_counts part =? 0) eqn:E0.
    - right. apply count_of_key. cbn [fst snd] in Hout.
      destruct (Nat.leb_spec (count_of gen_counts part) 3); [|lia].
      cbn in Hout. discriminate.
    - left. apply count_of_key. now apply Nat.eqb_neq. }
  split; [exact Hstep|]. split; [|split; [|split; [|split; [|split; [|split; [|split]]]]]].
  - unfold allowed_range.
    destruct (count_of std_counts part =? 0); [reflexivity|].
    destruct (count_of std_counts part <=? 4); [reflexivity|].
    destruct (half_bounds (count_of std_counts part)) as [-> ->]. reflexivity.
  - exact Hpart.
  - split.
    + intros Hout. apply (count_tolerance_reported _ _ _ part); [now apply Hpart|].
      fold std_counts gen_counts. rewrite Hstep, Hout. now left.
    + intros Hin. apply count_tolerance_origin in Hin. fold std_counts gen_counts in Hin.
      destruct Hin as [Hh|(p & _ & Hp)].
      * unfold count_message in Hh. cbn [append] in Hh. discriminate Hh.
      * destruct (count_tolerance_step_message _ _ _ _ _ Hp) as (a & b & c & d & Hm).
        apply count_message_part in Hm. subst p. rewrite Hstep in Hp.
        destruct (within _ _); [destruct Hp | reflexivity].
  - intros p. rewrite counted_parts_in. unfold std_counts, gen_counts.
    now rewrite !part_counts_keys.
  - apply sorted_Sorted.
  - apply counted_parts_nodup.
  - intros p. split; apply part_counts_number.
  - unfold _check_component_count_tolerance. fold std_counts gen_counts.
    now destruct (flat_map _ _).
Qed.

(** C8, witness: a reference with nothing, a candidate with four parts. *)
Lemma count_tolerance_step_spec_witness :
  count_tolerance_step None (_component_part_counts Samples.empty_snapshot)
    (_component_part_counts Samples.four_extra_snapshot) "TVS"
  = [count_message "TVS" 0 4 0 3].
Proof.
  exact (proj1 (count_tolerance_step_spec None Samples.empty_snapshot
                  Samples.four_extra_snapshot "TVS" eq_refl)).
Defined.

(** C8, counterexample to the claim as stated: the reference count 0 is
    "at most 4", so the claim allows 1 to 4 candidates, yet four candidates
    of a part the reference does not use are reported, with the range 0-3. *)
Lemma count_tolerance_reference_zero :
  _check_component_count_tolerance Samples.empty_snapshot Samples.four_extra_snapshot None
  = ["NetworkX component count tolerance check failed.";
     "Component count out of tolerance: TVS std=0 gen=4 (allowed 0-3)"]
  /\ count_exempt None "TVS" = false
  /\ count_of (_component_part_counts Samples.empty_snapshot) "TVS" = 0
  /\ count_of (_component_part_counts Samples.four_extra_snapshot) "TVS" = 4
  /\ claimed_range 0 = (1, 4)
  /\ within (claimed_range 0) 4 = true.
Proof. repeat split; vm_compute; reflexivity. Qed.
